(* ===== verification/_CoqProject ===== *)
-Q . S2P
Prelude.v
Kernel.v
Queue.v
Sched.v
Sync.v
Process.v
KernelProps.v
CString.v
SdBlock.v
Sd.v
Bitmap.v
FsData.v
FsOps.v
FsCalls.v
Wp.v
FsLemmas.v
FsState.v
FsInode.v
FsDir.v
FsPath.v
FsCreate.v
FsTouch.v
FsMount.v
FsFile.v
FsProps.v
FsTheorems.v
Mm.v
MmProps.v
Printk.v
Screen.v
Syscall.v
Mailbox.v
Mac.v
MacProps.v
Scanf.v
Shell.v
Image.v
Dump.v
Packet.v
PacketProps.v
Start.v
Suspend.v
Exclusion.v
Stock.v
