(* ===== verification/Prelude.v ===== *)
(** UCAS-OS: a verification library for the teaching kernel under src/.

    * The program

    The kernel (src/src) is a 32-bit MIPS program.  Its parts:

    - processes: a table of [pcb_t], intrusive queues, a priority scheduler with
      sleeping tasks, spawn / exit / wait / kill (kernel/sched), and the locks,
      conditions, semaphores and barriers built on the queues (kernel/locking);
    - a file system with inodes, directories, bit maps and indirect blocks on an
      SD card (kernel/fs/fs.c), above the card driver of libepmon;
    - virtual memory: page frames, one page table, the TLB handler
      (kernel/mm/memory.c);
    - formatted output and a text screen (libs/printk.c, drivers/screen.c);
    - the network driver (drivers/mac.c), keyboard input (libs/scanf.c), and
      mailboxes, which are a library of user tasks (libs/mailbox.c);
    - the table of system calls and its stubs (kernel/syscall/syscall.c), and the
      shell, the first user task (test/test_shell.c);
    - a string and a bit map library (libs/string.c, libs/bitmap.c);
    - the start of the kernel, which puts these together (init/main.c).

    Two programs run on the host: the builder of the card image
    (tools/createimage.c) and a program that sends packets to the board and
    echoes its packets (other/net-software, in two versions).

    System calls of user tasks and the timer interrupt enter these parts; the
    screen cursor is saved and restored by the scheduler, the file system reads
    and writes through the card driver, everything prints through [printk].

    * How the code is modelled

    Definitions keep the names of the C functions and structures.  An integer is
    a [Z], reduced to its width where it can leave it ([u8], [u16], [u32],
    [i32] below).  A C function is a function in the state and error monad [M]
    below, or returns an [outcome]: a NULL dereference, an access outside an
    array, a missing return value and a loop that does not end are the faults of
    type [fault].  Loops whose bound is not a number have fuel; each file says
    why its fuel is enough, and the theorems prove that the code returns, so
    that [Diverges] is an answer only where it is proved to be the behaviour.

    * The files

    - Prelude.v: integers, the monad and its notations, field update, loops,
      byte buffers, framing ([keeps]), generic lemmas.  Wp.v: total correctness
      ([wp]) and its symbolic execution.
    - Kernel.v (state: [kstate], [pcb_t]), Queue.v (kernel/sched/queue.c),
      Sched.v (scheduler, sleeping, blocking), Sync.v (kernel/locking),
      Process.v (spawn, exit, wait, kill, [init_pcb], the step relation of the
      kernel: [call] has the calls of processes and synchronisation, their
      initialisations included, and [allowed] says what they ask of their
      arguments), KernelProps.v (theorems).
    - CString.v (libs/string.c), Bitmap.v (libs/bitmap.c), SdBlock.v
      (Write_Single_Block of libepmon on the port of the card, the class [SdPort];
      the card behind it is the class [SdCard]), Sd.v (the card driver, which
      writes with Write_Single_Block; the rest of the monitor ROM is the class
      [Rom], what the file system needs the class [BlockDevice]).
    - FsData.v (layout and state of fs.c), FsOps.v (helpers), FsCalls.v (system
      calls); FsLemmas.v, FsState.v, FsInode.v, FsDir.v, FsPath.v, FsCreate.v,
      FsTouch.v, FsMount.v, FsFile.v: their behaviour, operation by operation;
      FsProps.v: the abstract view [vfs]; FsTheorems.v: theorems.
    - Mm.v (memory.c and the MIPS TLB; the address space in EntryHi stays what
      the last creation of a task or the last mapping made it, and the class
      [Lookup] leaves open which of several matching entries answers), MmProps.v
      (invariant and theorems).
    - Printk.v (printk.c; the serial port is the class [Pmon]), Screen.v
      (screen.c; the terminal is the class [Vt100], the console that a writer
      has in mind is [console]).
    - Syscall.v (the numbers and stubs of the system calls, the table that
      init/main.c fills, [system_call_helper]); Mailbox.v (mailbox.c: the steps
      of a function with the calls at which another task may run).
    - Mac.v (mac.c on the class [Bus] of loads and stores; the device is the
      class [Gmac]; rings and sending), MacProps.v (waiting for packets and the
      whole clock interrupt); Scanf.v (scanf.c; the port is the class [Uart]);
      Shell.v (test_shell.c; the kernel as it sees it is the class [System]).
    - Image.v (tools/createimage.c: files with a position, the headers of ELF
      files, the image that the boot loader reads).
    - Dump.v (print.c of the packet programs), Packet.v (pktRxTx.c; the adapter
      and the clock are the class [Pcap]), PacketProps.v.
    - Start.v ([_start] on the state of all components, [machine]; the exception
      table and its dispatch).
    - Suspend.v (which calls change where a task goes on), Exclusion.v (runs of
      the kernel as lists of transitions) and Stock.v (the
      producer and consumers of test/test_project3/test_condition.c: programs
      that are interrupted between any two instructions, on the kernel).

    * What the theorems show

    - Processes: in every reachable state the linked queues are lists without
      common tasks and agree with the statuses of the tasks
      ([reachable_invariant]); calls and ticks return whenever a task is ready
      ([calls_return], [tick_returns]); the scheduler picks by the stated rule
      ([scheduler_correct]); between two tasks that get a mutex it was given
      up ([mutex_exclusion]), and every operation of locks, semaphores, barriers, conditions, sleep, spawn, exit, wait, kill and ps does what it is
      meant to, with its limits.
    - Strings, numbers and the card: copies, comparisons and tokens, numbers
      that are printed and read back, blocks that are written and read back.
    - File system: formatting and mounting, creating files and directories as
      refinements of the abstract view, duplicate names, look-up, writing and
      reading a file back, the inode on disk, free-slot search, paths.
    - Memory: [init_memory] followed by accesses and creations of tasks, where
      no two tasks use the same pair of pages, maps different pages to different
      frames outside the page table, each in the address space of its task
      ([memory_isolation]); an access to a page that has no frame, by a task whose
      pair is not in the TLB under another task or address space, ends with the
      page mapped ([access_correct]); what happens otherwise is
      [stale_address_space].
    - Output: [printk] prints the text of its format and never leaves its
      buffers ([printk_correct]); writing refines a console and the terminal
      shows it ([do_write_correct], [printf_correct]).
    - System calls: the table has 64 words and [init_syscall] also fills the 17
      words behind it; as long as these keep what it wrote, every stub reaches its
      handler with its arguments ([syscall_dispatch_correct]), and a call returns behind its instruction
      ([sys_getpid_correct]).
    - Mailboxes: opening and closing is a directory of names
      ([mbox_open_correct]); a mailbox is a stack that keeps messages of up to
      32 bytes byte for byte, makes tasks wait when it is full or empty and wakes
      them again ([mailbox_stack]).
    - Network: the descriptors form a ring ([recv_ring_correct]); sending ends
      and sends every packet however slow the device is ([net_send_correct]); who
      waits and who is woken ([net_wait_correct]); the clock interrupt counts,
      looks at the ring and schedules ([clock_interrupt_correct]).
    - Keyboard: a line is read, and a number behind 0x is understood
      ([scanf_line_correct]).
    - Shell: a typed line makes the system calls and prints what each of the 27
      commands stands for, and other lines do nothing ([shell_command_correct]).
    - Image: the card image holds the boot block, the number of sectors and the
      memory of the kernel ([image_correct]).
    - Packet programs: the checksum is the one of RFC 1071 ([csum_correct]);
      the commands up to quit send the frames that they stand for, with valid
      headers but for the TCP checksum of the first ([packet_session_correct]); the
      receiver sends back what it gets, with the addresses exchanged
      ([receive_packet_correct]); without quit the commands do not end
      ([end_of_input_goes_on]); a dump of a payload can be read back
      ([print_payload_roundtrip]).
    - Card port: the bytes of a block reach the card in order and the function
      returns what the card answers ([write_single_block_correct]); on a card that
      follows its protocol the sector then holds them, and what [sdwrite] writes
      [sdread] reads back ([sd_roundtrip]).
    - User tasks: on the kernel, and beside other tasks that do not touch their
      mutex, the producer and the consumers exclude each other and lose no update
      until the producer exits
      ([stock_correct]); its exit breaks this ([producer_exit_breaks_exclusion]).
    - Start: [_start] ends in the shell with every component in the state that
      its theorems start from ([start_correct]).
    - Defects of the code that the model shows are theorems too: see
      [idle_loop_diverges], [kill_leaves_semaphore_waiter],
      [exit_releases_foreign_lock], [double_indirect_out_of_bounds],
      [mapped_page_stays_invalid], [evicted_page_is_shared],
      [stale_address_space],
      [table_overflow], [net_fast_recv_overruns], [scanf_limits].

    * Bounds and fuel

    Queue walks have the fuel [walk_fuel], more than there are tasks; a scan of a
    string has one round more than its region has bytes; a number has at most 32
    digits; a loop that waits for a device ([poll_loop], [drain], [s_reset],
    [busy_loop], [wait_loop]) has
    the fuel of its caller, and the theorems give a bound that is enough; the
    clock of [page_alloc] has two turns and a step, the search for a free block or
    inode the size of its bit map.

    * Not modelled

    The boot loader and the exception entry (assembly: they save registers and
    call the modelled code), the functions of mac.c that print registers, the
    reception of a packet by the network card (the theorems hold while none
    arrives), the branches of the packet programs for Windows, their [usage] and
    [sig_handler] and the functions that the older version has in common with the
    newer one, the report that createimage prints, the other test programs, and the
    system calls of fs.c whose bodies are empty. *)

From stdpp Require Export base functions gmap list numbers strings.
#[global] Open Scope Z_scope.

(** ** Machine integers

    The kernel is a 32-bit MIPS program.  An integer of the code is a [Z];
    every operation that can leave the range of its C type is followed by one
    of these reductions. *)

Definition u8 (z : Z) : Z := z mod 2 ^ 8.
Definition u16 (z : Z) : Z := z mod 2 ^ 16.
Definition u32 (z : Z) : Z := z mod 2 ^ 32.
Definition i32 (z : Z) : Z := (z + 2 ^ 31) mod 2 ^ 32 - 2 ^ 31.

(** Memory that was never written reads as zero (this takes the place of
    stdpp's default value for [Z]). *)
#[export] Instance Z_zero_inhabited : Inhabited Z | 0 := populate 0.

(** ** Outcomes

    C code either returns or runs into one of these faults.  [Diverges] is the
    answer of a loop that did not finish within its fuel. *)

Inductive fault :=
| NullDeref       (* a NULL pointer is dereferenced *)
| OutOfBounds     (* an array is accessed outside its declared size *)
| NoReturnValue   (* the caller uses the value of a call that returned none *)
| Diverges.       (* a loop is still running after its fuel *)

Inductive outcome (A : Type) :=
| Ok (a : A)
| Fault (f : fault).
Arguments Ok {A} a.
Arguments Fault {A} f.

#[export] Instance fault_eq_dec : EqDecision fault.
Proof. solve_decision. Defined.
#[export] Instance outcome_eq_dec `{EqDecision A} : EqDecision (outcome A).
Proof. solve_decision. Defined.

(** A computation on the state [S] that returns an [A]. *)
Definition M (S A : Type) : Type := S -> outcome (A * S).

Definition ret {S A} (a : A) : M S A := fun s => Ok (a, s).
Definition throw {S A} (f : fault) : M S A := fun _ => Fault f.
Definition bind {S A B} (m : M S A) (k : A -> M S B) : M S B :=
  fun s => match m s with Ok (a, s') => k a s' | Fault f => Fault f end.
Definition gets {S A} (f : S -> A) : M S A := fun s => Ok (f s, s).
Definition modify {S} (f : S -> S) : M S unit := fun s => Ok (tt, f s).
(** A pure outcome used inside a computation. *)
Definition lift {S A} (o : outcome A) : M S A :=
  fun s => match o with Ok a => Ok (a, s) | Fault f => Fault f end.
Definition obind {A B} (o : outcome A) (k : A -> outcome B) : outcome B :=
  match o with Ok a => k a | Fault f => Fault f end.

Declare Scope kernel_scope.
Delimit Scope kernel_scope with kernel.
Notation "'let!' x ':=' m 'in' k" := (bind m (fun x => k))
  (at level 10, x binder, m at level 100, k at level 200) : kernel_scope.
Notation "'do!' m ; k" := (bind m (fun _ => k))
  (at level 10, m at level 100, k at level 200) : kernel_scope.
Notation "'try!' x ':=' m 'in' k" := (obind m (fun x => k))
  (at level 10, x binder, m at level 100, k at level 200) : kernel_scope.
#[global] Open Scope kernel_scope.

(** ** Field update: [r <| f := v |>]

    A structure registers the function that rebuilds it field by field; the
    setter of a field is that function with one projection abstracted. *)

Class Struct (R : Type) := rebuild : R -> R.
Class Field {R T : Type} (proj : R -> T) := put : (T -> T) -> R -> R.

Ltac derive_put proj :=
  match type of proj with
  | ?R -> _ =>
    let e := eval unfold rebuild in (@rebuild R _) in
    let e := eval cbv beta in ltac:(match e with ?i => let i' := eval red in i in exact i' end) in
    let g := eval pattern proj in e in
    match g with
    | ?h _ =>
      let body := eval cbv beta in (fun f => h (fun r => f (proj r))) in
      exact body
    end
  end.
#[export] Hint Extern 1 (Field ?proj) => derive_put proj : typeclass_instances.

Notation "r <| f := v |>" := (put (proj := f) (fun _ => v) r)
  (at level 1, left associativity, f at level 11, v at level 99) : kernel_scope.

(** ** Loops *)

(** [for(i = lo; n iterations; i++) body]. *)
Fixpoint for_range {S} (n : nat) (i : Z) (body : Z -> M S unit) : M S unit :=
  match n with
  | O => ret tt
  | Datatypes.S n' => do! body i; for_range n' (i + 1) body
  end.

(** The same loop with a body that can leave it by a [return]. *)
Fixpoint for_until {S R} (n : nat) (i : Z) (body : Z -> M S (option R)) : M S (option R) :=
  match n with
  | O => ret None
  | Datatypes.S n' =>
      let! r := body i in
      match r with Some _ => ret r | None => for_until n' (i + 1) body end
  end.

(** [for_until] with a binary iteration count, for bounds such as 2^30. *)
Fixpoint for_until_pos {S R} (p : positive) (i : Z) (body : Z -> M S (option R)) : M S (option R) :=
  match p with
  | xH => body i
  | xO q =>
      let! r := for_until_pos q i body in
      match r with Some _ => ret r | None => for_until_pos q (i + Zpos q) body end
  | xI q =>
      let! r := body i in
      match r with
      | Some _ => ret r
      | None =>
          let! r := for_until_pos q (i + 1) body in
          match r with Some _ => ret r | None => for_until_pos q (i + 1 + Zpos q) body end
      end
  end.

(** [while(cond) body], with fuel: [Diverges] when it is used up. *)
Fixpoint while {S} (fuel : nat) (cond : M S bool) (body : M S unit) : M S unit :=
  match fuel with
  | O => throw Diverges
  | Datatypes.S fuel' =>
      let! c := cond in
      if c then do! body; while fuel' cond body else ret tt
  end.

(** ** Byte buffers *)

(** [l[i]] and [l[i] = v] on an array of declared size [length l]. *)
Definition rd {A} (l : list A) (i : Z) : outcome A :=
  if (0 <=? i) then
    match l !! Z.to_nat i with Some b => Ok b | None => Fault OutOfBounds end
  else Fault OutOfBounds.
Definition wr {A} (l : list A) (i : Z) (v : A) : outcome (list A) :=
  if (0 <=? i) && (i <? Z.of_nat (length l)) then Ok (<[Z.to_nat i := v]> l)
  else Fault OutOfBounds.

(** Copy [n] elements out of [l] at [i]; overwrite [l] at [i] with [l']. *)
Definition slice {A} (l : list A) (i n : Z) : outcome (list A) :=
  if (0 <=? i) && (0 <=? n) && (i + n <=? Z.of_nat (length l))
  then Ok (take (Z.to_nat n) (drop (Z.to_nat i) l)) else Fault OutOfBounds.
Definition splice {A} (l : list A) (i : Z) (l' : list A) : outcome (list A) :=
  if (0 <=? i) && (i + Z.of_nat (length l') <=? Z.of_nat (length l))
  then Ok (take (Z.to_nat i) l ++ l' ++ drop (Z.to_nat i + length l') l)
  else Fault OutOfBounds.

(** Little-endian words in memory. *)
Fixpoint le_bytes (n : nat) (z : Z) : list Z :=
  match n with
  | O => []
  | Datatypes.S n' => z mod 256 :: le_bytes n' (z / 256)
  end.
Fixpoint le_val (l : list Z) : Z :=
  match l with [] => 0 | b :: r => b + 256 * le_val r end.

(** The length of a list as an integer. *)
Abbreviation len l := (Z.of_nat (length l)).

(** A byte of the memory. *)
Definition is_byte (b : Z) : Prop := 0 <= b < 256.

(** ** Tactics and hints *)

(** Execute the monadic plumbing of a goal. *)
Ltac mstep := unfold bind, ret, gets, modify, lift, obind, throw; cbn.
Tactic Notation "mstep" "in" hyp(H) :=
  unfold bind, ret, gets, modify, lift, obind, throw in H; cbn in H.

(** Case analysis on the outcome that drives a hypothesis about a bind. *)
Ltac bind_ok H x s' E :=
  unfold bind in H at 1;
  match type of H with
  | match ?m with Ok _ => _ | Fault _ => _ end = Ok _ =>
      destruct m as [[x s']|] eqn:E; [|discriminate H]
  end.

Create HintDb kernel.
Create Rewrite HintDb kernel.

(** ** Generic lemmas *)

Lemma bind_Ok {S A B} (m : M S A) (k : A -> M S B) s a s' :
  m s = Ok (a, s') -> bind m k s = k a s'.
Proof. intros H. unfold bind. by rewrite H. Qed.

Lemma bind_Ok_inv {S A B} (m : M S A) (k : A -> M S B) s b s'' :
  bind m k s = Ok (b, s'') -> exists a s', m s = Ok (a, s') /\ k a s' = Ok (b, s'').
Proof. unfold bind. destruct (m s) as [[a s']|]; [|done]. eauto. Qed.

(** A loop whose body always returns and keeps [P] returns and keeps [P]. *)
Lemma for_range_total {S} (P : Z -> S -> Prop) (body : Z -> M S unit) n i s :
  P i s ->
  (forall j t, i <= j < i + Z.of_nat n -> P j t ->
     exists t', body j t = Ok (tt, t') /\ P (j + 1) t') ->
  exists s', for_range n i body s = Ok (tt, s') /\ P (i + Z.of_nat n) s'.
Proof.
  revert i s. induction n as [|n IH]; intros i s HP Hb; cbn [for_range].
  - exists s. split; [done|]. by rewrite Z.add_0_r.
  - destruct (Hb i s) as (t & Ht & HPt); [lia|done|].
    destruct (IH (i + 1) t HPt) as (s' & Hs' & HP').
    { intros j u Hj. apply Hb. lia. }
    exists s'. split; [by rewrite (bind_Ok _ _ _ _ _ Ht)|].
    by replace (i + Z.of_nat (Datatypes.S n)) with (i + 1 + Z.of_nat n) by lia.
Qed.

(** A while loop whose body decreases a measure returns within that much fuel. *)
Lemma while_total {S} (P : S -> Prop) (m : S -> nat) (c : S -> bool) cond body fuel s :
  P s -> (m s < fuel)%nat ->
  (forall t, P t -> cond t = Ok (c t, t)) ->
  (forall t, P t -> c t = true ->
     exists t', body t = Ok (tt, t') /\ P t' /\ (m t' < m t)%nat) ->
  exists s', while fuel cond body s = Ok (tt, s') /\ P s' /\ c s' = false.
Proof.
  intros HP Hm Hc Hb. revert s HP Hm. induction fuel as [|fuel IH]; intros s HP Hm; [lia|].
  simpl. rewrite (bind_Ok _ _ _ _ _ (Hc s HP)). destruct (c s) eqn:E.
  - destruct (Hb s HP E) as (t & Ht & HPt & Hmt).
    rewrite (bind_Ok _ _ _ _ _ Ht). apply IH; [done|lia].
  - exists s. auto.
Qed.

(** The binary loop runs the body exactly as the unary one does. *)
Lemma for_until_add {S R} n k i (body : Z -> M S (option R)) s :
  for_until (n + k) i body s =
  bind (for_until n i body) (fun r => match r with
    | Some _ => ret r | None => for_until k (i + Z.of_nat n) body end) s.
Proof.
  revert i s. induction n as [|n IH]; intros i s; cbn [for_until Nat.add].
  - unfold bind, ret. by rewrite Z.add_0_r.
  - unfold bind in *. destruct (body i s) as [[[r|] s']|]; [done| |done].
    rewrite IH. by replace (i + 1 + Z.of_nat n) with (i + Z.of_nat (Datatypes.S n)) by lia.
Qed.

Lemma for_until_pos_nat {S R} p i (body : Z -> M S (option R)) s :
  for_until_pos p i body s = for_until (Pos.to_nat p) i body s.
Proof.
  revert i s. induction p as [p IH|p IH|]; intros i s; cbn [for_until_pos].
  - replace (Pos.to_nat p~1) with (Datatypes.S (Pos.to_nat p + Pos.to_nat p)) by lia.
    cbn [for_until]. unfold bind. destruct (body i s) as [[[r|] s']|]; [done| |done].
    rewrite for_until_add, IH. unfold bind.
    destruct (for_until _ _ _ s') as [[[r|] t]|]; [done| |done].
    by rewrite IH, positive_nat_Z.
  - replace (Pos.to_nat p~0) with (Pos.to_nat p + Pos.to_nat p)%nat by lia.
    rewrite for_until_add. unfold bind. rewrite IH.
    destruct (for_until _ _ _ s) as [[[r|] t]|]; [done| |done].
    by rewrite IH, positive_nat_Z.
  - change (Pos.to_nat 1) with 1%nat. cbn. unfold bind.
    by destruct (body i s) as [[[r|] s']|].
Qed.

(** ** Framing: [keeps R m] says that [m] relates its start and end by [R] *)

Definition keeps {S A} (R : S -> S -> Prop) (m : M S A) : Prop :=
  forall s a s', m s = Ok (a, s') -> R s s'.

Section keeps.
Context {S : Type} (R : S -> S -> Prop) {HR : PreOrder R}.

Lemma keeps_ret {A} (a : A) : keeps R (ret a).
Proof using HR. intros s a' s' [= <- <-]. reflexivity. Qed.
Lemma keeps_throw {A} f : keeps R (@throw S A f).
Proof using. done. Qed.
Lemma keeps_gets {A} (f : S -> A) : keeps R (gets f).
Proof using HR. intros s a' s' [= <- <-]. reflexivity. Qed.
Lemma keeps_lift {A} (o : outcome A) : keeps R (lift o).
Proof using HR. intros s a' s'. unfold lift. destruct o; [|done]. intros [= <- <-]. reflexivity. Qed.
Lemma keeps_modify (f : S -> S) : (forall s, R s (f s)) -> keeps R (modify f).
Proof using. intros Hf s [] s' [= <-]. apply Hf. Qed.
Lemma keeps_bind {A B} (m : M S A) (k : A -> M S B) :
  keeps R m -> (forall a, keeps R (k a)) -> keeps R (bind m k).
Proof using HR.
  intros Hm Hk s b s'' (a & s' & E1 & E2)%bind_Ok_inv. etrans; [by eapply Hm|by eapply Hk].
Qed.
Lemma keeps_while fuel cond body : keeps R cond -> keeps R body -> keeps R (while fuel cond body).
Proof using HR.
  intros Hc Hb. induction fuel; cbn [while]; [apply keeps_throw|].
  apply keeps_bind; [done|]. intros [|]; [by apply keeps_bind|apply keeps_ret].
Qed.
Lemma keeps_for_range n i body : (forall j, keeps R (body j)) -> keeps R (for_range n i body).
Proof using HR.
  intros Hb. revert i. induction n; intros i; cbn [for_range]; [apply keeps_ret|].
  by apply keeps_bind.
Qed.
Lemma keeps_for_until {A} n i (body : Z -> M S (option A)) :
  (forall j, keeps R (body j)) -> keeps R (for_until n i body).
Proof using HR.
  intros Hb. revert i. induction n; intros i; cbn [for_until]; [apply keeps_ret|].
  apply keeps_bind; [done|]. intros [|]; [apply keeps_ret|done].
Qed.
End keeps.

Create HintDb keeps discriminated.
#[export] Hint Constants Opaque : keeps.
#[export] Hint Resolve keeps_ret keeps_throw keeps_gets keeps_lift keeps_modify : keeps.
#[export] Hint Extern 0 (PreOrder _) => exact _ : keeps.

(** Decompose a computation and solve its primitive steps with the [keeps]
    database. *)
Ltac keeps_step :=
  match goal with
  | |- forall _, _ => intros
  | |- keeps _ (bind _ _) => apply keeps_bind
  | |- keeps _ (while _ _ _) => apply keeps_while
  | |- keeps _ (for_range _ _ _) => apply keeps_for_range
  | |- keeps _ (for_until _ _ _) => apply keeps_for_until
  | |- keeps _ (match ?x with _ => _ end) => destruct x
  | |- keeps _ (if ?x then _ else _) => destruct x
  | |- keeps _ _ => solve [auto with keeps]
  | |- PreOrder _ => exact _
  end.
Ltac keeps_auto := repeat (keeps_step || (cbv zeta)).

Lemma i32_small z : - 2 ^ 31 <= z < 2 ^ 31 -> i32 z = z.
Proof. intros H. unfold i32. rewrite Z.mod_small; lia. Qed.

Lemma rd_lookup {A} (l : list A) i b :
  0 <= i -> l !! Z.to_nat i = Some b -> rd l i = Ok b.
Proof. intros Hi Hl. unfold rd. rewrite Hl. by destruct (Z.leb_spec 0 i); [|lia]. Qed.

Lemma rd_in_range {A} (l : list A) i :
  0 <= i < Z.of_nat (length l) -> exists b, rd l i = Ok b /\ l !! Z.to_nat i = Some b.
Proof.
  intros Hi. destruct (lookup_lt_is_Some_2 l (Z.to_nat i)) as [b Hb]; [lia|].
  exists b. split; [apply rd_lookup; [lia|done]|done].
Qed.

Lemma wr_in_range {A} (l : list A) i v :
  0 <= i < Z.of_nat (length l) -> wr l i v = Ok (<[Z.to_nat i := v]> l).
Proof.
  intros Hi. unfold wr.
  by destruct (Z.leb_spec 0 i), (Z.ltb_spec i (Z.of_nat (length l))); try lia.
Qed.

Lemma rd_wr_eq {A} (l l' : list A) i v : wr l i v = Ok l' -> rd l' i = Ok v.
Proof.
  unfold wr. destruct (Z.leb_spec 0 i), (Z.ltb_spec i (Z.of_nat (length l))); try done.
  intros [= <-]. apply rd_lookup; [done|]. apply list_lookup_insert_eq. lia.
Qed.

Lemma rd_wr_ne {A} (l l' : list A) i j v : wr l i v = Ok l' -> i <> j -> rd l' j = rd l j.
Proof.
  unfold wr. destruct (Z.leb_spec 0 i), (Z.ltb_spec i (Z.of_nat (length l))); try done.
  intros [= <-] Hij. unfold rd. destruct (Z.leb_spec 0 j); [|done].
  rewrite list_lookup_insert_ne; [done|lia].
Qed.

Lemma splice_ok {A} (l l' : list A) i :
  0 <= i -> i + Z.of_nat (length l') <= Z.of_nat (length l) ->
  splice l i l' = Ok (take (Z.to_nat i) l ++ l' ++ drop (Z.to_nat i + length l') l).
Proof.
  intros H1 H2. unfold splice.
  by rewrite (proj2 (Z.leb_le _ _) H1), (proj2 (Z.leb_le _ _) H2).
Qed.

Lemma slice_ok {A} (l : list A) i n :
  0 <= i -> 0 <= n -> i + n <= Z.of_nat (length l) ->
  slice l i n = Ok (take (Z.to_nat n) (drop (Z.to_nat i) l)).
Proof.
  intros H1 H2 H3. unfold slice.
  by rewrite (proj2 (Z.leb_le _ _) H1), (proj2 (Z.leb_le _ _) H2), (proj2 (Z.leb_le _ _) H3).
Qed.

Lemma splice_length {A} (l l' r : list A) i : splice l i l' = Ok r -> length r = length l.
Proof.
  unfold splice. destruct (_ && _) eqn:E; [|done]. intros [= <-].
  rewrite !length_app, length_take, length_drop. lia.
Qed.

Lemma slice_length {A} (l r : list A) i n : slice l i n = Ok r -> length r = Z.to_nat n.
Proof.
  unfold slice. destruct (_ && _) eqn:E; [|done]. intros [= <-].
  rewrite length_take, length_drop. lia.
Qed.

(** What was copied into a buffer is read back; the rest is untouched. *)
Lemma slice_splice {A} (l l' r : list A) i :
  splice l i l' = Ok r -> slice r i (Z.of_nat (length l')) = Ok l'.
Proof.
  intros H. pose proof (splice_length _ _ _ _ H) as Hl. unfold splice in H.
  destruct (_ && _) eqn:E; [|done]. injection H as <-.
  unfold slice. rewrite Hl.
  destruct (Z.leb_spec 0 i), (Z.leb_spec 0 (Z.of_nat (length l'))),
    (Z.leb_spec (i + Z.of_nat (length l')) (Z.of_nat (length l))); try lia; simpl.
  f_equal. rewrite Nat2Z.id.
  rewrite drop_app_length'; [|rewrite length_take; lia].
  by rewrite take_app_length.
Qed.

Lemma slice_splice_disj {A} (l l' r : list A) i j n :
  splice l i l' = Ok r -> 0 <= n ->
  (j + n <= i \/ i + Z.of_nat (length l') <= j) -> slice r j n = slice l j n.
Proof.
  intros H Hn Hd. pose proof (splice_length _ _ _ _ H) as Hl. unfold splice in H.
  destruct (_ && _) eqn:E; [|done]. apply andb_true_iff in E as [E1 E2]. injection H as <-.
  unfold slice. rewrite Hl. destruct (_ && _) eqn:E; [|done]. f_equal.
  apply list_eq. intros k. destruct (decide (k < Z.to_nat n)%nat) as [Hk|Hk].
  - rewrite !lookup_take_lt, !lookup_drop by done.
    destruct Hd as [Hd|Hd].
    + rewrite lookup_app_l by (rewrite length_take; lia). by rewrite lookup_take_lt by lia.
    + rewrite lookup_app_r by (rewrite length_take; lia).
      rewrite length_take, lookup_app_r by lia.
      rewrite lookup_drop. f_equal. lia.
  - by rewrite !lookup_take_ge by lia.
Qed.

Lemma splice_Forall {A} (P : A -> Prop) l l' r i :
  splice l i l' = Ok r -> Forall P l -> Forall P l' -> Forall P r.
Proof.
  unfold splice. destruct (_ && _); [|done]. intros [= <-] Hl Hl'.
  rewrite !Forall_app. split_and!; [by apply Forall_take|done|by apply Forall_drop].
Qed.
Lemma slice_Forall {A} (P : A -> Prop) l r i n : slice l i n = Ok r -> Forall P l -> Forall P r.
Proof. unfold slice. destruct (_ && _); [|done]. intros [= <-] Hl. by apply Forall_take, Forall_drop. Qed.

Lemma le_bytes_length n z : length (le_bytes n z) = n.
Proof. revert z. induction n; intros; simpl; auto. Qed.

Lemma le_bytes_is_byte n z : Forall is_byte (le_bytes n z).
Proof.
  revert z. induction n; intros z; simpl; constructor; [|done].
  unfold is_byte. pose proof (Z.mod_pos_bound z 256). lia.
Qed.

Lemma le_val_bytes n z : 0 <= z < 256 ^ Z.of_nat n -> le_val (le_bytes n z) = z.
Proof.
  revert z. induction n as [|n IH]; intros z Hz; cbn [le_bytes le_val].
  - cbn in Hz. lia.
  - rewrite Nat2Z.inj_succ, Z.pow_succ_r in Hz by lia. rewrite IH.
    + pose proof (Z.div_mod z 256). lia.
    + split; [apply Z.div_pos; lia|]. apply Z.div_lt_upper_bound; lia.
Qed.

Lemma le_bytes_mod n z : le_bytes n (z mod 256 ^ Z.of_nat n) = le_bytes n z.
Proof.
  revert z. induction n as [|n IH]; intros z; [done|]. cbn [le_bytes].
  rewrite Nat2Z.inj_succ, Z.pow_succ_r, Z.rem_mul_r by lia. rewrite (Z.mul_comm 256). f_equal.
  - rewrite Z.mod_add, Zmod_mod by lia. done.
  - rewrite Z.div_add, (Z.div_small (z mod 256)) by (try apply Z.mod_pos_bound; lia). apply IH.
Qed.

Lemma le_bytes_val l : Forall is_byte l -> le_bytes (length l) (le_val l) = l.
Proof.
  induction 1 as [|b l Hb _ IH]; [done|]. cbn [length le_bytes le_val]. unfold is_byte in Hb.
  f_equal.
  - rewrite Z.mul_comm, Z.mod_add, Z.mod_small; lia.
  - by rewrite Z.mul_comm, Z.div_add, Z.div_small, Z.add_0_l by lia.
Qed.

Lemma le_val_bound l : Forall is_byte l -> 0 <= le_val l < 256 ^ Z.of_nat (length l).
Proof.
  induction 1 as [|b l Hb _ IH]; [done|]. cbn [length le_val].
  rewrite Nat2Z.inj_succ, Z.pow_succ_r by lia. unfold is_byte in Hb. lia.
Qed.

#[export] Hint Resolve le_bytes_length le_bytes_is_byte : kernel.

(** ** Searching a list after an update *)

Lemma list_find_insert_new {A} (P : A -> Prop) `{forall x, Decision (P x)} l i x :
  (i < length l)%nat -> list_find P l = None -> P x -> list_find P (<[i := x]> l) = Some (i, x).
Proof.
  intros Hi Hn HP. apply list_find_Some. split_and!; [by apply list_lookup_insert_eq|done|].
  intros j y Hy Hj. rewrite list_lookup_insert_ne in Hy by lia.
  apply list_find_None in Hn. by eapply Forall_lookup_1 in Hn.
Qed.
Lemma list_find_insert_other {A} (P : A -> Prop) `{forall x, Decision (P x)} l i x y :
  l !! i = Some y -> ~ P y -> ~ P x -> list_find P (<[i := x]> l) = list_find P l.
Proof.
  revert i. induction l as [|z l IH]; intros [|i] Hl Hy Hx; [done|done|..].
  - injection Hl as ->. cbn. by rewrite !decide_False.
  - change (<[S i := x]> (z :: l)) with (z :: <[i := x]> l). cbn [list_find].
    destruct (decide (P z)); [done|]. by rewrite (IH i).
Qed.
