(* ===== verification/Kernel.v ===== *)
(** The data of the kernel: the process control block and the enumerations of
    include/os/sched.h, the queue header of include/os/queue.h, the lock,
    semaphore and barrier structures of include/os/{lock,sem,barrier}.h, and
    the global variables of init/main.c that process management shares.

    Pointers.  A [pcb_t *] is an [option nat]: [None] is NULL, [Some i] with
    [i < NUM_MAX_TASK] is [&pcb[i]], [Some NUM_MAX_TASK] is [&pcb_init].
    Every [queue_t] lives inside some structure; a [queue_t *] is the
    [queue_id] that names that structure.  Locks, semaphores, conditions and
    barriers are addressed by numbers.  Memory that was never written reads as
    zero (the BSS segment), so every store is a total finite map. *)

From S2P Require Import Prelude.

(** *** Constants of sched.h *)

Definition NUM_MAX_TASK : nat := 40.
Definition INITIAL_PRIORITY : Z := 4.
Definition STACK_MIN : Z := 0xa0f00000.
Definition STACK_SIZE : Z := 0x80000.
Definition STACK_MAX : Z := 0xa2000000.
Definition CP0_STATUS_INIT : Z := 0x10008000.
Definition LOCK_MAX_NUM : nat := 10.
Definition MAX_LOCK_NUM_TOTAL : nat := 34.
Definition VM_STACK_MIN : Z := 0x60000000.
Definition VM_STACK_SIZE : Z := 0x1000.

(** *** Enumerations *)

Inductive task_status_t :=
| TASK_BLOCKED | TASK_RUNNING | TASK_READY | TASK_EXITED | TASK_CREATED | TASK_SLEEPING.
Inductive task_type_t := KERNEL_PROCESS | KERNEL_THREAD | USER_PROCESS | USER_THREAD.
Inductive task_mode_t := KERNEL_MODE | USER_MODE.
Inductive lock_status_t := UNLOCKED | LOCKED.

#[export] Instance task_status_eq_dec : EqDecision task_status_t.
Proof. solve_decision. Defined.
#[export] Instance task_type_eq_dec : EqDecision task_type_t.
Proof. solve_decision. Defined.
#[export] Instance task_mode_eq_dec : EqDecision task_mode_t.
Proof. solve_decision. Defined.
#[export] Instance lock_status_eq_dec : EqDecision lock_status_t.
Proof. solve_decision. Defined.
#[export] Instance lock_status_inhabited : Inhabited lock_status_t := populate UNLOCKED.

(** *** Saved registers *)

Record regs_context_t := mk_regs {
  regs : list Z;
  cp0_status : Z;
  reg_hi : Z;
  reg_lo : Z;
  cp0_badvaddr : Z;
  cp0_cause : Z;
  cp0_epc : Z;
  reg_pc : Z;
}.
#[export] Instance regs_context_struct : Struct regs_context_t := fun r =>
  mk_regs (regs r) (cp0_status r) (reg_hi r) (reg_lo r) (cp0_badvaddr r)
    (cp0_cause r) (cp0_epc r) (reg_pc r).
Definition zero_context : regs_context_t := mk_regs (replicate 32 0) 0 0 0 0 0 0 0.

(** *** Process control block

    The [waiting_queue] field is the queue [waiting_queue t] of the queue
    store below. *)

Record pcb_t := mk_pcb {
  kernel_context : regs_context_t;
  user_context : regs_context_t;
  kernel_stack_top : Z;
  user_stack_top : Z;
  pcb_pid : Z;
  pcb_mode : task_mode_t;
  entry_point : Z;
  pcb_prev : option nat;
  pcb_next : option nat;
  pcb_type : task_type_t;
  pcb_status : task_status_t;
  cursor_x : Z;
  cursor_y : Z;
  wait_time : Z;
  priority : Z;
  pcb_lock : list (option nat);
  lock_num : Z;
  sleeping_deadline : Z;
  page_table_base_addr : Z;
}.
#[export] Instance pcb_struct : Struct pcb_t := fun p =>
  mk_pcb (kernel_context p) (user_context p) (kernel_stack_top p) (user_stack_top p)
    (pcb_pid p) (pcb_mode p) (entry_point p) (pcb_prev p) (pcb_next p) (pcb_type p)
    (pcb_status p) (cursor_x p) (cursor_y p) (wait_time p) (priority p) (pcb_lock p)
    (lock_num p) (sleeping_deadline p) (page_table_base_addr p).

(** A zeroed PCB: the enumerators of value 0 are [TASK_BLOCKED],
    [KERNEL_PROCESS] and [KERNEL_MODE]. *)
Definition zero_pcb : pcb_t :=
  mk_pcb zero_context zero_context 0 0 0 KERNEL_MODE 0 None None KERNEL_PROCESS
    TASK_BLOCKED 0 0 0 0 (replicate LOCK_MAX_NUM None) 0 0 0.
#[export] Instance pcb_inhabited : Inhabited pcb_t := populate zero_pcb.

(** *** Queues *)

Inductive queue_id :=
| ready_queue
| block_queue
| sleeping_queue
| recv_block_queue
| mutex_lock_queue (l : nat)
| waiting_queue (t : nat)
| semaphore_queue (i : nat)
| condition_queue (i : nat)
| barrier_queue (i : nat).
#[export] Instance queue_id_eq_dec : EqDecision queue_id.
Proof. solve_decision. Defined.

Definition queue_id_code (q : queue_id) : nat * nat :=
  match q with
  | ready_queue => (0, 0) | block_queue => (1, 0) | sleeping_queue => (2, 0)
  | recv_block_queue => (3, 0) | mutex_lock_queue l => (4, l) | waiting_queue t => (5, t)
  | semaphore_queue i => (6, i) | condition_queue i => (7, i) | barrier_queue i => (8, i)
  end%nat.
Definition queue_id_decode (c : nat * nat) : option queue_id :=
  match c with
  | (0, _) => Some ready_queue | (1, _) => Some block_queue | (2, _) => Some sleeping_queue
  | (3, _) => Some recv_block_queue | (4, l) => Some (mutex_lock_queue l)
  | (5, t) => Some (waiting_queue t) | (6, i) => Some (semaphore_queue i)
  | (7, i) => Some (condition_queue i) | (8, i) => Some (barrier_queue i)
  | _ => None
  end%nat.
#[export] Instance queue_id_countable : Countable queue_id.
Proof. apply (inj_countable queue_id_code queue_id_decode). by intros []. Defined.

Record queue_t := mk_queue { q_head : option nat; q_tail : option nat }.
#[export] Instance queue_struct : Struct queue_t := fun q => mk_queue (q_head q) (q_tail q).
#[export] Instance queue_inhabited : Inhabited queue_t := populate (mk_queue None None).

Record process_show_t := mk_show { show_num : Z; show_pid : Z; show_status : task_status_t }.

(** Where a task that gave up the CPU inside a kernel function continues when
    it is scheduled again: right back to the system-call return, or at the test
    of the [while] loop of [do_mutex_lock_acquire].  This is what the saved
    kernel stack and the register [ra] of [kernel_context] stand for. *)
Inductive resume_point := R_return | R_mutex_lock_acquire (l : nat).
#[export] Instance resume_inhabited : Inhabited resume_point := populate R_return.
#[export] Instance resume_eq_dec : EqDecision resume_point.
Proof. solve_decision. Defined.

(** *** Global state of process management *)

Record kstate := mk_kstate {
  pcbs : gmap nat pcb_t;
  queues : gmap queue_id queue_t;
  lock_status : gmap nat lock_status_t;
  sem_value : gmap nat Z;
  max_num : gmap nat Z;
  not_arrive_num : gmap nat Z;
  Lock : list (option nat);
  current_running : option nat;
  screen_cursor_x : Z;
  screen_cursor_y : Z;
  time_elapsed : Z;
  PID : Z;
  STACK_TOP : Z;
  USER_STACK_TOP : Z;
  cp0_entryhi : Z;
  ProcessShow : list process_show_t;
  suspended : gmap nat resume_point;
}.
#[export] Instance kstate_struct : Struct kstate := fun s =>
  mk_kstate (pcbs s) (queues s) (lock_status s) (sem_value s) (max_num s)
    (not_arrive_num s) (Lock s) (current_running s) (screen_cursor_x s)
    (screen_cursor_y s) (time_elapsed s) (PID s) (STACK_TOP s) (USER_STACK_TOP s)
    (cp0_entryhi s) (ProcessShow s) (suspended s).

(** The state at the entry of the kernel: [pcb_t *current_running = &pcb_init]
    and the initialised globals of main.c, everything else zero. *)
Definition boot_kstate : kstate :=
  mk_kstate ∅ ∅ ∅ ∅ ∅ ∅ (replicate MAX_LOCK_NUM_TOTAL None) (Some NUM_MAX_TASK)
    0 0 0 0 STACK_MIN VM_STACK_MIN 0
    (replicate 40 (mk_show 0 0 TASK_BLOCKED)) ∅.

(** *** Access to the stores *)

Definition pcb (s : kstate) (t : nat) : pcb_t := pcbs s !!! t.
Definition queue (s : kstate) (q : queue_id) : queue_t := queues s !!! q.
Definition set_pcb (t : nat) (p : pcb_t) (s : kstate) : kstate :=
  s <| pcbs := <[t := p]> (pcbs s) |>.
Definition set_queue (q : queue_id) (v : queue_t) (s : kstate) : kstate :=
  s <| queues := <[q := v]> (queues s) |>.

(** [p->f] and [p->f = ...] through a pointer that may be NULL. *)
Definition load {A} (p : option nat) (f : pcb_t -> A) : M kstate A := fun s =>
  match p with Some t => Ok (f (pcb s t), s) | None => Fault NullDeref end.
Definition store (p : option nat) (f : pcb_t -> pcb_t) : M kstate unit := fun s =>
  match p with Some t => Ok (tt, set_pcb t (f (pcb s t)) s) | None => Fault NullDeref end.
Definition load_queue (q : queue_id) : M kstate queue_t := gets (fun s => queue s q).
Definition store_queue (q : queue_id) (v : queue_t) : M kstate unit := modify (set_queue q v).

Lemma pcb_set_eq t p s : pcb (set_pcb t p s) t = p.
Proof. unfold pcb, set_pcb. cbn. by rewrite lookup_total_insert_eq. Qed.
Lemma pcb_set_ne t t' p s : t <> t' -> pcb (set_pcb t p s) t' = pcb s t'.
Proof. intros. unfold pcb, set_pcb. cbn. by rewrite lookup_total_insert_ne. Qed.
Lemma queue_set_eq q v s : queue (set_queue q v s) q = v.
Proof. unfold queue, set_queue. cbn. by rewrite lookup_total_insert_eq. Qed.
Lemma queue_set_ne q q' v s : q <> q' -> queue (set_queue q v s) q' = queue s q'.
Proof. intros. unfold queue, set_queue. cbn. by rewrite lookup_total_insert_ne. Qed.
Lemma pcb_set_queue q v s t : pcb (set_queue q v s) t = pcb s t.
Proof. done. Qed.
Lemma queue_set_pcb t p s q : queue (set_pcb t p s) q = queue s q.
Proof. done. Qed.

(** [x <> t] from a membership fact about one of the two tasks. *)
Ltac task_ne :=
  first
    [ congruence
    | match goal with
      | H : ?t ∉ ?l |- ?a <> ?b =>
          first [constr_eq t a | constr_eq t b];
          let E := fresh in
          intros E; apply H; first [rewrite E | rewrite <-E];
          repeat first [rewrite elem_of_app | rewrite elem_of_cons]; solve [auto 9]
      end ].
#[export] Hint Rewrite pcb_set_eq queue_set_eq pcb_set_queue queue_set_pcb : kernel.
#[export] Hint Rewrite pcb_set_ne queue_set_ne using task_ne : kernel.
