(* ===== verification/Queue.v ===== *)
(** The intrusive doubly-linked queues of kernel/sched/queue.c, and the proof
    that they implement lists of tasks.

    [is_queue s q l] is the shape of the linked structure; [abs s Q] says that
    every queue of the kernel is well formed and that no task is linked into
    two of them.  Each operation of queue.c refines the obvious operation on
    [Q] and changes nothing but links ([links_only]). *)

From S2P Require Import Prelude Kernel.

(** Fuel of the walks along a queue: a queue never holds more than the
    [NUM_MAX_TASK] tasks and [pcb_init]. *)
Definition walk_fuel : nat := NUM_MAX_TASK + 2.
#[global] Arguments walk_fuel : simpl never.

(** ** Operations *)

Definition queue_init (q : queue_id) : M kstate unit :=
  store_queue q (mk_queue None None).

Definition queue_is_empty (q : queue_id) : M kstate bool :=
  let! qu := load_queue q in
  ret (match q_head qu with None => true | Some _ => false end).

Definition queue_push (q : queue_id) (item : option nat) : M kstate unit :=
  let! qu := load_queue q in
  match q_head qu with
  | None =>
      do! store_queue q (mk_queue item item);
      do! store item (fun p => p <| pcb_next := None |>);
      store item (fun p => p <| pcb_prev := None |>)
  | Some _ =>
      do! store (q_tail qu) (fun p => p <| pcb_next := item |>);
      do! store item (fun p => p <| pcb_next := None |>);
      do! store item (fun p => p <| pcb_prev := q_tail qu |>);
      store_queue q (mk_queue (q_head qu) item)
  end.

Definition queue_dequeue (q : queue_id) : M kstate (option nat) :=
  let! qu := load_queue q in
  let temp := q_head qu in
  let! nx := load temp pcb_next in
  do! (match nx with
       | None => store_queue q (mk_queue None None)
       | Some _ =>
           do! store_queue q (mk_queue nx (q_tail qu));
           store nx (fun p => p <| pcb_prev := None |>)
       end);
  do! store temp (fun p => p <| pcb_prev := None |>);
  do! store temp (fun p => p <| pcb_next := None |>);
  ret temp.

Fixpoint check_in_queue_loop (fuel : nat) (head item : option nat) : M kstate bool :=
  match fuel with
  | O => throw Diverges
  | S fuel' =>
      match head with
      | None => ret false
      | Some _ =>
          if decide (head = item) then ret true
          else let! nx := load head pcb_next in check_in_queue_loop fuel' nx item
      end
  end.
Definition check_in_queue (q : queue_id) (item : option nat) : M kstate bool :=
  let! qu := load_queue q in
  check_in_queue_loop walk_fuel (q_head qu) item.

Definition make_ready (p : pcb_t) : pcb_t := p <| pcb_status := TASK_READY |>.

(** One iteration: the first task of [q] goes to the end of the ready queue. *)
Definition wake_first (q : queue_id) : M kstate unit :=
  let! head := queue_dequeue q in
  do! store head make_ready;
  queue_push ready_queue head.

Definition clear_waiting_queue (q : queue_id) : M kstate unit :=
  while walk_fuel
    (let! e := queue_is_empty q in ret (negb e))
    (wake_first q).

Definition queue_remove (q : queue_id) (item : option nat) : M kstate (option nat) :=
  let! nx := load item pcb_next in
  let! qu := load_queue q in
  do! (if decide (item = q_head qu) then
         if decide (item = q_tail qu) then store_queue q (mk_queue None None)
         else
           do! store_queue q (mk_queue nx (q_tail qu));
           store nx (fun p => p <| pcb_prev := None |>)
       else
         let! pv := load item pcb_prev in
         if decide (item = q_tail qu) then
           do! store_queue q (mk_queue (q_head qu) pv);
           store pv (fun p => p <| pcb_next := None |>)
         else
           do! store pv (fun p => p <| pcb_next := nx |>);
           store nx (fun p => p <| pcb_prev := pv |>));
  do! store item (fun p => p <| pcb_prev := None |>);
  do! store item (fun p => p <| pcb_next := None |>);
  ret nx.

Definition enqueue (q : queue_id) (item : option nat) : M kstate unit :=
  let! qu := load_queue q in
  match q_head qu with
  | None =>
      do! store_queue q (mk_queue item item);
      do! store item (fun p => p <| pcb_next := None |>);
      store item (fun p => p <| pcb_prev := None |>)
  | Some _ =>
      do! store (q_head qu) (fun p => p <| pcb_prev := item |>);
      do! store item (fun p => p <| pcb_prev := None |>);
      do! store item (fun p => p <| pcb_next := q_head qu |>);
      store_queue q (mk_queue item (q_tail qu))
  end.

(** ** Shape *)

Definition first_or (l : list nat) (n : option nat) : option nat :=
  match l with [] => n | y :: _ => Some y end.
Definition last_or (l : list nat) (p : option nat) : option nat :=
  match last l with Some y => Some y | None => p end.

(** The tasks [l] are linked to each other; the first one points back to [p]
    and the last one forward to [n]. *)
Fixpoint lseg (s : kstate) (p : option nat) (l : list nat) (n : option nat) : Prop :=
  match l with
  | [] => True
  | x :: r => pcb_prev (pcb s x) = p /\ pcb_next (pcb s x) = first_or r n
              /\ lseg s (Some x) r n
  end.

Record is_queue (s : kstate) (q : queue_id) (l : list nat) : Prop := {
  is_queue_head : q_head (queue s q) = head l;
  is_queue_tail : q_tail (queue s q) = last l;
  is_queue_nodup : NoDup l;
  is_queue_links : lseg s None l None;
}.

Record abs (s : kstate) (Q : queue_id -> list nat) : Prop := {
  abs_queue q : is_queue s q (Q q);
  abs_disj q1 q2 t : t ∈ Q q1 -> t ∈ Q q2 -> q1 = q2;
  abs_range q t : t ∈ Q q -> (t <= NUM_MAX_TASK)%nat;
}.

(** Everything but queue headers and links is the same in [s] and [s']. *)
Definition unlink (p : pcb_t) : pcb_t := p <| pcb_prev := None |> <| pcb_next := None |>.
Definition rest (s : kstate) : kstate := s <| pcbs := ∅ |> <| queues := ∅ |>.
Record links_only (s s' : kstate) : Prop := {
  lo_pcb t : unlink (pcb s t) = unlink (pcb s' t);
  lo_rest : rest s = rest s';
}.

#[export] Instance links_only_equiv : Equivalence links_only.
Proof.
  split.
  - by intros s; split.
  - intros s s' [H1 H2]; by split.
  - intros s s' s'' [H1 H2] [H3 H4]; split; [|congruence]. intros t. by rewrite H1.
Qed.

Lemma links_only_field {A} (f : pcb_t -> A) s s' t :
  links_only s s' -> (forall p, f (unlink p) = f p) -> f (pcb s' t) = f (pcb s t).
Proof. intros [H _] Hf. rewrite <-(Hf (pcb s' t)), <-(Hf (pcb s t)). by rewrite H. Qed.

Lemma links_only_rest s s' (L : links_only s s') {A} (f : kstate -> A) :
  (forall s, f (rest s) = f s) -> f s' = f s.
Proof. intros Hf. rewrite <-Hf, <-(lo_rest _ _ L). apply Hf. Qed.

Lemma links_only_set_queue q v s : links_only s (set_queue q v s).
Proof. by split. Qed.
Lemma links_only_set_pcb t p s : unlink (pcb s t) = unlink p -> links_only s (set_pcb t p s).
Proof.
  intros H. split; [|done]. intros t'.
  destruct (decide (t = t')) as [->|]; [by rewrite pcb_set_eq|by rewrite pcb_set_ne].
Qed.

(** ** Facts about segments *)

Lemma lseg_ext s s' p l n :
  (forall x, x ∈ l -> pcb_prev (pcb s' x) = pcb_prev (pcb s x)
                  /\ pcb_next (pcb s' x) = pcb_next (pcb s x)) ->
  lseg s p l n -> lseg s' p l n.
Proof.
  revert p. induction l as [|x l IH]; intros p H; [done|]. cbn. intros (H1 & H2 & H3).
  destruct (H x) as [-> ->]; [set_solver|]. split_and!; [done..|].
  apply IH; [|done]. intros y Hy. apply H. set_solver.
Qed.

Lemma lseg_app s p l1 l2 n :
  lseg s p (l1 ++ l2) n <-> lseg s p l1 (first_or l2 n) /\ lseg s (last_or l1 p) l2 n.
Proof.
  revert p. induction l1 as [|x l1 IH]; intros p; [cbn; tauto|].
  cbn [lseg app]. rewrite IH.
  assert (first_or (l1 ++ l2) n = first_or l1 (first_or l2 n)) as -> by by destruct l1.
  assert (last_or (x :: l1) p = last_or l1 (Some x)) as ->; [|tauto].
  unfold last_or. rewrite last_cons. by destruct (last l1).
Qed.

Lemma lseg_set_notin s t v p l n :
  t ∉ l -> lseg s p l n -> lseg (set_pcb t v s) p l n.
Proof.
  intros Ht. apply lseg_ext. intros x Hx.
  rewrite pcb_set_ne; [done|]. intros ->. done.
Qed.

Lemma is_queue_set_notin s t v q l :
  t ∉ l -> is_queue s q l -> is_queue (set_pcb t v s) q l.
Proof. intros Ht [H1 H2 H3 H4]. split; [done..|]. by apply lseg_set_notin. Qed.

Lemma is_queue_set_queue_ne s q q' v l :
  q <> q' -> is_queue s q' l -> is_queue (set_queue q v s) q' l.
Proof.
  intros Hq [H1 H2 H3 H4].
  split; rewrite ?(queue_set_ne _ _ _ _ Hq); [done..|].
  revert H4. by apply lseg_ext.
Qed.

(** A change of fields other than the links keeps every queue. *)
Lemma is_queue_set_fields s t v q l :
  pcb_prev v = pcb_prev (pcb s t) -> pcb_next v = pcb_next (pcb s t) ->
  is_queue s q l -> is_queue (set_pcb t v s) q l.
Proof.
  intros Hp Hn [H1 H2 H3 H4]. split; [done..|]. revert H4. apply lseg_ext. intros x _.
  destruct (decide (t = x)) as [->|]; [by rewrite pcb_set_eq|by rewrite pcb_set_ne].
Qed.

Lemma abs_set_fields s t v Q :
  pcb_prev v = pcb_prev (pcb s t) -> pcb_next v = pcb_next (pcb s t) ->
  abs s Q -> abs (set_pcb t v s) Q.
Proof. intros ? ? [H1 H2 H3]. split; [|done..]. intros q. by apply is_queue_set_fields. Qed.

Lemma abs_ext s Q Q' : (forall q, Q q = Q' q) -> abs s Q -> abs s Q'.
Proof.
  intros E [H1 H2 H3]. split.
  - intros q. by rewrite <-E.
  - intros q1 q2 t. rewrite <-!E. apply H2.
  - intros q t. rewrite <-E. apply H3.
Qed.

(** Evaluate an update of the abstract queues at a queue. *)
Ltac qcase :=
  unfold insert, fn_insert;
  repeat match goal with
  | |- context [decide (?a = ?b)] =>
      first [ rewrite (decide_True _ _ (P := a = b)) by congruence
            | rewrite (decide_False _ _ (P := a = b)) by congruence
            | destruct (decide (a = b)); subst ]
  end; try congruence.

(** Components outside the stores do not matter. *)
Lemma abs_stores s s' Q :
  pcbs s' = pcbs s -> queues s' = queues s -> abs s Q -> abs s' Q.
Proof.
  intros Hp Hq [H1 H2 H3]. split; [|done..]. intros q. destruct (H1 q) as [A B C D].
  assert (forall t, pcb s' t = pcb s t) as Hpcb by (intros; unfold pcb; by rewrite Hp).
  split; unfold queue in *; rewrite ?Hq; [done..|].
  revert D. apply lseg_ext. intros x _. by rewrite Hpcb.
Qed.

Lemma abs_length s Q q : abs s Q -> (length (Q q) < walk_fuel)%nat.
Proof.
  intros H. destruct (abs_queue _ _ H q) as [_ _ Hnd _].
  assert (Q q ⊆+ seq 0 (S NUM_MAX_TASK)) as Hs.
  { apply NoDup_submseteq; [done|]. intros t Ht. apply elem_of_seq.
    pose proof (abs_range _ _ H q t Ht). lia. }
  apply submseteq_length in Hs. rewrite length_seq in Hs. unfold walk_fuel. lia.
Qed.

Lemma abs_set_notin s t v Q : (forall q, t ∉ Q q) -> abs s Q -> abs (set_pcb t v s) Q.
Proof. intros Ht [H1 H2 H3]. split; [|done..]. intros q. by apply is_queue_set_notin. Qed.

(** [queue_init] on a queue that is empty. *)
Lemma abs_queue_init s Q q : Q q = [] -> abs s Q -> abs (set_queue q (mk_queue None None) s) Q.
Proof.
  intros EQ [H1 H2 H3]. split; [|done..]. intros q'. destruct (decide (q = q')) as [<-|Hne].
  - rewrite EQ. split; rewrite ?queue_set_eq; [done..|constructor|done].
  - by apply is_queue_set_queue_ne.
Qed.

(** ** Refinement *)

Lemma abs_change s s' Q q l' :
  abs s Q ->
  is_queue s' q l' ->
  (forall t, t ∈ l' -> (t ∈ Q q \/ forall q', t ∉ Q q') /\ (t <= NUM_MAX_TASK)%nat) ->
  (forall q', q' <> q -> queue s' q' = queue s q') ->
  (forall t q', q' <> q -> t ∈ Q q' -> pcb s' t = pcb s t) ->
  abs s' (<[q := l']> Q).
Proof.
  intros H Hq Hl Hqu Hp. split.
  - intros q'. destruct (decide (q = q')) as [<-|Hne]; [by rewrite fn_lookup_insert|].
    rewrite fn_lookup_insert_ne by done. destruct (abs_queue _ _ H q') as [A B C D].
    split; rewrite ?Hqu by done; [done..|]. revert D. apply lseg_ext. intros x Hx.
    by rewrite (Hp x q').
  - intros q1 q2 t. pose proof (Hl t) as Ht. pose proof (abs_disj _ _ H) as Hd.
    destruct (decide (q = q1)) as [<-|H1]; destruct (decide (q = q2)) as [<-|H2];
      rewrite ?fn_lookup_insert, ?fn_lookup_insert_ne by done; [done|..];
      intros E1 E2; [destruct Ht as [[Ht|Ht] _]..|]; naive_solver.
  - intros q' t. destruct (decide (q = q')) as [<-|Hne].
    + rewrite fn_lookup_insert. intros Ht. by apply Hl.
    + rewrite fn_lookup_insert_ne by done. by apply (abs_range _ _ H).
Qed.

Ltac links_auto :=
  repeat first
    [ apply links_only_set_queue
    | apply links_only_set_pcb
    | etrans; [|apply links_only_set_pcb]
    | etrans; [|apply links_only_set_queue] ];
  autorewrite with kernel; try done.

Lemma queue_is_empty_spec s Q q :
  abs s Q -> queue_is_empty q s = Ok (match Q q with [] => true | _ => false end, s).
Proof.
  intros H. destruct (abs_queue _ _ H q) as [Hh _ _ _].
  unfold queue_is_empty, load_queue. mstep. rewrite Hh. by destruct (Q q).
Qed.

(** The side conditions of [abs_change]: the other queues and the tasks linked
    into them are the ones of before. *)
Ltac others Hother :=
  match goal with
  | |- forall q', _ <> _ -> queue _ _ = queue _ _ => intros ? ?; by autorewrite with kernel
  | |- forall t q', _ =>
      let t := fresh in let q' := fresh in let Hq := fresh in let Ht := fresh in
      intros t q' Hq Ht; pose proof (Hother t q' Hq Ht); by autorewrite with kernel
  end.
(** A segment none of whose tasks was written. *)
Ltac same_seg H := revert H; apply lseg_ext; intros ? ?; by autorewrite with kernel.

Lemma abs_others s Q q (l : list nat) :
  abs s Q -> Q q = l -> forall t q', q' <> q -> t ∈ Q q' -> t ∉ l.
Proof. intros H <- t q' Hq Ht Hin. by apply Hq, (abs_disj _ _ H q' q t). Qed.

Lemma abs_members s Q q (l : list nat) :
  abs s Q -> (forall t, t ∈ l -> t ∈ Q q) ->
  forall t, t ∈ l -> (t ∈ Q q \/ forall q', t ∉ Q q') /\ (t <= NUM_MAX_TASK)%nat.
Proof. intros H Hl t Ht. split; [auto|]. apply (abs_range _ _ H q); auto. Qed.

Section insert.
Context (s : kstate) (Q : queue_id -> list nat) (q : queue_id) (x : nat).
Context (H : abs s Q) (Hx : forall q', x ∉ Q q') (Hr : (x <= NUM_MAX_TASK)%nat).

Lemma insert_others : forall t q', q' <> q -> t ∈ Q q' -> t ∉ x :: Q q.
Proof.
  intros t q' Hq' Ht'. pose proof (abs_others _ _ _ _ H eq_refl t q' Hq' Ht').
  pose proof (Hx q'). set_solver.
Qed.

Lemma insert_members (l : list nat) : (forall t, t ∈ l -> t = x \/ t ∈ Q q) ->
  forall t, t ∈ l -> (t ∈ Q q \/ forall q', t ∉ Q q') /\ (t <= NUM_MAX_TASK)%nat.
Proof.
  intros Hl t [->|Ht]%Hl; [auto|]. split; [auto|]. by apply (abs_range _ _ H q).
Qed.

(** A queue of one element. *)
Lemma insert_empty s' :
  Q q = [] -> queue s' q = mk_queue (Some x) (Some x) ->
  pcb_prev (pcb s' x) = None -> pcb_next (pcb s' x) = None ->
  (forall q', q' <> q -> queue s' q' = queue s q') ->
  (forall t q', q' <> q -> t ∈ Q q' -> pcb s' t = pcb s t) ->
  abs s' (<[q := [x]]> Q).
Proof.
  intros EQ Hq Hp Hn Hqs Hps. apply (abs_change s); [done| |apply insert_members; set_solver|done..].
  split; rewrite ?Hq; [done..|apply NoDup_singleton|done].
Qed.

Lemma queue_push_spec :
  exists s', queue_push q (Some x) s = Ok (tt, s')
    /\ abs s' (<[q := Q q ++ [x]]> Q) /\ links_only s s'.
Proof using H Hx Hr.
  pose proof insert_others as Hother.
  destruct (abs_queue _ _ H q) as [Hh Ht Hnd Hl]. pose proof (Hx q) as Hxq.
  unfold queue_push, load_queue. mstep. rewrite Hh, Ht.
  destruct (decide (Q q = [])) as [EQ|EQ].
  - rewrite EQ in *. eexists. split; [reflexivity|]. split; [|links_auto].
    apply insert_empty; [done|by autorewrite with kernel..|others Hother|others Hother].
  - destruct (exists_last EQ) as (l & z & Ez). rewrite Ez in *. rewrite last_snoc.
    destruct (head (l ++ [z])) as [y|] eqn:Ey; [|by destruct l].
    apply NoDup_app in Hnd as (Hnd & Hzl & _). apply lseg_app in Hl as [Hl1 (Hz1 & Hz2 & _)].
    assert (z ∉ l) by (intros Hz; apply (Hzl z Hz); set_solver).
    eexists. split; [reflexivity|]. split; [|links_auto].
    apply (abs_change s); [done| |apply insert_members; rewrite Ez; set_solver|others Hother..].
    split; rewrite ?queue_set_eq; cbn [q_head q_tail].
    + rewrite <-Ey. by destruct l.
    + by rewrite last_snoc.
    + apply NoDup_app. split_and!; [|set_solver|apply NoDup_singleton].
      apply NoDup_app. split_and!; [done|set_solver|apply NoDup_singleton].
    + rewrite <-app_assoc. apply lseg_app. split; [same_seg Hl1|].
      cbn. by autorewrite with kernel.
Qed.

Lemma enqueue_spec :
  exists s', enqueue q (Some x) s = Ok (tt, s')
    /\ abs s' (<[q := x :: Q q]> Q) /\ links_only s s'.
Proof using H Hx Hr.
  pose proof insert_others as Hother.
  destruct (abs_queue _ _ H q) as [Hh Ht Hnd Hl]. pose proof (Hx q) as Hxq.
  unfold enqueue, load_queue. mstep. rewrite Hh, Ht.
  destruct (Q q) as [|y l] eqn:EQ; cbn [head].
  - eexists. split; [reflexivity|]. split; [|links_auto].
    apply insert_empty; [done|by autorewrite with kernel..|others Hother|others Hother].
  - apply NoDup_cons in Hnd as [Hy Hnd]. destruct Hl as (Hy1 & Hy2 & Hl).
    eexists. split; [reflexivity|]. split; [|links_auto].
    apply (abs_change s); [done| |apply insert_members; rewrite EQ; set_solver|others Hother..].
    split; autorewrite with kernel; cbn [q_head q_tail head].
    + done.
    + by rewrite last_cons_cons.
    + apply NoDup_cons. split; [done|]. by apply NoDup_cons.
    + cbn. autorewrite with kernel. cbn. split_and!; [done..|]. same_seg Hl.
Qed.
End insert.

Lemma head_is_first (x : nat) l1 l2 : x ∉ l1 -> (Some x = head (l1 ++ x :: l2)) <-> l1 = [].
Proof. intros Hx. destruct l1 as [|y l1]; [done|]. split; [|done]. intros [= <-]. set_solver. Qed.

Lemma last_is_last (x : nat) l1 l2 : x ∉ l2 -> (Some x = last (l1 ++ x :: l2)) <-> l2 = [].
Proof.
  intros Hx. rewrite last_app_cons, last_cons. split; [|by intros ->].
  destruct (last l2) as [z|] eqn:E.
  - intros [= <-]. apply last_Some_elem_of in E. done.
  - by apply last_None in E.
Qed.

Lemma last_or_snoc l z p : last_or (l ++ [z]) p = Some z.
Proof. unfold last_or. by rewrite last_snoc. Qed.

(** Taking a task out of a queue: one lemma for each shape of the queue. *)
Section remove.
Context (s : kstate) (Q : queue_id -> list nat) (q : queue_id) (x : nat) (H : abs s Q).

Lemma remove_finish s' (l1 l2 : list nat) :
  Q q = l1 ++ x :: l2 ->
  q_head (queue s' q) = head (l1 ++ l2) -> q_tail (queue s' q) = last (l1 ++ l2) ->
  lseg s' None l1 (head l2) -> lseg s' (last_or l1 None) l2 None ->
  (forall q', q' <> q -> queue s' q' = queue s q') ->
  (forall t q', q' <> q -> t ∈ Q q' -> pcb s' t = pcb s t) ->
  abs s' (<[q := l1 ++ l2]> Q).
Proof using H.
  intros EQ Hh Ht H1 H2 Hqs Hps. destruct (abs_queue _ _ H q) as [_ _ Hnd _]. rewrite EQ in Hnd.
  apply (abs_change s); [done| |apply (abs_members s); [done|rewrite EQ; set_solver]|done..].
  split; [done..| |].
  - apply NoDup_app in Hnd as (Hnd1 & Hdis & Hnd2). apply NoDup_cons in Hnd2 as [Hx2 Hnd2].
    apply NoDup_app. split_and!; [done|set_solver|done].
  - apply lseg_app. split; [|done]. by destruct l2.
Qed.

Lemma queue_dequeue_spec l :
  Q q = x :: l ->
  exists s', queue_dequeue q s = Ok (Some x, s')
    /\ abs s' (<[q := l]> Q) /\ links_only s s'.
Proof using H.
  intros EQ. pose proof (abs_others _ _ _ _ H EQ) as Hother.
  destruct (abs_queue _ _ H q) as [Hh Ht Hnd Hl]. rewrite EQ in Hh, Ht, Hnd, Hl.
  apply NoDup_cons in Hnd as [Hxl Hnd]. destruct Hl as (Hp & Hn & Hl).
  unfold queue_dequeue, load_queue. mstep. rewrite Hh, Ht. cbn. rewrite Hn.
  destruct l as [|y l]; (eexists; split; [reflexivity|]; split; [|links_auto]);
    (apply (remove_finish _ []); [done|..|others Hother|others Hother]);
    autorewrite with kernel; try done.
  apply NoDup_cons in Hnd as [Hyl Hnd]. destruct Hl as (Hy1 & Hy2 & Hl).
  cbn. autorewrite with kernel. cbn. split_and!; [done..|]. same_seg Hl.
Qed.

Ltac finish Hother l1 l2 :=
  eexists; split; [reflexivity|]; split; [|links_auto];
  apply (remove_finish _ l1 l2); [done|..|others Hother|others Hother];
  autorewrite with kernel; rewrite ?app_nil_r; try done.

(** [queue_remove] takes out its argument, wherever it is in the queue, and
    returns the task behind it. *)
Lemma queue_remove_spec l1 l2 :
  Q q = l1 ++ x :: l2 ->
  exists s', queue_remove q (Some x) s = Ok (head l2, s')
    /\ abs s' (<[q := l1 ++ l2]> Q) /\ links_only s s'.
Proof using H.
  intros EQ. pose proof (abs_others _ _ _ _ H EQ) as Hother.
  destruct (abs_queue _ _ H q) as [Hh Ht Hnd Hl]. rewrite EQ in Hh, Ht, Hnd, Hl.
  apply NoDup_app in Hnd as (Hnd1 & Hdis & Hnd2). apply NoDup_cons in Hnd2 as [Hx2 Hnd2].
  assert (x ∉ l1) as Hx1 by (intros ?; eapply Hdis; [done|set_solver]).
  apply lseg_app in Hl as [Hl1 (Hp & Hn & Hl2)].
  unfold queue_remove, load_queue. mstep. rewrite Hh, Ht, Hn.
  assert (first_or l2 None = head l2) as -> by by destruct l2.
  destruct (decide (Some x = head (l1 ++ x :: l2))) as [E1|E1];
    rewrite head_is_first in E1 by done;
    (destruct (decide (Some x = last (l1 ++ x :: l2))) as [E2|E2];
    rewrite last_is_last in E2 by done).
  - subst. cbn. finish Hother (@nil nat) (@nil nat).
  - subst. destruct l2 as [|y l2]; [done|]. cbn. finish Hother (@nil nat) (y :: l2).
    apply NoDup_cons in Hnd2 as [Hy Hnd2]. destruct Hl2 as (Hy1 & Hy2 & Hl2).
    cbn. autorewrite with kernel. cbn. split_and!; [done..|]. same_seg Hl2.
  - subst. destruct (exists_last E1) as (l & z & ->). cbn. rewrite Hp, last_or_snoc.
    apply lseg_app in Hl1 as [Hl1 (Hz1 & Hz2 & _)]. apply NoDup_app in Hnd1 as (_ & Hzl & _).
    assert (z ∉ l) by (intros Hz; apply (Hzl z Hz); set_solver).
    finish Hother (l ++ [z]) (@nil nat); [by destruct l|by rewrite last_snoc|].
    apply lseg_app. split; [same_seg Hl1|]. cbn. by autorewrite with kernel.
  - destruct (exists_last E1) as (l & z & ->). destruct l2 as [|y l2]; [done|].
    cbn. rewrite Hp, last_or_snoc.
    apply lseg_app in Hl1 as [Hl1 (Hz1 & Hz2 & _)]. apply NoDup_app in Hnd1 as (_ & Hzl & _).
    assert (z ∉ l) by (intros Hz; apply (Hzl z Hz); set_solver).
    destruct Hl2 as (Hy1 & Hy2 & Hl2). apply NoDup_cons in Hnd2 as [Hy Hnd2].
    assert (y ∉ l ++ [z]) as Hyl by (intros Hin; apply (Hdis y Hin); set_solver).
    assert (z ∉ x :: y :: l2) as Hzr by (apply Hdis; set_solver).
    finish Hother (l ++ [z]) (y :: l2).
    + rewrite Hh. by destruct l.
    + rewrite Ht. by rewrite !last_app_cons, last_cons_cons.
    + apply lseg_app. split; [same_seg Hl1|]. cbn. by autorewrite with kernel.
    + rewrite last_or_snoc. cbn. autorewrite with kernel. cbn. split_and!; [done..|].
      same_seg Hl2.
Qed.
End remove.

Lemma removed_not_in s Q q x l1 l2 :
  abs s Q -> Q q = l1 ++ x :: l2 -> forall q', x ∉ (<[q := l1 ++ l2]> Q) q'.
Proof.
  intros H EQ q'. destruct (abs_queue _ _ H q) as [_ _ Hnd _]. rewrite EQ in Hnd.
  apply NoDup_app in Hnd as (_ & Hd & [Hnd _]%NoDup_cons). qcase; [set_solver|]. intros Hx.
  assert (x ∈ Q q) as Hx' by (rewrite EQ; set_solver).
  by pose proof (abs_disj _ _ H _ _ _ Hx Hx').
Qed.

(** [check_in_queue] decides membership. *)
Lemma check_in_queue_loop_spec s p l x fuel :
  lseg s p l None -> (length l < fuel)%nat ->
  check_in_queue_loop fuel (head l) (Some x) s = Ok (bool_decide (x ∈ l), s).
Proof.
  revert p fuel. induction l as [|y l IH]; intros p [|fuel] Hl Hf; cbn in Hf; try lia; [done|].
  destruct Hl as (Hp & Hn & Hl). cbn [check_in_queue_loop head].
  destruct (decide (Some y = Some x)) as [[= ->]|Hne].
  - by rewrite bool_decide_true by set_solver.
  - mstep. rewrite Hn. assert (first_or l None = head l) as -> by by destruct l.
    rewrite (IH (Some y)) by (done || lia). do 2 f_equal. apply bool_decide_ext. set_solver.
Qed.

Lemma check_in_queue_spec s Q q x :
  abs s Q -> check_in_queue q (Some x) s = Ok (bool_decide (x ∈ Q q), s).
Proof.
  intros H. destruct (abs_queue _ _ H q) as [Hh _ _ Hl].
  unfold check_in_queue, load_queue. mstep. rewrite Hh.
  eapply check_in_queue_loop_spec; [done|]. by apply (abs_length s).
Qed.

(** [clear_waiting_queue] moves all the tasks of a queue, in their order, to the
    end of the ready queue, and makes them ready; every other field of every
    task stays what it was. *)
Definition woken (W : list nat) (s s' : kstate) : Prop :=
  rest s = rest s' /\
  forall t, unlink (pcb s' t) =
    unlink (if decide (t ∈ W) then make_ready (pcb s t) else pcb s t).

#[global] Arguments make_ready : simpl never.

Lemma unlink_field_eq {A} (f : pcb_t -> A) p p' :
  unlink p = unlink p' -> (forall p, f (unlink p) = f p) -> f p = f p'.
Proof. intros H Hf. rewrite <-(Hf p), <-(Hf p'). by rewrite H. Qed.

Lemma unlink_ready p : unlink (make_ready p) = make_ready (unlink p).
Proof. done. Qed.
Lemma ready_idemp p : make_ready (make_ready p) = make_ready p.
Proof. done. Qed.

Lemma wake_first_spec s Q q x l :
  abs s Q -> Q q = x :: l -> q <> ready_queue ->
  exists s', wake_first q s = Ok (tt, s')
    /\ abs s' (<[ready_queue := Q ready_queue ++ [x]]> (<[q := l]> Q)) /\ woken [x] s s'.
Proof.
  intros H EQ Hne. unfold wake_first.
  destruct (queue_dequeue_spec s Q q x H l EQ) as (s1 & E1 & H1 & L1).
  rewrite (bind_Ok _ _ _ _ _ E1). cbn.
  set (s2 := set_pcb x (make_ready (pcb s1 x)) s1).
  assert (abs s2 (<[q := l]> Q)) as H2 by by apply abs_set_fields.
  destruct (queue_push_spec s2 (<[q := l]> Q) ready_queue x) as (s3 & E3 & H3 & L3).
  - done.
  - intros q'. destruct (abs_queue _ _ H q) as [_ _ Hnd _]. rewrite EQ in Hnd.
    apply NoDup_cons in Hnd as [Hnd _]. destruct (decide (q = q')) as [<-|Hq].
    + by rewrite fn_lookup_insert.
    + rewrite fn_lookup_insert_ne by done. intros Hx.
      apply Hq, (abs_disj _ _ H q q' x); [rewrite EQ; set_solver|done].
  - apply (abs_range _ _ H q). rewrite EQ. set_solver.
  - exists s3. split; [done|]. rewrite fn_lookup_insert_ne in H3 by done. split; [done|].
    split; [by rewrite (lo_rest _ _ L1), <-(lo_rest _ _ L3)|].
    intros t. rewrite <-(lo_pcb _ _ L3). unfold s2.
    destruct (decide (t ∈ [x])) as [->%list_elem_of_singleton|Ht]; autorewrite with kernel.
    + by rewrite !unlink_ready, <-(lo_pcb _ _ L1).
    + by rewrite <-(lo_pcb _ _ L1).
Qed.

Lemma woken_cons x W s s' s'' :
  woken [x] s s' -> woken W s' s'' -> woken (x :: W) s s''.
Proof.
  intros [R1 P1] [R2 P2]. split; [by rewrite R1|]. intros t. rewrite P2.
  pose proof (P1 t) as E. destruct (decide (t ∈ [x])) as [Hx|Hx].
  - rewrite (decide_True _ _ (P := t ∈ x :: W)) by set_solver.
    destruct (decide (t ∈ W)); [|done].
    by rewrite unlink_ready, E, !unlink_ready.
  - destruct (decide (t ∈ W)).
    + rewrite (decide_True _ _ (P := t ∈ x :: W)) by set_solver. by rewrite !unlink_ready, E.
    + by rewrite (decide_False _ _ (P := t ∈ x :: W)) by set_solver.
Qed.

Lemma clear_loop_spec fuel s Q q :
  abs s Q -> q <> ready_queue -> (length (Q q) < fuel)%nat ->
  exists s', while fuel (let! e := queue_is_empty q in ret (negb e)) (wake_first q) s = Ok (tt, s')
    /\ abs s' (<[ready_queue := Q ready_queue ++ Q q]> (<[q := []]> Q)) /\ woken (Q q) s s'.
Proof.
  revert s Q. induction fuel as [|fuel IH]; intros s Q H Hq Hf; [lia|]. cbn [while].
  rewrite (bind_Ok _ _ _ (match Q q with [] => false | _ => true end) s);
    [|unfold bind; rewrite (queue_is_empty_spec s Q q H); by destruct (Q q)].
  destruct (Q q) as [|x l] eqn:EQ.
  - exists s. split; [done|]. split; [|split; [done|]].
    + revert H. apply abs_ext. intros q'. by qcase; rewrite ?app_nil_r.
    + intros t. by rewrite decide_False by set_solver.
  - destruct (wake_first_spec s Q q x l H EQ Hq) as (s1 & E1 & H1 & W1).
    rewrite (bind_Ok _ _ _ _ _ E1).
    destruct (IH s1 _ H1 Hq) as (s2 & E2 & H2 & W2); [by qcase; cbn in Hf; lia|].
    exists s2. split; [done|]. split.
    + revert H2. apply abs_ext. intros q'. qcase; rewrite <-?app_assoc; done.
    + eapply woken_cons; [done|]. revert W2. by qcase.
Qed.

(** [clear_waiting_queue] empties the queue: its tasks are, in their order, at
    the end of the ready queue, and ready. *)
Lemma clear_waiting_queue_spec s Q q :
  abs s Q -> q <> ready_queue ->
  exists s', clear_waiting_queue q s = Ok (tt, s')
    /\ abs s' (<[ready_queue := Q ready_queue ++ Q q]> (<[q := []]> Q)) /\ woken (Q q) s s'.
Proof. intros H Hq. unfold clear_waiting_queue. apply clear_loop_spec; [done..|]. by apply (abs_length s). Qed.

#[export] Instance abs_proper s : Proper (pointwise_relation _ eq ==> iff) (abs s).
Proof. intros Q Q' E. split; apply abs_ext; intros q; by rewrite (E q). Qed.
