(* ===== verification/Sched.v ===== *)
(** The scheduler of kernel/sched/sched.c (and the clock of
    kernel/sched/time.c): choice of the next task, sleeping, blocking and
    waking.  Process creation and termination, which call the mutexes, are in
    Process.v.

    A call of the assembly routine [do_scheduler] (arch/mips/kernel/entry.S)
    saves the kernel context of the current task, runs [scheduler] and restores
    the context of the task chosen.  What the saved context is good for is the
    [resume_point] that the caller leaves in [suspended]. *)

From S2P Require Import Prelude Kernel Queue.

(** ** Operations *)

Definition get_ticks (s : kstate) : Z := time_elapsed s.
Definition get_timer (s : kstate) : Z := time_elapsed s / 5000.

(** [int check_sleeping()]: [None] is the [return;] without a value. *)
Fixpoint check_sleeping_loop (fuel : nat) (now : Z) (temp : option nat) : M kstate bool :=
  match fuel with
  | O => throw Diverges
  | S fuel' =>
      match temp with
      | None => ret false
      | Some _ =>
          let! d := load temp sleeping_deadline in
          if d <? now then
            do! queue_remove sleeping_queue temp;
            do! store temp make_ready;
            do! queue_push ready_queue temp;
            ret true
          else
            let! nx := load temp pcb_next in check_sleeping_loop fuel' now nx
      end
  end.
Definition check_sleeping : M kstate (option bool) :=
  let! now := gets get_timer in
  let! e := queue_is_empty sleeping_queue in
  if e then ret None
  else
    let! qu := load_queue sleeping_queue in
    let! r := check_sleeping_loop walk_fuel now (q_head qu) in
    ret (Some r).

(** The search shared by [scheduler] and [do_unblock_one]: go forward while the
    next task has a higher priority. *)
Fixpoint pick_loop (fuel : nat) (cur tail : option nat) : M kstate (option nat) :=
  match fuel with
  | O => throw Diverges
  | S fuel' =>
      if decide (cur = tail) then ret cur
      else
        let! p := load cur priority in
        let! nx := load cur pcb_next in
        let! pn := load nx priority in
        if p <? pn then pick_loop fuel' nx tail else ret cur
  end.

(** [while(queue_is_empty(&ready_queue)){ if(queue_is_empty(&sleeping_queue))
    break; check_sleeping(); }] *)
Fixpoint wait_ready_loop (fuel : nat) : M kstate unit :=
  match fuel with
  | O => throw Diverges
  | S fuel' =>
      let! e := queue_is_empty ready_queue in
      if e then
        let! es := queue_is_empty sleeping_queue in
        if es then ret tt
        else do! check_sleeping; wait_ready_loop fuel'
      else ret tt
  end.

Definition save_cursor : M kstate unit :=
  let! cur := gets current_running in
  let! x := gets screen_cursor_x in
  do! store cur (fun p => p <| cursor_x := x |>);
  let! y := gets screen_cursor_y in
  store cur (fun p => p <| cursor_y := y |>).

Definition requeue_current : M kstate unit :=
  let! cur := gets current_running in
  let! st := load cur pcb_status in
  if decide (st = TASK_RUNNING) then
    do! store cur make_ready;
    let! ep := load cur entry_point in
    if ep =? 0 then ret tt else queue_push ready_queue cur
  else ret tt.

Definition switch_to (next : option nat) : M kstate unit :=
  let! cur := gets current_running in
  do! store cur (fun p => p <| priority := i32 (priority p - 1) |>);
  do! modify (fun s => s <| current_running := next |>);
  do! queue_remove ready_queue next;
  do! store next (fun p => p <| pcb_status := TASK_RUNNING |>);
  let! x := load next cursor_x in
  do! modify (fun s => s <| screen_cursor_x := x |>);
  let! y := load next cursor_y in
  modify (fun s => s <| screen_cursor_y := y |>).

Definition scheduler : M kstate unit :=
  do! save_cursor;
  do! requeue_current;
  do! check_sleeping;
  do! wait_ready_loop walk_fuel;
  let! qu := load_queue ready_queue in
  let! next := pick_loop walk_fuel (q_head qu) (q_tail qu) in
  switch_to next.

Definition do_scheduler (r : resume_point) : M kstate unit :=
  let! cur := gets current_running in
  do! match cur with
      | Some c => modify (fun s => s <| suspended := <[c := r]> (suspended s) |>)
      | None => throw NullDeref
      end;
  scheduler.

Definition do_sleep (sleep_time : Z) : M kstate unit :=
  let! cur := gets current_running in
  let! st := load cur pcb_status in
  do! (if decide (st = TASK_RUNNING) then
         do! store cur (fun p => p <| pcb_status := TASK_SLEEPING |>);
         let! now := gets get_timer in
         do! store cur (fun p => p <| sleeping_deadline := u32 (now + sleep_time) |>);
         queue_push sleeping_queue cur
       else ret tt);
  do_scheduler R_return.

(** [do_block] up to the switch, and with the switch.  [r] is where its caller
    continues. *)
Definition block_on (q : queue_id) : M kstate unit :=
  let! cur := gets current_running in
  do! store cur (fun p => p <| pcb_status := TASK_BLOCKED |>);
  queue_push q cur.

Definition do_block (q : queue_id) (r : resume_point) : M kstate unit :=
  let! cur := gets current_running in
  let! st := load cur pcb_status in
  do! (if decide (st = TASK_RUNNING) then block_on q else ret tt);
  do_scheduler r.

Definition do_unblock_one (q : queue_id) : M kstate unit :=
  let! e := queue_is_empty q in
  if e then ret tt
  else
    let! qu := load_queue q in
    let! one := pick_loop walk_fuel (q_head qu) (q_tail qu) in
    do! queue_remove q one;
    do! store one make_ready;
    queue_push ready_queue one.

Definition do_unblock_all (q : queue_id) : M kstate unit :=
  while walk_fuel
    (let! e := queue_is_empty q in ret (negb e))
    (do_unblock_one q).

(** ** What the searches compute *)

Definition prio (s : kstate) (t : nat) : Z := priority (pcb s t).

(** The end of the first strictly increasing run of priorities. *)
Fixpoint pick (pr : nat -> Z) (x : nat) (l : list nat) : nat :=
  match l with
  | [] => x
  | y :: r => if pr x <? pr y then pick pr y r else x
  end.

Lemma pick_in pr x l : pick pr x l ∈ x :: l.
Proof.
  revert x. induction l as [|y l IH]; intros x; cbn [pick]; [set_solver|].
  destruct (_ <? _); [|set_solver]. specialize (IH y). set_solver.
Qed.

Lemma pick_loop_spec s fuel p x l :
  lseg s p (x :: l) None -> NoDup (x :: l) -> (length l < fuel)%nat ->
  pick_loop fuel (Some x) (last (x :: l)) s = Ok (Some (pick (prio s) x l), s).
Proof.
  revert p x fuel. induction l as [|y l IH]; intros p x [|fuel] Hl Hnd Hf; cbn in Hf; try lia.
  - cbn. by rewrite decide_True.
  - apply NoDup_cons in Hnd as [Hx Hnd]. rewrite last_cons_cons.
    cbn [pick_loop]. rewrite decide_False.
    + destruct Hl as (_ & Hn & Hl). unfold bind, load at 1 2. rewrite Hn. cbn [first_or load].
      fold (prio s x) (prio s y). cbn [pick]. destruct (_ <? _); [|done].
      eapply (IH (Some x)); [done..|lia].
    + intros E. symmetry in E. apply last_Some_elem_of in E. done.
Qed.

Lemma pick_queue_spec s Q q x l :
  abs s Q -> Q q = x :: l ->
  pick_loop walk_fuel (q_head (queue s q)) (q_tail (queue s q)) s
  = Ok (Some (pick (prio s) x l), s).
Proof.
  intros H EQ. pose proof (abs_length _ _ q H) as Hf.
  destruct (abs_queue _ _ H q) as [-> -> Hnd Hl]. rewrite EQ in *. cbn in Hf.
  eapply pick_loop_spec; [done..|lia].
Qed.

(** The task picked has the highest priority among itself and the tasks before
    it in the queue. *)
Lemma pick_max pr x l l1 l2 :
  NoDup (x :: l) -> x :: l = l1 ++ pick pr x l :: l2 ->
  forall t, t ∈ l1 -> pr t < pr (pick pr x l).
Proof.
  revert x l1. induction l as [|y l IH]; intros x l1 Hnd E t Ht; cbn [pick] in *.
  - destruct l1 as [|a [|b l1]]; [set_solver|done..].
  - apply NoDup_cons in Hnd as [Hx Hnd]. destruct (Z.ltb_spec (pr x) (pr y)) as [Hlt|Hge].
    + pose proof (pick_in pr y l) as Hin. destruct l1 as [|a l1].
      { injection E as Ex _. exfalso. apply Hx. by rewrite Ex at 1. }
      injection E as <- E. specialize (IH y l1 Hnd E).
      assert (pr y <= pr (pick pr y l)) as Hle.
      { destruct l1 as [|b l1]; [injection E as <- _; lia|]. injection E as <- _.
        specialize (IH y). set_solver by lia. }
      apply elem_of_cons in Ht as [->|Ht]; [lia|]. by apply IH.
    + destruct l1 as [|a l1]; [set_solver|]. injection E as <- E. exfalso. apply Hx.
      rewrite E. set_solver.
Qed.

(** ** Waking one task *)

(** The three calls that take [x] out of [q] and make it ready. *)
Lemma wake_spec s Q q x l1 l2 :
  abs s Q -> Q q = l1 ++ x :: l2 -> q <> ready_queue ->
  exists s1 s2 s3 r,
    queue_remove q (Some x) s = Ok (r, s1) /\ store (Some x) make_ready s1 = Ok (tt, s2)
    /\ queue_push ready_queue (Some x) s2 = Ok (tt, s3)
    /\ abs s3 (<[ready_queue := Q ready_queue ++ [x]]> (<[q := l1 ++ l2]> Q)) /\ woken [x] s s3.
Proof.
  intros H EQ Hne.
  destruct (queue_remove_spec s Q q x H l1 l2 EQ) as (s1 & E1 & H1 & L1).
  set (s2 := set_pcb x (make_ready (pcb s1 x)) s1).
  assert (abs s2 (<[q := l1 ++ l2]> Q)) as H2 by by apply abs_set_fields.
  assert (x ∈ Q q) as Hx by (rewrite EQ; set_solver).
  destruct (queue_push_spec s2 (<[q := l1 ++ l2]> Q) ready_queue x) as (s3 & E3 & H3 & L3).
  - done.
  - intros q'. destruct (abs_queue _ _ H q) as [_ _ Hnd _]. rewrite EQ in Hnd.
    apply NoDup_app in Hnd as (_ & Hd & [Hnd _]%NoDup_cons). qcase; [set_solver|].
    intros Hx'. by pose proof (abs_disj _ _ H _ _ _ Hx Hx').
  - by apply (abs_range _ _ H q).
  - exists s1, s2, s3, (head l2). rewrite fn_lookup_insert_ne in H3 by done.
    split_and!; [done..|]. split; [by rewrite (lo_rest _ _ L1), <-(lo_rest _ _ L3)|].
    intros t. rewrite <-(lo_pcb _ _ L3). unfold s2.
    destruct (decide (t ∈ [x])) as [->%list_elem_of_singleton|Ht]; autorewrite with kernel.
    + by rewrite !unlink_ready, <-(lo_pcb _ _ L1).
    + by rewrite <-(lo_pcb _ _ L1).
Qed.

Definition expired (s : kstate) (t : nat) : bool := sleeping_deadline (pcb s t) <? get_timer s.

Lemma check_sleeping_loop_spec s Q l1 l2 fuel :
  abs s Q -> Q sleeping_queue = l1 ++ l2 -> (length l2 < fuel)%nat ->
  (Forall (fun t => expired s t = false) l2
    /\ check_sleeping_loop fuel (get_timer s) (head l2) s = Ok (false, s)) \/
  (exists m1 x m2 s', l2 = m1 ++ x :: m2 /\ expired s x = true
    /\ check_sleeping_loop fuel (get_timer s) (head l2) s = Ok (true, s')
    /\ abs s' (<[ready_queue := Q ready_queue ++ [x]]> (<[sleeping_queue := l1 ++ m1 ++ m2]> Q))
    /\ woken [x] s s' /\ Forall (fun t => expired s t = false) m1).
Proof.
  intros H. revert l1 fuel. induction l2 as [|x l2 IH]; intros l1 [|fuel] EQ Hf; cbn in Hf; try lia.
  { left. by split. }
  cbn [check_sleeping_loop head]. unfold bind, load. fold (expired s x).
  destruct (expired s x) eqn:Ex.
  - right. destruct (wake_spec s Q sleeping_queue x l1 l2 H EQ) as (s1 & s2 & s3 & r & E1 & E2 & E3 & H3 & W); [done|].
    exists [], x, l2, s3. rewrite E1, E2, E3. done.
  - destruct (abs_queue _ _ H sleeping_queue) as [_ _ _ Hl]. rewrite EQ in Hl.
    apply lseg_app in Hl as [_ (_ & Hn & _)]. rewrite Hn.
    assert (first_or l2 None = head l2) as -> by by destruct l2.
    destruct (IH (l1 ++ [x]) fuel) as [[Hall E]|(m1 & y & m2 & s' & -> & Hy & E & Hs' & W & Hm)].
    + by rewrite <-app_assoc.
    + lia.
    + left. split; [by constructor|done].
    + right. exists (x :: m1), y, m2, s'. split_and!; [done..| |done|by constructor].
      by rewrite <-app_assoc in Hs'.
Qed.

(** [check_sleeping] wakes the first task of the sleeping queue whose deadline
    has passed, and no other. *)
Lemma check_sleeping_spec s Q :
  abs s Q ->
  (Forall (fun t => expired s t = false) (Q sleeping_queue)
    /\ exists r, check_sleeping s = Ok (r, s)) \/
  (exists m1 x m2 s' r, Q sleeping_queue = m1 ++ x :: m2 /\ expired s x = true
    /\ check_sleeping s = Ok (r, s')
    /\ abs s' (<[ready_queue := Q ready_queue ++ [x]]> (<[sleeping_queue := m1 ++ m2]> Q))
    /\ woken [x] s s' /\ Forall (fun t => expired s t = false) m1).
Proof.
  intros H. unfold check_sleeping, bind, gets. rewrite (queue_is_empty_spec _ _ _ H).
  pose proof (abs_length _ _ sleeping_queue H) as Hf.
  destruct (abs_queue _ _ H sleeping_queue) as [Hh _ _ _].
  pose proof (check_sleeping_loop_spec s Q [] (Q sleeping_queue) walk_fuel H eq_refl Hf) as Hc.
  destruct (Q sleeping_queue) as [|a l] eqn:EQ.
  - left. split; [done|]. by eexists.
  - unfold load_queue, gets. rewrite Hh.
    destruct Hc as [[Hall E]|(m1 & x & m2 & s' & E & Hx & E' & Hs' & W)].
    + left. split; [done|]. rewrite E. by eexists.
    + right. exists m1, x, m2, s'. rewrite E'. by eexists.
Qed.

(** ** The scheduling invariant

    Of the tasks in the table: a ready or just created task is in the ready
    queue, a sleeping one in the sleeping queue, a blocked one in some other
    queue, a task that exited in none; the running one is the current one and
    in no queue.  Together with [abs] this also gives the converse. *)

Definition task_ok (st : task_status_t) (cur : Prop) (Q : queue_id -> list nat) (t : nat) : Prop :=
  match st with
  | TASK_RUNNING => cur /\ forall q, t ∉ Q q
  | TASK_READY | TASK_CREATED => t ∈ Q ready_queue
  | TASK_SLEEPING => t ∈ Q sleeping_queue
  | TASK_BLOCKED => exists q, q <> ready_queue /\ q <> sleeping_queue /\ t ∈ Q q
  | TASK_EXITED => forall q, t ∉ Q q
  end.

Abbreviation status s t := (pcb_status (pcb s t)).

Record inv (s : kstate) (Q : queue_id -> list nat) (c : nat) : Prop := {
  inv_abs : abs s Q;
  inv_members q t : t ∈ Q q -> (t < NUM_MAX_TASK)%nat;
  inv_cur : current_running s = Some c;
  inv_cur_le : (c <= NUM_MAX_TASK)%nat;
  inv_ok t : (t < NUM_MAX_TASK)%nat -> task_ok (status s t) (t = c) Q t;
  inv_entry t : (t < NUM_MAX_TASK)%nat -> status s t <> TASK_EXITED -> entry_point (pcb s t) <> 0;
  inv_init : entry_point (pcb s NUM_MAX_TASK) = 0;   (* pcb_init *)
}.

(** The state between two kernel calls: a task of the table is running. *)
Definition kinv (s : kstate) (Q : queue_id -> list nat) (c : nat) : Prop :=
  inv s Q c /\ (c < NUM_MAX_TASK)%nat /\ status s c = TASK_RUNNING.

Lemma task_ok_transfer st (cur cur' : Prop) Q Q' t :
  (cur -> cur') -> (forall q, t ∈ Q' q <-> t ∈ Q q) ->
  task_ok st cur Q t -> task_ok st cur' Q' t.
Proof. intros Hc HQ. destruct st; cbn; try setoid_rewrite HQ; tauto. Qed.

Lemma inv_ext s Q Q' c : (forall q, Q q = Q' q) -> inv s Q c -> inv s Q' c.
Proof.
  intros E H. split.
  - eapply abs_ext; [done|]. apply (inv_abs _ _ _ H).
  - intros q t. rewrite <-E. apply (inv_members _ _ _ H).
  - apply (inv_cur _ _ _ H).
  - apply (inv_cur_le _ _ _ H).
  - intros t Ht. apply (task_ok_transfer _ (t = c) _ Q); [done| |by apply (inv_ok _ _ _ H)].
    intros q. by rewrite E.
  - apply (inv_entry _ _ _ H).
  - apply (inv_init _ _ _ H).
Qed.

Lemma task_ok_ready s Q c t :
  inv s Q c -> t ∈ Q ready_queue -> status s t = TASK_READY \/ status s t = TASK_CREATED.
Proof.
  intros H Ht. pose proof (inv_ok _ _ _ H t (inv_members _ _ _ H _ _ Ht)) as Hok.
  pose proof (abs_disj _ _ (inv_abs _ _ _ H)) as Hd.
  destruct (status s t); cbn in Hok; auto; exfalso.
  - destruct Hok as (q & Hq & _ & Hin). by apply Hq, (Hd q ready_queue t).
  - by apply (proj2 Hok ready_queue).
  - by apply (Hok ready_queue).
  - by pose proof (Hd _ _ _ Hok Ht).
Qed.

Section woken.
Context {W : list nat} {s s' : kstate} (HW : woken W s s').

Lemma woken_field {A} (f : pcb_t -> A) t :
  (forall p, f (unlink p) = f p) -> (forall p, f (make_ready p) = f p) ->
  f (pcb s' t) = f (pcb s t).
Proof using HW.
  intros Hu Hm. destruct HW as [_ HP]. rewrite <-(Hu (pcb s' t)), HP, Hu.
  destruct (decide _); auto.
Qed.

Lemma woken_status t :
  status s' t = if decide (t ∈ W) then TASK_READY else status s t.
Proof using HW.
  destruct HW as [_ HP].
  rewrite (unlink_field_eq pcb_status _ _ (HP t)) by done. by destruct (decide _).
Qed.

Lemma woken_rest {A} (f : kstate -> A) : (forall s, f (rest s) = f s) -> f s' = f s.
Proof using HW. intros Hf. destruct HW as [R _]. by rewrite <-Hf, <-R, Hf. Qed.

(** Waking tasks that are in a queue other than the ready queue keeps the
    invariant. *)
Lemma woken_inv Q Q' c :
  inv s Q c -> abs s' Q' ->
  (forall t, t ∈ W -> t ∈ Q' ready_queue) ->
  (forall t, t ∈ W -> status s t <> TASK_RUNNING /\ status s t <> TASK_EXITED) ->
  (forall t q, t ∉ W -> t ∈ Q' q <-> t ∈ Q q) ->
  (forall t, t ∈ W -> exists q, t ∈ Q q) ->
  inv s' Q' c.
Proof using HW.
  intros H H' Hr Hst Hother Hin. split.
  - done.
  - intros q t Ht. destruct (decide (t ∈ W)) as [HtW|HtW].
    + destruct (Hin t HtW) as [q' Hq']. by apply (inv_members _ _ _ H q').
    + apply (inv_members _ _ _ H q). by apply Hother.
  - rewrite (woken_rest current_running) by done. apply (inv_cur _ _ _ H).
  - apply (inv_cur_le _ _ _ H).
  - intros t Ht. rewrite woken_status. destruct (decide (t ∈ W)); [by apply Hr|].
    apply (task_ok_transfer _ (t = c) _ Q); [done|auto|by apply (inv_ok _ _ _ H)].
  - intros t Ht. rewrite woken_status, (woken_field entry_point) by done.
    intros Hs. apply (inv_entry _ _ _ H t Ht). destruct (decide (t ∈ W)); [|done].
    by apply Hst.
  - rewrite (woken_field entry_point) by done. apply (inv_init _ _ _ H).
Qed.
End woken.

Lemma task_ok_queued s Q c q t :
  inv s Q c -> t ∈ Q q -> status s t <> TASK_RUNNING /\ status s t <> TASK_EXITED.
Proof.
  intros H Ht. pose proof (inv_ok _ _ _ H t (inv_members _ _ _ H _ _ Ht)) as Hok.
  split; intros E; rewrite E in Hok; cbn in Hok; [by apply (proj2 Hok q)|by apply (Hok q)].
Qed.

(** Moving one task from a queue to the ready queue keeps the invariant. *)
Lemma wake_inv s s' Q c q x l1 l2 :
  inv s Q c -> Q q = l1 ++ x :: l2 -> q <> ready_queue ->
  abs s' (<[ready_queue := Q ready_queue ++ [x]]> (<[q := l1 ++ l2]> Q)) -> woken [x] s s' ->
  inv s' (<[ready_queue := Q ready_queue ++ [x]]> (<[q := l1 ++ l2]> Q)) c.
Proof.
  intros H EQ Hq H' HW. assert (x ∈ Q q) as Hx by (rewrite EQ; set_solver).
  eapply (woken_inv HW); [done..| | | |].
  - intros t Ht. qcase. set_solver.
  - intros t ->%list_elem_of_singleton. by apply (task_ok_queued s Q c q).
  - intros t q' Ht. qcase; [set_solver|rewrite EQ; set_solver|done].
  - intros t ->%list_elem_of_singleton. eauto.
Qed.

(** ** [do_unblock_one] and [do_unblock_all] *)

Lemma do_unblock_one_spec s Q c q :
  inv s Q c -> q <> ready_queue ->
  match Q q with
  | [] => do_unblock_one q s = Ok (tt, s)
  | x :: l => exists l1 l2 s', x :: l = l1 ++ pick (prio s) x l :: l2
      /\ do_unblock_one q s = Ok (tt, s')
      /\ inv s' (<[ready_queue := Q ready_queue ++ [pick (prio s) x l]]> (<[q := l1 ++ l2]> Q)) c
      /\ woken [pick (prio s) x l] s s'
  end.
Proof.
  intros H Hq. pose proof (inv_abs _ _ _ H) as Ha.
  unfold do_unblock_one, bind, load_queue, gets. rewrite (queue_is_empty_spec _ _ _ Ha).
  destruct (Q q) as [|x l] eqn:EQ; [done|].
  rewrite (pick_queue_spec _ _ _ _ _ Ha EQ).
  destruct (list_elem_of_split _ _ (pick_in (prio s) x l)) as (l1 & l2 & E).
  rewrite <-EQ in E at 1.
  destruct (wake_spec s Q q _ l1 l2 Ha E Hq) as (s1 & s2 & s3 & r & E1 & E2 & E3 & H3 & W).
  exists l1, l2, s3. rewrite E1, E2, E3. split_and!; [by rewrite <-E, EQ|done| |done].
  by apply (wake_inv s).
Qed.

(** What [do_unblock_all] does with the tasks of [q]: all of them become ready
    and are at the end of the ready queue, in some order. *)
Lemma do_unblock_loop_spec fuel s Q c q :
  inv s Q c -> q <> ready_queue -> (length (Q q) < fuel)%nat ->
  exists W s', W ≡ₚ Q q
    /\ while fuel (let! e := queue_is_empty q in ret (negb e)) (do_unblock_one q) s = Ok (tt, s')
    /\ inv s' (<[ready_queue := Q ready_queue ++ W]> (<[q := []]> Q)) c /\ woken W s s'.
Proof.
  revert s Q. induction fuel as [|fuel IH]; intros s Q H Hq Hf; [lia|]. cbn [while].
  rewrite (bind_Ok _ _ _ (match Q q with [] => false | _ => true end) s);
    [|unfold bind; rewrite (queue_is_empty_spec s Q q (inv_abs _ _ _ H)); by destruct (Q q)].
  pose proof (do_unblock_one_spec s Q c q H Hq) as Hone.
  destruct (Q q) as [|x l] eqn:EQ.
  - exists [], s. split_and!; [done..| |].
    + revert H. apply inv_ext. intros q'. by qcase; rewrite ?app_nil_r.
    + split; [done|]. intros t. by rewrite decide_False by set_solver.
  - set (y := pick (prio s) x l) in *.
    destruct Hone as (l1 & l2 & s1 & E & E1 & H1 & W1). rewrite (bind_Ok _ _ _ _ _ E1).
    destruct (IH s1 _ H1 Hq) as (W & s2 & HW & E2 & H2 & W2).
    { qcase. apply (f_equal length) in E. rewrite length_app in *. cbn in *. lia. }
    exists (y :: W), s2. split_and!; [|done| |by eapply woken_cons].
    + rewrite E, HW. qcase. by rewrite Permutation_middle.
    + revert H2. apply inv_ext. intros q'. qcase; rewrite <-?app_assoc; done.
Qed.

Lemma do_unblock_all_spec s Q c q :
  inv s Q c -> q <> ready_queue ->
  exists W s', W ≡ₚ Q q /\ do_unblock_all q s = Ok (tt, s')
    /\ inv s' (<[ready_queue := Q ready_queue ++ W]> (<[q := []]> Q)) c /\ woken W s s'.
Proof.
  intros H Hq. unfold do_unblock_all. apply do_unblock_loop_spec; [done..|].
  apply (abs_length s), (inv_abs _ _ _ H).
Qed.

(** ** The scheduler *)

(** Fields that the invariant does not read may change. *)
Lemma inv_set_fields s Q c t v :
  pcb_prev v = pcb_prev (pcb s t) -> pcb_next v = pcb_next (pcb s t) ->
  ((t < NUM_MAX_TASK)%nat -> pcb_status v = status s t) -> entry_point v = entry_point (pcb s t) ->
  inv s Q c -> inv (set_pcb t v s) Q c.
Proof.
  intros Hp Hn Hs He H.
  assert (forall u, (u < NUM_MAX_TASK)%nat -> status (set_pcb t v s) u = status s u) as Hu.
  { intros u Hlt. destruct (decide (t = u)) as [->|]; autorewrite with kernel; auto. }
  assert (forall u, entry_point (pcb (set_pcb t v s) u) = entry_point (pcb s u)) as Hu'.
  { intros u. destruct (decide (t = u)) as [->|]; autorewrite with kernel; auto. }
  destruct H as [H1 H2 H3 H4 H5 H6 H7]. split; try done.
  - by apply abs_set_fields.
  - intros u Hlt. rewrite (Hu u Hlt). auto.
  - intros u Hlt. rewrite (Hu u Hlt), Hu'. auto.
  - by rewrite Hu'.
Qed.

Lemma inv_stores s s' Q c :
  pcbs s' = pcbs s -> queues s' = queues s -> current_running s' = current_running s ->
  inv s Q c -> inv s' Q c.
Proof.
  intros Hp Hq Hc [H1 H2 H3 H4 H5 H6 H7].
  assert (forall u, pcb s' u = pcb s u) as Hu by (intros u; unfold pcb; by rewrite Hp).
  split; [by eapply abs_stores|done|congruence|done|..].
  - intros u. rewrite Hu. auto.
  - intros u. rewrite Hu. auto.
  - by rewrite Hu.
Qed.

(** [s'] differs from [s] only in fields that no scheduling decision reads. *)
Record same_sched (s s' : kstate) : Prop := {
  ss_prio t : prio s' t = prio s t;
  ss_deadline t : sleeping_deadline (pcb s' t) = sleeping_deadline (pcb s t);
  ss_time : time_elapsed s' = time_elapsed s;
}.
Lemma same_sched_trans s s' s'' : same_sched s s' -> same_sched s' s'' -> same_sched s s''.
Proof. intros [A B C] [D E F]. split; intros; by rewrite ?D, ?E, ?F. Qed.
Lemma same_sched_expired s s' t : same_sched s s' -> expired s' t = expired s t.
Proof. intros [A B C]. unfold expired, get_timer. by rewrite B, C. Qed.
Lemma same_sched_set s t v :
  priority v = priority (pcb s t) -> sleeping_deadline v = sleeping_deadline (pcb s t) ->
  same_sched s (set_pcb t v s).
Proof.
  intros Hp Hd. split; [| |done]; intros u; unfold prio;
    destruct (decide (t = u)) as [->|]; by autorewrite with kernel.
Qed.
Lemma same_sched_links s s' : links_only s s' -> same_sched s s'.
Proof.
  intros L. split; intros; unfold prio; try by apply (links_only_field _ s s' _ L).
  by apply (links_only_rest _ _ L).
Qed.
Lemma same_sched_woken W s s' : woken W s s' -> same_sched s s'.
Proof.
  intros HW. split; intros; unfold prio; try by apply (woken_field HW).
  by apply (woken_rest HW).
Qed.

Lemma pick_ext pr pr' x l : (forall t, pr t = pr' t) -> pick pr x l = pick pr' x l.
Proof.
  intros E. revert x. induction l as [|y l IH]; intros x; cbn; [done|].
  rewrite !E. by destruct (_ <? _).
Qed.

Lemma save_cursor_spec s Q c :
  inv s Q c ->
  exists s', save_cursor s = Ok (tt, s') /\ inv s' Q c /\ same_sched s s'
    /\ forall t, status s' t = status s t.
Proof.
  intros H. unfold save_cursor, bind, gets, store. cbn. rewrite (inv_cur _ _ _ H). cbn.
  eexists. split; [done|]. split_and!.
  - do 2 (apply inv_set_fields; [try intros _; by autorewrite with kernel..|]). done.
  - eapply same_sched_trans; [|apply same_sched_set]; [|by autorewrite with kernel..].
    by apply same_sched_set.
  - intros t. destruct (decide (c = t)) as [->|]; by autorewrite with kernel.
Qed.

(** The ready queue once the current task is back in it. *)
Definition ready_with_current (s : kstate) (Q : queue_id -> list nat) (c : nat) : list nat :=
  if decide (status s c = TASK_RUNNING /\ (c < NUM_MAX_TASK)%nat)
  then Q ready_queue ++ [c] else Q ready_queue.

(** A task that was in no queue is put into one, with a status that fits it. *)
Lemma enlisted_inv s s' Q c x q :
  inv s Q c -> (x < NUM_MAX_TASK)%nat -> (forall q', x ∉ Q q') ->
  abs s' (<[q := Q q ++ [x]]> Q) -> current_running s' = current_running s ->
  (forall t, t <> x -> status s' t = status s t /\ entry_point (pcb s' t) = entry_point (pcb s t)) ->
  entry_point (pcb s' x) <> 0 ->
  task_ok (status s' x) False (<[q := Q q ++ [x]]> Q) x ->
  inv s' (<[q := Q q ++ [x]]> Q) c.
Proof.
  intros H Hx Hnot A Hcur Hoth Hep Hok.
  split; [done| |by rewrite Hcur, (inv_cur _ _ _ H)|apply (inv_cur_le _ _ _ H)|..].
  - intros q' t. qcase; [|apply (inv_members _ _ _ H)].
    intros [Ht| ->%list_elem_of_singleton]%elem_of_app; [by apply (inv_members _ _ _ H q')|done].
  - intros t Ht. destruct (decide (t = x)) as [->|Hne].
    + eapply task_ok_transfer; [|done|exact Hok]. done.
    + rewrite (proj1 (Hoth t Hne)).
      apply (task_ok_transfer _ (t = c) _ Q); [done| |by apply (inv_ok _ _ _ H)].
      intros q'. qcase; set_solver.
  - intros t Ht. destruct (decide (t = x)) as [->|Hne]; [done|].
    destruct (Hoth t Hne) as [-> ->]. by apply (inv_entry _ _ _ H).
  - destruct (Hoth NUM_MAX_TASK) as [_ ->]; [lia|]. apply (inv_init _ _ _ H).
Qed.

(** The current task is in a queue, with a status that fits the queue. *)
Lemma parked_inv s s' Q c q :
  inv s Q c -> (c < NUM_MAX_TASK)%nat -> (forall q', c ∉ Q q') -> status s c <> TASK_EXITED ->
  abs s' (<[q := Q q ++ [c]]> Q) -> current_running s' = Some c ->
  (forall t, t <> c -> status s' t = status s t) ->
  (forall t, entry_point (pcb s' t) = entry_point (pcb s t)) ->
  task_ok (status s' c) False (<[q := Q q ++ [c]]> Q) c ->
  inv s' (<[q := Q q ++ [c]]> Q) c.
Proof.
  intros H Hc Hnot Hex A Hcur Hst Hep Hok. apply (enlisted_inv s); try done; auto.
  - by rewrite Hcur, (inv_cur _ _ _ H).
  - rewrite Hep. by apply (inv_entry _ _ _ H).
Qed.

Lemma park_spec s Q c q v :
  inv s Q c -> (c < NUM_MAX_TASK)%nat -> (forall q', c ∉ Q q') -> status s c <> TASK_EXITED ->
  pcb_prev v = pcb_prev (pcb s c) -> pcb_next v = pcb_next (pcb s c) ->
  entry_point v = entry_point (pcb s c) ->
  task_ok (pcb_status v) False (<[q := Q q ++ [c]]> Q) c ->
  exists s', queue_push q (Some c) (set_pcb c v s) = Ok (tt, s')
    /\ inv s' (<[q := Q q ++ [c]]> Q) c /\ links_only (set_pcb c v s) s'.
Proof.
  intros H Hc Hnot Hex Hp Hn He Hok. pose proof (inv_abs _ _ _ H) as Ha.
  destruct (queue_push_spec (set_pcb c v s) Q q c) as (s' & E & H' & L); [by apply abs_set_fields|done|lia|].
  exists s'. split; [done|]. split; [|done].
  assert (Hf : forall A (f : pcb_t -> A) t, (forall p, f (unlink p) = f p) ->
    f (pcb s' t) = f (pcb (set_pcb c v s) t)) by (intros; by apply (links_only_field _ _ _ _ L)).
  eapply parked_inv; try done.
  - rewrite (links_only_rest _ _ L current_running) by done. apply (inv_cur _ _ _ H).
  - intros t Ht. rewrite Hf by done. by autorewrite with kernel.
  - intros t. rewrite Hf by done. destruct (decide (c = t)) as [<-|]; by autorewrite with kernel.
  - rewrite Hf by done. by autorewrite with kernel.
Qed.

Lemma inv_running s Q c :
  inv s Q c -> (c < NUM_MAX_TASK)%nat -> status s c = TASK_RUNNING -> forall q, c ∉ Q q.
Proof. intros H Hc E. pose proof (inv_ok _ _ _ H c Hc) as Hok. rewrite E in Hok. apply Hok. Qed.

Lemma requeue_current_spec s Q c :
  inv s Q c ->
  exists s', requeue_current s = Ok (tt, s')
    /\ inv s' (<[ready_queue := ready_with_current s Q c]> Q) c
    /\ same_sched s s' /\ ((c < NUM_MAX_TASK)%nat -> status s' c <> TASK_RUNNING).
Proof.
  intros H. unfold requeue_current, ready_with_current, bind, gets, load.
  rewrite (inv_cur _ _ _ H). destruct (decide (status s c = TASK_RUNNING)) as [E|E].
  2: { exists s. rewrite decide_False by tauto. split_and!; [done| |by split|done].
    revert H. apply inv_ext. intros q. by qcase. }
  cbn [store]. rewrite pcb_set_eq. change (entry_point (make_ready ?p)) with (entry_point p).
  destruct (decide (c < NUM_MAX_TASK)%nat) as [Hc|Hc].
  - rewrite decide_True by done.
    destruct (Z.eqb_spec (entry_point (pcb s c)) 0) as [E0|_].
    { exfalso. apply (inv_entry _ _ _ H c Hc); [by rewrite E|done]. }
    destruct (park_spec s Q c ready_queue (make_ready (pcb s c))) as (s' & E' & H' & L);
      [done|done|by apply (inv_running s)|by rewrite E|done..| |].
    { cbn. qcase. set_solver. }
    exists s'. split_and!; [done|done| |].
    + eapply same_sched_trans; [|by apply same_sched_links]. by apply same_sched_set.
    + intros _. rewrite (links_only_field _ _ _ _ L) by done. by rewrite pcb_set_eq.
  - rewrite decide_False by tauto. assert (c = NUM_MAX_TASK) as ->.
    { pose proof (inv_cur_le _ _ _ H). lia. }
    rewrite (inv_init _ _ _ H). cbn. eexists. split; [done|]. split_and!; [|by apply same_sched_set|lia].
    apply (inv_ext _ Q); [intros q; by qcase|]. apply inv_set_fields; [done|done|lia|done|done].
Qed.

(** The tasks that [check_sleeping] moves: none, or the first one whose time has come. *)
Definition woken_sleeper (s : kstate) (l W l' : list nat) : Prop :=
  (W = [] /\ l' = l /\ Forall (fun t => expired s t = false) l) \/
  (exists m1 x m2, W = [x] /\ l = m1 ++ x :: m2 /\ l' = m1 ++ m2 /\ expired s x = true
     /\ Forall (fun t => expired s t = false) m1).

Lemma check_sleeping_inv s Q c :
  inv s Q c ->
  exists r s' W l', check_sleeping s = Ok (r, s') /\ woken_sleeper s (Q sleeping_queue) W l'
    /\ inv s' (<[ready_queue := Q ready_queue ++ W]> (<[sleeping_queue := l']> Q)) c
    /\ same_sched s s' /\ forall t, status s t <> TASK_RUNNING -> status s' t <> TASK_RUNNING.
Proof.
  intros H. destruct (check_sleeping_spec s Q (inv_abs _ _ _ H))
    as [[Hall [r E]]|(m1 & x & m2 & s' & r & EQ & Hx & E & H' & HW & Hm)].
  - exists r, s, [], (Q sleeping_queue). split_and!; [done|by left| |by split|done].
    revert H. apply inv_ext. intros q. by qcase; rewrite ?app_nil_r.
  - exists r, s', [x], (m1 ++ m2). split_and!; [done|right; eauto 8| |by eapply same_sched_woken|].
    + by apply (wake_inv s).
    + intros t. rewrite (woken_status HW). by destruct (decide _).
Qed.

Lemma wait_ready_noop s Q :
  abs s Q -> Q ready_queue <> [] \/ Q sleeping_queue = [] ->
  wait_ready_loop walk_fuel s = Ok (tt, s).
Proof.
  intros H Hor. change walk_fuel with (S (NUM_MAX_TASK + 1)). cbn [wait_ready_loop].
  rewrite (bind_Ok _ _ _ _ _ (queue_is_empty_spec _ _ _ H)). destruct (Q ready_queue); [|done].
  rewrite (bind_Ok _ _ _ _ _ (queue_is_empty_spec _ _ _ H)).
  by destruct Hor as [Hor | ->].
Qed.

(** The loop cannot make progress: the clock stands still while the kernel runs
    with interrupts closed, so a task that is not due now never becomes due. *)
Lemma wait_ready_diverges s Q fuel :
  abs s Q -> Q ready_queue = [] -> Q sleeping_queue <> [] ->
  Forall (fun t => expired s t = false) (Q sleeping_queue) ->
  wait_ready_loop fuel s = Fault Diverges.
Proof.
  intros H Hr Hs Hall.
  assert (exists r, check_sleeping s = Ok (r, s)) as [r E].
  { destruct (check_sleeping_spec s Q H) as [[_ [r E]]|(m1 & y & m2 & s' & r & E & Hy & _)]; [eauto|].
    rewrite E in Hall. apply Forall_app in Hall as [_ [Hno _]%Forall_cons]. congruence. }
  induction fuel as [|fuel IH]; [done|]. cbn [wait_ready_loop].
  rewrite (bind_Ok _ _ _ _ _ (queue_is_empty_spec _ _ _ H)), Hr.
  rewrite (bind_Ok _ _ _ _ _ (queue_is_empty_spec _ _ _ H)).
  destruct (Q sleeping_queue); [done|]. by rewrite (bind_Ok _ _ _ _ _ E).
Qed.

(** Giving the CPU to a task of the ready queue. *)
Lemma running_inv s Q c t l1 l2 s' :
  inv s Q c -> ((c < NUM_MAX_TASK)%nat -> status s c <> TASK_RUNNING) ->
  Q ready_queue = l1 ++ t :: l2 ->
  abs s' (<[ready_queue := l1 ++ l2]> Q) -> current_running s' = Some t ->
  (forall u, status s' u = if decide (u = t) then TASK_RUNNING else status s u) ->
  (forall u, entry_point (pcb s' u) = entry_point (pcb s u)) ->
  kinv s' (<[ready_queue := l1 ++ l2]> Q) t.
Proof.
  intros H Hc EQ A Hcur Hst Hep. set (Q' := <[ready_queue := l1 ++ l2]> Q) in *.
  assert (t ∈ Q ready_queue) as Hin by (rewrite EQ; set_solver).
  pose proof (inv_members _ _ _ H _ _ Hin) as Ht.
  destruct (task_ok_queued _ _ _ _ _ H Hin) as [Hnr Hnex].
  assert (forall u, u <> t -> forall q, u ∈ Q' q <-> u ∈ Q q) as HQ'.
  { intros u Hu q. unfold Q'. qcase; rewrite ?EQ; set_solver. }
  assert (forall q, t ∉ Q' q) as HtQ'.
  { pose proof (inv_abs _ _ _ H) as A0. destruct (abs_queue _ _ A0 ready_queue) as [_ _ Hnd _].
    rewrite EQ in Hnd. apply NoDup_app in Hnd as (_ & Hd & [Hnd _]%NoDup_cons).
    intros q Hq. unfold Q' in Hq. revert Hq. qcase; [set_solver|]. intros Hq.
    by pose proof (abs_disj _ _ A0 _ _ _ Hq Hin). }
  split; [split|split]; [done| |done|lia| | | |done|by rewrite Hst, decide_True].
  - intros q u Hu. apply (inv_members _ _ _ H q). destruct (decide (u = t)) as [->|Hne].
    + by apply HtQ' in Hu.
    + by apply HQ'.
  - intros u Hu. rewrite Hst. destruct (decide (u = t)) as [->|Hne]; [done|].
    pose proof (inv_ok _ _ _ H u Hu) as Hok.
    destruct (decide (status s u = TASK_RUNNING)) as [E|E].
    + rewrite E in Hok. destruct Hok as [-> _]. by destruct (Hc Hu).
    + eapply task_ok_transfer; [|by apply HQ'|].
      * intros Hf. exact Hf.
      * destruct (status s u); try done.
  - intros u Hu. rewrite Hst, Hep. intros Hs. apply (inv_entry _ _ _ H u Hu).
    destruct (decide (u = t)) as [->|]; done.
  - rewrite Hep. apply (inv_init _ _ _ H).
Qed.

(** [current_running->priority--] *)
Definition aged (s : kstate) (c t : nat) : Z :=
  if decide (t = c) then i32 (prio s t - 1) else prio s t.

Lemma switch_to_spec s Q c t l1 l2 :
  inv s Q c -> ((c < NUM_MAX_TASK)%nat -> status s c <> TASK_RUNNING) ->
  Q ready_queue = l1 ++ t :: l2 ->
  exists s', switch_to (Some t) s = Ok (tt, s')
    /\ kinv s' (<[ready_queue := l1 ++ l2]> Q) t
    /\ forall u, prio s' u = aged s c u.
Proof.
  intros H Hc EQ. unfold switch_to, bind, gets, modify, load. rewrite (inv_cur _ _ _ H). cbn [store].
  set (s1 := set_pcb c _ s).
  assert (inv s1 Q c) as H1 by by apply inv_set_fields.
  set (s2 := s1 <| current_running := Some t |>).
  assert (abs s2 Q) as A2 by by apply (abs_stores s1), (inv_abs _ _ _ H1).
  destruct (queue_remove_spec s2 Q ready_queue t A2 l1 l2 EQ) as (s3 & E3 & A3 & L).
  rewrite E3. set (s4 := set_pcb t _ s3).
  eexists. split; [done|].
  assert (Hp : forall A (f : pcb_t -> A) u, (forall p, f (unlink p) = f p) ->
    f (pcb s4 u) = if decide (u = t) then f ((pcb s1 u) <| pcb_status := TASK_RUNNING |>) else f (pcb s1 u)).
  { intros A f u Hf. pose proof (lo_pcb _ _ L u) as E. change (pcb s2 u) with (pcb s1 u) in E.
    unfold s4. rewrite <-Hf. destruct (decide (u = t)) as [->|]; autorewrite with kernel.
    - rewrite <-(Hf ((pcb s1 t) <| pcb_status := TASK_RUNNING |>)). f_equal.
      change ((unlink (pcb s3 t)) <| pcb_status := TASK_RUNNING |> = (unlink (pcb s1 t)) <| pcb_status := TASK_RUNNING |>).
      by rewrite E.
    - rewrite <-E. by rewrite Hf. }
  split.
  - apply (running_inv s1 Q c t l1 l2); [done| |done| | | |].
    + intros Hlt. unfold s1. rewrite pcb_set_eq. by apply Hc.
    + apply (abs_stores s4); [done..|]. by apply abs_set_fields.
    + change (current_running s3 = Some t). by rewrite (links_only_rest _ _ L current_running).
    + intros u. change (pcb _ u) with (pcb s4 u) at 1. rewrite Hp by done. done.
    + intros u. change (pcb _ u) with (pcb s4 u) at 1. rewrite Hp by done. by destruct (decide _).
  - intros u. unfold prio, aged. change (pcb _ u) with (pcb s4 u) at 1. rewrite Hp by done.
    assert (priority (pcb s1 u) = aged s c u) as E.
    { unfold s1, aged, prio. destruct (decide (u = c)) as [->|]; by autorewrite with kernel. }
    by destruct (decide _).
Qed.

(** The search and the switch, once the ready queue is final. *)
Definition choose : M kstate unit :=
  do! wait_ready_loop walk_fuel;
  let! qu := load_queue ready_queue in
  let! next := pick_loop walk_fuel (q_head qu) (q_tail qu) in
  switch_to next.

Lemma scheduler_prefix s Q c :
  inv s Q c ->
  exists W l' s', woken_sleeper s (Q sleeping_queue) W l' /\ scheduler s = choose s'
    /\ inv s' (<[ready_queue := ready_with_current s Q c ++ W]> (<[sleeping_queue := l']> Q)) c
    /\ same_sched s s' /\ ((c < NUM_MAX_TASK)%nat -> status s' c <> TASK_RUNNING).
Proof.
  intros H. destruct (save_cursor_spec s Q c H) as (s1 & E1 & H1 & S1 & St1).
  destruct (requeue_current_spec s1 Q c H1) as (s2 & E2 & H2 & S2 & Hc2).
  assert (ready_with_current s1 Q c = ready_with_current s Q c) as ER.
  { unfold ready_with_current. by rewrite St1. }
  rewrite ER in H2. destruct (check_sleeping_inv s2 _ c H2) as (r & s3 & W & l' & E3 & HW & H3 & S3 & Hst).
  pose proof (same_sched_trans _ _ _ S1 S2) as S12. exists W, l', s3. split_and!.
  - revert HW. unfold woken_sleeper. setoid_rewrite (same_sched_expired s s2); [|done..]. by qcase.
  - unfold scheduler. rewrite (bind_Ok _ _ _ _ _ E1), (bind_Ok _ _ _ _ _ E2).
    by rewrite (bind_Ok _ _ _ _ _ E3).
  - revert H3. apply inv_ext. intros q. by qcase.
  - by eapply same_sched_trans.
  - auto.
Qed.

(** ** What the scheduler leaves alone *)

Definition core (p : pcb_t) : pcb_t :=
  p <| pcb_prev := None |> <| pcb_next := None |> <| pcb_status := TASK_BLOCKED |>
    <| priority := 0 |> <| cursor_x := 0 |> <| cursor_y := 0 |>.
Definition outer (s : kstate) : kstate :=
  s <| pcbs := ∅ |> <| queues := ∅ |> <| current_running := None |>
    <| screen_cursor_x := 0 |> <| screen_cursor_y := 0 |>.
Record sched_frame (s s' : kstate) : Prop := {
  sf_core t : core (pcb s' t) = core (pcb s t);
  sf_outer : outer s' = outer s;
}.
#[export] Instance sched_frame_preorder : PreOrder sched_frame.
Proof.
  split; [by intros s; split|]. intros s s' s'' [A B] [C D]. split; [|congruence].
  intros t. by rewrite C.
Qed.

Lemma sched_frame_field {A} (f : pcb_t -> A) s s' t :
  sched_frame s s' -> (forall p, f (core p) = f p) -> f (pcb s' t) = f (pcb s t).
Proof. intros [H _] Hf. by rewrite <-(Hf (pcb s' t)), H, Hf. Qed.
Lemma sched_frame_outer {A} (f : kstate -> A) s s' :
  sched_frame s s' -> (forall s, f (outer s) = f s) -> f s' = f s.
Proof. intros [_ H] Hf. by rewrite <-(Hf s'), H, Hf. Qed.

Lemma sched_frame_set_pcb t v s : core v = core (pcb s t) -> sched_frame s (set_pcb t v s).
Proof.
  intros H. split; [|done]. intros u.
  destruct (decide (t = u)) as [->|]; by autorewrite with kernel.
Qed.

Lemma keeps_load {A} p (f : pcb_t -> A) R `{!PreOrder R} : keeps R (load p f).
Proof. intros s a s'. unfold load. destruct p; [|done]. intros [= _ <-]. reflexivity. Qed.
Lemma keeps_store p f : (forall v, core (f v) = core v) -> keeps sched_frame (store p f).
Proof.
  intros Hf s a s'. unfold store. destruct p; [|done]. intros [= _ <-].
  by apply sched_frame_set_pcb.
Qed.
Lemma keeps_load_queue q R `{!PreOrder R} : keeps R (load_queue q).
Proof. apply keeps_gets. exact _. Qed.
Lemma keeps_store_queue q v : keeps sched_frame (store_queue q v).
Proof. apply keeps_modify. by split. Qed.
#[export] Hint Resolve keeps_load keeps_load_queue keeps_store_queue : keeps.
#[export] Hint Extern 1 (keeps sched_frame (store _ _)) => (by apply keeps_store) : keeps.
#[export] Hint Extern 1 (keeps sched_frame (modify _)) => (by apply keeps_modify) : keeps.

Lemma keeps_queue_is_empty q : keeps sched_frame (queue_is_empty q).
Proof. unfold queue_is_empty. keeps_auto. Qed.
Lemma keeps_queue_push q x : keeps sched_frame (queue_push q x).
Proof. unfold queue_push. keeps_auto. Qed.
Lemma keeps_queue_remove q x : keeps sched_frame (queue_remove q x).
Proof. unfold queue_remove. keeps_auto. Qed.
Lemma keeps_queue_dequeue q : keeps sched_frame (queue_dequeue q).
Proof. unfold queue_dequeue. keeps_auto. Qed.
#[export] Hint Resolve keeps_queue_is_empty keeps_queue_push keeps_queue_remove keeps_queue_dequeue : keeps.
Lemma keeps_check_sleeping : keeps sched_frame check_sleeping.
Proof.
  unfold check_sleeping. keeps_auto.
  match goal with |- keeps _ (check_sleeping_loop ?n ?t ?p) => generalize p; induction n end;
    intros p; cbn [check_sleeping_loop]; keeps_auto.
Qed.
Lemma keeps_pick_loop fuel a b : keeps sched_frame (pick_loop fuel a b).
Proof. revert a. induction fuel; intros a; cbn [pick_loop]; keeps_auto. Qed.
#[export] Hint Resolve keeps_check_sleeping keeps_pick_loop : keeps.
Lemma keeps_wait_ready fuel : keeps sched_frame (wait_ready_loop fuel).
Proof. induction fuel; cbn [wait_ready_loop]; keeps_auto. Qed.
#[export] Hint Resolve keeps_wait_ready : keeps.
Lemma keeps_scheduler : keeps sched_frame scheduler.
Proof. unfold scheduler, save_cursor, requeue_current, switch_to. keeps_auto. Qed.
Lemma keeps_do_unblock_one q : keeps sched_frame (do_unblock_one q).
Proof. unfold do_unblock_one. keeps_auto. Qed.
#[export] Hint Resolve keeps_scheduler keeps_do_unblock_one : keeps.
Lemma keeps_do_unblock_all q : keeps sched_frame (do_unblock_all q).
Proof. unfold do_unblock_all. keeps_auto. Qed.
#[export] Hint Resolve keeps_do_unblock_all : keeps.

(** The three ways [scheduler] can end.  A task is ready (possibly the current
    one, possibly a sleeper that is due): the end of the first increasing run of
    priorities of the ready queue gets the CPU.  Nobody is ready but somebody
    sleeps: the wait loop never ends, whatever its fuel.  Nobody is ready or
    sleeping: the head of the empty ready queue is dereferenced. *)
Lemma scheduler_spec s Q c :
  inv s Q c ->
  exists W l', woken_sleeper s (Q sleeping_queue) W l' /\
  match ready_with_current s Q c ++ W with
  | x :: l =>
      let t := pick (prio s) x l in
      exists l1 l2 s', x :: l = l1 ++ t :: l2 /\ scheduler s = Ok (tt, s')
        /\ kinv s' (<[ready_queue := l1 ++ l2]> (<[sleeping_queue := l']> Q)) t
        /\ (forall u, prio s' u = aged s c u)
  | [] => scheduler s = Fault (match Q sleeping_queue with [] => NullDeref | _ => Diverges end)
  end.
Proof.
  intros H. destruct (scheduler_prefix s Q c H) as (W & l' & s3 & HW & E & H3 & S3 & Hc).
  exists W, l'. split; [done|]. rewrite E. clear E. unfold choose.
  set (RW := ready_with_current s Q c ++ W) in *. set (Q3 := <[ready_queue := RW]> _) in *.
  assert (Q3 ready_queue = RW) as EQ3 by by (unfold Q3; qcase).
  assert (Q3 sleeping_queue = l') as EQ3s by by (unfold Q3; qcase).
  pose proof (inv_abs _ _ _ H3) as A3. destruct RW as [|x l] eqn:ERW.
  - apply app_eq_nil in ERW as [ER0 ->]. destruct HW as [(_ & -> & Hall)|(? & ? & ? & [=] & _)].
    destruct (Q sleeping_queue) as [|y m] eqn:EQsl.
    + rewrite (bind_Ok _ _ _ _ _ (wait_ready_noop s3 Q3 A3 (or_intror EQ3s))).
      destruct (abs_queue _ _ A3 ready_queue) as [Hh Ht _ _]. rewrite EQ3 in Hh, Ht. cbn in Hh, Ht.
      unfold load_queue, gets, bind. rewrite Hh, Ht. change walk_fuel with (S (NUM_MAX_TASK + 1)).
      cbn [pick_loop]. rewrite decide_True by done. cbn. by rewrite (inv_cur _ _ _ H3).
    + unfold bind. rewrite (wait_ready_diverges s3 Q3); [done..|by rewrite EQ3s|].
      rewrite EQ3s. eapply Forall_impl; [exact Hall|]. cbn. intros t. by rewrite (same_sched_expired s s3).
  - destruct (list_elem_of_split _ _ (pick_in (prio s) x l)) as (l1 & l2 & E).
    assert (Q3 ready_queue <> []) as Hne by by rewrite EQ3.
    exists l1, l2. rewrite (bind_Ok _ _ _ _ _ (wait_ready_noop s3 Q3 A3 (or_introl Hne))).
    unfold load_queue, gets, bind. rewrite (pick_queue_spec s3 Q3 _ _ _ A3 EQ3).
    rewrite (pick_ext (prio s3) (prio s)) by apply S3.
    destruct (switch_to_spec s3 Q3 c (pick (prio s) x l) l1 l2) as (s4 & E4 & H4 & Hp4); [done|auto|congruence|].
    exists s4. split_and!; [done|done| |].
    + destruct H4 as [H4 Hrun]. split; [|done]. revert H4. apply inv_ext.
      intros q. unfold Q3, insert, fn_insert. repeat case_decide; congruence.
    + intros u. rewrite Hp4. unfold aged. by rewrite (ss_prio _ _ S3).
Qed.

(** Somebody can run: a task is ready, or a sleeper is due. *)
Definition runnable (s : kstate) (Q : queue_id -> list nat) : Prop :=
  Q ready_queue <> [] \/ exists t, t ∈ Q sleeping_queue /\ expired s t = true.

(** The result of giving up the CPU when the current task is parked. *)
Definition switched (s : kstate) (Q : queue_id -> list nat) (o : outcome (unit * kstate)) : Prop :=
  (runnable s Q /\ exists t s' Q', o = Ok (tt, s') /\ kinv s' Q' t
     /\ (t ∈ Q ready_queue \/ t ∈ Q sleeping_queue /\ expired s t = true)
     /\ (forall q, q <> ready_queue -> q <> sleeping_queue -> Q' q = Q q)
     /\ sched_frame s s')
  \/ (~ runnable s Q /\ o = Fault (match Q sleeping_queue with [] => NullDeref | _ => Diverges end)).

Lemma woken_sleeper_due s l W l' t :
  woken_sleeper s l W l' -> t ∈ W -> t ∈ l /\ expired s t = true.
Proof. intros [(-> & _)|(m1 & x & m2 & -> & -> & -> & Hx)] Ht; set_solver. Qed.

Lemma woken_sleeper_none s l l' :
  woken_sleeper s l [] l' -> forall t, t ∈ l -> expired s t = false.
Proof.
  intros [(_ & _ & Hall)|(m1 & x & m2 & [=] & _)] t. rewrite Forall_forall in Hall. apply Hall.
Qed.

Lemma scheduler_parked s Q c :
  inv s Q c -> status s c <> TASK_RUNNING -> switched s Q (scheduler s).
Proof.
  intros H Hc. destruct (scheduler_spec s Q c H) as (W & l' & HW & Hs).
  assert (ready_with_current s Q c = Q ready_queue) as ER.
  { unfold ready_with_current. by rewrite decide_False by tauto. }
  rewrite ER in Hs. destruct (Q ready_queue ++ W) as [|x l] eqn:ERW.
  - right. split; [|done]. apply app_eq_nil in ERW as [EQ ->].
    intros [Hne|(t & Ht & He)]; [done|].
    pose proof (woken_sleeper_none _ _ _ HW t Ht). congruence.
  - left. destruct Hs as (l1 & l2 & s' & E & Es & Hk & _).
    assert (forall t, t ∈ x :: l -> t ∈ Q ready_queue \/ t ∈ Q sleeping_queue /\ expired s t = true) as Hin.
    { intros t. rewrite <-ERW. intros [Ht|Ht]%elem_of_app; [by left|right].
      by eapply woken_sleeper_due. }
    split.
    + destruct (Hin x) as [Hx|Hx]; [set_solver| |right; eauto].
      left. intros E0. rewrite E0 in Hx. set_solver.
    + exists (pick (prio s) x l), s', (<[ready_queue := l1 ++ l2]> (<[sleeping_queue := l']> Q)).
      split_and!; [done|done|apply Hin, pick_in| |by eapply keeps_scheduler].
      intros q H1 H2. by qcase.
Qed.

(** ** [do_sleep] and [do_block] *)

Lemma do_scheduler_eq s Q c r :
  inv s Q c ->
  do_scheduler r s = scheduler (s <| suspended := <[c := r]> (suspended s) |>).
Proof. intros H. unfold do_scheduler, bind, gets. by rewrite (inv_cur _ _ _ H). Qed.

(** Blocking puts the running task at the end of [q]. *)
Lemma block_on_spec s Q c q :
  kinv s Q c -> q <> ready_queue -> q <> sleeping_queue ->
  exists s', block_on q s = Ok (tt, s') /\ inv s' (<[q := Q q ++ [c]]> Q) c
    /\ status s' c = TASK_BLOCKED /\ sched_frame s s' /\ same_sched s s'
    /\ forall t, t <> c -> status s' t = status s t.
Proof.
  intros (H & Hc & Hrun) Hq Hq'. unfold block_on, bind, gets. rewrite (inv_cur _ _ _ H). cbn [store].
  destruct (park_spec s Q c q ((pcb s c) <| pcb_status := TASK_BLOCKED |>)) as (s' & E & H' & L);
    [done|done|by apply (inv_running s)|by rewrite Hrun|done..| |].
  { exists q. qcase. set_solver. }
  exists s'. split_and!; [done|done| | | |].
  - rewrite (links_only_field _ _ _ _ L) by done. by rewrite pcb_set_eq.
  - etrans; [|by eapply (keeps_queue_push _ _ _ _ _ E)]. by apply sched_frame_set_pcb.
  - eapply same_sched_trans; [|by apply same_sched_links]. by apply same_sched_set.
  - intros t Ht. rewrite (links_only_field _ _ _ _ L) by done. by autorewrite with kernel.
Qed.

Lemma do_block_spec s Q c q r :
  kinv s Q c -> q <> ready_queue -> q <> sleeping_queue ->
  exists s1, do_block q r s = scheduler s1 /\ inv s1 (<[q := Q q ++ [c]]> Q) c
    /\ status s1 c = TASK_BLOCKED /\ sched_frame (s <| suspended := <[c := r]> (suspended s) |>) s1
    /\ same_sched s s1.
Proof.
  intros HK Hq Hq'. destruct (block_on_spec s Q c q HK Hq Hq') as (s' & E & H' & Hst & F & S & _).
  destruct HK as (H & Hc & Hrun).
  eexists. split; [|split].
  - unfold do_block at 1, bind at 1 2, gets, load. rewrite (inv_cur _ _ _ H), decide_True by done.
    rewrite (bind_Ok _ _ _ _ _ E). exact (do_scheduler_eq s' _ c _ H').
  - by apply (inv_stores s').
  - split_and!; [done| |by destruct S; split].
    split; [apply (sf_core _ _ F)|]. pose proof (sf_outer _ _ F) as Eo.
    change ((outer s') <| suspended := <[c := r]> (suspended (outer s')) |>
      = (outer s) <| suspended := <[c := r]> (suspended (outer s)) |>). by rewrite Eo.
Qed.

Lemma switched_transfer s s1 Q o :
  same_sched s s1 -> sched_frame s s1 -> switched s1 Q o -> switched s Q o.
Proof.
  intros S F. unfold switched, runnable. setoid_rewrite (same_sched_expired s s1); [|done..].
  intros [(Hr & t & s' & Q' & -> & Hk & Ht & HQ & F')|[Hn ->]]; [left|by right].
  split; [done|]. exists t, s', Q'. split_and!; try done. by etrans.
Qed.

(** The state after [do_sleep] has queued the current task. *)
Lemma do_sleep_spec s Q c n :
  kinv s Q c ->
  exists s1, do_sleep n s = scheduler s1 /\ inv s1 (<[sleeping_queue := Q sleeping_queue ++ [c]]> Q) c
    /\ status s1 c = TASK_SLEEPING /\ sleeping_deadline (pcb s1 c) = u32 (get_timer s + n)
    /\ time_elapsed s1 = time_elapsed s
    /\ outer s1 = outer (s <| suspended := <[c := R_return]> (suspended s) |>)
    /\ forall t, t <> c -> sleeping_deadline (pcb s1 t) = sleeping_deadline (pcb s t) /\ status s1 t = status s t.
Proof.
  intros (H & Hc & Hrun).
  set (v := (pcb s c) <| pcb_status := TASK_SLEEPING |> <| sleeping_deadline := u32 (get_timer s + n) |>).
  destruct (park_spec s Q c sleeping_queue v) as (s' & E & H' & L);
    [done|done|by apply (inv_running s)|by rewrite Hrun|done..| |].
  { cbn. qcase. set_solver. }
  eexists. split; [|split].
  - unfold do_sleep, bind at 1 2, gets, load. rewrite (inv_cur _ _ _ H), decide_True by done.
    rewrite (bind_Ok _ _ _ tt s'); [exact (do_scheduler_eq s' _ c _ H')|].
    unfold bind. cbn [store]. rewrite pcb_set_eq. unfold set_pcb at 1. cbn. rewrite insert_insert_eq.
    exact E.
  - by apply (inv_stores s').
  - assert (Hf : forall A (f : pcb_t -> A) t, (forall p, f (unlink p) = f p) ->
      f (pcb s' t) = f (pcb (set_pcb c v s) t)) by (intros; by apply (links_only_field _ _ _ _ L)).
    split_and!.
    + etrans; [by apply (Hf _ pcb_status)|]. by rewrite pcb_set_eq.
    + etrans; [by apply (Hf _ sleeping_deadline)|]. by rewrite pcb_set_eq.
    + by apply (links_only_rest _ _ L time_elapsed).
    + pose proof (links_only_rest _ _ L outer) as Eo.
      change ((outer s') <| suspended := <[c := R_return]> (suspended (outer s')) |>
        = (outer s) <| suspended := <[c := R_return]> (suspended (outer s)) |>). by rewrite Eo.
    + intros t Ht. split; [etrans; [by apply (Hf _ sleeping_deadline)|]|etrans; [by apply (Hf _ pcb_status)|]];
        by autorewrite with kernel.
Qed.
