(* ===== verification/Sync.v ===== *)
(** The locks of kernel/locking: spin locks, mutexes, condition variables,
    semaphores and barriers.

    A lock, condition, semaphore or barrier is a number; its fields are entries
    of the maps of [kstate] and its queue is a [queue_id].  A task that blocks
    inside [do_mutex_lock_acquire] or [do_condition_wait] goes on, when it runs
    again, with the test of the [while] loop of [do_mutex_lock_acquire]; this is
    [resume]. *)

From S2P Require Import Prelude Kernel Queue Sched.

(** ** Operations *)

(** *** lock.c *)

Definition spin_lock_init (l : nat) : M kstate unit :=
  modify (fun s => s <| lock_status := <[l := UNLOCKED]> (lock_status s) |>).
(** [while(LOCKED == lock->status) {}]: nothing changes the status while the
    loop runs. *)
Definition spin_lock_acquire (fuel : nat) (l : nat) : M kstate unit :=
  do! while fuel (gets (fun s => bool_decide (lock_status s !!! l = LOCKED))) (ret tt);
  modify (fun s => s <| lock_status := <[l := LOCKED]> (lock_status s) |>).
Definition spin_lock_release (l : nat) : M kstate unit :=
  modify (fun s => s <| lock_status := <[l := UNLOCKED]> (lock_status s) |>).

Definition do_mutex_lock_init (l : nat) : M kstate unit :=
  do! modify (fun s => s <| lock_status := <[l := UNLOCKED]> (lock_status s) |>);
  queue_init (mutex_lock_queue l).

(** The search for a free entry of [current_running->lock]: [None] when the
    index reaches [LOCK_MAX_NUM]. *)
Fixpoint free_slot (locks : list (option nat)) (i : nat) : option nat :=
  match locks with
  | [] => None
  | None :: _ => Some i
  | Some _ :: r => free_slot r (S i)
  end.
Definition record_lock (l : nat) (p : pcb_t) : pcb_t :=
  match free_slot (pcb_lock p) 0 with
  | Some i => p <| pcb_lock := <[i := Some l]> (pcb_lock p) |> <| lock_num := i32 (lock_num p + 1) |>
  | None => p
  end.
Definition do_mutex_lock_acquire (l : nat) : M kstate unit :=
  let! st := gets (fun s => lock_status s !!! l) in
  if decide (st = LOCKED) then do_block (mutex_lock_queue l) (R_mutex_lock_acquire l)
  else
    do! modify (fun s => s <| lock_status := <[l := LOCKED]> (lock_status s) |>);
    let! cur := gets current_running in
    store cur (record_lock l).

(** The inner loop of [do_mutex_lock_release] on the PCB of one waiter. *)
Fixpoint clear_slots (fuel : nat) (l i : nat) (p : pcb_t) : pcb_t :=
  match fuel with
  | O => p
  | S fuel' =>
      if decide (pcb_lock p !! i = Some (Some l)) then p
      else if decide (LOCK_MAX_NUM <= S i)%nat then p
      else clear_slots fuel' l (S i)
             (p <| pcb_lock := <[S i := None]> (pcb_lock p) |> <| lock_num := i32 (lock_num p - 1) |>)
  end.
Fixpoint clear_waiters (fuel : nat) (l : nat) (head : option nat) : M kstate unit :=
  match fuel with
  | O => throw Diverges
  | S fuel' =>
      match head with
      | None => ret tt
      | Some _ =>
          do! store head (clear_slots LOCK_MAX_NUM l 0);
          let! nx := load head pcb_next in
          clear_waiters fuel' l nx
      end
  end.
Definition do_mutex_lock_release (l : nat) : M kstate unit :=
  let! st := gets (fun s => lock_status s !!! l) in
  if decide (st = LOCKED) then
    do! modify (fun s => s <| lock_status := <[l := UNLOCKED]> (lock_status s) |>);
    let! qu := load_queue (mutex_lock_queue l) in
    do! clear_waiters walk_fuel l (q_head qu);
    do_unblock_all (mutex_lock_queue l)
  else ret tt.

(** The continuation of the task that was just scheduled. *)
Definition resume : M kstate unit :=
  let! cur := gets current_running in
  match cur with
  | None => throw NullDeref
  | Some c =>
      let! r := gets (fun s => suspended s !!! c) in
      do! modify (fun s => s <| suspended := <[c := R_return]> (suspended s) |>);
      match r with
      | R_return => ret tt
      | R_mutex_lock_acquire l => do_mutex_lock_acquire l
      end
  end.

(** *** cond.c *)

Definition do_condition_init (i : nat) : M kstate unit := queue_init (condition_queue i).
Definition do_condition_wait (l i : nat) : M kstate unit :=
  let! cur := gets current_running in
  do! queue_push (condition_queue i) cur;
  do! store cur (fun p => p <| pcb_status := TASK_BLOCKED |>);
  do! do_mutex_lock_release l;
  do_scheduler (R_mutex_lock_acquire l).
Definition do_condition_signal (i : nat) : M kstate unit :=
  let! e := queue_is_empty (condition_queue i) in
  if e then ret tt else wake_first (condition_queue i).
Definition do_condition_broadcast (i : nat) : M kstate unit :=
  while walk_fuel
    (let! e := queue_is_empty (condition_queue i) in ret (negb e))
    (wake_first (condition_queue i)).

(** *** sem.c *)

Definition do_semaphore_init (i : nat) (val : Z) : M kstate unit :=
  do! modify (fun s => s <| sem_value := <[i := val]> (sem_value s) |>);
  queue_init (semaphore_queue i).
Definition do_semaphore_up (i : nat) : M kstate unit :=
  let! e := queue_is_empty (semaphore_queue i) in
  if e then modify (fun s => s <| sem_value := <[i := i32 (sem_value s !!! i + 1)]> (sem_value s) |>)
  else wake_first (semaphore_queue i).
Definition do_semaphore_down (i : nat) : M kstate unit :=
  let! v := gets (fun s => sem_value s !!! i) in
  if v =? 0 then
    do! block_on (semaphore_queue i);
    do_scheduler R_return
  else modify (fun s => s <| sem_value := <[i := i32 (sem_value s !!! i - 1)]> (sem_value s) |>).

(** *** barrier.c *)

Definition do_barrier_init (i : nat) (goal : Z) : M kstate unit :=
  do! modify (fun s => s <| max_num := <[i := goal]> (max_num s) |>);
  do! modify (fun s => s <| not_arrive_num := <[i := goal]> (not_arrive_num s) |>);
  queue_init (barrier_queue i).
Definition do_barrier_wait (i : nat) : M kstate unit :=
  let! n := gets (fun s => not_arrive_num s !!! i) in
  if n =? 1 then
    do! clear_waiting_queue (barrier_queue i);
    modify (fun s => s <| not_arrive_num := <[i := max_num s !!! i]> (not_arrive_num s) |>)
  else
    do! modify (fun s => s <| not_arrive_num := <[i := i32 (not_arrive_num s !!! i - 1)]> (not_arrive_num s) |>);
    do! block_on (barrier_queue i);
    do_scheduler R_return.

(** ** Mutex release *)

Lemma clear_slots_field {A} (f : pcb_t -> A) n l i p :
  (forall p x y, f (p <| pcb_lock := x |> <| lock_num := y |>) = f p) ->
  f (clear_slots n l i p) = f p.
Proof.
  intros Hf. revert i p. induction n as [|n IH]; intros i p; cbn [clear_slots]; [done|].
  repeat case_decide; try done. rewrite IH. apply Hf.
Qed.

Lemma clear_slots_length n l i p : length (pcb_lock (clear_slots n l i p)) = length (pcb_lock p).
Proof.
  revert i p. induction n as [|n IH]; intros i p; cbn [clear_slots]; [done|].
  repeat case_decide; try done. rewrite IH. apply length_insert.
Qed.
Lemma record_lock_length l p : length (pcb_lock (record_lock l p)) = length (pcb_lock p).
Proof. unfold record_lock. destruct (free_slot _ _); [apply length_insert|done]. Qed.

#[local] Opaque clear_slots.

(** What the walk over the waiters of [l] does to each of them. *)
Definition cleared (l : nat) (m : list nat) (s : kstate) (t : nat) : pcb_t :=
  if decide (t ∈ m) then clear_slots LOCK_MAX_NUM l 0 (pcb s t) else pcb s t.

Lemma clear_waiters_spec s Q c q l m1 m2 fuel :
  inv s Q c -> Q q = m1 ++ m2 -> (length m2 < fuel)%nat ->
  exists s', clear_waiters fuel l (head m2) s = Ok (tt, s') /\ inv s' Q c /\ rest s' = rest s
    /\ forall t, pcb s' t = cleared l m2 s t.
Proof.
  revert s m1 fuel. induction m2 as [|x m2 IH]; intros s m1 [|fuel] H EQ Hf; cbn in Hf; try lia.
  { exists s. split_and!; [done..|]. intros t. unfold cleared. by rewrite decide_False by set_solver. }
  cbn [clear_waiters head]. unfold bind. cbn [store load]. rewrite pcb_set_eq.
  assert (forall p, pcb_next (clear_slots LOCK_MAX_NUM l 0 p) = pcb_next p) as Hn
    by (intros; by apply clear_slots_field).
  destruct (abs_queue _ _ (inv_abs _ _ _ H) q) as [_ _ Hnd Hl]. rewrite EQ in Hnd, Hl.
  apply NoDup_app in Hnd as (_ & _ & [Hx _]%NoDup_cons). apply lseg_app in Hl as [_ (_ & Hnx & _)].
  rewrite Hn, Hnx. assert (first_or m2 None = head m2) as -> by by destruct m2.
  set (s1 := set_pcb x _ s).
  assert (inv s1 Q c) as H1 by (apply inv_set_fields; try done; intros; by apply clear_slots_field).
  destruct (IH s1 (m1 ++ [x]) fuel H1) as (s' & E & H' & R & HP); [by rewrite <-app_assoc|lia|].
  exists s'. split_and!; [done|done|by rewrite R|]. intros t. rewrite HP. unfold cleared, s1.
  destruct (decide (t = x)) as [->|].
  - rewrite decide_False by done. rewrite decide_True by set_solver. by rewrite pcb_set_eq.
  - autorewrite with kernel. destruct (decide (t ∈ m2)).
    + by rewrite decide_True by set_solver.
    + by rewrite decide_False by set_solver.
Qed.

(** What the mutexes leave alone: everything but links, statuses, priorities,
    recorded locks and the scheduling globals. *)
Definition lcore (p : pcb_t) : pcb_t := (core p) <| pcb_lock := [] |> <| lock_num := 0 |>.
Definition louter (s : kstate) : kstate := (outer s) <| lock_status := ∅ |>.
Record lock_frame (s s' : kstate) : Prop := {
  lf_core t : lcore (pcb s' t) = lcore (pcb s t);
  lf_outer : louter s' = louter s;
}.
#[export] Instance lock_frame_preorder : PreOrder lock_frame.
Proof.
  split; [by intros s; split|]. intros s s' s'' [A B] [C D]. split; [|congruence].
  intros t. by rewrite C.
Qed.
Lemma lock_frame_sched s s' : sched_frame s s' -> lock_frame s s'.
Proof.
  intros [A B]. split; [|unfold louter; by rewrite B]. intros t. unfold lcore. by rewrite A.
Qed.
Lemma lock_frame_field {A} (f : pcb_t -> A) s s' t :
  lock_frame s s' -> (forall p, f (lcore p) = f p) -> f (pcb s' t) = f (pcb s t).
Proof. intros [H _] Hf. by rewrite <-(Hf (pcb s' t)), H, Hf. Qed.
Lemma lock_frame_outer {A} (f : kstate -> A) s s' :
  lock_frame s s' -> (forall s, f (louter s) = f s) -> f s' = f s.
Proof. intros [_ H] Hf. by rewrite <-(Hf s'), H, Hf. Qed.

(** A release wakes every waiter of the lock and nobody else. *)
Record released (l : nat) (W : list nat) (s s' : kstate) : Prop := {
  rel_status t : status s' t = if decide (t ∈ W) then TASK_READY else status s t;
  rel_sched : same_sched s s';
  rel_lock : lock_status s' = <[l := UNLOCKED]> (lock_status s);
  rel_frame : lock_frame s s';
  rel_locks t : t ∉ W -> pcb_lock (pcb s' t) = pcb_lock (pcb s t);
}.

Lemma do_mutex_lock_release_spec s Q c l :
  inv s Q c -> lock_status s !!! l = LOCKED ->
  exists W s', W ≡ₚ Q (mutex_lock_queue l) /\ do_mutex_lock_release l s = Ok (tt, s')
    /\ inv s' (<[ready_queue := Q ready_queue ++ W]> (<[mutex_lock_queue l := []]> Q)) c
    /\ released l W s s'.
Proof.
  intros H Hl. unfold do_mutex_lock_release, bind, gets, modify. rewrite Hl, decide_True by done.
  set (s1 := s <| lock_status := _ |>). assert (inv s1 Q c) as H1 by by apply (inv_stores s).
  unfold load_queue, gets. destruct (abs_queue _ _ (inv_abs _ _ _ H1) (mutex_lock_queue l)) as [-> _ _ _].
  destruct (clear_waiters_spec s1 Q c (mutex_lock_queue l) l [] (Q (mutex_lock_queue l)) walk_fuel)
    as (s2 & E2 & H2 & R2 & P2); [done..|by apply (abs_length s), (inv_abs _ _ _ H)|].
  rewrite E2. destruct (do_unblock_all_spec s2 Q c (mutex_lock_queue l) H2) as (W & s3 & HW & E3 & H3 & W3); [done|].
  exists W, s3. split_and!; [done..|].
  assert (Hf : forall A (f : pcb_t -> A) t, (forall p x y, f (p <| pcb_lock := x |> <| lock_num := y |>) = f p) ->
    f (pcb s2 t) = f (pcb s t)).
  { intros A f t Hf. rewrite P2. unfold cleared. case_decide; [|done]. by apply clear_slots_field. }
  split.
  - intros t. rewrite (woken_status W3). case_decide; [done|]. by apply (Hf _ pcb_status).
  - eapply same_sched_trans; [|by eapply same_sched_woken]. split; [..|by apply (f_equal time_elapsed R2)].
    + intros t. by apply (Hf _ priority).
    + intros t. by apply (Hf _ sleeping_deadline).
  - rewrite (woken_rest W3 lock_status) by done. by apply (f_equal lock_status R2).
  - etrans; [|by eapply lock_frame_sched, keeps_do_unblock_all]. split.
    + intros t. by apply (Hf _ lcore).
    + apply (f_equal louter R2).
  - intros t Ht. rewrite (woken_field W3 pcb_lock), P2 by done. unfold cleared.
    by rewrite decide_False by by rewrite <-HW.
Qed.

(** ** The invariant of the synchronisation primitives

    A lock that is free has no waiters, a semaphore with a non-zero value has
    none either, a barrier counts the tasks that are still missing, and a task
    that waits for a mutex will test its status again. *)

Record sync_inv (s : kstate) (Q : queue_id -> list nat) : Prop := {
  si_mutex l : lock_status s !!! l = UNLOCKED -> Q (mutex_lock_queue l) = [];
  si_sem i : sem_value s !!! i <> 0 -> Q (semaphore_queue i) = [];
  si_barrier i : 0 < max_num s !!! i < 2 ^ 31 ->
    not_arrive_num s !!! i = max_num s !!! i - Z.of_nat (length (Q (barrier_queue i)))
    /\ 1 <= not_arrive_num s !!! i;
  si_retry l t : t ∈ Q (mutex_lock_queue l) -> suspended s !!! t = R_mutex_lock_acquire l;
}.

Definition kernel_inv (s : kstate) (Q : queue_id -> list nat) (c : nat) : Prop :=
  kinv s Q c /\ sync_inv s Q.

(** The invariant reads only these components, and only the queues of mutexes,
    semaphores and barriers. *)
Definition sync_queue (q : queue_id) : bool :=
  match q with mutex_lock_queue _ | semaphore_queue _ | barrier_queue _ => true | _ => false end.

Lemma sync_inv_queues s s' Q Q' :
  lock_status s' = lock_status s -> sem_value s' = sem_value s -> max_num s' = max_num s ->
  not_arrive_num s' = not_arrive_num s ->
  (forall l t, t ∈ Q' (mutex_lock_queue l) -> suspended s' !!! t = suspended s !!! t) ->
  (forall q, sync_queue q = true -> Q' q = Q q) ->
  sync_inv s Q -> sync_inv s' Q'.
Proof.
  intros E1 E2 E3 E4 E5 HQ [A B C D]. split.
  - intros l. rewrite E1, HQ by done. apply A.
  - intros i. rewrite E2, HQ by done. apply B.
  - intros i. rewrite E3, E4, HQ by done. apply C.
  - intros l t Ht. rewrite (E5 l t Ht). rewrite HQ in Ht by done. by apply D.
Qed.

Lemma sync_inv_transfer s s' Q Q' :
  lock_status s' = lock_status s -> sem_value s' = sem_value s -> max_num s' = max_num s ->
  not_arrive_num s' = not_arrive_num s ->
  (forall l t, t ∈ Q' (mutex_lock_queue l) -> suspended s' !!! t = suspended s !!! t) ->
  (forall q, q <> ready_queue -> q <> sleeping_queue -> Q' q = Q q) ->
  sync_inv s Q -> sync_inv s' Q'.
Proof. intros E1 E2 E3 E4 E5 HQ. apply sync_inv_queues; try done. intros q Hq. apply HQ; by intros ->. Qed.

Lemma sync_inv_woken W s s' Q Q' :
  woken W s s' -> (forall q, sync_queue q = true -> Q' q = Q q) -> sync_inv s Q -> sync_inv s' Q'.
Proof.
  intros HW HQ. apply sync_inv_queues; try done; try by apply (woken_rest HW).
  intros _ t _. by rewrite (woken_rest HW suspended).
Qed.

(** The outcome of a switch, with the whole invariant. *)
Lemma switched_kernel s Q o :
  switched s Q o -> sync_inv s Q ->
  (runnable s Q /\ exists t s' Q', o = Ok (tt, s') /\ kernel_inv s' Q' t
     /\ (t ∈ Q ready_queue \/ t ∈ Q sleeping_queue /\ expired s t = true)
     /\ (forall q, q <> ready_queue -> q <> sleeping_queue -> Q' q = Q q)
     /\ sched_frame s s')
  \/ (~ runnable s Q /\ o = Fault (match Q sleeping_queue with [] => NullDeref | _ => Diverges end)).
Proof.
  intros [(Hr & t & s' & Q' & -> & Hk & Ht & HQ & F)|Hn] Hs; [left|by right].
  split; [done|]. exists t, s', Q'. split_and!; try done. split; [done|].
  revert Hs. apply sync_inv_transfer; try done; try by apply (sched_frame_outer _ _ _ F).
  intros _ u _. by rewrite (sched_frame_outer suspended _ _ F).
Qed.

(** Waking the first task of a condition, semaphore or barrier queue. *)
Lemma wake_first_inv s Q c q x l :
  kinv s Q c -> Q q = x :: l -> q <> ready_queue ->
  exists s', wake_first q s = Ok (tt, s')
    /\ kinv s' (<[ready_queue := Q ready_queue ++ [x]]> (<[q := l]> Q)) c /\ woken [x] s s'.
Proof.
  intros (H & Hc & Hrun) EQ Hq.
  destruct (wake_first_spec s Q q x l (inv_abs _ _ _ H) EQ Hq) as (s' & E & A & W).
  exists s'. split_and!; [done| |done]. split_and!; [|done|].
  - by apply (wake_inv s s' Q c q x [] l).
  - rewrite (woken_status W). rewrite decide_False; [done|].
    intros ->%list_elem_of_singleton. apply (inv_running s Q x H Hc Hrun q). rewrite EQ. set_solver.
Qed.

Lemma clear_waiting_queue_inv s Q c q :
  kinv s Q c -> q <> ready_queue ->
  exists s', clear_waiting_queue q s = Ok (tt, s')
    /\ kinv s' (<[ready_queue := Q ready_queue ++ Q q]> (<[q := []]> Q)) c /\ woken (Q q) s s'.
Proof.
  intros (H & Hc & Hrun) Hq.
  destruct (clear_waiting_queue_spec s Q q (inv_abs _ _ _ H) Hq) as (s' & E & A & W).
  exists s'. split_and!; [done| |done]. split_and!; [|done|].
  - eapply (woken_inv W); [done..| | | |].
    + intros t Ht. qcase. set_solver.
    + intros t Ht. by apply (task_ok_queued s Q c q).
    + intros t q' Ht. qcase; set_solver.
    + eauto.
  - rewrite (woken_status W), decide_False; [done|]. by apply (inv_running s).
Qed.

(** ** Each operation keeps the invariant *)

(** Semaphores. *)
Lemma do_semaphore_up_spec s Q c i :
  kernel_inv s Q c ->
  match Q (semaphore_queue i) with
  | [] => exists s', do_semaphore_up i s = Ok (tt, s') /\ kernel_inv s' Q c
      /\ sem_value s' !!! i = i32 (sem_value s !!! i + 1)
  | x :: l => exists s', do_semaphore_up i s = Ok (tt, s')
      /\ kernel_inv s' (<[ready_queue := Q ready_queue ++ [x]]> (<[semaphore_queue i := l]> Q)) c
      /\ sem_value s' = sem_value s /\ status s' x = TASK_READY
  end.
Proof.
  intros [HK HS]. pose proof HK as (H & Hc & Hrun). unfold do_semaphore_up.
  rewrite (bind_Ok _ _ _ _ _ (queue_is_empty_spec _ _ _ (inv_abs _ _ _ H))).
  destruct (Q (semaphore_queue i)) as [|x l] eqn:EQ.
  - eexists. split; [done|]. split; [split; [split_and!|]|].
    + by apply (inv_stores s).
    + done.
    + done.
    + destruct HS as [A B C D]. split; [done| |done..]. intros j. cbn. intros Hj.
      destruct (decide (i = j)) as [<-|]; [done|]. rewrite lookup_total_insert_ne in Hj by done. by apply B.
    + cbn. by rewrite lookup_total_insert_eq.
  - destruct (wake_first_inv s Q c (semaphore_queue i) x l HK EQ) as (s' & E & HK' & W); [done|].
    exists s'. split_and!; [done|split; [done|]|by apply (woken_rest W sem_value)|].
    + destruct HS as [A B C D]. split.
      * intros j. rewrite (woken_rest W lock_status) by done. qcase. apply A.
      * intros j. rewrite (woken_rest W sem_value) by done. intros Hj. qcase; [|by apply B].
        exfalso. specialize (B _ Hj). congruence.
      * intros j. rewrite (woken_rest W max_num), (woken_rest W not_arrive_num) by done. qcase. apply C.
      * intros j t. rewrite (woken_rest W suspended) by done. qcase. apply D.
    + rewrite (woken_status W). by rewrite decide_True by set_solver.
Qed.

(** Blocking on a queue: the current task is at the end of [q], another one
    runs, nothing else changed; or nobody could run. *)
Definition with_resume (c : nat) (r : resume_point) (s : kstate) : kstate :=
  s <| suspended := <[c := r]> (suspended s) |>.
Definition idle_fault (Q : queue_id -> list nat) : fault :=
  match Q sleeping_queue with [] => NullDeref | _ => Diverges end.
Definition blocks (s : kstate) (Q : queue_id -> list nat) (c : nat) (q : queue_id)
    (r : resume_point) (o : outcome (unit * kstate)) : Prop :=
  (runnable s Q /\ exists t s' Q', o = Ok (tt, s') /\ kernel_inv s' Q' t /\ t <> c
     /\ (t ∈ Q ready_queue \/ t ∈ Q sleeping_queue /\ expired s t = true)
     /\ (forall q', q' <> ready_queue -> q' <> sleeping_queue -> Q' q' = (<[q := Q q ++ [c]]> Q) q')
     /\ status s' c = TASK_BLOCKED /\ sched_frame (with_resume c r s) s')
  \/ (~ runnable s Q /\ o = Fault (idle_fault Q)).

Lemma queued_blocked s Q c q t :
  inv s Q c -> t ∈ Q q -> q <> ready_queue -> q <> sleeping_queue -> status s t = TASK_BLOCKED.
Proof.
  intros H Ht H1 H2. pose proof (inv_ok _ _ _ H t (inv_members _ _ _ H _ _ Ht)) as Hok.
  pose proof (abs_disj _ _ (inv_abs _ _ _ H)) as Hd.
  destruct (status s t); cbn in Hok; try done; exfalso.
  - by apply (proj2 Hok q).
  - by pose proof (Hd _ _ _ Ht Hok).
  - by apply (Hok q).
  - by pose proof (Hd _ _ _ Ht Hok).
  - by pose proof (Hd _ _ _ Ht Hok).
Qed.

(** A task that is parked in [q] by a computation that ends in the scheduler. *)
Lemma parked_blocks s s1 Q c q r :
  inv s1 (<[q := Q q ++ [c]]> Q) c -> status s1 c = TASK_BLOCKED -> same_sched s s1 ->
  sched_frame (with_resume c r s) s1 -> q <> ready_queue -> q <> sleeping_queue ->
  sync_inv s1 (<[q := Q q ++ [c]]> Q) ->
  blocks s Q c q r (scheduler s1).
Proof.
  intros H1 Hst S F Hq Hq' HS.
  assert (scheduler_ok : switched s1 (<[q := Q q ++ [c]]> Q) (scheduler s1))
    by (apply (scheduler_parked _ _ c); [done|by rewrite Hst]).
  assert (Er : (<[q := Q q ++ [c]]> Q) ready_queue = Q ready_queue) by by qcase.
  assert (Es : (<[q := Q q ++ [c]]> Q) sleeping_queue = Q sleeping_queue) by by qcase.
  destruct (switched_kernel _ _ _ scheduler_ok HS) as [(Hr & t & s' & Q' & E & HK & Ht & HQ & F')|[Hn E]];
    unfold runnable in *; rewrite ?Er, ?Es in *; setoid_rewrite (same_sched_expired s s1) in Hr || setoid_rewrite (same_sched_expired s s1) in Hn; try done.
  - left. split; [done|]. exists t, s', Q'. rewrite (same_sched_expired s s1) in Ht by done.
    assert (c ∈ Q' q) as Hc by (rewrite HQ by done; qcase; set_solver).
    destruct HK as [(HI & Hlt & Hrun) HS'].
    pose proof (queued_blocked _ _ _ _ _ HI Hc Hq Hq') as Hb.
    split_and!; try done; [|by etrans]. intros ->. congruence.
  - right. by rewrite E.
Qed.

Lemma block_on_blocks s Q c q r :
  kinv s Q c -> q <> ready_queue -> q <> sleeping_queue ->
  sync_inv (with_resume c r s) (<[q := Q q ++ [c]]> Q) ->
  blocks s Q c q r ((do! block_on q; do_scheduler r) s).
Proof.
  intros HK Hq Hq' HS. destruct (do_block_spec s Q c q r HK Hq Hq') as (s1 & E & H1 & Hst & F & S).
  assert ((do! block_on q; do_scheduler r) s = scheduler s1) as ->.
  { destruct HK as (H & Hc & Hrun). revert E. unfold do_block, bind at 1 2, gets, load.
    by rewrite (inv_cur _ _ _ H), decide_True by done. }
  apply parked_blocks; try done. revert HS. 
  apply sync_inv_transfer; try done; try by apply (sched_frame_outer _ _ _ F).
  intros _ u _. by rewrite (sched_frame_outer suspended _ _ F).
Qed.

Lemma do_block_blocks s Q c q r :
  kinv s Q c -> q <> ready_queue -> q <> sleeping_queue ->
  sync_inv (with_resume c r s) (<[q := Q q ++ [c]]> Q) ->
  blocks s Q c q r (do_block q r s).
Proof.
  intros HK Hq Hq' HS. pose proof (block_on_blocks s Q c q r HK Hq Hq' HS) as HB.
  destruct HK as (H & Hc & Hrun). unfold do_block, bind at 1 2, gets, load.
  by rewrite (inv_cur _ _ _ H), decide_True by done.
Qed.

Lemma sync_resume s Q c r :
  kinv s Q c -> sync_inv s Q -> sync_inv (with_resume c r s) Q.
Proof.
  intros (H & Hc & Hrun). apply sync_inv_transfer; try done.
  intros l t Ht. cbn. rewrite lookup_total_insert_ne; [done|].
  intros ->. by apply (inv_running s Q t H Hc Hrun (mutex_lock_queue l)).
Qed.

Lemma do_semaphore_down_spec s Q c i :
  kernel_inv s Q c ->
  if decide (sem_value s !!! i = 0)
  then blocks s Q c (semaphore_queue i) R_return (do_semaphore_down i s)
  else exists s', do_semaphore_down i s = Ok (tt, s') /\ kernel_inv s' Q c
    /\ sem_value s' !!! i = i32 (sem_value s !!! i - 1).
Proof.
  intros [HK HS]. unfold do_semaphore_down. case_decide as E; rewrite (bind_Ok _ _ _ _ _ eq_refl).
  - rewrite (proj2 (Z.eqb_eq _ _) E). apply block_on_blocks; [done..|].
    destruct (sync_resume s Q c R_return HK HS) as [A B C D]. split.
    + intros l. qcase. apply A.
    + intros j Hj. qcase; [|by apply B]. exfalso. apply Hj. by simplify_eq.
    + intros j. qcase. apply C.
    + intros l t. qcase. apply D.
  - rewrite (proj2 (Z.eqb_neq _ _) E). destruct HK as (H & Hc & Hrun).
    eexists. split; [done|]. split; [split; [split_and!|]|].
    + by apply (inv_stores s).
    + done.
    + done.
    + destruct HS as [A B C D]. split; [done| |done..]. intros j. cbn. intros Hj.
      destruct (decide (i = j)) as [<-|]; [by apply B|]. rewrite lookup_total_insert_ne in Hj by done. by apply B.
    + cbn. by rewrite lookup_total_insert_eq.
Qed.

(** Barriers. *)
Lemma do_barrier_wait_spec s Q c i :
  kernel_inv s Q c -> 0 < max_num s !!! i < 2 ^ 31 ->
  if decide (not_arrive_num s !!! i = 1)
  then exists s', do_barrier_wait i s = Ok (tt, s')
    /\ kernel_inv s' (<[ready_queue := Q ready_queue ++ Q (barrier_queue i)]> (<[barrier_queue i := []]> Q)) c
    /\ not_arrive_num s' !!! i = max_num s !!! i
    /\ forall t, t ∈ Q (barrier_queue i) -> status s' t = TASK_READY
  else blocks (s <| not_arrive_num := <[i := not_arrive_num s !!! i - 1]> (not_arrive_num s) |>)
         Q c (barrier_queue i) R_return (do_barrier_wait i s).
Proof.
  intros [HK HS] Hmax. unfold do_barrier_wait. destruct (si_barrier _ _ HS i Hmax) as [Hna Hge].
  case_decide as E; rewrite (bind_Ok _ _ _ _ _ eq_refl).
  - rewrite (proj2 (Z.eqb_eq _ _) E). destruct (clear_waiting_queue_inv s Q c (barrier_queue i) HK) as (s1 & E1 & (H1 & Hc1 & Hrun1) & W); [done|].
    rewrite (bind_Ok _ _ _ _ _ E1). eexists. split; [done|]. split; [split; [split_and!|]|split].
    + by apply (inv_stores s1).
    + done.
    + done.
    + destruct HS as [A B C D].
      split; cbn; intros j; rewrite ?(woken_rest W lock_status), ?(woken_rest W sem_value),
        ?(woken_rest W max_num), ?(woken_rest W not_arrive_num), ?(woken_rest W suspended) by done.
      * qcase. apply A.
      * qcase. apply B.
      * destruct (decide (i = j)) as [<-|Hij].
        -- rewrite lookup_total_insert_eq. qcase. cbn. lia.
        -- rewrite lookup_total_insert_ne by done. qcase. apply C.
      * intros t. qcase. apply D.
    + cbn. rewrite lookup_total_insert_eq. by rewrite (woken_rest W max_num).
    + intros t Ht. change (status s1 t = TASK_READY). rewrite (woken_status W). by rewrite decide_True.
  - rewrite (proj2 (Z.eqb_neq _ _) E), (bind_Ok _ _ _ _ _ eq_refl). rewrite i32_small by lia. set (s1 := s <| not_arrive_num := _ |>).
    assert (kinv s1 Q c) as HK1 by (destruct HK as (H & ? & ?); split_and!; [by apply (inv_stores s)|done..]).
    apply block_on_blocks; [done..|]. pose proof (sync_resume s Q c R_return HK HS) as [A B C D].
    split; cbn.
    + intros l. qcase. apply A.
    + intros j. qcase. apply B.
    + intros j Hj. destruct (decide (i = j)) as [<-|].
      * rewrite lookup_total_insert_eq. qcase. rewrite length_app. cbn. lia.
      * rewrite lookup_total_insert_ne by done. qcase. by apply C.
    + intros l t. qcase. apply D.
Qed.

(** Mutexes: taking a free one, waiting for a taken one. *)
Lemma record_lock_field {A} (f : pcb_t -> A) l p :
  (forall p x y, f (p <| pcb_lock := x |> <| lock_num := y |>) = f p) -> f (record_lock l p) = f p.
Proof. intros Hf. unfold record_lock. destruct (free_slot _ _); [apply Hf|done]. Qed.

Lemma do_mutex_lock_acquire_spec s Q c l :
  kernel_inv s Q c ->
  match lock_status s !!! l with
  | UNLOCKED => exists s', do_mutex_lock_acquire l s = Ok (tt, s') /\ kernel_inv s' Q c
      /\ lock_status s' = <[l := LOCKED]> (lock_status s)
      /\ pcb s' c = record_lock l (pcb s c) /\ (forall t, t <> c -> pcb s' t = pcb s t)
      /\ lock_frame s s'
  | LOCKED => blocks s Q c (mutex_lock_queue l) (R_mutex_lock_acquire l) (do_mutex_lock_acquire l s)
  end.
Proof.
  intros [HK HS]. pose proof HK as (H & Hc & Hrun).
  unfold do_mutex_lock_acquire. destruct (lock_status s !!! l) eqn:El;
    rewrite (bind_Ok _ _ _ _ _ eq_refl), El.
  - rewrite decide_False by done. rewrite (bind_Ok _ _ _ _ _ eq_refl). unfold bind. cbn.
    rewrite (inv_cur _ _ _ H). cbn.
    set (s1 := set_pcb c _ _). assert (Hf : forall A (f : pcb_t -> A),
      (forall p x y, f (p <| pcb_lock := x |> <| lock_num := y |>) = f p) -> f (pcb s1 c) = f (pcb s c)).
    { intros A f Hf. unfold s1. rewrite pcb_set_eq. by apply record_lock_field. }
    exists s1. split_and!; [done|split; [split_and!|]|done| | |].
    + apply inv_set_fields; [intros; by apply record_lock_field..|]. by apply (inv_stores s).
    + done.
    + etrans; [by apply (Hf _ pcb_status)|done].
    + destruct HS as [A B C D]. split; [|done..]. intros l'. cbn. intros Hl'.
      destruct (decide (l = l')) as [<-|]; [by rewrite lookup_total_insert_eq in Hl'|].
      rewrite lookup_total_insert_ne in Hl' by done. by apply A.
    + apply pcb_set_eq.
    + intros t Ht. unfold s1. by autorewrite with kernel.
    + split; [|done]. intros t. destruct (decide (t = c)) as [->|]; [by apply (Hf _ lcore)|].
      unfold s1. by autorewrite with kernel.
  - rewrite decide_True by done. apply do_block_blocks; [done..|].
    pose proof (sync_resume s Q c (R_mutex_lock_acquire l) HK HS) as [A B C D]. split; cbn.
    + intros l' Hl'. destruct (decide (l = l')) as [<-|]; [congruence|]. qcase. by apply A.
    + intros j. qcase. apply B.
    + intros j. qcase. apply C.
    + intros l' t Ht. destruct (decide (t = c)) as [->|Hne].
      * rewrite lookup_total_insert_eq. revert Ht. qcase.
        intros Ht. by apply (inv_running s Q c H Hc Hrun) in Ht.
      * apply D. revert Ht. qcase; simplify_eq; set_solver.
Qed.

(** Release, on a lock in either state: afterwards the lock is free and its
    queue empty; its waiters are ready. *)
Lemma do_mutex_lock_release_inv s Q c l :
  inv s Q c -> sync_inv s Q ->
  exists W s', W ≡ₚ Q (mutex_lock_queue l) /\ do_mutex_lock_release l s = Ok (tt, s')
    /\ inv s' (<[ready_queue := Q ready_queue ++ W]> (<[mutex_lock_queue l := []]> Q)) c
    /\ sync_inv s' (<[ready_queue := Q ready_queue ++ W]> (<[mutex_lock_queue l := []]> Q))
    /\ (forall t, status s' t = if decide (t ∈ W) then TASK_READY else status s t)
    /\ same_sched s s' /\ lock_frame s s'
    /\ (forall t, t ∉ W -> pcb_lock (pcb s' t) = pcb_lock (pcb s t))
    /\ (forall l', lock_status s' !!! l' = if decide (l = l') then UNLOCKED else lock_status s !!! l').
Proof.
  intros H HS. destruct (lock_status s !!! l) eqn:El.
  - pose proof (si_mutex _ _ HS l El) as EQ. exists [], s.
    assert (forall q, Q q = (<[ready_queue := Q ready_queue ++ []]> (<[mutex_lock_queue l := []]> Q)) q) as HQ.
    { intros q. by qcase; rewrite ?app_nil_r. }
    split_and!; [by rewrite EQ| |by apply (inv_ext _ Q)| | |done|done|done|].
    + unfold do_mutex_lock_release. by rewrite (bind_Ok _ _ _ _ _ eq_refl), El.
    + revert HS. apply sync_inv_transfer; try done.
    + intros t. by rewrite decide_False by set_solver.
    + intros l'. case_decide; by subst.
  - destruct (do_mutex_lock_release_spec s Q c l H El) as (W & s' & HW & E & H' & [R1 R2 R3 R4 R5]).
    exists W, s'. split_and!; try done.
    + destruct HS as [A B C D].
      split; intros j; rewrite ?R3, ?(lock_frame_outer sem_value _ _ R4), ?(lock_frame_outer max_num _ _ R4),
        ?(lock_frame_outer not_arrive_num _ _ R4), ?(lock_frame_outer suspended _ _ R4) by done.
      * intros Hj. destruct (decide (l = j)) as [<-|Hne]; [by qcase|].
        rewrite lookup_total_insert_ne in Hj by done. qcase. by apply A.
      * qcase. apply B.
      * qcase. apply C.
      * intros t Ht. apply D. revert Ht. qcase; set_solver.
    + intros l'. rewrite R3. case_decide; subst; [by rewrite lookup_total_insert_eq|].
      by rewrite lookup_total_insert_ne.
Qed.

(** Condition variables. *)
Lemma do_condition_signal_spec s Q c i :
  kernel_inv s Q c ->
  exists s', do_condition_signal i s = Ok (tt, s') /\
  match Q (condition_queue i) with
  | [] => s' = s
  | x :: l => kernel_inv s' (<[ready_queue := Q ready_queue ++ [x]]> (<[condition_queue i := l]> Q)) c
      /\ woken [x] s s'
  end.
Proof.
  intros [HK HS]. pose proof HK as (H & Hc & Hrun). unfold do_condition_signal.
  rewrite (bind_Ok _ _ _ _ _ (queue_is_empty_spec _ _ _ (inv_abs _ _ _ H))).
  destruct (Q (condition_queue i)) as [|x l] eqn:EQ; [by exists s|].
  destruct (wake_first_inv s Q c (condition_queue i) x l HK EQ) as (s' & E & HK' & W); [done|].
  exists s'. split_and!; [done|split; [done|]|done].
  revert HS. apply (sync_inv_woken _ _ _ _ _ W). intros q Hq. by qcase.
Qed.

Lemma do_condition_broadcast_spec s Q c i :
  kernel_inv s Q c ->
  exists s', do_condition_broadcast i s = Ok (tt, s')
    /\ kernel_inv s' (<[ready_queue := Q ready_queue ++ Q (condition_queue i)]> (<[condition_queue i := []]> Q)) c
    /\ woken (Q (condition_queue i)) s s'.
Proof.
  intros [HK HS]. change (do_condition_broadcast i) with (clear_waiting_queue (condition_queue i)).
  destruct (clear_waiting_queue_inv s Q c (condition_queue i) HK) as (s' & E & HK' & W); [done|].
  exists s'. split_and!; [done|split; [done|]|done].
  revert HS. apply (sync_inv_woken _ _ _ _ _ W). intros q Hq. by qcase.
Qed.

(** The first two statements of [do_condition_wait]: the task is queued before
    its status changes. *)
Lemma condition_parked s Q c i :
  kernel_inv s Q c ->
  let Q1 := <[condition_queue i := Q (condition_queue i) ++ [c]]> Q in
  exists s2, (do! queue_push (condition_queue i) (Some c);
              store (Some c) (fun p => p <| pcb_status := TASK_BLOCKED |>)) s = Ok (tt, s2)
    /\ inv s2 Q1 c /\ sync_inv s2 Q1 /\ same_sched s s2 /\ sched_frame s s2
    /\ status s2 c = TASK_BLOCKED.
Proof.
  intros [HK HS] Q1. pose proof HK as (H & Hc & Hrun). pose proof (inv_running s Q c H Hc Hrun) as Hnot.
  destruct (queue_push_spec s Q (condition_queue i) c) as (s1 & E1 & A1 & L1); [apply H|done|lia|].
  set (s2 := set_pcb c ((pcb s1 c) <| pcb_status := TASK_BLOCKED |>) s1). exists s2.
  assert (sched_frame s s2) as F.
  { etrans; [by eapply (keeps_queue_push _ _ _ _ _ E1)|]. by apply sched_frame_set_pcb. }
  split_and!; [by rewrite (bind_Ok _ _ _ _ _ E1)| | | |done|unfold s2; by rewrite pcb_set_eq].
  - apply (parked_inv s); try done.
    + by rewrite Hrun.
    + by apply abs_set_fields.
    + etrans; [by apply (links_only_rest _ _ L1 current_running)|apply H].
    + intros t Ht. unfold s2. autorewrite with kernel. by apply (links_only_field _ _ _ _ L1).
    + intros t. by apply (sched_frame_field _ _ _ _ F).
    + unfold s2. rewrite pcb_set_eq. exists (condition_queue i). qcase. set_solver.
  - revert HS. apply sync_inv_queues; try by apply (sched_frame_outer _ _ _ F).
    + intros _ t _. by rewrite (sched_frame_outer suspended _ _ F).
    + intros q Hq. unfold Q1. by qcase.
  - eapply same_sched_trans; [by apply same_sched_links|]. by apply same_sched_set.
Qed.

(** [do_condition_wait]: the lock is free, its waiters are ready, the caller is
    the last task of the condition's queue and will take the lock again.  The
    caller can only be stuck when nobody else can run. *)
Lemma do_condition_wait_spec s Q c l i :
  kernel_inv s Q c ->
  (runnable s Q \/ Q (mutex_lock_queue l) <> []) /\ (exists t s' Q',
     do_condition_wait l i s = Ok (tt, s') /\ kernel_inv s' Q' t /\ t <> c
     /\ status s' c = TASK_BLOCKED /\ Q' (condition_queue i) = Q (condition_queue i) ++ [c]
     /\ Q' (mutex_lock_queue l) = [] /\ lock_status s' !!! l = UNLOCKED
     /\ suspended s' !!! c = R_mutex_lock_acquire l
     /\ (forall t, Q' (waiting_queue t) = Q (waiting_queue t)))
  \/ ~ (runnable s Q \/ Q (mutex_lock_queue l) <> []) /\ do_condition_wait l i s = Fault (idle_fault Q).
Proof.
  intros HKI. destruct (condition_parked s Q c i HKI) as (s2 & E2 & H2 & S2 & SS2 & F2 & Hst2).
  set (Q1 := <[condition_queue i := _]> Q) in *.
  destruct (do_mutex_lock_release_inv s2 Q1 c l H2 S2)
    as (W & s3 & HW & E3 & H3 & S3 & St3 & SS3 & F3 & _ & L3).
  set (Q3 := <[ready_queue := Q1 ready_queue ++ W]> _) in *.
  set (s4 := with_resume c (R_mutex_lock_acquire l) s3).
  assert (do_condition_wait l i s = scheduler s4) as ->.
  { destruct HKI as [(H & _) _]. unfold do_condition_wait, bind at 1, gets. rewrite (inv_cur _ _ _ H).
    revert E2. unfold bind. destruct (queue_push _ _ s) as [[[] s1]|]; [|done]. intros ->.
    rewrite E3. apply (do_scheduler_eq _ _ _ _ H3). }
  assert (c ∈ Q3 (condition_queue i)) as Hin by (unfold Q3, Q1; qcase; set_solver).
  assert (status s4 c = TASK_BLOCKED) as Hst4.
  { by apply (queued_blocked _ _ _ _ _ H3 Hin). }
  assert (switched s4 Q3 (scheduler s4)) as Hsw.
  { apply (scheduler_parked _ _ c); [by apply (inv_stores s3)|by rewrite Hst4]. }
  assert (sync_inv s4 Q3) as S4.
  { revert S3. apply sync_inv_transfer; try done. intros l' t Ht. cbn. rewrite lookup_total_insert_ne; [done|].
    intros <-. by pose proof (abs_disj _ _ (inv_abs _ _ _ H3) _ _ _ Ht Hin). }
  assert (Hrun : runnable s4 Q3 <-> runnable s Q \/ Q (mutex_lock_queue l) <> []).
  { unfold runnable. setoid_rewrite (same_sched_expired s3 s4); [|by split].
    setoid_rewrite (same_sched_expired s2 s3); [|done]. setoid_rewrite (same_sched_expired s s2); [|done].
    replace (Q3 sleeping_queue) with (Q sleeping_queue) by (unfold Q3, Q1; by qcase).
    replace (Q3 ready_queue) with (Q ready_queue ++ W) by (unfold Q3, Q1; by qcase).
    replace (Q1 (mutex_lock_queue l)) with (Q (mutex_lock_queue l)) in HW by (unfold Q1; by qcase).
    assert (W = [] <-> Q (mutex_lock_queue l) = []) as HW0
      by (split; intros E; rewrite E in HW; [by apply Permutation_nil_l in HW|by apply Permutation_nil_r in HW]).
    destruct (Q ready_queue); cbn; [|naive_solver]. rewrite HW0. naive_solver. }
  rewrite <-Hrun. destruct (switched_kernel _ _ _ Hsw S4) as [(Hr & t & s' & Q' & -> & HK' & Ht & HQ & F')|[Hn ->]].
  - left. split; [done|]. exists t, s', Q'.
    assert (Q' (condition_queue i) = Q (condition_queue i) ++ [c]) as EQ'.
    { rewrite HQ by done. unfold Q3, Q1. by qcase. }
    assert (status s' c = TASK_BLOCKED) as Hb.
    { eapply queued_blocked; [apply HK'|rewrite EQ'; set_solver|done..]. }
    split_and!; try done.
    + intros ->. destruct HK' as [(_ & _ & Hr') _]. congruence.
    + rewrite HQ by done. unfold Q3. by qcase.
    + rewrite (sched_frame_outer lock_status _ _ F') by done. cbn. by rewrite L3, decide_True.
    + rewrite (sched_frame_outer suspended _ _ F') by done. cbn. by rewrite lookup_total_insert_eq.
    + intros u. rewrite HQ by done. unfold Q3, Q1. by qcase.
  - right. split; [done|]. unfold idle_fault. unfold Q3, Q1. by qcase.
Qed.

(** Going on where the scheduled task stopped. *)
Lemma resume_spec s Q c :
  kernel_inv s Q c ->
  kernel_inv (with_resume c R_return s) Q c /\
  resume s = match suspended s !!! c with
             | R_return => Ok (tt, with_resume c R_return s)
             | R_mutex_lock_acquire l => do_mutex_lock_acquire l (with_resume c R_return s)
             end.
Proof.
  intros [HK HS]. split; [split|].
  - destruct HK as (H & ? & ?). split_and!; [by apply (inv_stores s)|done..].
  - by apply sync_resume.
  - unfold resume. rewrite (bind_Ok _ _ _ _ _ eq_refl), (inv_cur _ _ _ (proj1 HK)).
    rewrite (bind_Ok _ _ _ _ _ eq_refl), (bind_Ok _ _ _ _ _ eq_refl). by destruct (suspended s !!! c).
Qed.

(** ** Initialisation

    The initialisers keep the invariant as long as nobody waits on the object:
    they forget the waiters of a queue. *)

Lemma queue_init_inv s Q c q : Q q = [] -> inv s Q c -> inv (set_queue q (mk_queue None None) s) Q c.
Proof. intros EQ [H1 H2 H3 H4 H5 H6 H7]. split; try done. by apply abs_queue_init. Qed.

Lemma do_mutex_lock_init_spec s Q c l :
  kernel_inv s Q c -> Q (mutex_lock_queue l) = [] ->
  exists s', do_mutex_lock_init l s = Ok (tt, s') /\ kernel_inv s' Q c
    /\ lock_status s' !!! l = UNLOCKED.
Proof.
  intros [(H & Hc & Hrun) HS] EQ. eexists. split; [done|].
  split; [split; [split_and!|]|cbn; by rewrite lookup_total_insert_eq]; try done.
  - apply queue_init_inv; [done|]. by apply (inv_stores s).
  - destruct HS as [A B C D]. split; try done. cbn. intros l' Hl'.
    destruct (decide (l = l')) as [<-|]; [done|]. rewrite lookup_total_insert_ne in Hl' by done. by apply A.
Qed.

Lemma do_semaphore_init_spec s Q c i v :
  kernel_inv s Q c -> Q (semaphore_queue i) = [] ->
  exists s', do_semaphore_init i v s = Ok (tt, s') /\ kernel_inv s' Q c /\ sem_value s' !!! i = v.
Proof.
  intros [(H & Hc & Hrun) HS] EQ. eexists. split; [done|].
  split; [split; [split_and!|]|cbn; by rewrite lookup_total_insert_eq]; try done.
  - apply queue_init_inv; [done|]. by apply (inv_stores s).
  - destruct HS as [A B C D]. split; try done. cbn. intros j Hj.
    destruct (decide (i = j)) as [<-|]; [done|]. rewrite lookup_total_insert_ne in Hj by done. by apply B.
Qed.

Lemma do_barrier_init_spec s Q c i n :
  kernel_inv s Q c -> Q (barrier_queue i) = [] ->
  exists s', do_barrier_init i n s = Ok (tt, s') /\ kernel_inv s' Q c /\ max_num s' !!! i = n.
Proof.
  intros [(H & Hc & Hrun) HS] EQ. eexists. split; [done|].
  split; [split; [split_and!|]|cbn; by rewrite lookup_total_insert_eq]; try done.
  - apply queue_init_inv; [done|]. by apply (inv_stores s).
  - destruct HS as [A B C D]. split; try done. cbn. intros j.
    destruct (decide (i = j)) as [<-|]; rewrite ?lookup_total_insert_eq, ?EQ.
    + cbn. lia.
    + rewrite !lookup_total_insert_ne by done. apply C.
Qed.

Lemma do_condition_init_spec s Q c i :
  kernel_inv s Q c -> Q (condition_queue i) = [] ->
  exists s', do_condition_init i s = Ok (tt, s') /\ kernel_inv s' Q c.
Proof.
  intros [(H & Hc & Hrun) HS] EQ. eexists. split; [done|].
  split; [split_and!; [by apply queue_init_inv|done..]|]. destruct HS as [A B C D]. by split.
Qed.
