(* ===== verification/Process.v ===== *)
(** Process management: creation, termination, waiting and listing of
    processes (kernel/sched/sched.c), the initialisation of the process table
    (init/main.c, [init_pcb]) and the clock interrupt (arch/mips/kernel/entry.S,
    [irq_timer]).

    The addresses of [first_entry] and of [test_shell], which the linker
    chooses, are arguments. *)

From S2P Require Import Prelude Kernel Queue Sched Sync.

(** ** Operations *)

Definition set_status (t : nat) (st : task_status_t) : M kstate unit :=
  store (Some t) (fun p => p <| pcb_status := st |>).

(** *** [do_ps] *)

Definition show (i : Z) (pid : Z) (st : task_status_t) : M kstate unit :=
  let! l := gets ProcessShow in
  let! l' := lift (wr l i (mk_show i pid st)) in
  modify (fun s => s <| ProcessShow := l' |>).
(** One [for(j = 0; j < NUM_MAX_TASK; j++)] of [do_ps]; the result is [i]. *)
Fixpoint ps_pass (st : task_status_t) (js : list nat) (i : Z) : M kstate Z :=
  match js with
  | [] => ret i
  | j :: js' =>
      let! stj := gets (fun s => status s j) in
      if decide (stj = st) then
        let! pid := gets (fun s => pcb_pid (pcb s j)) in
        do! show i pid stj;
        ps_pass st js' (i + 1)
      else ps_pass st js' i
  end.
Definition do_ps : M kstate unit :=
  let! cur := gets current_running in
  let! pid := load cur pcb_pid in
  let! st := load cur pcb_status in
  do! show 0 pid st;
  let! i := ps_pass TASK_READY (seq 0 NUM_MAX_TASK) 1 in
  let! i := ps_pass TASK_SLEEPING (seq 0 NUM_MAX_TASK) i in
  let! i := ps_pass TASK_BLOCKED (seq 0 NUM_MAX_TASK) i in
  let! l := gets ProcessShow in
  let! r := lift (rd l i) in
  let! l' := lift (wr l i (mk_show (-1) (show_pid r) (show_status r))) in
  modify (fun s => s <| ProcessShow := l' |>).

(** *** [do_spawn] *)

Record task_info_t := mk_task_info { task_entry_point : Z; task_type : task_type_t }.

(** The first index whose PCB satisfies the test: the loops
    [while(pcb[i]... ) { i++; if(i >= NUM_MAX_TASK) return; }]. *)
Fixpoint search_pcb (f : pcb_t -> bool) (s : kstate) (ix : list nat) : option nat :=
  match ix with
  | [] => None
  | i :: r => if f (pcb s i) then Some i else search_pcb f s r
  end.
Definition find_pcb (f : pcb_t -> bool) (s : kstate) : option nat := search_pcb f s (seq 0 NUM_MAX_TASK).

Definition set_entryhi_asid (asid : Z) : M kstate unit :=
  modify (fun s => s <| cp0_entryhi := Z.lor (Z.land (cp0_entryhi s) 0xffffff00) asid |>).

(** The contexts that [do_spawn] and [init_pcb] build; [ra] is the return
    address of the kernel context. *)
Definition new_context (sp ra epc : Z) : regs_context_t :=
  zero_context <| regs := <[31%nat := ra]> (<[30%nat := sp]> (<[29%nat := sp]> (replicate 32 0))) |>
    <| cp0_status := CP0_STATUS_INIT |> <| cp0_epc := epc |>.

(** The PCB fields that [do_spawn] and [init_pcb] write, in one update.  [lock]
    is not one of them. *)
Definition fresh_pcb (stack pid entry first_entry : Z) (ty : task_type_t) (p : pcb_t) : pcb_t :=
  p <| kernel_context := new_context stack first_entry entry |>
    <| user_context := new_context (u32 (stack + STACK_SIZE)) 0 entry |>
    <| kernel_stack_top := stack |> <| user_stack_top := u32 (stack + STACK_SIZE) |>
    <| pcb_prev := None |> <| pcb_next := None |> <| pcb_pid := pid |> <| pcb_type := ty |>
    <| pcb_status := TASK_CREATED |> <| cursor_x := 0 |> <| cursor_y := 0 |>
    <| entry_point := entry |> <| pcb_mode := USER_MODE |> <| priority := INITIAL_PRIORITY |>
    <| wait_time := 0 |> <| sleeping_deadline := 0 |> <| lock_num := 0 |>.

Definition no_locks (p : pcb_t) : pcb_t := p <| pcb_lock := replicate LOCK_MAX_NUM None |>.

Definition do_spawn (first_entry : Z) (task_info : task_info_t) : M kstate unit :=
  do! modify (fun s => s <| PID := u32 (PID s + 1) |>);
  let! found := gets (find_pcb (fun p => bool_decide (pcb_status p = TASK_EXITED))) in
  match found with
  | None => ret tt
  | Some i =>
      let! pid := gets PID in
      do! set_entryhi_asid pid;
      do! queue_init (waiting_queue i);
      do! store (Some i) no_locks;
      let! stack := gets STACK_TOP in
      do! modify (fun s => s <| USER_STACK_TOP := u32 (USER_STACK_TOP s + VM_STACK_SIZE * 2) |>);
      do! modify (fun s => s <| STACK_TOP := u32 (STACK_TOP s + STACK_SIZE * 2) |>);
      do! store (Some i)
            (fresh_pcb stack (i32 pid) (task_entry_point task_info) first_entry (task_type task_info));
      do! modify (fun s => s <| suspended := <[i := R_return]> (suspended s) |>);
      queue_push ready_queue (Some i)
  end.

(** *** [do_exit], [do_waitpid], [do_kill] *)

(** [for(i = 0; i < LOCK_MAX_NUM; i++) if(p->lock[i] != 0)
    do_mutex_lock_release(p->lock[i]);] *)
Fixpoint release_slots (ix : list nat) (p : option nat) : M kstate unit :=
  match ix with
  | [] => ret tt
  | i :: r =>
      let! locks := load p pcb_lock in
      do! match locks !! i with
          | Some (Some l) => do_mutex_lock_release l
          | _ => ret tt
          end;
      release_slots r p
  end.
Definition release_all (p : option nat) : M kstate unit := release_slots (seq 0 LOCK_MAX_NUM) p.

Definition do_exit : M kstate unit :=
  let! cur := gets current_running in
  match cur with
  | None => throw NullDeref
  | Some c =>
      do! release_all cur;
      do! clear_waiting_queue (waiting_queue c);
      do! set_status c TASK_EXITED;
      do_scheduler R_return
  end.

Definition do_getpid : M kstate Z :=
  let! cur := gets current_running in load cur pcb_pid.

Definition has_pid (n : Z) (p : pcb_t) : bool := pcb_pid p =? n.

Definition do_waitpid (n : Z) : M kstate unit :=
  let! found := gets (find_pcb (has_pid n)) in
  match found with
  | None => ret tt
  | Some i =>
      let! st := gets (fun s => status s i) in
      if decide (st = TASK_EXITED) then ret tt
      else do! block_on (waiting_queue i); do_scheduler R_return
  end.

(** The search of [do_kill] through the queues of the mutexes in [Lock]. *)
Fixpoint remove_from_locks (locks : list (option nat)) (i : nat) : M kstate unit :=
  match locks with
  | [] => ret tt
  | None :: _ => throw NullDeref
  | Some l :: r =>
      let! b := check_in_queue (mutex_lock_queue l) (Some i) in
      do! (if b then do! queue_remove (mutex_lock_queue l) (Some i); ret tt else ret tt);
      remove_from_locks r i
  end.

Definition kill_unlink (i : nat) : M kstate unit :=
  let! st := gets (fun s => status s i) in
  match st with
  | TASK_READY | TASK_CREATED => do! queue_remove ready_queue (Some i); ret tt
  | TASK_BLOCKED => let! locks := gets Lock in remove_from_locks locks i
  | TASK_SLEEPING => do! queue_remove sleeping_queue (Some i); ret tt
  | _ => ret tt
  end.

Definition do_kill (n : Z) : M kstate unit :=
  let! found := gets (find_pcb (has_pid n)) in
  match found with
  | None => ret tt
  | Some i =>
      let! st := gets (fun s => status s i) in
      do! (if decide (st = TASK_EXITED) then ret tt
           else
             do! kill_unlink i;
             do! set_status i TASK_EXITED;
             do! release_all (Some i);
             clear_waiting_queue (waiting_queue i));
      let! cur := gets current_running in
      let! pid := load cur pcb_pid in
      if pid =? n then do_scheduler R_return else ret tt
  end.

Definition get_pcb_index (pid : Z) (s : kstate) : nat :=
  match find_pcb (has_pid pid) s with Some i => i | None => NUM_MAX_TASK end.

(** *** [init_pcb] and the clock interrupt *)

Fixpoint init_status (ix : list nat) : M kstate unit :=
  match ix with
  | [] => ret tt
  | i :: r => do! set_status i TASK_EXITED; init_status r
  end.

(** [init_pcb] up to the global queues, and the PCB of the shell.  The variable
    [i] is 2 after the loop over the first two locks, so that the loop over the
    lock table clears the one of [pcb[2]]. *)
Definition init_tables : M kstate unit :=
  do! modify (fun s => s <| PID := u32 (PID s + 1) |>);
  do! init_status (seq 0 NUM_MAX_TASK);
  do! modify (fun s => s <| Lock := Some <$> seq 0 MAX_LOCK_NUM_TOTAL |>);
  do! do_mutex_lock_init 0;
  do! do_mutex_lock_init 1;
  do! queue_init ready_queue;
  do! queue_init block_queue;
  queue_init sleeping_queue.
Definition init_shell (first_entry test_shell : Z) : M kstate unit :=
  do! queue_init (waiting_queue 1);
  do! store (Some 2%nat) no_locks;
  let! stack := gets STACK_TOP in
  do! modify (fun s => s <| USER_STACK_TOP := u32 (USER_STACK_TOP s + VM_STACK_SIZE) |>);
  do! modify (fun s => s <| STACK_TOP := u32 (STACK_TOP s + STACK_SIZE * 2) |>);
  do! store (Some 1%nat) (fresh_pcb stack 1 test_shell first_entry USER_PROCESS);
  modify (fun s => s <| suspended := <[1%nat := R_return]> (suspended s) |>).
Definition init_pcb (first_entry test_shell : Z) : M kstate unit :=
  do! init_tables;
  do! init_shell first_entry test_shell;
  do! queue_push ready_queue (Some 1%nat);
  let! cur := gets current_running in
  do! store cur (fun p => p <| pcb_status := TASK_CREATED |>);
  do! store cur (fun p => p <| entry_point := 0 |>);
  store cur (fun p => p <| pcb_pid := 0 |>).

(** The clock interrupt, in user mode: the counter advances and the current
    task gives up the CPU.  (These are the parts that concern process management;
    [clock_interrupt] of Mac.v is the whole handler, with the test of the mode and
    the check of the network queue.) *)
Definition irq_timer : M kstate unit :=
  do! modify (fun s => s <| time_elapsed := u32 (time_elapsed s + 15) |>);
  do_scheduler R_return.

(** ** The invariant of the process table

    Nobody waits for a task that has exited; process ids are never reused; the
    table of mutexes is filled. *)

Record proc_inv (s : kstate) (Q : queue_id -> list nat) : Prop := {
  pi_wait t : (t < NUM_MAX_TASK)%nat -> status s t = TASK_EXITED -> Q (waiting_queue t) = [];
  pi_pid t : (t < NUM_MAX_TASK)%nat -> 0 <= pcb_pid (pcb s t) <= PID s;
  pi_uniq t u : (t < NUM_MAX_TASK)%nat -> (u < NUM_MAX_TASK)%nat ->
    pcb_pid (pcb s t) = pcb_pid (pcb s u) -> pcb_pid (pcb s t) <> 0 -> t = u;
  pi_locks : Forall is_Some (Lock s);
  pi_slots t : (t < NUM_MAX_TASK)%nat -> length (pcb_lock (pcb s t)) = LOCK_MAX_NUM;
}.

Definition full_inv (s : kstate) (Q : queue_id -> list nat) (c : nat) : Prop :=
  kernel_inv s Q c /\ proc_inv s Q.

(** No task is turned into an exited one, and process ids stay. *)
Record proc_frame (s s' : kstate) : Prop := {
  pf_exit t : status s' t = TASK_EXITED -> status s t = TASK_EXITED;
  pf_pid t : pcb_pid (pcb s' t) = pcb_pid (pcb s t);
  pf_PID : PID s' = PID s;
  pf_Lock : Lock s' = Lock s;
  pf_slots t : length (pcb_lock (pcb s' t)) = length (pcb_lock (pcb s t));
}.
#[export] Instance proc_frame_preorder : PreOrder proc_frame.
Proof.
  split; [by intros s; split|]. intros s s' s'' [A B C D I] [E F G H J].
  split; [auto| |congruence..|]; intros t; [by rewrite F|by rewrite J].
Qed.

Lemma proc_inv_transfer s s' Q Q' :
  proc_frame s s' -> (forall t, Q' (waiting_queue t) = Q (waiting_queue t)) ->
  proc_inv s Q -> proc_inv s' Q'.
Proof.
  intros [A B C D E] HQ [H1 H2 H3 H4 H5]. split.
  - intros t Ht Hs. rewrite HQ. auto.
  - intros t. rewrite B, C. apply H2.
  - intros t u. rewrite !B. apply H3.
  - by rewrite D.
  - intros t. rewrite E. apply H5.
Qed.

Lemma keeps_exit_store p f :
  (forall v, pcb_status (f v) = TASK_EXITED -> pcb_status v = TASK_EXITED) ->
  (forall v, pcb_pid (f v) = pcb_pid v) ->
  (forall v, length (pcb_lock (f v)) = length (pcb_lock v)) ->
  keeps proc_frame (store p f).
Proof.
  intros Hf Hp Hl s a s'. unfold store. destruct p as [x|]; [|done].
  intros [= _ <-]. split; [..|done|done|]; intros t;
    destruct (decide (x = t)) as [->|]; autorewrite with kernel; auto.
Qed.
Lemma keeps_exit_modify f :
  (forall s, pcbs (f s) = pcbs s) -> (forall s, PID (f s) = PID s) -> (forall s, Lock (f s) = Lock s) ->
  keeps proc_frame (modify f).
Proof. intros Hf H1 H2. apply keeps_modify. intros s. split; intros; unfold pcb in *; by rewrite ?Hf in *. Qed.
Lemma keeps_exit_store_queue q v : keeps proc_frame (store_queue q v).
Proof. by apply keeps_exit_modify. Qed.
#[export] Hint Resolve keeps_exit_store_queue : keeps.
#[export] Hint Extern 1 (keeps proc_frame (store _ _)) => (by apply keeps_exit_store) : keeps.
#[export] Hint Extern 1 (keeps proc_frame (modify _)) => (by apply keeps_exit_modify) : keeps.

Lemma exit_queue_is_empty q : keeps proc_frame (queue_is_empty q).
Proof. unfold queue_is_empty. keeps_auto. Qed.
Lemma exit_queue_push q x : keeps proc_frame (queue_push q x).
Proof. unfold queue_push. keeps_auto. Qed.
Lemma exit_queue_remove q x : keeps proc_frame (queue_remove q x).
Proof. unfold queue_remove. keeps_auto. Qed.
Lemma exit_queue_dequeue q : keeps proc_frame (queue_dequeue q).
Proof. unfold queue_dequeue. keeps_auto. Qed.
#[export] Hint Resolve exit_queue_is_empty exit_queue_push exit_queue_remove exit_queue_dequeue : keeps.
Lemma exit_check_sleeping : keeps proc_frame check_sleeping.
Proof.
  unfold check_sleeping. keeps_auto.
  match goal with |- keeps _ (check_sleeping_loop ?n ?t ?p) => generalize p; induction n end;
    intros p; cbn [check_sleeping_loop]; keeps_auto.
Qed.
Lemma exit_pick_loop fuel a b : keeps proc_frame (pick_loop fuel a b).
Proof. revert a. induction fuel; intros a; cbn [pick_loop]; keeps_auto. Qed.
#[export] Hint Resolve exit_check_sleeping exit_pick_loop : keeps.
Lemma exit_wait_ready fuel : keeps proc_frame (wait_ready_loop fuel).
Proof. induction fuel; cbn [wait_ready_loop]; keeps_auto. Qed.
#[export] Hint Resolve exit_wait_ready : keeps.
Lemma exit_scheduler : keeps proc_frame scheduler.
Proof. unfold scheduler, save_cursor, requeue_current, switch_to. keeps_auto. Qed.
#[export] Hint Resolve exit_scheduler : keeps.
Lemma exit_do_scheduler r : keeps proc_frame (do_scheduler r).
Proof. unfold do_scheduler. keeps_auto. Qed.
Lemma exit_block_on q : keeps proc_frame (block_on q).
Proof. unfold block_on. keeps_auto. Qed.
Lemma exit_do_unblock_one q : keeps proc_frame (do_unblock_one q).
Proof. unfold do_unblock_one. keeps_auto. Qed.
Lemma exit_wake_first q : keeps proc_frame (wake_first q).
Proof. unfold wake_first. keeps_auto. Qed.
#[export] Hint Resolve exit_do_scheduler exit_block_on exit_do_unblock_one exit_wake_first : keeps.
Lemma exit_do_sleep n : keeps proc_frame (do_sleep n).
Proof. unfold do_sleep. keeps_auto. Qed.
Lemma exit_do_block q r : keeps proc_frame (do_block q r).
Proof. unfold do_block. keeps_auto. Qed.
Lemma exit_clear_waiters fuel l p : keeps proc_frame (clear_waiters fuel l p).
Proof.
  revert p. induction fuel; intros p; cbn [clear_waiters]; keeps_auto.
  apply keeps_exit_store; intros v; [by rewrite clear_slots_field..|]. apply clear_slots_length.
Qed.
#[export] Hint Resolve exit_do_sleep exit_do_block exit_clear_waiters : keeps.

Lemma exit_do_unblock_all q : keeps proc_frame (do_unblock_all q).
Proof. unfold do_unblock_all. keeps_auto. Qed.
Lemma exit_clear_waiting_queue q : keeps proc_frame (clear_waiting_queue q).
Proof. unfold clear_waiting_queue. keeps_auto. Qed.
#[export] Hint Resolve exit_do_unblock_all exit_clear_waiting_queue : keeps.
Lemma exit_do_mutex_lock_release l : keeps proc_frame (do_mutex_lock_release l).
Proof. unfold do_mutex_lock_release. keeps_auto. Qed.
#[export] Hint Resolve exit_do_mutex_lock_release : keeps.
Lemma exit_release_slots ix p : keeps proc_frame (release_slots ix p).
Proof. induction ix; cbn [release_slots]; keeps_auto. Qed.
Lemma exit_do_mutex_lock_acquire l : keeps proc_frame (do_mutex_lock_acquire l).
Proof.
  unfold do_mutex_lock_acquire. keeps_auto.
  apply keeps_exit_store; intros v; [by rewrite record_lock_field..|]. apply record_lock_length.
Qed.
#[export] Hint Resolve exit_do_mutex_lock_acquire : keeps.
Lemma exit_resume : keeps proc_frame resume.
Proof. unfold resume. keeps_auto. Qed.
Lemma exit_do_condition_wait l i : keeps proc_frame (do_condition_wait l i).
Proof. unfold do_condition_wait. keeps_auto. Qed.
Lemma exit_do_condition_signal i : keeps proc_frame (do_condition_signal i).
Proof. unfold do_condition_signal. keeps_auto. Qed.
Lemma exit_do_condition_broadcast i : keeps proc_frame (do_condition_broadcast i).
Proof. unfold do_condition_broadcast. keeps_auto. Qed.
Lemma exit_do_semaphore_up i : keeps proc_frame (do_semaphore_up i).
Proof. unfold do_semaphore_up. keeps_auto. Qed.
Lemma exit_do_semaphore_down i : keeps proc_frame (do_semaphore_down i).
Proof. unfold do_semaphore_down. keeps_auto. Qed.
Lemma exit_do_barrier_wait i : keeps proc_frame (do_barrier_wait i).
Proof. unfold do_barrier_wait. keeps_auto. Qed.

(** ** The calls keep the whole invariant *)

Definition good (s' : kstate) : Prop := exists Q' c', full_inv s' Q' c'.

Lemma blocks_good s s0 Q c q r o s' :
  blocks s Q c q r o -> o = Ok (tt, s') -> proc_inv s0 Q -> proc_frame s0 s' ->
  (forall i, q = waiting_queue i -> status s0 i <> TASK_EXITED) -> good s'.
Proof.
  intros [(_ & t & s1 & Q' & -> & HK & _ & _ & HQ & _ & _)|[_ ->]] E HP F Hw; [|done].
  injection E as <-. exists Q', t. split; [done|]. destruct HP as [A B C D G], F as [F1 F2 F3 F4 F5]. split.
  - intros u Hu Hs. rewrite HQ by done. qcase; [|by apply A; auto].
    exfalso. eapply Hw; [done|auto].
  - intros u. rewrite F2, F3. apply B.
  - intros u v. rewrite !F2. apply C.
  - by rewrite F4.
  - intros u. rewrite F5. apply G.
Qed.

(** A task that gives up the CPU and is parked somewhere. *)
Lemma switched_good s s0 Q Q0 o s' :
  switched s Q o -> o = Ok (tt, s') -> sync_inv s Q -> proc_inv s0 Q0 -> proc_frame s0 s' ->
  (forall t, Q (waiting_queue t) = Q0 (waiting_queue t)) -> good s'.
Proof.
  intros Hsw E HS HP F HQ0.
  destruct (switched_kernel _ _ _ Hsw HS) as [(_ & t & s1 & Q' & -> & HK & _ & HQ & _)|[_ ->]]; [|done].
  injection E as <-. exists Q', t. split; [done|].
  eapply proc_inv_transfer; [done| |done]. intros u. by rewrite HQ.
Qed.

(** A task that is preempted stays ready: there is always a task to run. *)
Lemma preempt_spec s Q c :
  full_inv s Q c -> exists s' Q' c', do_scheduler R_return s = Ok (tt, s') /\ full_inv s' Q' c'
    /\ time_elapsed s' = time_elapsed s
    /\ (forall q, q <> ready_queue -> q <> sleeping_queue -> Q' q = Q q)
    /\ exists W l' x l l1 l2, woken_sleeper s (Q sleeping_queue) W l' /\ (Q ready_queue ++ [c]) ++ W = x :: l
       /\ c' = pick (prio s) x l /\ x :: l = l1 ++ c' :: l2 /\ Q' = <[ready_queue := l1 ++ l2]> (<[sleeping_queue := l']> Q)
       /\ (forall u, prio s' u = aged s c u) /\ sched_frame (with_resume c R_return s) s'.
Proof.
  intros [[HK HS] HP]. set (s2 := with_resume c R_return s).
  assert (do_scheduler R_return s = scheduler s2) as E1 by apply (do_scheduler_eq _ _ _ _ (proj1 HK)).
  assert (kinv s2 Q c) as HK2 by (destruct HK as (? & ? & ?); split_and!; [by apply (inv_stores s)|done..]).
  assert (sync_inv s2 Q) as HS2 by by apply sync_resume.
  destruct HK2 as (H2 & Hc & Hrun). destruct (scheduler_spec s2 Q c H2) as (W & l' & HW & Hs).
  assert (ready_with_current s2 Q c = Q ready_queue ++ [c]) as ER.
  { unfold ready_with_current. by rewrite decide_True. }
  rewrite ER in Hs. destruct ((Q ready_queue ++ [c]) ++ W) as [|x l] eqn:EW.
  { apply app_eq_nil in EW as [EW _]. by apply app_eq_nil in EW as [_ [=]]. }
  destruct Hs as (l1 & l2 & s' & El & Es & HK' & Hp). rewrite E1.
  pose proof (keeps_scheduler _ _ _ Es) as F.
  eexists s', _, _. split; [done|]. split_and!.
  - split; [split; [done|]|].
    + revert HS2. apply sync_inv_transfer; try by apply (sched_frame_outer _ _ _ F).
      * intros _ t _. by rewrite (sched_frame_outer suspended _ _ F).
      * intros q ? ?. by qcase.
    + revert HP. apply proc_inv_transfer; [|intros t; by qcase].
      assert (proc_frame s s2) as F0 by by split.
      etrans; [done|]. by eapply exit_scheduler.
  - by apply (sched_frame_outer time_elapsed _ _ F).
  - intros q ? ?. by qcase.
  - exists W, l', x, l, l1, l2. split_and!; try done.
Qed.

Lemma full_inv_clock s Q c x : full_inv s Q c -> full_inv (s <| time_elapsed := x |>) Q c.
Proof.
  intros [[(H & Hc & Hrun) HS] HP]. split; [split; [split_and!; [by apply (inv_stores s)|done|done]|]|].
  - revert HS. by apply sync_inv_transfer.
  - revert HP. by apply proc_inv_transfer.
Qed.

(** The clock interrupt always returns. *)
Lemma irq_timer_spec s Q c :
  full_inv s Q c -> exists s' Q' c', irq_timer s = Ok (tt, s') /\ full_inv s' Q' c'
    /\ time_elapsed s' = u32 (time_elapsed s + 15)
    /\ (forall q, q <> ready_queue -> q <> sleeping_queue -> Q' q = Q q).
Proof.
  intros HF. destruct (preempt_spec _ Q c (full_inv_clock s Q c (u32 (time_elapsed s + 15)) HF)) as (s' & Q' & c' & H1 & H2 & H3 & H4 & _).
  exists s', Q', c'. split_and!; done.
Qed.

Lemma do_sleep_good s Q c n s' : full_inv s Q c -> do_sleep n s = Ok (tt, s') -> good s'.
Proof.
  intros [[HK HS] HP] E. pose proof (exit_do_sleep n _ _ _ E) as F.
  destruct (do_sleep_spec s Q c n HK) as (s1 & E1 & H1 & Hst & _ & _ & Ho & _). rewrite E1 in E.
  eapply (switched_good s1); [apply (scheduler_parked _ _ c); [done|by rewrite Hst]|done| |done|done|].
  - assert (Hf : forall A (f : kstate -> A), (forall s, f (outer s) = f s) ->
      f s1 = f (with_resume c R_return s)) by (intros A f Hf; by rewrite <-(Hf s1), Ho, Hf).
    pose proof (sync_resume s Q c R_return HK HS) as HS1. revert HS1.
    apply sync_inv_transfer; try by apply Hf.
    + intros _ t _. by rewrite (Hf _ suspended).
    + intros q ? ?. by qcase.
  - intros t. by qcase.
Qed.

(** The first entry of the table that satisfies the test. *)
Lemma search_pcb_spec f s l :
  match search_pcb f s l with
  | Some i => i ∈ l /\ f (pcb s i) = true
  | None => forall i, i ∈ l -> f (pcb s i) = false
  end.
Proof.
  induction l as [|i l IH]; cbn [search_pcb]; [set_solver|].
  destruct (f (pcb s i)) eqn:E; [set_solver|].
  destruct (search_pcb f s l); set_solver.
Qed.
Lemma find_pcb_spec f s :
  match find_pcb f s with
  | Some i => (i < NUM_MAX_TASK)%nat /\ f (pcb s i) = true
  | None => forall i, (i < NUM_MAX_TASK)%nat -> f (pcb s i) = false
  end.
Proof.
  pose proof (search_pcb_spec f s (seq 0 NUM_MAX_TASK)) as H. unfold find_pcb.
  destruct (search_pcb _ _ _) as [i|].
  - destruct H as [Hi%elem_of_seq Hf]. split; [lia|done].
  - intros i Hi. apply H, elem_of_seq. lia.
Qed.
Lemma search_pcb_ext f s s' l : pcbs s' = pcbs s -> search_pcb f s' l = search_pcb f s l.
Proof.
  intros E. induction l as [|i l IH]; cbn [search_pcb]; [done|].
  unfold pcb in *. by rewrite E, IH.
Qed.

(** The states in which [do_spawn] has cleared the lock table and in which it
    calls [queue_push]. *)
Definition spawn_cleared (i : nat) (s : kstate) : kstate :=
  let s1 := s <| PID := u32 (PID s + 1) |> in
  let s2 := s1 <| cp0_entryhi := Z.lor (Z.land (cp0_entryhi s1) 0xffffff00) (PID s1) |> in
  set_pcb i (no_locks (pcb s i)) (set_queue (waiting_queue i) (mk_queue None None) s2).
Definition spawned (first_entry : Z) (ti : task_info_t) (i : nat) (s : kstate) : kstate :=
  let s3 := spawn_cleared i s in
  let s4 := s3 <| USER_STACK_TOP := u32 (USER_STACK_TOP s + VM_STACK_SIZE * 2) |>
               <| STACK_TOP := u32 (STACK_TOP s + STACK_SIZE * 2) |> in
  with_resume i R_return
    (set_pcb i (fresh_pcb (STACK_TOP s) (i32 (PID s3)) (task_entry_point ti) first_entry (task_type ti)
                  (pcb s3 i)) s4).

Lemma do_spawn_eq fe ti s :
  do_spawn fe ti s =
  match find_pcb (fun p => bool_decide (pcb_status p = TASK_EXITED)) s with
  | None => Ok (tt, s <| PID := u32 (PID s + 1) |>)
  | Some i => queue_push ready_queue (Some i) (spawned fe ti i s)
  end.
Proof.
  unfold do_spawn. rewrite (bind_Ok _ _ _ _ _ eq_refl), (bind_Ok _ _ _ _ _ eq_refl).
  unfold find_pcb. rewrite (search_pcb_ext _ s) by done. by destruct (search_pcb _ _ _).
Qed.

Lemma spawned_pcb fe ti i s :
  pcb (spawned fe ti i s) i =
    fresh_pcb (STACK_TOP s) (i32 (u32 (PID s + 1))) (task_entry_point ti) fe (task_type ti) (no_locks (pcb s i))
  /\ forall t, t <> i -> pcb (spawned fe ti i s) t = pcb s t.
Proof.
  unfold spawned, with_resume. cbv zeta. split.
  - etrans; [apply pcb_set_eq|]. f_equal. etrans; [apply pcb_set_eq|]. done.
  - intros t Ht. etrans; [by apply pcb_set_ne|]. etrans; [by apply pcb_set_ne|]. done.
Qed.
#[global] Arguments spawned : simpl never.

Section spawn.
Context (s : kstate) (Q : queue_id -> list nat) (c i : nat) (fe : Z) (ti : task_info_t).
Context (HF : full_inv s Q c) (Hi : (i < NUM_MAX_TASK)%nat) (Hex : status s i = TASK_EXITED).
Context (Hep : task_entry_point ti <> 0) (Hpid : PID s + 1 < 2 ^ 31).

Lemma exited_free : i <> c /\ forall q, i ∉ Q q.
Proof using HF Hi Hex.
  destruct HF as [[(H & Hc & Hrun) HS] HP]. split; [congruence|].
  pose proof (inv_ok _ _ _ H i Hi) as Hok. by rewrite Hex in Hok.
Qed.

Lemma spawned_abs : abs (spawned fe ti i s) Q.
Proof using HF Hi Hex.
  destruct exited_free as [_ Hfree]. destruct HF as [[(H & Hc & Hrun) HS] HP].
  assert (abs (spawn_cleared i s) Q) as A3.
  { apply abs_set_notin; [done|]. apply abs_queue_init; [by apply (pi_wait _ _ HP)|].
    by apply (abs_stores s), H. }
  unfold spawned, with_resume. cbv zeta.
  set (v := fresh_pcb _ _ _ _ _ _). apply (abs_stores (set_pcb i v (spawn_cleared i s))); [done..|].
  by apply abs_set_notin.
Qed.

Lemma spawn_pid : 0 <= PID s /\ PID (spawned fe ti i s) = PID s + 1 /\ i32 (u32 (PID s + 1)) = PID s + 1.
Proof using HF Hi Hpid.
  destruct HF as [_ HP]. pose proof (pi_pid _ _ HP i Hi) as Hb. split; [lia|].
  assert (u32 (PID s + 1) = PID s + 1) as E by (unfold u32; rewrite Z.mod_small; lia).
  rewrite E. split; [exact E|]. apply i32_small. lia.
Qed.

Lemma spawned_proc s' Q' :
  (forall t, pcb_pid (pcb s' t) = pcb_pid (pcb (spawned fe ti i s) t)) ->
  (forall t, pcb_lock (pcb s' t) = pcb_lock (pcb (spawned fe ti i s) t)) ->
  (forall t, status s' t = status (spawned fe ti i s) t) -> PID s' = PID s + 1 -> Lock s' = Lock s ->
  (forall t, Q' (waiting_queue t) = Q (waiting_queue t)) -> proc_inv s' Q'.
Proof using HF Hi Hex Hpid.
  intros E1 E0 E2 E3 E4 E5. destruct (spawned_pcb fe ti i s) as [Ei Eo].
  destruct spawn_pid as (H0 & _ & Ep). rewrite Ep in Ei.
  destruct HF as [_ [A B C D G]]. split.
  - intros t Ht. rewrite E2, E5. destruct (decide (t = i)) as [->|Hne]; [by rewrite Ei|].
    rewrite Eo by done. by apply A.
  - intros t Ht. rewrite E1, E3. destruct (decide (t = i)) as [->|Hne]; [rewrite Ei; cbn; lia|].
    rewrite Eo by done. specialize (B t Ht). lia.
  - intros t u Ht Hu. rewrite !E1. pose proof (B t Ht). pose proof (B u Hu).
    destruct (decide (t = i)) as [->|Ht']; destruct (decide (u = i)) as [->|Hu']; [done|..];
      rewrite ?Ei, ?Eo by done; cbn; [lia..|]. by apply C.
  - by rewrite E4.
  - intros t Ht. rewrite E0. destruct (decide (t = i)) as [->|Hne]; [by rewrite Ei|].
    rewrite Eo by done. by apply G.
Qed.

Lemma spawned_spec : exists s', queue_push ready_queue (Some i) (spawned fe ti i s) = Ok (tt, s')
    /\ full_inv s' (<[ready_queue := Q ready_queue ++ [i]]> Q) c
    /\ status s' i = TASK_CREATED /\ pcb_pid (pcb s' i) = PID s + 1
    /\ entry_point (pcb s' i) = task_entry_point ti
    /\ pcb_lock (pcb s' i) = replicate LOCK_MAX_NUM None
    /\ cp0_epc (kernel_context (pcb s' i)) = task_entry_point ti
    /\ user_context (pcb s' i) = new_context (u32 (STACK_TOP s + STACK_SIZE)) 0 (task_entry_point ti)
    /\ kernel_context (pcb s' i) = new_context (STACK_TOP s) fe (task_entry_point ti)
    /\ PID s' = PID s + 1 /\ STACK_TOP s' = u32 (STACK_TOP s + STACK_SIZE * 2)
    /\ forall t, t <> i -> unlink (pcb s' t) = unlink (pcb s t).
Proof using HF Hi Hex Hep Hpid.
  destruct exited_free as [Hic Hfree]. destruct spawn_pid as (_ & EP & Ep).
  destruct (queue_push_spec (spawned fe ti i s) Q ready_queue i spawned_abs Hfree) as (s' & E & A & L); [lia|].
  exists s'. split; [done|]. destruct (spawned_pcb fe ti i s) as [Ei Eo]. rewrite Ep in Ei.
  assert (Hf : forall A (f : pcb_t -> A) t, (forall p, f (unlink p) = f p) ->
    f (pcb s' t) = f (pcb (spawned fe ti i s) t)) by (intros; by apply (links_only_field _ _ _ _ L)).
  assert (full_inv s' (<[ready_queue := Q ready_queue ++ [i]]> Q) c) as HF'.
  { destruct HF as [[(H & Hc & Hrun) HS] HP]. split; [split; [split_and!|]|].
    - apply (enlisted_inv s); try done.
      + by rewrite (links_only_rest _ _ L current_running).
      + intros t Ht. rewrite !Hf by done. by rewrite Eo.
      + rewrite Hf by done. by rewrite Ei.
      + rewrite Hf, Ei by done. cbn. qcase. set_solver.
    - done.
    - rewrite Hf, Eo by done. done.
    - revert HS. apply sync_inv_transfer; try by rewrite (links_only_rest _ _ L).
      + intros l t Ht. rewrite (links_only_rest _ _ L suspended) by done.
        change (suspended (spawned fe ti i s)) with (<[i:=R_return]> (suspended s)).
        destruct (decide (i = t)) as [<-|]; [|by rewrite lookup_total_insert_ne].
        revert Ht. qcase. intros Ht. by apply Hfree in Ht.
      + intros q ? ?. by qcase.
    - apply spawned_proc; try (intros; by apply Hf).
      + by rewrite (links_only_rest _ _ L PID).
      + by rewrite (links_only_rest _ _ L Lock).
      + intros t. by qcase. }
  split_and!; [done|by rewrite Hf, Ei..| | |].
  - by rewrite (links_only_rest _ _ L PID).
  - by rewrite (links_only_rest _ _ L STACK_TOP).
  - intros t Ht. rewrite <-(lo_pcb _ _ L), Eo by done. done.
Qed.
End spawn.

Lemma do_spawn_spec s Q c fe ti :
  full_inv s Q c -> task_entry_point ti <> 0 -> PID s + 1 < 2 ^ 31 ->
  match find_pcb (fun p => bool_decide (pcb_status p = TASK_EXITED)) s with
  | None => exists s', do_spawn fe ti s = Ok (tt, s') /\ full_inv s' Q c /\ s' = s <| PID := PID s + 1 |>
  | Some i => exists s', do_spawn fe ti s = Ok (tt, s')
      /\ full_inv s' (<[ready_queue := Q ready_queue ++ [i]]> Q) c
      /\ status s' i = TASK_CREATED /\ pcb_pid (pcb s' i) = PID s + 1
      /\ entry_point (pcb s' i) = task_entry_point ti
      /\ pcb_lock (pcb s' i) = replicate LOCK_MAX_NUM None
      /\ cp0_epc (kernel_context (pcb s' i)) = task_entry_point ti
      /\ user_context (pcb s' i) = new_context (u32 (STACK_TOP s + STACK_SIZE)) 0 (task_entry_point ti)
      /\ kernel_context (pcb s' i) = new_context (STACK_TOP s) fe (task_entry_point ti)
      /\ PID s' = PID s + 1 /\ STACK_TOP s' = u32 (STACK_TOP s + STACK_SIZE * 2)
      /\ forall t, t <> i -> unlink (pcb s' t) = unlink (pcb s t)
  end.
Proof.
  intros HF Hep Hpid. rewrite do_spawn_eq.
  pose proof (find_pcb_spec (fun p => bool_decide (pcb_status p = TASK_EXITED)) s) as Hf.
  destruct (find_pcb _ s) as [i|].
  - destruct Hf as [Hi Hex%bool_decide_eq_true]. by apply spawned_spec.
  - eexists. split; [done|]. destruct HF as [[(H & Hc & Hrun) HS] HP].
    pose proof (pi_pid _ _ HP c Hc) as Hb. split; [split; [split; [split_and!|]|]|].
    + by apply (inv_stores s).
    + done.
    + done.
    + revert HS. by apply sync_inv_transfer.
    + destruct HP as [A B C D G]. split; try done. intros t Ht. specialize (B t Ht). cbn.
      change (pcb _ t) with (pcb s t). unfold u32. rewrite Z.mod_small; lia.
    + unfold u32. by rewrite Z.mod_small by lia.
Qed.

(** ** Releasing the locks of a task *)

(** What [release_all] guarantees about a task [p] that is in no queue. *)
Record locks_released (p : nat) (ix : list nat) (s s' : kstate) (Q Q' : queue_id -> list nat) : Prop := {
  lr_frame : lock_frame s s';
  lr_status : status s' p = status s p;
  lr_locks : pcb_lock (pcb s' p) = pcb_lock (pcb s p);
  lr_queues q : q <> ready_queue -> (forall l, q <> mutex_lock_queue l) -> Q' q = Q q;
  lr_free q : p ∉ Q' q;
  lr_ready t : t ∈ Q ready_queue -> t ∈ Q' ready_queue;
  lr_still l : lock_status s !!! l = UNLOCKED -> lock_status s' !!! l = UNLOCKED;
  lr_released i l : i ∈ ix -> pcb_lock (pcb s p) !! i = Some (Some l) -> lock_status s' !!! l = UNLOCKED;
}.

Lemma release_one s Q c p l :
  inv s Q c -> sync_inv s Q -> (forall q, p ∉ Q q) ->
  exists s' Q', do_mutex_lock_release l s = Ok (tt, s') /\ inv s' Q' c /\ sync_inv s' Q'
    /\ locks_released p [] s s' Q Q' /\ lock_status s' !!! l = UNLOCKED
    /\ (forall t, status s t <> TASK_BLOCKED -> status s' t = status s t).
Proof.
  intros H HS Hp. destruct (do_mutex_lock_release_inv s Q c l H HS)
    as (W & s' & HW & E & H' & S' & St & _ & F & Lk & Ls).
  assert (forall t, t ∈ W -> t ∈ Q (mutex_lock_queue l)) as Hin by (intros t; by rewrite HW).
  assert (p ∉ W) as HpW by (intros Hin'%Hin; by apply Hp in Hin').
  eexists s', _. split_and!; [done..| | |].
  - split; try done.
    + rewrite St. by rewrite decide_False.
    + by apply Lk.
    + intros q Hq Hm. pose proof (Hm l). by qcase.
    + intros q. qcase; [|set_solver|apply Hp]. pose proof (Hp ready_queue). set_solver.
    + intros t Ht. qcase. set_solver.
    + intros l' Hl'. rewrite Ls. by case_decide.
    + set_solver.
  - by rewrite Ls, decide_True.
  - intros t Ht. rewrite St. case_decide as Hd; [|done]. exfalso. apply Ht.
    eapply queued_blocked; [done|by apply Hin|done..].
Qed.

Lemma release_slots_spec p ix s Q c :
  inv s Q c -> sync_inv s Q -> (forall q, p ∉ Q q) ->
  exists s' Q', release_slots ix (Some p) s = Ok (tt, s') /\ inv s' Q' c /\ sync_inv s' Q'
    /\ locks_released p ix s s' Q Q' /\ (forall t, status s t <> TASK_BLOCKED -> status s' t = status s t).
Proof.
  revert s Q. induction ix as [|i ix IH]; intros s Q H HS Hp; cbn [release_slots].
  - exists s, Q. split_and!; try done. split; try done. set_solver.
  - rewrite (bind_Ok _ _ _ _ _ eq_refl).
    assert (exists s1 Q1, match pcb_lock (pcb s p) !! i with
      | Some (Some l) => do_mutex_lock_release l | _ => ret tt end s = Ok (tt, s1)
      /\ inv s1 Q1 c /\ sync_inv s1 Q1 /\ locks_released p [] s s1 Q Q1
      /\ (forall l, pcb_lock (pcb s p) !! i = Some (Some l) -> lock_status s1 !!! l = UNLOCKED)
      /\ (forall t, status s t <> TASK_BLOCKED -> status s1 t = status s t)) as Hone.
    { destruct (pcb_lock (pcb s p) !! i) as [[l|]|].
      - destruct (release_one s Q c p l H HS Hp) as (s1 & Q1 & E1 & ? & ? & ? & ? & ?).
        exists s1, Q1. split_and!; try done. by intros ? [= <-].
      - exists s, Q. split_and!; try done. split; try done; set_solver.
      - exists s, Q. split_and!; try done. split; try done; set_solver. }
    destruct Hone as (s1 & Q1 & E1 & H1 & S1 & [R1 R2 R3 R4 R5 R0 R6 R7] & Hl & Hst).
    rewrite (bind_Ok _ _ _ _ _ E1).
    destruct (IH s1 Q1 H1 S1 R5) as (s2 & Q2 & E2 & H2 & S2 & [T1 T2 T3 T4 T5 T0 T6 T7] & Hst2).
    exists s2, Q2. split_and!; try done.
    + split; [by etrans|congruence|congruence| |done|auto|auto|].
      * intros q Hq Hm. by rewrite T4, R4.
      * intros j l [->|Hj]%elem_of_cons Hjl; [apply T6; auto|]. apply (T7 j); [done|congruence].
    + intros t Ht. rewrite Hst2; [auto|]. by rewrite Hst.
Qed.

(** A task that is in no queue may exit. *)
Lemma exited_inv s Q c t :
  inv s Q c -> (forall q, t ∉ Q q) ->
  inv (set_pcb t ((pcb s t) <| pcb_status := TASK_EXITED |>) s) Q c.
Proof.
  intros H Ht. split; try apply H.
  - by apply abs_set_fields, H.
  - intros u Hu. destruct (decide (t = u)) as [<-|]; autorewrite with kernel; [done|].
    by apply (inv_ok _ _ _ H).
  - intros u Hu. destruct (decide (t = u)) as [<-|]; autorewrite with kernel; [done|].
    by apply (inv_entry _ _ _ H).
  - destruct (decide (t = NUM_MAX_TASK)) as [->|]; autorewrite with kernel; apply (inv_init _ _ _ H).
Qed.

(** The state in which [do_exit] calls the scheduler. *)
Record exiting (c : nat) (s s1 : kstate) (Q Q1 : queue_id -> list nat) : Prop := {
  ex_inv : inv s1 Q1 c;
  ex_sync : sync_inv s1 Q1;
  ex_proc : proc_inv s1 Q1;
  ex_status : status s1 c = TASK_EXITED;
  ex_ready t : t ∈ Q ready_queue -> t ∈ Q1 ready_queue;
  ex_waiters t : t ∈ Q (waiting_queue c) -> t ∈ Q1 ready_queue;
  ex_released l : Some l ∈ pcb_lock (pcb s c) -> lock_status s1 !!! l = UNLOCKED;
  ex_queues q : q <> ready_queue -> q <> waiting_queue c -> (forall l, q <> mutex_lock_queue l) ->
    Q1 q = Q q;
}.

Lemma clear_waiting_inv s Q c t :
  inv s Q c -> sync_inv s Q ->
  exists s', clear_waiting_queue (waiting_queue t) s = Ok (tt, s')
    /\ let Q' := <[ready_queue := Q ready_queue ++ Q (waiting_queue t)]> (<[waiting_queue t := []]> Q) in
       inv s' Q' c /\ sync_inv s' Q' /\ woken (Q (waiting_queue t)) s s'.
Proof.
  intros H HS. destruct (clear_waiting_queue_spec s Q (waiting_queue t) (inv_abs _ _ _ H)) as (s' & E & A & W); [done|].
  exists s'. split; [done|]. cbv zeta. split_and!; [|by eapply (sync_inv_woken _ _ _ _ _ W); [|done]; intros q Hq; qcase|done].
  eapply (woken_inv W); [done..| | | |].
  - intros u Hu. qcase. set_solver.
  - intros u Hu. by apply (task_ok_queued s Q c (waiting_queue t)).
  - intros u q' Hu. qcase; set_solver.
  - eauto.
Qed.

(** Setting the status to exited keeps the process invariant when nobody waits
    for the task. *)
Lemma exited_proc s s0 Q t :
  proc_inv s0 Q -> proc_frame s0 s -> Q (waiting_queue t) = [] ->
  proc_inv (set_pcb t ((pcb s t) <| pcb_status := TASK_EXITED |>) s) Q.
Proof.
  intros HP F EQ. destruct (proc_inv_transfer s0 s Q Q F (fun _ => eq_refl) HP) as [A B C D G].
  assert (forall u, pcb_pid (pcb (set_pcb t ((pcb s t) <| pcb_status := TASK_EXITED |>) s) u) = pcb_pid (pcb s u)) as Hp.
  { intros u. destruct (decide (t = u)) as [<-|]; by autorewrite with kernel. }
  split; [|intros u; rewrite Hp; apply B|intros u v; rewrite !Hp; apply C|done|].
  2: { intros u Hu. destruct (decide (t = u)) as [<-|]; autorewrite with kernel; by apply G. }
  intros u Hu. destruct (decide (t = u)) as [<-|]; autorewrite with kernel; [done|]. by apply A.
Qed.

Lemma do_exit_spec s Q c :
  full_inv s Q c ->
  exists s1 Q1, do_exit s = scheduler (with_resume c R_return s1) /\ exiting c s s1 Q Q1.
Proof.
  intros [[HK HS] HP]. pose proof HK as (H & Hc & Hrun). pose proof (pi_slots _ _ HP c Hc) as Hlen.
  pose proof (inv_running s Q c H Hc Hrun) as Hfree.
  destruct (release_slots_spec c (seq 0 LOCK_MAX_NUM) s Q c H HS Hfree)
    as (s1 & Q1 & E1 & H1 & S1 & [R1 R2 R3 R4 R5 R0 R6 R7] & _).
  destruct (clear_waiting_inv s1 Q1 c c H1 S1) as (s2 & E2 & H2 & S2 & W2).
  set (Q2 := <[ready_queue := _]> _) in *.
  assert (forall q, c ∉ Q2 q) as Hfree2.
  { intros q. unfold Q2. pose proof (R5 ready_queue). pose proof (R5 (waiting_queue c)).
    qcase; [set_solver|set_solver|apply R5]. }
  set (s3 := set_pcb c ((pcb s2 c) <| pcb_status := TASK_EXITED |>) s2).
  assert (inv s3 Q2 c) as H3 by by apply exited_inv.
  assert (proc_frame s s2) as F.
  { etrans; [eapply exit_release_slots; exact E1|]. by eapply exit_clear_waiting_queue. }
  exists s3, Q2. split.
  - unfold do_exit. rewrite (bind_Ok _ _ _ _ _ eq_refl), (inv_cur _ _ _ H).
    rewrite (bind_Ok _ _ _ _ _ E1), (bind_Ok _ _ _ _ _ E2), (bind_Ok _ _ _ _ _ eq_refl).
    apply (do_scheduler_eq s3 Q2 c). done.
  - split; [done| | |by unfold s3; rewrite pcb_set_eq| | | |].
    + revert S2. by apply sync_inv_transfer.
    + apply (exited_proc s2 s); [|done|by unfold Q2; qcase].
      destruct HP as [A B C D G]. split; try done. intros t Ht Hs. unfold Q2. qcase.
      rewrite R4 by done. by apply A.
    + intros t Ht%R0. unfold Q2. qcase. set_solver.
    + intros t Ht. unfold Q2. qcase. rewrite (R4 (waiting_queue c)) by done. set_solver.
    + intros l Hl. apply list_elem_of_lookup in Hl as [i Hi].
      change (lock_status s2 !!! l = UNLOCKED). rewrite (woken_rest W2 lock_status) by done.
      apply (R7 i); [|done]. apply elem_of_seq. apply lookup_lt_Some in Hi. lia.
    + intros q Hq1 Hq2 Hq3. unfold Q2. qcase. by apply R4.
Qed.

(** ** [do_waitpid] *)

Lemma do_waitpid_spec s Q c n :
  full_inv s Q c ->
  match find_pcb (has_pid n) s with
  | Some i =>
      if decide (status s i = TASK_EXITED) then do_waitpid n s = Ok (tt, s)
      else blocks s Q c (waiting_queue i) R_return (do_waitpid n s)
  | None => do_waitpid n s = Ok (tt, s)
  end.
Proof.
  intros [[HK HS] HP]. unfold do_waitpid.
  destruct (find_pcb (has_pid n) s) as [i|] eqn:Ef; [case_decide as Hd|];
    rewrite (bind_Ok _ _ _ _ _ eq_refl), Ef; [..|done]; rewrite (bind_Ok _ _ _ _ _ eq_refl).
  - by rewrite decide_True.
  - rewrite decide_False by done. apply block_on_blocks; [done..|].
    pose proof (sync_resume s Q c R_return HK HS) as HS1. revert HS1. apply sync_inv_queues; try done.
    intros q Hq. by qcase.
Qed.

(** ** [do_kill] *)

Lemma remove_from_locks_none locks s Q i :
  abs s Q -> Forall is_Some locks -> (forall q, i ∉ Q q) -> remove_from_locks locks i s = Ok (tt, s).
Proof.
  intros H Hall Hi. induction Hall as [|o locks [l ->] _ IH]; [done|]. cbn [remove_from_locks].
  rewrite (bind_Ok _ _ _ _ _ (check_in_queue_spec s Q _ i H)).
  rewrite bool_decide_false by apply Hi. by rewrite (bind_Ok _ _ _ _ _ eq_refl).
Qed.

Lemma remove_from_locks_spec locks s Q i l l1 l2 :
  abs s Q -> Forall is_Some locks -> Some l ∈ locks -> Q (mutex_lock_queue l) = l1 ++ i :: l2 ->
  exists s', remove_from_locks locks i s = Ok (tt, s')
    /\ abs s' (<[mutex_lock_queue l := l1 ++ l2]> Q) /\ links_only s s'.
Proof.
  intros H Hall Hin EQ. assert (i ∈ Q (mutex_lock_queue l)) as Hi by (rewrite EQ; set_solver).
  induction Hall as [|o locks [l' ->] Hall IH]; [set_solver|]. cbn [remove_from_locks].
  rewrite (bind_Ok _ _ _ _ _ (check_in_queue_spec s Q _ i H)).
  destruct (decide (l' = l)) as [->|Hne].
  - rewrite bool_decide_true by done.
    destruct (queue_remove_spec s Q (mutex_lock_queue l) i H l1 l2 EQ) as (s' & E & A & L).
    unfold bind at 1 2. rewrite E. cbn. exists s'. split_and!; [|done..].
    eapply remove_from_locks_none; [done..|]. by eapply removed_not_in.
  - rewrite bool_decide_false; [|intros Hi'; by pose proof (abs_disj _ _ H _ _ _ Hi Hi'); simplify_eq].
    rewrite (bind_Ok _ _ _ _ _ eq_refl). apply IH. set_solver.
Qed.

(** Where [do_kill] finds the task: in the queue of its status, or, when it is
    blocked, in the queue of a mutex of the table. *)
Definition killable (s : kstate) (Q : queue_id -> list nat) (i : nat) : Prop :=
  status s i = TASK_BLOCKED -> exists l, Some l ∈ Lock s /\ i ∈ Q (mutex_lock_queue l).

Lemma kill_unlink_spec s Q c i :
  inv s Q c -> Forall is_Some (Lock s) -> (i < NUM_MAX_TASK)%nat -> killable s Q i -> status s i <> TASK_EXITED ->
  exists s1 Q1, kill_unlink i s = Ok (tt, s1) /\ abs s1 Q1 /\ links_only s s1
    /\ (forall q, i ∉ Q1 q) /\ (forall t q, t <> i -> t ∈ Q1 q <-> t ∈ Q q)
    /\ (forall q, Q q = [] -> Q1 q = [])
    /\ (forall q, q <> ready_queue -> q <> sleeping_queue -> (forall l, q <> mutex_lock_queue l) -> Q1 q = Q q).
Proof.
  intros H Hall Hi Hkill Hex. pose proof (inv_abs _ _ _ H) as A. pose proof (inv_ok _ _ _ H i Hi) as Hok.
  assert (Hrm : forall q, i ∈ Q q -> q = ready_queue \/ q = sleeping_queue ->
    (do! queue_remove q (Some i); ret tt) s = kill_unlink i s ->
    exists s1 Q1, kill_unlink i s = Ok (tt, s1) /\ abs s1 Q1 /\ links_only s s1
    /\ (forall q, i ∉ Q1 q) /\ (forall t q, t <> i -> t ∈ Q1 q <-> t ∈ Q q)
    /\ (forall q, Q q = [] -> Q1 q = [])
    /\ (forall q, q <> ready_queue -> q <> sleeping_queue -> (forall l, q <> mutex_lock_queue l) -> Q1 q = Q q)).
  { intros q Hq Hor <-. apply list_elem_of_split in Hq as (l1 & l2 & EQ).
    destruct (queue_remove_spec s Q q i A l1 l2 EQ) as (s1 & E & A1 & L1).
    eexists s1, _. rewrite (bind_Ok _ _ _ _ _ E). split_and!; [done..| | | |].
    - by eapply removed_not_in.
    - intros t q' Ht. qcase; [rewrite EQ; set_solver|done].
    - intros q' Hq'. qcase. rewrite EQ in Hq'. by destruct l1.
    - intros q' ? ? ?. destruct Hor as [->| ->]; by qcase. }
  unfold kill_unlink in *. rewrite (bind_Ok _ _ _ _ _ eq_refl) in *.
  destruct (status s i) eqn:Est; cbn in Hok; try (by eapply Hrm; [exact Hok|auto|done]); [| |done].
  - destruct (Hkill Est) as (l & Hl & Hil). apply list_elem_of_split in Hil as (l1 & l2 & EQ).
    destruct (remove_from_locks_spec (Lock s) s Q i l l1 l2 A Hall Hl EQ) as (s1 & E & A1 & L1).
    eexists s1, _. rewrite (bind_Ok _ _ _ _ _ eq_refl). split_and!; [done..| | | |].
    + by eapply removed_not_in.
    + intros t q' Ht. qcase; [rewrite EQ; set_solver|done].
    + intros q' Hq'. qcase. rewrite EQ in Hq'. by destruct l1.
    + intros q' ? ? Hm. pose proof (Hm l). by qcase.
  - exists s, Q. by split_and!; [..|apply Hok| | |].
Qed.

(** Taken out of its queue and marked exited. *)
Lemma killed_inv s s1 Q Q1 c i :
  inv s Q c -> abs s1 Q1 -> links_only s s1 ->
  (forall q, i ∉ Q1 q) -> (forall t q, t <> i -> t ∈ Q1 q <-> t ∈ Q q) ->
  inv (set_pcb i ((pcb s1 i) <| pcb_status := TASK_EXITED |>) s1) Q1 c.
Proof.
  intros H A L Hi HQ.
  assert (Hf : forall A (f : pcb_t -> A) t, (forall p, f (unlink p) = f p) -> f (pcb s1 t) = f (pcb s t))
    by (intros; by apply (links_only_field _ _ _ _ L)).
  split.
  - by apply abs_set_fields.
  - intros q t Ht. destruct (decide (t = i)) as [->|Hne]; [by apply Hi in Ht|].
    apply (inv_members _ _ _ H q). by apply HQ.
  - etrans; [by apply (links_only_rest _ _ L current_running)|apply H].
  - apply H.
  - intros t Ht. destruct (decide (i = t)) as [<-|Hne]; autorewrite with kernel; [done|].
    rewrite Hf by done. apply (task_ok_transfer _ (t = c) _ Q); [done| |by apply (inv_ok _ _ _ H)].
    intros q. by apply HQ.
  - intros t Ht. destruct (decide (i = t)) as [<-|Hne]; autorewrite with kernel; [done|].
    rewrite !Hf by done. by apply (inv_entry _ _ _ H).
  - destruct (decide (i = NUM_MAX_TASK)) as [->|]; autorewrite with kernel;
      (etrans; [by apply (Hf _ entry_point)|apply (inv_init _ _ _ H)]).
Qed.

Lemma killed_sync s s1 Q Q1 i :
  sync_inv s Q -> links_only s s1 -> (forall t q, t <> i -> t ∈ Q1 q <-> t ∈ Q q) ->
  (forall q, i ∉ Q1 q) -> (forall q, Q q = [] -> Q1 q = []) ->
  (forall q, q <> ready_queue -> q <> sleeping_queue -> (forall l, q <> mutex_lock_queue l) -> Q1 q = Q q) ->
  sync_inv (set_pcb i ((pcb s1 i) <| pcb_status := TASK_EXITED |>) s1) Q1.
Proof.
  intros [A B C D] L HQ Hi Hnil Heq. split; cbn; rewrite ?(links_only_rest _ _ L lock_status),
    ?(links_only_rest _ _ L sem_value), ?(links_only_rest _ _ L max_num),
    ?(links_only_rest _ _ L not_arrive_num), ?(links_only_rest _ _ L suspended) by done.
  - intros l Hl. by apply Hnil, A.
  - intros j Hj. by apply Hnil, B.
  - intros j. rewrite Heq by done. apply C.
  - intros l t Ht. apply D. destruct (decide (t = i)) as [->|]; [by apply Hi in Ht|]. by apply HQ.
Qed.

(** The state after the body of [do_kill]. *)
Record killed (c i : nat) (s s' : kstate) (Q Q' : queue_id -> list nat) : Prop := {
  ki_inv : inv s' Q' c;
  ki_sync : sync_inv s' Q';
  ki_proc : proc_inv s' Q';
  ki_exited : status s' i = TASK_EXITED;
  ki_current : i <> c -> status s' c = status s c;
  ki_pid t : pcb_pid (pcb s' t) = pcb_pid (pcb s t);
  ki_ready t : t <> i -> t ∈ Q ready_queue -> t ∈ Q' ready_queue;
  ki_waiters t : t ∈ Q (waiting_queue i) -> t ∈ Q' ready_queue;
  ki_released l : Some l ∈ pcb_lock (pcb s i) -> lock_status s' !!! l = UNLOCKED;
}.

Definition kill_body (i : nat) : M kstate unit :=
  do! kill_unlink i;
  do! set_status i TASK_EXITED;
  do! release_all (Some i);
  clear_waiting_queue (waiting_queue i).

Lemma kill_body_spec s Q c i :
  full_inv s Q c -> (i < NUM_MAX_TASK)%nat -> killable s Q i -> status s i <> TASK_EXITED ->
  exists s' Q', kill_body i s = Ok (tt, s') /\ killed c i s s' Q Q'.
Proof.
  intros [[HK HS] HP] Hi Hkill Hex. pose proof HK as (H & Hc & Hrun).
  destruct (kill_unlink_spec s Q c i H (pi_locks _ _ HP) Hi Hkill Hex)
    as (s1 & Q1 & E1 & A1 & L1 & Hfree & Hmem & Hnil & Heq).
  set (s2 := set_pcb i ((pcb s1 i) <| pcb_status := TASK_EXITED |>) s1).
  assert (inv s2 Q1 c) as H2 by by apply (killed_inv s s1 Q Q1).
  assert (sync_inv s2 Q1) as S2 by by apply (killed_sync s s1 Q Q1).
  destruct (release_slots_spec i (seq 0 LOCK_MAX_NUM) s2 Q1 c H2 S2 Hfree)
    as (s3 & Q3 & E3 & H3 & S3 & [R1 R2 R3 R4 R5 R0 R6 R7] & Hst3).
  destruct (clear_waiting_inv s3 Q3 c i H3 S3) as (s4 & E4 & H4 & S4 & W4).
  set (Q4 := <[ready_queue := _]> _) in *. exists s4, Q4.
  assert (proc_frame s2 s4) as F.
  { etrans; [eapply exit_release_slots; exact E3|]. by eapply exit_clear_waiting_queue. }
  assert (Hst2 : forall t, status s2 t = if decide (t = i) then TASK_EXITED else status s t).
  { intros t. unfold s2. case_decide; subst; autorewrite with kernel; [done|].
    by apply (links_only_field pcb_status _ _ _ L1). }
  assert (Hsame : forall A (f : pcb_t -> A) t, (forall p, f (unlink p) = f p) ->
    (forall p, f (p <| pcb_status := TASK_EXITED |>) = f p) -> f (pcb s2 t) = f (pcb s t)).
  { intros B f t Hf Hf'. unfold s2. destruct (decide (i = t)) as [<-|]; autorewrite with kernel;
      rewrite ?Hf'; by apply (links_only_field f _ _ _ L1). }
  assert (EQ3 : forall t, Q3 (waiting_queue t) = Q (waiting_queue t)) by (intros t; by rewrite R4, Heq).
  split; [unfold kill_body|].
  { rewrite (bind_Ok _ _ _ _ _ E1), (bind_Ok _ _ _ _ _ eq_refl), (bind_Ok _ _ _ _ _ E3). exact E4. }
  assert (forall t, t ∈ Q3 (waiting_queue i) -> status s3 t = TASK_BLOCKED) as Hwb.
  { intros t Ht. by eapply queued_blocked. }
  assert (Hst4 : forall t, status s3 t <> TASK_BLOCKED -> status s4 t = status s3 t).
  { intros t Ht. rewrite (woken_status W4), decide_False; [done|]. by intros ?%Hwb. }
  split; [done|done| | | | | | |].
  - destruct HP as [P1 P2 P3 P4 P5], F as [F1 F2 F3 F4 F5]. split.
    + intros t Ht Hs. apply F1 in Hs. rewrite Hst2 in Hs. unfold Q4. destruct (decide (t = i)) as [->|]; qcase.
      rewrite EQ3. by apply P1.
    + intros t. rewrite F2, F3, Hsame by done. change (PID s2) with (PID s1).
      rewrite (links_only_rest _ _ L1 PID) by done. apply P2.
    + intros t u. rewrite !F2, !Hsame by done. apply P3.
    + rewrite F4. change (Lock s2) with (Lock s1). by rewrite (links_only_rest _ _ L1 Lock).
    + intros t. rewrite F5, (Hsame _ (fun p => length (pcb_lock p))) by done. apply P5.
  - assert (status s3 i = TASK_EXITED) as E by (rewrite R2, Hst2; by rewrite decide_True).
    rewrite Hst4; by rewrite E.
  - intros Hic. assert (status s2 c = TASK_RUNNING) as Hr by (rewrite Hst2, decide_False; done).
    rewrite Hst4, Hst3 by (rewrite ?Hst3; by rewrite Hr). by rewrite Hr, Hrun.
  - intros t. by rewrite (pf_pid _ _ F), Hsame.
  - intros t Hne Ht. unfold Q4. qcase. apply elem_of_app. left. by apply R0, Hmem.
  - intros t Ht. unfold Q4. qcase. rewrite EQ3. set_solver.
  - intros l Hl. rewrite <-(Hsame _ pcb_lock) in Hl by done. apply list_elem_of_lookup in Hl as [j Hj].
    rewrite (woken_rest W4 lock_status) by done. apply (R7 j); [|done]. apply elem_of_seq. apply lookup_lt_Some in Hj.
    rewrite (Hsame _ (fun p => length (pcb_lock p))), (pi_slots _ _ HP i Hi) in Hj by done. lia.
Qed.

Lemma do_kill_eq n s :
  do_kill n s =
  match find_pcb (has_pid n) s with
  | None => Ok (tt, s)
  | Some i =>
      (do! (if decide (status s i = TASK_EXITED) then ret tt else kill_body i);
       let! cur := gets current_running in
       let! pid := load cur pcb_pid in
       if pid =? n then do_scheduler R_return else ret tt) s
  end.
Proof.
  unfold do_kill. rewrite (bind_Ok _ _ _ _ _ eq_refl).
  destruct (find_pcb (has_pid n) s) as [i|]; [|done]. by rewrite (bind_Ok _ _ _ _ _ eq_refl).
Qed.

(** The process with a pid other than 0 is unique, so [do_kill] switches exactly
    when the running task killed itself. *)
Lemma do_kill_spec s Q c n :
  full_inv s Q c -> n <> 0 ->
  match find_pcb (has_pid n) s with
  | None => do_kill n s = Ok (tt, s)
  | Some i =>
      if decide (status s i = TASK_EXITED) then do_kill n s = Ok (tt, s)
      else killable s Q i -> exists s' Q', killed c i s s' Q Q'
        /\ do_kill n s = if decide (i = c) then scheduler (with_resume c R_return s') else Ok (tt, s')
  end.
Proof.
  intros HF Hn. pose proof HF as [[(H & Hc & Hrun) HS] HP]. pose proof (find_pcb_spec (has_pid n) s) as Hf.
  rewrite do_kill_eq. destruct (find_pcb (has_pid n) s) as [i|]; [|done].
  destruct Hf as [Hi Hpid%Z.eqb_eq].
  assert (Hcur : forall s1, pcb_pid (pcb s1 c) = pcb_pid (pcb s c) -> current_running s1 = Some c ->
    (let! cur := gets current_running in
     let! pid := load cur pcb_pid in
     if pid =? n then do_scheduler R_return else ret tt) s1
    = if decide (i = c) then do_scheduler R_return s1 else Ok (tt, s1)).
  { intros s1 E1 E2. unfold bind, gets, load. rewrite E2, E1.
    destruct (Z.eqb_spec (pcb_pid (pcb s c)) n) as [E|E], (decide (i = c)) as [->|Hne]; try done.
    destruct Hne. apply (pi_uniq _ _ HP); [done..|congruence|congruence]. }
  destruct (decide (status s i = TASK_EXITED)) as [Hd|Hd].
  - rewrite (bind_Ok _ _ _ _ _ eq_refl). rewrite Hcur by (done || apply H).
    rewrite decide_False; [done|]. intros ->. congruence.
  - intros Hk. destruct (kill_body_spec s Q c i HF Hi Hk Hd) as (s' & Q' & E & K).
    exists s', Q'. split; [done|]. rewrite (bind_Ok _ _ _ _ _ E). rewrite Hcur.
    + case_decide; [|done]. apply (do_scheduler_eq _ Q'). apply K.
    + apply K.
    + apply K.
Qed.

(** ** System calls and executions *)

Inductive call :=
| C_sleep (n : Z)
| C_acquire (l : nat)
| C_release (l : nat)
| C_semaphore_up (i : nat)
| C_semaphore_down (i : nat)
| C_condition_wait (l i : nat)
| C_condition_signal (i : nat)
| C_condition_broadcast (i : nat)
| C_barrier_wait (i : nat)
| C_spawn (ti : task_info_t)
| C_exit
| C_waitpid (n : Z)
| C_kill (n : Z)
| C_tick
| C_mutex_init (l : nat)
| C_semaphore_init (i : nat) (v : Z)
| C_condition_init (i : nat)
| C_barrier_init (i : nat) (goal : Z)
| C_block (q : queue_id)
| C_unblock_one (q : queue_id)
| C_unblock_all (q : queue_id).

Definition exec (first_entry : Z) (k : call) : M kstate unit :=
  match k with
  | C_sleep n => do_sleep n
  | C_acquire l => do_mutex_lock_acquire l
  | C_release l => do_mutex_lock_release l
  | C_semaphore_up i => do_semaphore_up i
  | C_semaphore_down i => do_semaphore_down i
  | C_condition_wait l i => do_condition_wait l i
  | C_condition_signal i => do_condition_signal i
  | C_condition_broadcast i => do_condition_broadcast i
  | C_barrier_wait i => do_barrier_wait i
  | C_spawn ti => do_spawn first_entry ti
  | C_exit => do_exit
  | C_waitpid n => do_waitpid n
  | C_kill n => do_kill n
  | C_tick => irq_timer
  | C_mutex_init l => do_mutex_lock_init l
  | C_semaphore_init i v => do_semaphore_init i v
  | C_condition_init i => do_condition_init i
  | C_barrier_init i goal => do_barrier_init i goal
  | C_block q => do_block q R_return
  | C_unblock_one q => do_unblock_one q
  | C_unblock_all q => do_unblock_all q
  end.

(** The queues on which a task may block by itself: those of the kernel that
    belong to no mutex, semaphore, barrier or process. *)
Definition plain_queue (q : queue_id) : bool :=
  match q with block_queue | recv_block_queue | condition_queue _ => true | _ => false end.
Definition no_waiters (s : kstate) (q : queue_id) : Prop := queue_is_empty q s = Ok (true, s).

(** What the calls ask of their arguments: barriers are initialised with a
    positive number; programs have an entry point and pids do not wrap; the task
    to be killed is not blocked elsewhere than on a mutex of the table; an object
    is initialised only while nobody waits on it; tasks block by themselves only
    on the queues that belong to no other object. *)
Definition allowed (s : kstate) (k : call) : Prop :=
  match k with
  | C_mutex_init l => no_waiters s (mutex_lock_queue l)
  | C_semaphore_init i _ => no_waiters s (semaphore_queue i)
  | C_condition_init i => no_waiters s (condition_queue i)
  | C_barrier_init i _ => no_waiters s (barrier_queue i)
  | C_block q | C_unblock_one q | C_unblock_all q => plain_queue q = true
  | C_barrier_wait i => 0 < max_num s !!! i < 2 ^ 31
  | C_spawn ti => task_entry_point ti <> 0 /\ PID s + 1 < 2 ^ 31
  | C_kill n => n <> 0 /\ forall i, find_pcb (has_pid n) s = Some i -> status s i = TASK_BLOCKED ->
      exists l, Some l ∈ Lock s /\ check_in_queue (mutex_lock_queue l) (Some i) s = Ok (true, s)
  | _ => True
  end.

(** The running task makes a system call or is interrupted; a task that was
    blocked inside [do_mutex_lock_acquire] first goes on there. *)
Inductive step (first_entry : Z) : kstate -> kstate -> Prop :=
| step_call s c k s' :
    current_running s = Some c -> suspended s !!! c = R_return -> allowed s k ->
    exec first_entry k s = Ok (tt, s') -> step first_entry s s'
| step_resume s c l s' :
    current_running s = Some c -> suspended s !!! c = R_mutex_lock_acquire l ->
    resume s = Ok (tt, s') -> step first_entry s s'.

(** The kernel after [init_pcb] and the first switch of [_start]. *)
Definition boot (first_entry test_shell : Z) : outcome (unit * kstate) :=
  (do! init_pcb first_entry test_shell; do_scheduler R_return) boot_kstate.

Inductive reachable (first_entry test_shell : Z) : kstate -> Prop :=
| reach_boot s : boot first_entry test_shell = Ok (tt, s) -> reachable first_entry test_shell s
| reach_step s s' : reachable first_entry test_shell s -> step first_entry s s' ->
    reachable first_entry test_shell s'.

Lemma stays_good s s' Q Q' c :
  proc_inv s Q -> kernel_inv s' Q' c -> proc_frame s s' ->
  (forall t, Q' (waiting_queue t) = Q (waiting_queue t)) -> good s'.
Proof. intros HP HK F HQ. exists Q', c. split; [done|]. by eapply proc_inv_transfer. Qed.

Ltac waiting_same := let t := fresh in intros t; by qcase.

Lemma acquire_good s Q c l s' :
  full_inv s Q c -> do_mutex_lock_acquire l s = Ok (tt, s') -> good s'.
Proof.
  intros [HK HP] E. pose proof (exit_do_mutex_lock_acquire l _ _ _ E) as F.
  pose proof (do_mutex_lock_acquire_spec s Q c l HK) as Hs. destruct (lock_status s !!! l).
  - destruct Hs as (s1 & E1 & HK1 & _). rewrite E1 in E. simplify_eq. by eapply stays_good.
  - by eapply blocks_good.
Qed.

Lemma release_good s Q c l s' :
  full_inv s Q c -> do_mutex_lock_release l s = Ok (tt, s') -> good s'.
Proof.
  intros [[HK HS] HP] E. pose proof (exit_do_mutex_lock_release l _ _ _ E) as F.
  pose proof HK as (H & Hc & Hrun).
  destruct (do_mutex_lock_release_inv s Q c l H HS) as (W & s1 & HW & E1 & H1 & S1 & St & _).
  rewrite E1 in E. simplify_eq.
  assert (status s' c = TASK_RUNNING) as Hrun'.
  { rewrite St, decide_False; [done|]. rewrite HW. by apply (inv_running s). }
  eapply stays_good; [done|split; [split_and!; [exact H1|done..]|exact S1]|done|waiting_same].
Qed.

Lemma exit_good s Q c s' : full_inv s Q c -> do_exit s = Ok (tt, s') -> good s'.
Proof.
  intros HF E. destruct (do_exit_spec s Q c HF) as (s1 & Q1 & E1 & [X1 X2 X3 X4 X0 X5 X6 X7]).
  rewrite E1 in E. set (s2 := with_resume c R_return s1) in *.
  assert (inv s2 Q1 c) as H2 by by apply (inv_stores s1).
  assert (status s2 c = TASK_EXITED) as Hst by exact X4.
  eapply (switched_good s2 s2 Q1 Q1); [apply (scheduler_parked _ _ c H2); by rewrite Hst|done| | |by eapply exit_scheduler|done].
  - revert X2. apply sync_inv_transfer; try done. intros l t Ht. cbn. rewrite lookup_total_insert_ne; [done|].
    intros <-. pose proof (inv_ok _ _ _ X1 c) as Hok. rewrite X4 in Hok. apply (Hok (inv_members _ _ _ X1 _ _ Ht) _ Ht).
  - revert X3. by apply proc_inv_transfer.
Qed.

Lemma allowed_killable s Q c i :
  inv s Q c -> (status s i = TASK_BLOCKED ->
    exists l, Some l ∈ Lock s /\ check_in_queue (mutex_lock_queue l) (Some i) s = Ok (true, s)) ->
  killable s Q i.
Proof.
  intros H Hal Hb. destruct (Hal Hb) as (l & Hl & Hin). exists l. split; [done|].
  rewrite (check_in_queue_spec s Q) in Hin by apply H. injection Hin as Hin.
  by apply bool_decide_eq_true in Hin.
Qed.

Lemma kill_good s Q c n s' :
  full_inv s Q c -> allowed s (C_kill n) -> do_kill n s = Ok (tt, s') -> good s'.
Proof.
  intros HF [Hn Hal] E. pose proof (do_kill_spec s Q c n HF Hn) as Hs.
  destruct (find_pcb (has_pid n) s) as [i|]; [|rewrite Hs in E; injection E as <-; by exists Q, c].
  destruct (decide (status s i = TASK_EXITED)); [rewrite Hs in E; injection E as <-; by exists Q, c|].
  destruct Hs as (s1 & Q1 & [K1 K2 K3 K4 K5 K6 K0 K7 _] & E1).
  { exact (allowed_killable s Q c i (proj1 (proj1 (proj1 HF))) (Hal i eq_refl)). }
  rewrite E1 in E. destruct (decide (i = c)) as [->|Hne].
  - set (s2 := with_resume c R_return s1) in *. assert (inv s2 Q1 c) as H2 by by apply (inv_stores s1).
    assert (status s2 c = TASK_EXITED) as Hst by exact K4.
    eapply (switched_good s2 s2 Q1 Q1); [apply (scheduler_parked _ _ c H2); by rewrite Hst|done| | |by eapply exit_scheduler|done].
    + revert K2. apply sync_inv_transfer; try done. intros l t Ht. cbn. rewrite lookup_total_insert_ne; [done|].
      intros <-. pose proof (inv_ok _ _ _ K1 c) as Hok. rewrite K4 in Hok. apply (Hok (inv_members _ _ _ K1 _ _ Ht) _ Ht).
    + revert K3. by apply proc_inv_transfer.
  - simplify_eq. exists Q1, c. destruct HF as [[(H & Hc & Hrun) _] _].
    split; [split; [split_and!|]|]; try done. by rewrite K5.
Qed.

Lemma exit_queue_init q : keeps proc_frame (queue_init q).
Proof. unfold queue_init. keeps_auto. Qed.
#[export] Hint Resolve exit_queue_init : keeps.
Lemma exit_do_mutex_lock_init l : keeps proc_frame (do_mutex_lock_init l).
Proof. unfold do_mutex_lock_init. keeps_auto. Qed.
Lemma exit_do_semaphore_init i v : keeps proc_frame (do_semaphore_init i v).
Proof. unfold do_semaphore_init. keeps_auto. Qed.
Lemma exit_do_barrier_init i n : keeps proc_frame (do_barrier_init i n).
Proof. unfold do_barrier_init. keeps_auto. Qed.
#[export] Hint Resolve exit_do_mutex_lock_init exit_do_semaphore_init exit_do_barrier_init : keeps.
Lemma exit_do_waitpid n : keeps proc_frame (do_waitpid n).
Proof. unfold do_waitpid. keeps_auto. Qed.

Lemma condition_wait_good s Q c l i s' :
  full_inv s Q c -> do_condition_wait l i s = Ok (tt, s') -> good s'.
Proof.
  intros [HK HP] E. pose proof (exit_do_condition_wait l i _ _ _ E) as F.
  destruct (do_condition_wait_spec s Q c l i HK) as [(_ & t & s1 & Q' & E1 & HK1 & _ & _ & _ & _ & _ & _ & HQ)|[_ E1]];
    rewrite E1 in E; [|done]. simplify_eq. by eapply stays_good.
Qed.

Lemma no_waiters_nil s Q c q : inv s Q c -> no_waiters s q -> Q q = [].
Proof.
  intros H. unfold no_waiters. rewrite (queue_is_empty_spec _ _ _ (inv_abs _ _ _ H)). intros [= E]. by destruct (Q q).
Qed.
(** The queues are what they were, and so are the tasks. *)
Lemma init_good s Q c s' : full_inv s Q c -> kernel_inv s' Q c -> proc_frame s s' -> good s'.
Proof. intros [_ HP] HK F. by eapply stays_good. Qed.

Lemma plain_not_ready q : plain_queue q = true -> q <> ready_queue /\ q <> sleeping_queue /\ sync_queue q = false.
Proof. by destruct q. Qed.
Lemma block_plain s Q c q : full_inv s Q c -> plain_queue q = true -> blocks s Q c q R_return (do_block q R_return s).
Proof.
  intros [[HK HS] _] Hp. destruct (plain_not_ready q Hp) as (Hr & Hs & Hq). apply do_block_blocks; [done..|].
  apply (sync_inv_queues (with_resume c R_return s) _ Q); try done; [|by apply sync_resume].
  intros q' Hq'. destruct (decide (q = q')) as [->|]; [congruence|by qcase].
Qed.
(** Tasks of a plain queue are made ready. *)
Lemma unblock_plain s Q c q W l s' :
  full_inv s Q c -> plain_queue q = true -> W ++ l ≡ₚ Q q -> proc_frame s s' ->
  inv s' (<[ready_queue := Q ready_queue ++ W]> (<[q := l]> Q)) c -> woken W s s' -> good s'.
Proof.
  intros [[(H & Hc & Hrun) HS] HP] Hp Hl F H' HW. destruct (plain_not_ready q Hp) as (Hr & Hs & Hq).
  eapply stays_good; [exact HP|split; [split_and!; [exact H'|exact Hc|]|]|exact F|].
  - rewrite (woken_status HW), decide_False; [done|]. intros Hin. apply (inv_running s Q c H Hc Hrun q). rewrite <-Hl. set_solver.
  - revert HS. apply (sync_inv_woken _ _ _ _ _ HW). intros q' Hq'. destruct (decide (q = q')) as [->|]; [congruence|].
    destruct (decide (ready_queue = q')) as [<-|]; [done|by qcase].
  - intros t. assert (q <> waiting_queue t) by by intros ->. by qcase.
Qed.
Lemma unblock_one_good s Q c q s' :
  full_inv s Q c -> plain_queue q = true -> do_unblock_one q s = Ok (tt, s') -> good s'.
Proof.
  intros HF Hp E. pose proof (exit_do_unblock_one q _ _ _ E) as F. pose proof HF as [[(H & _) _] _].
  pose proof (do_unblock_one_spec s Q c q H (proj1 (plain_not_ready q Hp))) as Hs. destruct (Q q) as [|x m] eqn:EQ.
  - rewrite Hs in E. injection E as <-. by exists Q, c.
  - destruct Hs as (l1 & l2 & s1 & El & E1 & H1 & W1). rewrite E1 in E. injection E as <-.
    eapply unblock_plain; try done. rewrite EQ, El. cbn [app]. apply Permutation_middle.
Qed.
Lemma unblock_all_good s Q c q s' :
  full_inv s Q c -> plain_queue q = true -> do_unblock_all q s = Ok (tt, s') -> good s'.
Proof.
  intros HF Hp E. pose proof (exit_do_unblock_all q _ _ _ E) as F. pose proof HF as [[(H & _) _] _].
  destruct (do_unblock_all_spec s Q c q H (proj1 (plain_not_ready q Hp))) as (W & s1 & HW & E1 & H1 & W1).
  rewrite E1 in E. injection E as <-. eapply unblock_plain; try done. by rewrite app_nil_r.
Qed.

Lemma exec_good fe k s Q c s' :
  full_inv s Q c -> allowed s k -> exec fe k s = Ok (tt, s') -> good s'.
Proof.
  intros HF Hal E. destruct k; cbn [exec] in E.
  - by eapply do_sleep_good.
  - by eapply acquire_good.
  - by eapply release_good.
  - pose proof (exit_do_semaphore_up i _ _ _ E) as F. destruct HF as [HK HP].
    pose proof (do_semaphore_up_spec s Q c i HK) as Hs.
    destruct (Q (semaphore_queue i)); destruct Hs as (s1 & E1 & HK1 & _); rewrite E1 in E; simplify_eq;
      (eapply stays_good; [done..|]); [done|waiting_same].
  - pose proof (exit_do_semaphore_down i _ _ _ E) as F. destruct HF as [HK HP].
    pose proof (do_semaphore_down_spec s Q c i HK) as Hs. destruct (decide _); [by eapply blocks_good|].
    destruct Hs as (s1 & E1 & HK1 & _). rewrite E1 in E. simplify_eq. by eapply stays_good.
  - by eapply condition_wait_good.
  - pose proof (exit_do_condition_signal i _ _ _ E) as F. destruct HF as [HK HP].
    destruct (do_condition_signal_spec s Q c i HK) as (s1 & E1 & Hs). rewrite E1 in E. simplify_eq.
    destruct (Q (condition_queue i)); [subst; by exists Q, c|]. destruct Hs as [HK1 _].
    eapply stays_good; [done..|waiting_same].
  - pose proof (exit_do_condition_broadcast i _ _ _ E) as F. destruct HF as [HK HP].
    destruct (do_condition_broadcast_spec s Q c i HK) as (s1 & E1 & HK1 & _). rewrite E1 in E. simplify_eq.
    eapply stays_good; [done..|waiting_same].
  - pose proof (exit_do_barrier_wait i _ _ _ E) as F. destruct HF as [HK HP].
    pose proof (do_barrier_wait_spec s Q c i HK Hal) as Hs. destruct (decide _); [|by eapply blocks_good].
    destruct Hs as (s1 & E1 & HK1 & _). rewrite E1 in E. simplify_eq. eapply stays_good; [done..|waiting_same].
  - destruct Hal as [Hep Hpid]. pose proof (do_spawn_spec s Q c fe ti HF Hep Hpid) as Hs.
    destruct (find_pcb _ s); destruct Hs as (s1 & E1 & HF1 & _); rewrite E1 in E; injection E as <-; by eexists _, _.
  - by eapply exit_good.
  - destruct HF as [HK HP]. pose proof (do_waitpid_spec s Q c n (conj HK HP)) as Hs.
    pose proof (exit_do_waitpid n _ _ _ E) as F.
    destruct (find_pcb (has_pid n) s) as [i|]; [|rewrite Hs in E; injection E as <-; by exists Q, c].
    destruct (decide _) as [|Hne]; [rewrite Hs in E; injection E as <-; by exists Q, c|]. eapply blocks_good; try done.
    by intros j [= <-].
  - by eapply kill_good.
  - destruct (irq_timer_spec s Q c HF) as (s1 & Q1 & c1 & E1 & HF1 & _). rewrite E1 in E. simplify_eq.
    by exists Q1, c1.
  - assert (Q (mutex_lock_queue l) = []) as EQ by by eapply no_waiters_nil; [apply HF|].
    destruct (do_mutex_lock_init_spec s Q c l (proj1 HF) EQ) as (s1 & E1 & HK1 & _). pose proof (exit_do_mutex_lock_init l _ _ _ E) as F.
    rewrite E1 in E. injection E as <-. by eapply init_good.
  - assert (Q (semaphore_queue i) = []) as EQ by by eapply no_waiters_nil; [apply HF|].
    destruct (do_semaphore_init_spec s Q c i v (proj1 HF) EQ) as (s1 & E1 & HK1 & _). pose proof (exit_do_semaphore_init i v _ _ _ E) as F.
    rewrite E1 in E. injection E as <-. by eapply init_good.
  - assert (Q (condition_queue i) = []) as EQ by by eapply no_waiters_nil; [apply HF|].
    destruct (do_condition_init_spec s Q c i (proj1 HF) EQ) as (s1 & E1 & HK1). pose proof (exit_queue_init (condition_queue i) _ _ _ E) as F.
    rewrite E1 in E. injection E as <-. by eapply init_good.
  - assert (Q (barrier_queue i) = []) as EQ by by eapply no_waiters_nil; [apply HF|].
    destruct (do_barrier_init_spec s Q c i goal (proj1 HF) EQ) as (s1 & E1 & HK1 & _). pose proof (exit_do_barrier_init i goal _ _ _ E) as F.
    rewrite E1 in E. injection E as <-. by eapply init_good.
  - pose proof (exit_do_block q R_return _ _ _ E) as F. eapply (blocks_good s s Q c q); try done; [by apply block_plain|apply HF|].
    by intros ? ->.
  - by eapply unblock_one_good.
  - by eapply unblock_all_good.
Qed.

(** ** The initial state *)

Section boot.
Context (fe sh : Z) (Hsh : sh <> 0).

Definition no_tasks (q : queue_id) : list nat := [].
Definition init_state : kstate :=
  match init_pcb fe sh boot_kstate with Ok (_, s) => s | Fault _ => boot_kstate end.
Definition init_queues : queue_id -> list nat := <[ready_queue := [1%nat]]> no_tasks.

Definition keeps_empty (s s' : kstate) : Prop := abs s no_tasks -> abs s' no_tasks.
#[local] Instance keeps_empty_preorder : PreOrder keeps_empty.
Proof. split; [intros s H; exact H|]. intros s s' s'' H1 H2 H. exact (H2 (H1 H)). Qed.

Lemma empty_store t f : keeps keeps_empty (store (Some t) f).
Proof. intros s a s' [= _ <-] H. apply abs_set_notin; [|done]. unfold no_tasks. set_solver. Qed.
Lemma empty_queue_init q : keeps keeps_empty (queue_init q).
Proof. intros s a s' [= _ <-] H. by apply abs_queue_init. Qed.
Lemma empty_modify f :
  (forall s, pcbs (f s) = pcbs s) -> (forall s, queues (f s) = queues s) -> keeps keeps_empty (modify f).
Proof. intros H1 H2 s a s' [= _ <-] HA. by apply (abs_stores s). Qed.
#[local] Hint Resolve empty_store empty_queue_init : keeps.
#[local] Hint Extern 1 (keeps keeps_empty (modify _)) => (by apply empty_modify) : keeps.

Lemma empty_init : keeps keeps_empty (do! init_tables; init_shell fe sh).
Proof.
  unfold init_tables, init_shell, do_mutex_lock_init. keeps_auto.
  generalize (seq 0 NUM_MAX_TASK) as l. induction l; cbn [init_status]; unfold set_status; keeps_auto.
Qed.

Lemma boot_abs : abs boot_kstate no_tasks.
Proof.
  split; [|by intros ? ? ? ?%not_elem_of_nil|by intros ? ? ?%not_elem_of_nil].
  intros q. split; [done..|constructor|done].
Qed.

Lemma init_prefix_ok :
  exists s1, (do! init_tables; init_shell fe sh) boot_kstate = Ok (tt, s1)
    /\ current_running s1 = Some NUM_MAX_TASK.
Proof. eexists. split; vm_compute; reflexivity. Qed.

Lemma init_pcb_eq s :
  init_pcb fe sh s = (do! (do! init_tables; init_shell fe sh);
    do! queue_push ready_queue (Some 1%nat);
    let! cur := gets current_running in
    do! store cur (fun p => p <| pcb_status := TASK_CREATED |>);
    do! store cur (fun p => p <| entry_point := 0 |>);
    store cur (fun p => p <| pcb_pid := 0 |>)) s.
Proof. unfold init_pcb, bind. by destruct (init_tables s) as [[[] ?]|]. Qed.

Lemma init_abs s : init_pcb fe sh boot_kstate = Ok (tt, s) -> abs s init_queues.
Proof.
  rewrite init_pcb_eq. destruct init_prefix_ok as (s1 & E1 & Ec1).
  rewrite (bind_Ok _ _ _ _ _ E1). pose proof (empty_init _ _ _ E1 boot_abs) as A1. clear E1.
  destruct (queue_push_spec s1 no_tasks ready_queue 1 A1) as (s2 & E2 & A2 & L2);
    [intros q; apply not_elem_of_nil|unfold NUM_MAX_TASK; lia|].
  rewrite (bind_Ok _ _ _ _ _ E2). rewrite <-(links_only_rest _ _ L2 current_running) in Ec1 by done.
  unfold bind, gets. rewrite Ec1. generalize NUM_MAX_TASK as n. intros n. cbn [store]. intros [= <-].
  do 3 (apply abs_set_fields; [done..|]). exact A2.
Qed.

Lemma init_ok : init_pcb fe sh boot_kstate = Ok (tt, init_state).
Proof. vm_compute. reflexivity. Qed.

(** A fact about every task of the table, by evaluation. *)
Lemma all_tasks (P : nat -> Prop) `{!forall t, Decision (P t)} :
  forallb (fun t => bool_decide (P t)) (seq 0 NUM_MAX_TASK) = true ->
  forall t, (t < NUM_MAX_TASK)%nat -> P t.
Proof using.
  intros Hall t Ht. rewrite forallb_forall in Hall.
  apply (bool_decide_eq_true (P t)), Hall, in_seq. lia.
Qed.

Lemma init_status_ok t : (t < NUM_MAX_TASK)%nat ->
  status init_state t = if Nat.eqb t 1 then TASK_CREATED else TASK_EXITED.
Proof. apply (all_tasks (fun t => status init_state t = if Nat.eqb t 1 then TASK_CREATED else TASK_EXITED)). vm_compute. reflexivity. Qed.
Lemma init_pid_ok t : (t < NUM_MAX_TASK)%nat ->
  pcb_pid (pcb init_state t) = if Nat.eqb t 1 then 1 else 0.
Proof. apply (all_tasks (fun t => pcb_pid (pcb init_state t) = if Nat.eqb t 1 then 1 else 0)). vm_compute. reflexivity. Qed.
Lemma init_slots_ok t : (t < NUM_MAX_TASK)%nat -> length (pcb_lock (pcb init_state t)) = LOCK_MAX_NUM.
Proof. apply (all_tasks (fun t => length (pcb_lock (pcb init_state t)) = LOCK_MAX_NUM)). vm_compute. reflexivity. Qed.
Lemma init_fields :
  current_running init_state = Some NUM_MAX_TASK /\ entry_point (pcb init_state 1) = sh
  /\ entry_point (pcb init_state NUM_MAX_TASK) = 0 /\ status init_state NUM_MAX_TASK = TASK_CREATED
  /\ PID init_state = 1 /\ Lock init_state = Some <$> seq 0 MAX_LOCK_NUM_TOTAL
  /\ max_num init_state = ∅.
Proof. split_and!; vm_compute; reflexivity. Qed.

Lemma init_queues_in q t : t ∈ init_queues q <-> q = ready_queue /\ t = 1%nat.
Proof using.
  unfold init_queues, no_tasks. destruct (decide (ready_queue = q)) as [<-|Hne].
  - rewrite fn_lookup_insert, list_elem_of_singleton. tauto.
  - rewrite fn_lookup_insert_ne by done. split; [by intros ?%not_elem_of_nil|]. intros [-> _]. done.
Qed.
Lemma init_queues_nil q : q <> ready_queue -> init_queues q = [].
Proof using. intros Hq. unfold init_queues. by rewrite fn_lookup_insert_ne. Qed.
Lemma init_queues_ready : init_queues ready_queue = [1%nat].
Proof using. unfold init_queues. by rewrite fn_lookup_insert. Qed.

(** What the proofs below need to know about [init_state]. *)
Record initial (s : kstate) : Prop := {
  in_abs : abs s init_queues;
  in_status t : (t < NUM_MAX_TASK)%nat -> status s t = if Nat.eqb t 1 then TASK_CREATED else TASK_EXITED;
  in_pid t : (t < NUM_MAX_TASK)%nat -> pcb_pid (pcb s t) = if Nat.eqb t 1 then 1 else 0;
  in_slots t : (t < NUM_MAX_TASK)%nat -> length (pcb_lock (pcb s t)) = LOCK_MAX_NUM;
  in_cur : current_running s = Some NUM_MAX_TASK;
  in_entry : entry_point (pcb s 1) = sh;
  in_init : entry_point (pcb s NUM_MAX_TASK) = 0;
  in_init_status : status s NUM_MAX_TASK = TASK_CREATED;
  in_PID : PID s = 1;
  in_Lock : Lock s = Some <$> seq 0 MAX_LOCK_NUM_TOTAL;
  in_max : max_num s = ∅;
}.
Lemma init_initial : exists s, init_pcb fe sh boot_kstate = Ok (tt, s) /\ initial s.
Proof using Hsh.
  exists init_state. split; [apply init_ok|].
  destruct init_fields as (? & ? & ? & ? & ? & ? & ?).
  split; [apply init_abs, init_ok|apply init_status_ok|apply init_pid_ok|apply init_slots_ok|assumption..].
Qed.

Lemma initial_inv s : initial s -> inv s init_queues NUM_MAX_TASK.
Proof using Hsh.
  intros [A St Pi Sl Cu En In Is PI Lo Ma]. split; [done| |done|lia| | |done].
  - intros q t [_ ->]%init_queues_in. unfold NUM_MAX_TASK. lia.
  - intros t Ht. rewrite (St t Ht). destruct (Nat.eqb_spec t 1) as [->|E].
    + by apply init_queues_in.
    + intros q [_ Ht1]%init_queues_in. by apply E.
  - intros t Ht. rewrite (St t Ht). destruct (Nat.eqb_spec t 1) as [->|]; [by rewrite En|done].
Qed.

Lemma initial_sync s : initial s -> sync_inv s init_queues.
Proof using Hsh.
  intros [A St Pi Sl Cu En In Is PI Lo Ma]. split.
  - intros l _. by apply init_queues_nil.
  - intros i _. by apply init_queues_nil.
  - intros i. rewrite Ma. change (∅ !!! i : Z) with 0. lia.
  - intros l t [[=] _]%init_queues_in.
Qed.

Lemma initial_proc s : initial s -> proc_inv s init_queues.
Proof using Hsh.
  intros [A St Pi Sl Cu En In Is PI Lo Ma]. split.
  - intros t _ _. by apply init_queues_nil.
  - intros t Ht. rewrite (Pi t Ht), PI. destruct (Nat.eqb t 1); lia.
  - intros t u Ht Hu. rewrite (Pi t Ht), (Pi u Hu).
    destruct (Nat.eqb_spec t 1), (Nat.eqb_spec u 1); congruence.
  - rewrite Lo. apply Forall_fmap, Forall_true. intros x. by eexists.
  - done.
Qed.

(** The kernel boots into the shell. *)
Lemma boot_spec : exists s Q, boot fe sh = Ok (tt, s) /\ full_inv s Q 1.
Proof using Hsh.
  destruct init_initial as (s0 & E0 & I). pose proof (initial_inv s0 I) as H0.
  unfold boot. rewrite (bind_Ok _ _ _ _ _ E0). clear E0.
  set (s1 := with_resume NUM_MAX_TASK R_return s0).
  assert (do_scheduler R_return s0 = scheduler s1) as -> by exact (do_scheduler_eq _ _ _ _ H0).
  assert (inv s1 init_queues NUM_MAX_TASK) as H1 by by apply (inv_stores s0).
  assert (status s1 NUM_MAX_TASK = TASK_CREATED) as Es1 by exact (in_init_status _ I).
  assert (sync_inv s1 init_queues) as S1.
  { pose proof (initial_sync s0 I) as S0. revert S0. apply sync_inv_transfer; try done. intros l t Ht. cbn.
    rewrite lookup_total_insert_ne; [done|]. intros <-. pose proof (inv_members _ _ _ H0 _ _ Ht). lia. }
  assert (switched s1 init_queues (scheduler s1)) as Hsw by (apply (scheduler_parked _ _ _ H1); by rewrite Es1).
  destruct (switched_kernel _ _ _ Hsw S1) as [(_ & t & s' & Q' & E & HK & Ht & HQ & F)|[Hn _]].
  - assert (t = 1%nat) as -> by by destruct Ht as [[_ ?]%init_queues_in|[[[=] _]%init_queues_in _]].
    exists s', Q'. split; [done|]. split; [done|].
    pose proof (initial_proc s0 I) as P0. revert P0. apply proc_inv_transfer; [|intros u; by rewrite HQ].
    assert (proc_frame s0 s1) as F1 by by split. etrans; [exact F1|]. by eapply exit_scheduler.
  - destruct Hn. left. by rewrite init_queues_ready.
Qed.
End boot.
