(* ===== verification/KernelProps.v ===== *)
(** Process management: the properties of the components of Queue.v, Sched.v,
    Sync.v and Process.v, stated for the running kernel.  Each theorem is put
    together from the lemmas of those files; the states of its witness are
    states of the booted kernel. *)

From S2P Require Import Prelude Kernel Queue Sched Sync Process.

(** ** Which calls change a lock *)

(** The locks have the same status, and the entries of the lock tables only
    disappear. *)
Record same_locks (s s' : kstate) : Prop := {
  sl_status : lock_status s' = lock_status s;
  sl_slots p l : Some l ∈ pcb_lock (pcb s' p) -> Some l ∈ pcb_lock (pcb s p);
}.
#[export] Instance same_locks_preorder : PreOrder same_locks.
Proof. split; [by intros s; split|]. intros s s' s'' [A B] [C D]. split; [congruence|auto]. Qed.

Lemma clear_slots_subset n l i p x :
  Some x ∈ pcb_lock (clear_slots n l i p) -> Some x ∈ pcb_lock p.
Proof.
  revert i p. induction n as [|n IH]; intros i p; cbn [clear_slots]; [done|].
  repeat case_decide; try done. intros Hx%IH. cbn in Hx.
  apply list_elem_of_lookup in Hx as [j Hj]. destruct (decide (S i = j)) as [<-|Hne].
  - rewrite list_lookup_insert_Some in Hj. naive_solver.
  - rewrite list_lookup_insert_ne in Hj by done. by eapply list_elem_of_lookup_2.
Qed.

Lemma locks_store q f :
  (forall v x, Some x ∈ pcb_lock (f v) -> Some x ∈ pcb_lock v) -> keeps same_locks (store q f).
Proof.
  intros Hf s a s'. unfold store. destruct q as [t|]; [|done]. intros [= _ <-]. split; [done|].
  intros p l. destruct (decide (t = p)) as [->|]; autorewrite with kernel; auto.
Qed.
Lemma locks_modify f :
  (forall s, pcbs (f s) = pcbs s) -> (forall s, lock_status (f s) = lock_status s) ->
  keeps same_locks (modify f).
Proof.
  intros H1 H2. apply keeps_modify. intros s. split; [auto|]. intros p. unfold pcb. rewrite H1. auto.
Qed.
Lemma locks_store_queue q v : keeps same_locks (store_queue q v).
Proof. by apply locks_modify. Qed.
#[export] Hint Resolve locks_store_queue : keeps.
#[export] Hint Extern 1 (keeps same_locks (store _ _)) => (by apply locks_store) : keeps.
#[export] Hint Extern 1 (keeps same_locks (modify _)) => (by apply locks_modify) : keeps.

Lemma locks_queue_is_empty q : keeps same_locks (queue_is_empty q).
Proof. unfold queue_is_empty. keeps_auto. Qed.
Lemma locks_queue_push q x : keeps same_locks (queue_push q x).
Proof. unfold queue_push. keeps_auto. Qed.
Lemma locks_queue_remove q x : keeps same_locks (queue_remove q x).
Proof. unfold queue_remove. keeps_auto. Qed.
Lemma locks_queue_dequeue q : keeps same_locks (queue_dequeue q).
Proof. unfold queue_dequeue. keeps_auto. Qed.
#[export] Hint Resolve locks_queue_is_empty locks_queue_push locks_queue_remove locks_queue_dequeue : keeps.
Lemma locks_check_sleeping : keeps same_locks check_sleeping.
Proof.
  unfold check_sleeping. keeps_auto.
  match goal with |- keeps _ (check_sleeping_loop ?n ?t ?x) => generalize x; induction n end;
    intros x; cbn [check_sleeping_loop]; keeps_auto.
Qed.
Lemma locks_pick_loop fuel a b : keeps same_locks (pick_loop fuel a b).
Proof. revert a. induction fuel; intros a; cbn [pick_loop]; keeps_auto. Qed.
Lemma locks_check_in_queue q x : keeps same_locks (check_in_queue q x).
Proof.
  unfold check_in_queue. keeps_auto.
  match goal with |- keeps _ (check_in_queue_loop ?n ?h ?x) => generalize h; induction n end;
    intros h; cbn [check_in_queue_loop]; keeps_auto.
Qed.
#[export] Hint Resolve locks_check_sleeping locks_pick_loop locks_check_in_queue : keeps.
Lemma locks_wait_ready fuel : keeps same_locks (wait_ready_loop fuel).
Proof. induction fuel; cbn [wait_ready_loop]; keeps_auto. Qed.
#[export] Hint Resolve locks_wait_ready : keeps.
Lemma locks_scheduler : keeps same_locks scheduler.
Proof. unfold scheduler, save_cursor, requeue_current, switch_to. keeps_auto. Qed.
#[export] Hint Resolve locks_scheduler : keeps.
Lemma locks_do_scheduler r : keeps same_locks (do_scheduler r).
Proof. unfold do_scheduler. keeps_auto. Qed.
Lemma locks_block_on q : keeps same_locks (block_on q).
Proof. unfold block_on. keeps_auto. Qed.
Lemma locks_wake_first q : keeps same_locks (wake_first q).
Proof. unfold wake_first. keeps_auto. Qed.
Lemma locks_do_unblock_one q : keeps same_locks (do_unblock_one q).
Proof. unfold do_unblock_one. keeps_auto. Qed.
#[export] Hint Resolve locks_do_scheduler locks_block_on locks_wake_first locks_do_unblock_one : keeps.
Lemma locks_clear_waiters fuel l h : keeps same_locks (clear_waiters fuel l h).
Proof.
  revert h. induction fuel; intros h; cbn [clear_waiters]; keeps_auto.
  apply locks_store. intros v x. apply clear_slots_subset.
Qed.
Lemma locks_clear_waiting_queue q : keeps same_locks (clear_waiting_queue q).
Proof. unfold clear_waiting_queue. keeps_auto. Qed.
Lemma locks_do_unblock_all q : keeps same_locks (do_unblock_all q).
Proof. unfold do_unblock_all. keeps_auto. Qed.
#[export] Hint Resolve locks_clear_waiters locks_clear_waiting_queue locks_do_unblock_all : keeps.

(** A release changes the status of its own lock only. *)
Lemma release_status l s s' :
  do_mutex_lock_release l s = Ok (tt, s') ->
  (forall l', l' <> l -> lock_status s' !!! l' = lock_status s !!! l')
  /\ lock_status s' !!! l = UNLOCKED
  /\ (forall p x, Some x ∈ pcb_lock (pcb s' p) -> Some x ∈ pcb_lock (pcb s p)).
Proof.
  unfold do_mutex_lock_release. rewrite (bind_Ok _ _ _ _ _ eq_refl). case_decide as Hd.
  2: { intros [= <-]. by destruct (lock_status s !!! l). }
  rewrite (bind_Ok _ _ _ _ _ eq_refl). set (s1 := s <| lock_status := _ |>). intros E.
  assert (same_locks s1 s') as [E1 U].
  { revert E. match goal with |- ?m s1 = _ -> _ => assert (keeps same_locks m) as K by keeps_auto end.
    apply K. }
  change (lock_status s1) with (<[l := UNLOCKED]> (lock_status s)) in E1. rewrite E1. split_and!; [|by rewrite lookup_total_insert_eq|exact U].
  intros l' Hl'. by rewrite lookup_total_insert_ne.
Qed.

(** [release_all] releases only locks of the table of its task. *)
Lemma release_slots_status p ix s s' l :
  release_slots ix (Some p) s = Ok (tt, s') ->
  lock_status s' !!! l = lock_status s !!! l
  \/ lock_status s' !!! l = UNLOCKED /\ Some l ∈ pcb_lock (pcb s p).
Proof.
  revert s. induction ix as [|i ix IH]; intros s; cbn [release_slots]; [intros [= <-]; by left|].
  rewrite (bind_Ok _ _ _ _ _ eq_refl). intros ([] & s1 & E1 & E2)%bind_Ok_inv.
  destruct (pcb_lock (pcb s p) !! i) as [[x|]|] eqn:Ex.
  2-3: injection E1 as <-; by apply IH.
  apply release_status in E1 as (H1 & H0 & H2). destruct (decide (l = x)) as [->|Hne].
  - right. split; [|by eapply list_elem_of_lookup_2]. destruct (IH s1 E2) as [->|[? _]]; done.
  - destruct (IH s1 E2) as [->|[? ?]]; [left; by rewrite H1|right; auto].
Qed.

Lemma locks_do_sleep n : keeps same_locks (do_sleep n).
Proof. unfold do_sleep. keeps_auto. Qed.
Lemma locks_do_block q r : keeps same_locks (do_block q r).
Proof. unfold do_block. keeps_auto. Qed.
Lemma locks_do_semaphore_up i : keeps same_locks (do_semaphore_up i).
Proof. unfold do_semaphore_up. keeps_auto. Qed.
Lemma locks_do_semaphore_down i : keeps same_locks (do_semaphore_down i).
Proof. unfold do_semaphore_down. keeps_auto. Qed.
Lemma locks_do_condition_signal i : keeps same_locks (do_condition_signal i).
Proof. unfold do_condition_signal. keeps_auto. Qed.
Lemma locks_do_condition_broadcast i : keeps same_locks (do_condition_broadcast i).
Proof. unfold do_condition_broadcast. keeps_auto. Qed.
Lemma locks_do_barrier_wait i : keeps same_locks (do_barrier_wait i).
Proof. unfold do_barrier_wait. keeps_auto. Qed.
Lemma locks_do_waitpid n : keeps same_locks (do_waitpid n).
Proof. unfold do_waitpid. keeps_auto. Qed.
Lemma locks_irq_timer : keeps same_locks irq_timer.
Proof. unfold irq_timer. keeps_auto. Qed.
Lemma locks_do_spawn fe ti : keeps same_locks (do_spawn fe ti).
Proof.
  unfold do_spawn, queue_init, set_entryhi_asid. keeps_auto.
  apply locks_store. intros v x Hx. change (pcb_lock (no_locks v)) with (replicate LOCK_MAX_NUM (None : option nat)) in Hx.
  by apply elem_of_replicate in Hx as [[=] _].
Qed.
Lemma locks_queue_init q : keeps same_locks (queue_init q).
Proof. unfold queue_init. keeps_auto. Qed.
#[export] Hint Resolve locks_queue_init : keeps.
Lemma locks_do_semaphore_init i v : keeps same_locks (do_semaphore_init i v).
Proof. unfold do_semaphore_init. keeps_auto. Qed.
Lemma locks_do_condition_init i : keeps same_locks (do_condition_init i).
Proof. apply locks_queue_init. Qed.
Lemma locks_do_barrier_init i n : keeps same_locks (do_barrier_init i n).
Proof. unfold do_barrier_init. keeps_auto. Qed.
Lemma locks_kill_unlink i : keeps same_locks (kill_unlink i).
Proof.
  unfold kill_unlink. keeps_auto.
  match goal with |- keeps _ (remove_from_locks ?l i) => induction l as [|[] ? ?] end;
    cbn [remove_from_locks]; keeps_auto.
Qed.

Lemma keeps_ok {A} R (m : M kstate A) s a s' : keeps R m -> m s = Ok (a, s') -> R s s'.
Proof. intros K E. by eapply K. Qed.

Lemma acquire_status l s s' :
  do_mutex_lock_acquire l s = Ok (tt, s') ->
  if decide (lock_status s !!! l = LOCKED) then lock_status s' = lock_status s
  else lock_status s' = <[l := LOCKED]> (lock_status s) /\ current_running s' = current_running s.
Proof.
  unfold do_mutex_lock_acquire. rewrite (bind_Ok _ _ _ _ _ eq_refl). case_decide.
  - intros E%(keeps_ok _ _ _ _ _ (locks_do_block _ _)). apply E.
  - rewrite (bind_Ok _ _ _ _ _ eq_refl), (bind_Ok _ _ _ _ _ eq_refl). cbn.
    destruct (current_running s) eqn:Ec; [|done]. cbn. by intros [= <-].
Qed.

Lemma exit_status s s' l c :
  current_running s = Some c -> do_exit s = Ok (tt, s') ->
  lock_status s' !!! l = lock_status s !!! l
  \/ lock_status s' !!! l = UNLOCKED /\ Some l ∈ pcb_lock (pcb s c).
Proof.
  intros Ec. unfold do_exit. rewrite (bind_Ok _ _ _ _ _ eq_refl), Ec.
  intros ([] & s1 & E1 & E2)%bind_Ok_inv. apply (release_slots_status _ _ _ _ l) in E1.
  assert (same_locks s1 s') as U.
  { revert E2. unfold set_status. match goal with |- ?m s1 = _ -> _ => assert (keeps same_locks m) as K by keeps_auto end.
    apply K. }
  by rewrite (sl_status _ _ U).
Qed.

Lemma kill_status s s' l n :
  do_kill n s = Ok (tt, s') -> lock_status s' !!! l = lock_status s !!! l
  \/ lock_status s' !!! l = UNLOCKED
     /\ exists i, find_pcb (has_pid n) s = Some i /\ Some l ∈ pcb_lock (pcb s i).
Proof.
  rewrite do_kill_eq. destruct (find_pcb (has_pid n) s) as [i|] eqn:Ef; [|intros [= <-]; by left].
  intros ([] & s1 & E1 & E2)%bind_Ok_inv.
  assert (same_locks s1 s') as U.
  { revert E2. match goal with |- ?m s1 = _ -> _ => assert (keeps same_locks m) as K by keeps_auto end. apply K. }
  rewrite (sl_status _ _ U). clear E2 U. case_decide; [injection E1 as <-; by left|].
  unfold kill_body in E1. apply bind_Ok_inv in E1 as ([] & s2 & E1 & E2).
  apply bind_Ok_inv in E2 as ([] & s3 & E2 & E3). apply bind_Ok_inv in E3 as ([] & s4 & E3 & E4).
  apply (keeps_ok _ _ _ _ _ (locks_clear_waiting_queue _)) in E4. apply (keeps_ok _ _ _ _ _ (locks_kill_unlink _)) in E1.
  assert (same_locks s2 s3) as U2.
  { revert E2. unfold set_status. match goal with |- ?m s2 = _ -> _ => assert (keeps same_locks m) as K by keeps_auto end. apply K. }
  apply (release_slots_status _ _ _ _ l) in E3. rewrite (sl_status _ _ E4).
  destruct E3 as [E3|[E0 E3]]; [left|right; split; [done|]].
  - by rewrite E3, (sl_status _ _ U2), (sl_status _ _ E1).
  - exists i. split; [done|]. by apply (sl_slots _ _ E1), (sl_slots _ _ U2).
Qed.

Lemma condition_wait_status s s' l i :
  do_condition_wait l i s = Ok (tt, s') ->
  (forall l', l' <> l -> lock_status s' !!! l' = lock_status s !!! l') /\ lock_status s' !!! l = UNLOCKED.
Proof.
  unfold do_condition_wait. intros (cur & s0 & [= <- <-] & E)%bind_Ok_inv.
  apply bind_Ok_inv in E as ([] & s1 & E1 & E). apply bind_Ok_inv in E as ([] & s2 & E2 & E).
  apply bind_Ok_inv in E as ([] & s3 & E3 & E4).
  apply (keeps_ok _ _ _ _ _ (locks_queue_push _ _)) in E1. apply (keeps_ok _ _ _ _ _ (locks_do_scheduler _)) in E4.
  assert (same_locks s1 s2) as U by by eapply keeps_ok; [|exact E2]; apply locks_store.
  apply release_status in E3 as (H1 & H2 & _). rewrite (sl_status _ _ E4). split; [|done].
  intros l' Hl'. by rewrite H1, (sl_status _ _ U), (sl_status _ _ E1).
Qed.

(** ** Reachable states *)

Lemma step_good fe s s' Q c : full_inv s Q c -> step fe s s' -> good s'.
Proof.
  intros HF Hst. destruct Hst as [s0 c0 k s1 Hc Hr Hal E|s0 c0 l s1 Hc Hr E]; [by eapply exec_good|].
  assert (c0 = c) as -> by (destruct HF as [[(H & _) _] _]; rewrite (inv_cur _ _ _ H) in Hc; congruence).
  pose proof (exit_resume _ _ _ E) as F. destruct HF as [HK HP].
  destruct (resume_spec s0 Q c HK) as [HK1 E1]. rewrite Hr in E1. rewrite E1 in E.
  eapply acquire_good; [|exact E]. split; [done|].
  revert HP. apply proc_inv_transfer; [|done]. by split.
Qed.

Lemma reachable_full fe sh s : sh <> 0 -> reachable fe sh s -> good s.
Proof.
  intros Hsh. induction 1 as [s E|s s' _ (Q & c & HF) Hst].
  - destruct (boot_spec fe sh Hsh) as (s1 & Q & E1 & HF). rewrite E1 in E.
    clear E1. injection E as <-. exists Q, 1%nat. exact HF.
  - by eapply step_good.
Qed.

Lemma boot_reachable fe sh : sh <> 0 -> exists s Q, reachable fe sh s /\ full_inv s Q 1.
Proof.
  intros Hsh. destruct (boot_spec fe sh Hsh) as (s & Q & E & HF). exists s, Q. split; [exact (reach_boot fe sh s E)|exact HF].
Qed.

(** The converse directions of [inv_ok]. *)
Lemma inv_status s Q c t :
  inv s Q c -> (t < NUM_MAX_TASK)%nat ->
  (t ∈ Q ready_queue <-> status s t = TASK_READY \/ status s t = TASK_CREATED)
  /\ (t ∈ Q sleeping_queue <-> status s t = TASK_SLEEPING)
  /\ ((exists q, q <> ready_queue /\ q <> sleeping_queue /\ t ∈ Q q) <-> status s t = TASK_BLOCKED).
Proof.
  intros H Ht. pose proof (inv_ok _ _ _ H t Ht) as Hok. pose proof (abs_disj _ _ (inv_abs _ _ _ H)) as Hd.
  split_and!; split.
  - by apply (task_ok_ready s Q c).
  - by intros [E|E]; rewrite E in Hok.
  - intros Hin. destruct (status s t); cbn in Hok; try done; exfalso.
    + destruct Hok as (q & _ & Hq & Hin'). by apply Hq, (Hd _ _ t).
    + by apply (proj2 Hok sleeping_queue).
    + by pose proof (Hd _ _ _ Hok Hin).
    + by apply (Hok sleeping_queue).
    + by pose proof (Hd _ _ _ Hok Hin).
  - by intros E; rewrite E in Hok.
  - intros (q & H1 & H2 & Hin). by eapply queued_blocked.
  - by intros E; rewrite E in Hok.
Qed.

(** C1: in every state the kernel can reach from its boot by clock interrupts and
    by the system calls for processes and synchronisation (spawn, exit, waitpid,
    kill, sleep, block and unblock, the operations and the initialisation of
    mutexes, semaphores, conditions and barriers), the linked queues represent
    lists without common tasks; exactly the current task is running; exactly the
    ready and the new tasks are in the ready queue, the sleeping ones in the
    sleeping queue and the blocked ones in some other queue; nobody waits for an
    exited task, for a free mutex or for a semaphore with a value; a barrier
    counts the missing tasks; and no two processes have the same pid.  The calls
    keep to the conditions of [allowed], which the code does not check: the
    process that is killed is not blocked elsewhere than on a mutex of Lock[]
    (without this the invariant fails, [kill_leaves_semaphore_waiter]) and its pid
    is not 0; a barrier is waited for only after it was initialised with a
    positive number; an object is initialised only while nobody waits on it;
    block and unblock are used on queues that belong to no mutex, semaphore,
    barrier or process; a spawned program has an entry point, and fewer than 2^31
    processes have been spawned. *)
Theorem reachable_invariant fe sh s :
  sh <> 0 -> reachable fe sh s ->
  exists Q c, abs s Q /\ current_running s = Some c /\ (c < NUM_MAX_TASK)%nat
  /\ (forall t, (t < NUM_MAX_TASK)%nat ->
       (status s t = TASK_RUNNING <-> t = c)
       /\ (status s t = TASK_READY \/ status s t = TASK_CREATED <-> t ∈ Q ready_queue)
       /\ (status s t = TASK_SLEEPING <-> t ∈ Q sleeping_queue)
       /\ (status s t = TASK_BLOCKED <-> exists q, q <> ready_queue /\ q <> sleeping_queue /\ t ∈ Q q)
       /\ (status s t = TASK_EXITED -> Q (waiting_queue t) = []))
  /\ (forall l, lock_status s !!! l = UNLOCKED -> Q (mutex_lock_queue l) = [])
  /\ (forall i, sem_value s !!! i <> 0 -> Q (semaphore_queue i) = [])
  /\ (forall i, 0 < max_num s !!! i < 2 ^ 31 ->
       not_arrive_num s !!! i = max_num s !!! i - Z.of_nat (length (Q (barrier_queue i))))
  /\ (forall t u, (t < NUM_MAX_TASK)%nat -> (u < NUM_MAX_TASK)%nat ->
       pcb_pid (pcb s t) = pcb_pid (pcb s u) -> pcb_pid (pcb s t) <> 0 -> t = u).
Proof.
  intros Hsh (Q & c & [[(H & Hc & Hrun) HS] HP])%(reachable_full _ _ _ Hsh).
  exists Q, c. split_and!; try done; try apply H; try apply HS; try apply HP.
  - intros t Ht. destruct (inv_status s Q c t H Ht) as (I1 & I2 & I3). split_and!; try done.
    + split; [|by intros ->]. intros E. pose proof (inv_ok _ _ _ H t Ht) as Hok. rewrite E in Hok. apply Hok.
    + by apply HP.
Qed.

(** ** Calls return *)

Lemma ready_runnable s Q t : t ∈ Q ready_queue -> runnable s Q.
Proof. intros Ht. left. intros E. rewrite E in Ht. by apply not_elem_of_nil in Ht. Qed.

Lemma blocks_returns s Q c q r o t : blocks s Q c q r o -> t ∈ Q ready_queue -> exists s', o = Ok (tt, s').
Proof.
  intros [(_ & u & s' & Q' & -> & _)|[Hn _]] Ht; [by exists s'|].
  by apply (ready_runnable s) in Ht.
Qed.
Lemma parked_returns s Q c t :
  inv s Q c -> status s c <> TASK_RUNNING -> t ∈ Q ready_queue -> exists s', scheduler s = Ok (tt, s').
Proof.
  intros H Hc Ht. destruct (scheduler_parked s Q c H Hc) as [(_ & u & s' & Q' & -> & _)|[Hn _]]; [by exists s'|].
  by apply (ready_runnable s) in Ht.
Qed.

Lemma resumed_status s c t r : status (with_resume c r s) t = status s t.
Proof. done. Qed.
Lemma resumed_inv s Q c r : inv s Q c -> inv (with_resume c r s) Q c.
Proof. by apply inv_stores. Qed.

(** C3: in every reachable state (as in C1) in which some other task is ready,
    each system call for processes and synchronisation and the clock interrupt
    return: no loop of the kernel runs on forever and no NULL pointer is
    followed.  The calls are those of C1 and keep to the same conditions of
    [allowed]: no kill of a process that is blocked elsewhere than on a mutex of
    Lock[], no wait at a barrier without a positive number, no initialisation of
    an object with waiters, block and unblock on plain queues only, programs with
    an entry point, pids below 2^31. *)
Theorem calls_return fe sh s k t :
  sh <> 0 -> reachable fe sh s -> allowed s k ->
  (t < NUM_MAX_TASK)%nat -> status s t = TASK_READY \/ status s t = TASK_CREATED ->
  exists s', exec fe k s = Ok (tt, s').
Proof.
  intros Hsh (Q & c & HF)%(reachable_full _ _ _ Hsh) Hal Ht Hst.
  pose proof HF as [HK HP]. pose proof HK as [HK' HS]. pose proof HK' as (H & Hc & Hrun).
  apply (inv_status s Q c t H Ht) in Hst. destruct k; cbn [exec].
  - destruct (do_sleep_spec s Q c n HK') as (s1 & -> & H1 & Hs1 & _).
    eapply (parked_returns _ _ c t H1); [by rewrite Hs1|by qcase].
  - pose proof (do_mutex_lock_acquire_spec s Q c l HK) as Hs. destruct (lock_status s !!! l).
    + destruct Hs as (s1 & E & _). eauto.
    + by eapply blocks_returns.
  - destruct (do_mutex_lock_release_inv s Q c l H HS) as (W & s1 & _ & E & _). eauto.
  - pose proof (do_semaphore_up_spec s Q c i HK) as Hs.
    destruct (Q (semaphore_queue i)); destruct Hs as (s1 & E & _); eauto.
  - pose proof (do_semaphore_down_spec s Q c i HK) as Hs.
    destruct (decide _); [by eapply blocks_returns|]. destruct Hs as (s1 & E & _). eauto.
  - destruct (do_condition_wait_spec s Q c l i HK) as [(_ & u & s1 & Q' & E & _)|[Hn _]]; [eauto|].
    destruct Hn. left. by eapply ready_runnable.
  - destruct (do_condition_signal_spec s Q c i HK) as (s1 & E & _). eauto.
  - destruct (do_condition_broadcast_spec s Q c i HK) as (s1 & E & _). eauto.
  - pose proof (do_barrier_wait_spec s Q c i HK Hal) as Hs.
    destruct (decide _); [destruct Hs as (s1 & E & _); eauto|by eapply blocks_returns].
  - destruct Hal as [Hep Hpid]. pose proof (do_spawn_spec s Q c fe ti HF Hep Hpid) as Hs.
    destruct (find_pcb _ s); destruct Hs as (s1 & E & _); eauto.
  - destruct (do_exit_spec s Q c HF) as (s1 & Q1 & -> & X).
    eapply (parked_returns _ Q1 c t); [apply resumed_inv, X|by rewrite resumed_status, (ex_status _ _ _ _ _ X)|by apply X].
  - pose proof (do_waitpid_spec s Q c n HF) as Hs. destruct (find_pcb (has_pid n) s); [|eauto].
    destruct (decide _); [eauto|by eapply blocks_returns].
  - destruct Hal as [Hn Hal]. pose proof (do_kill_spec s Q c n HF Hn) as Hs.
    destruct (find_pcb (has_pid n) s) as [i|]; [|eauto].
    destruct (decide (status s i = TASK_EXITED)); [eauto|].
    destruct Hs as (s1 & Q1 & K & E); [exact (allowed_killable s Q c i H (Hal i eq_refl))|]. rewrite E.
    destruct (decide (i = c)) as [->|]; [|eauto].
    eapply (parked_returns _ Q1 c t); [apply resumed_inv, K|by rewrite resumed_status, (ki_exited _ _ _ _ _ _ K)|].
    apply K; [|done]. intros ->. by apply (inv_running s Q c H Hc Hrun) in Hst.
  - destruct (irq_timer_spec s Q c HF) as (s1 & Q1 & c1 & E & _). eauto.
  - eexists. reflexivity.
  - eexists. reflexivity.
  - eexists. reflexivity.
  - eexists. reflexivity.
  - eapply blocks_returns; [by apply block_plain|done].
  - pose proof (do_unblock_one_spec s Q c q H (proj1 (plain_not_ready q Hal))) as Hs.
    destruct (Q q); [eauto|]. destruct Hs as (l1 & l2 & s1 & _ & E & _). eauto.
  - destruct (do_unblock_all_spec s Q c q H (proj1 (plain_not_ready q Hal))) as (W & s1 & _ & E & _). eauto.
Qed.

(** Concrete states for the witnesses: the booted kernel, and the kernel after
    the shell has spawned a process. *)
Definition after (o : outcome (unit * kstate)) : kstate :=
  match o with Ok (_, s) => s | Fault _ => boot_kstate end.
Definition demo_boot : kstate := after (boot 1 2).
Definition demo_spawn : kstate := after (exec 1 (C_spawn (mk_task_info 7 USER_PROCESS)) demo_boot).

Lemma demo_boot_reachable : reachable 1 2 demo_boot.
Proof. apply reach_boot. vm_compute. reflexivity. Qed.
Lemma demo_spawn_reachable : reachable 1 2 demo_spawn.
Proof.
  apply (reach_step _ _ _ _ demo_boot_reachable).
  apply (step_call 1 demo_boot 1 (C_spawn (mk_task_info 7 USER_PROCESS)));
    [vm_compute; reflexivity..|split; [discriminate|vm_compute; reflexivity]|vm_compute; reflexivity].
Qed.
(** The state after the shell has initialised a barrier for two tasks. *)
Definition demo_barrier : kstate := after (exec 1 (C_barrier_init 0 2) demo_boot).
Lemma demo_barrier_reachable : reachable 1 2 demo_barrier.
Proof.
  apply (reach_step _ _ _ _ demo_boot_reachable).
  apply (step_call 1 demo_boot 1 (C_barrier_init 0 2)); vm_compute; reflexivity.
Qed.
Lemma reachable_invariant_witness :
  exists Q c, abs demo_barrier Q /\ current_running demo_barrier = Some c /\ max_num demo_barrier !!! 0%nat = 2
    /\ not_arrive_num demo_barrier !!! 0%nat = 2 - Z.of_nat (length (Q (barrier_queue 0))).
Proof.
  assert (max_num demo_barrier !!! 0%nat = 2) as E2 by (vm_compute; reflexivity).
  destruct (reachable_invariant 1 2 demo_barrier ltac:(lia) demo_barrier_reachable) as (Q & c & A & E & _ & _ & _ & _ & HB & _).
  exists Q, c. specialize (HB 0%nat). rewrite E2 in HB. split_and!; [exact A|exact E|exact E2|apply HB; lia].
Defined.

#[local] Opaque demo_boot demo_spawn.

Lemma calls_return_witness : exists s', exec 1 (C_acquire 0) demo_spawn = Ok (tt, s').
Proof.
  apply (calls_return 1 2 demo_spawn (C_acquire 0) 0);
    [lia|exact demo_spawn_reachable|exact I|unfold NUM_MAX_TASK; lia|right; vm_compute; reflexivity].
Defined.

(** the clock interrupt returns in every reachable state, even when the
    interrupted task is the only one; time advances by 15 and the blocked tasks
    stay where they are. *)
Theorem tick_returns fe sh s :
  sh <> 0 -> reachable fe sh s ->
  exists s' Q Q' c', exec fe C_tick s = Ok (tt, s') /\ full_inv s' Q' c' /\ abs s Q
    /\ time_elapsed s' = u32 (time_elapsed s + 15)
    /\ forall q, q <> ready_queue -> q <> sleeping_queue -> Q' q = Q q.
Proof.
  intros Hsh (Q & c & HF)%(reachable_full _ _ _ Hsh).
  destruct (irq_timer_spec s Q c HF) as (s' & Q' & c' & E & HF' & Et & HQ).
  exists s', Q, Q', c'. split_and!; try done. apply HF.
Qed.
Lemma tick_returns_witness : exists s', exec 1 C_tick demo_boot = Ok (tt, s').
Proof.
  destruct (tick_returns 1 2 demo_boot ltac:(lia) demo_boot_reachable) as (s' & _ & _ & _ & E & _).
  exists s'. exact E.
Defined.

(** ** The scheduler *)

Lemma pick_stops pr x l l1 y l2 :
  NoDup (x :: l) -> x :: l = l1 ++ pick pr x l :: y :: l2 -> pr y <= pr (pick pr x l).
Proof.
  revert x l1. induction l as [|z l IH]; intros x l1 Hnd E; cbn [pick] in *.
  - destruct l1 as [|a [|b l1]]; done.
  - apply NoDup_cons in Hnd as [Hx Hnd]. destruct (Z.ltb_spec (pr x) (pr z)) as [Hlt|Hge].
    + destruct l1 as [|a l1]; [injection E as Ex _; exfalso; apply Hx; rewrite Ex at 1; apply pick_in|].
      injection E as <- E. by apply (IH z l1).
    + destruct l1 as [|a l1]; [by injection E as <- _|]. injection E as <- E. exfalso. apply Hx.
      rewrite E. set_solver.
Qed.

Lemma ready_nodup s Q c W l' :
  inv s Q c -> woken_sleeper s (Q sleeping_queue) W l' -> NoDup (ready_with_current s Q c ++ W).
Proof.
  intros H HW. pose proof (inv_abs _ _ _ H) as A.
  assert (NoDup (ready_with_current s Q c)) as Hr.
  { unfold ready_with_current. destruct (abs_queue _ _ A ready_queue) as [_ _ Hnd _].
    case_decide as Hd; [|done]. destruct Hd as [Hd1 Hd2]. apply NoDup_app. split_and!; [done| |apply NoDup_singleton].
    intros t Ht ->%list_elem_of_singleton. by apply (inv_running s Q c H Hd2 Hd1) in Ht. }
  destruct HW as [(-> & _)|(m1 & x & m2 & -> & E & _)]; [by rewrite app_nil_r|].
  assert (x ∈ Q sleeping_queue) as Hx by (rewrite E; set_solver).
  apply NoDup_app. split_and!; [done| |apply NoDup_singleton]. intros t Ht ->%list_elem_of_singleton.
  unfold ready_with_current in Ht. case_decide as Hd.
  - apply elem_of_app in Ht as [Ht| ->%list_elem_of_singleton].
    + by pose proof (abs_disj _ _ A _ _ _ Ht Hx).
    + destruct Hd as [Hd1 Hd2]. by apply (inv_running s Q c H Hd2 Hd1) in Hx.
  - by pose proof (abs_disj _ _ A _ _ _ Ht Hx).
Qed.

(** C4: [scheduler] gives the CPU to the task at which the priorities of the
    ready queue (the current task, if it still runs, and one sleeper that is
    due, appended) stop rising: every task before it has a lower priority, the
    next one no higher one.  It leaves the queue, runs, and only the old current
    task loses one point of priority.  When nobody is ready it never returns: it
    waits for ever if somebody sleeps, and follows a NULL pointer otherwise. *)
Theorem scheduler_correct s Q c :
  inv s Q c ->
  exists W l', woken_sleeper s (Q sleeping_queue) W l' /\
  match ready_with_current s Q c ++ W with
  | [] => scheduler s = Fault (match Q sleeping_queue with [] => NullDeref | _ => Diverges end)
  | x :: l => exists t l1 l2 s', x :: l = l1 ++ t :: l2 /\ scheduler s = Ok (tt, s')
      /\ current_running s' = Some t /\ status s' t = TASK_RUNNING
      /\ abs s' (<[ready_queue := l1 ++ l2]> (<[sleeping_queue := l']> Q))
      /\ (forall u, u ∈ l1 -> prio s u < prio s t)
      /\ (forall u, head l2 = Some u -> prio s u <= prio s t)
      /\ (forall u, prio s' u = if decide (u = c) then i32 (prio s u - 1) else prio s u)
      /\ sched_frame s s'
  end.
Proof.
  intros H. destruct (scheduler_spec s Q c H) as (W & l' & HW & Hs). exists W, l'. split; [done|].
  assert (NoDup (ready_with_current s Q c ++ W)) as Hnd by by eapply ready_nodup.
  destruct (ready_with_current s Q c ++ W) as [|x l]; [done|].
  destruct Hs as (l1 & l2 & s' & E & Es & (HI & Hlt & Hrun) & Hp).
  exists (pick (prio s) x l), l1, l2, s'. split_and!; try done; try apply HI.
  - by apply (pick_max _ _ _ _ l2).
  - intros u Hu. destruct l2 as [|y l2]; [done|]. injection Hu as <-. by eapply pick_stops.
  - by eapply keeps_scheduler.
Qed.
(** The choice at a clock interrupt of the running task [c]: it is behind the ready
    tasks, one sleeper that is due is behind it; the first task with a higher
    priority than all before it and no lower one than the next gets the CPU. *)
Definition preempted (s : kstate) (Q : queue_id -> list nat) (c : nat) (Q' : queue_id -> list nat) (c' : nat) : Prop :=
  exists W l' l1 l2, woken_sleeper s (Q sleeping_queue) W l' /\ Q ready_queue ++ [c] ++ W = l1 ++ c' :: l2
    /\ (forall u, u ∈ l1 -> prio s u < prio s c') /\ (forall u, head l2 = Some u -> prio s u <= prio s c')
    /\ Q' = <[ready_queue := l1 ++ l2]> (<[sleeping_queue := l']> Q).

Lemma preempt_choice s Q c :
  full_inv s Q c -> exists s' Q' c', do_scheduler R_return s = Ok (tt, s') /\ full_inv s' Q' c' /\ preempted s Q c Q' c'
    /\ (forall u, prio s' u = if decide (u = c) then i32 (prio s u - 1) else prio s u)
    /\ sched_frame (with_resume c R_return s) s'.
Proof.
  intros HF. destruct (preempt_spec s Q c HF) as (s' & Q' & c' & E & HF' & _ & _ & W & l' & x & l & l1 & l2 & HW & El & -> & Es & -> & Hp & F).
  pose proof HF as [[(H & Hc & Hrun) _] _]. pose proof (ready_nodup s Q c W l' H HW) as Hnd.
  unfold ready_with_current in Hnd. rewrite decide_True in Hnd by done. rewrite El in Hnd.
  exists s'. eexists _, _. split_and!; [done|exact HF'| |done|done].
  exists W, l', l1, l2. split_and!; [done|by rewrite app_assoc, El|by apply (pick_max _ _ _ _ l2)| |done].
  intros u Hu. destruct l2 as [|y l2]; [done|]. injection Hu as <-. by eapply pick_stops.
Qed.

Lemma scheduler_correct_witness :
  exists Q c W l', woken_sleeper demo_spawn (Q sleeping_queue) W l'
    /\ ready_with_current demo_spawn Q c ++ W <> [].
Proof.
  destruct (reachable_full 1 2 demo_spawn ltac:(lia) demo_spawn_reachable) as (Q & c & [[(H & Hc & Hrun) _] _]).
  destruct (scheduler_correct demo_spawn Q c H) as (W & l' & HW & _). exists Q, c, W, l'. split; [exact HW|].
  unfold ready_with_current. rewrite decide_True by (split; assumption).
  destruct (Q ready_queue); discriminate.
Defined.

(** with nobody ready and no sleeper due, the wait loop of [scheduler] does
    not end, however many rounds it gets: the clock stands still while the
    kernel waits with interrupts closed. *)
Theorem idle_loop_diverges s Q c :
  inv s Q c -> status s c <> TASK_RUNNING -> Q ready_queue = [] -> Q sleeping_queue <> [] ->
  (forall t, t ∈ Q sleeping_queue -> expired s t = false) ->
  (forall fuel, wait_ready_loop fuel s = Fault Diverges) /\ scheduler s = Fault Diverges.
Proof.
  intros H Hc Hr Hs Hall. split.
  - intros fuel. apply (wait_ready_diverges _ Q); [apply H|done|done|]. by apply Forall_forall.
  - destruct (scheduler_parked s Q c H Hc) as [([Hne|(t & Ht & He)] & _)|[_ ->]].
    + done.
    + rewrite Hall in He by done. discriminate.
    + by destruct (Q sleeping_queue).
Qed.

Lemma demo_boot_status t : (t < NUM_MAX_TASK)%nat ->
  status demo_boot t = if Nat.eqb t 1 then TASK_RUNNING else TASK_EXITED.
Proof.
  apply (all_tasks (fun t => status demo_boot t = if Nat.eqb t 1 then TASK_RUNNING else TASK_EXITED)).
  vm_compute. reflexivity.
Qed.
(** A task that is alone is in no queue, and all queues are empty. *)
Lemma alone_inv s t0 :
  good s -> (forall t, (t < NUM_MAX_TASK)%nat -> status s t = if Nat.eqb t t0 then TASK_RUNNING else TASK_EXITED) ->
  exists Q, full_inv s Q t0 /\ forall q, Q q = [].
Proof.
  intros (Q & c & HF) Hst. assert (c = t0) as ->.
  { destruct HF as [[(H & Hc & Hrun) _] _]. rewrite (Hst c Hc) in Hrun. by destruct (Nat.eqb_spec c t0). }
  exists Q. split; [done|]. intros q. destruct (Q q) as [|x l] eqn:E; [done|].
  destruct HF as [[(H & Hc & Hrun) _] _]. assert (x ∈ Q q) as Hx by (rewrite E; set_solver).
  pose proof (inv_members _ _ _ H _ _ Hx) as Hlt. destruct (task_ok_queued _ _ _ _ _ H Hx) as [H1 H2].
  rewrite (Hst x Hlt) in H1, H2. by destruct (Nat.eqb x t0).
Qed.
Lemma demo_boot_inv : exists Q, full_inv demo_boot Q 1 /\ forall q, Q q = [].
Proof.
  exact (alone_inv demo_boot 1 (reachable_full 1 2 demo_boot ltac:(lia) demo_boot_reachable) demo_boot_status).
Qed.

Lemma idle_loop_diverges_witness : exists s, forall fuel, wait_ready_loop fuel s = Fault Diverges.
Proof.
  destruct demo_boot_inv as (Q & [[HK _] _] & HQ).
  destruct (do_sleep_spec demo_boot Q 1 7 HK) as (s1 & _ & H1 & Hst & Hd & Ht & _).
  exists s1. refine (proj1 (idle_loop_diverges s1 _ 1 H1 _ _ _ _)).
  - rewrite Hst. discriminate.
  - rewrite fn_lookup_insert_ne by discriminate. apply HQ.
  - rewrite fn_lookup_insert, HQ. discriminate.
  - intros t. rewrite fn_lookup_insert, HQ. intros ->%list_elem_of_singleton.
    unfold expired, get_timer in *. rewrite Hd, Ht. vm_compute. reflexivity.
Defined.

(** ** Mutual exclusion *)

(** The calls of task [c] that free the mutex [l]. *)
Definition frees (s : kstate) (c l : nat) (k : call) : Prop :=
  match k with
  | C_release l' | C_condition_wait l' _ | C_mutex_init l' => l' = l
  | C_exit => Some l ∈ pcb_lock (pcb s c)
  | C_kill n => exists i, find_pcb (has_pid n) s = Some i /\ Some l ∈ pcb_lock (pcb s i)
  | _ => False
  end.

(** How a call changes a mutex. *)
Lemma exec_locks fe k s Q c s' l :
  full_inv s Q c -> exec fe k s = Ok (tt, s') ->
  (lock_status s !!! l = UNLOCKED -> lock_status s' !!! l = LOCKED ->
     k = C_acquire l /\ current_running s' = Some c)
  /\ (lock_status s !!! l = LOCKED -> lock_status s' !!! l = UNLOCKED -> frees s c l k).
Proof.
  intros HF E. pose proof (inv_cur _ _ _ (proj1 (proj1 (proj1 HF)))) as Hcur.
  assert (Hsame : keeps same_locks (exec fe k) -> lock_status s' = lock_status s) by (intros K; by eapply K).
  destruct k; cbn [exec] in *;
    try (rewrite Hsame by auto using locks_do_sleep, locks_do_semaphore_up,
      locks_do_semaphore_down, locks_do_condition_signal, locks_do_condition_broadcast,
      locks_do_barrier_wait, locks_do_spawn, locks_do_waitpid, locks_irq_timer, locks_do_semaphore_init,
      locks_do_condition_init, locks_do_barrier_init, locks_do_block, locks_do_unblock_one, locks_do_unblock_all; split; congruence).
  - apply acquire_status in E. case_decide as Hd; [rewrite E; split; congruence|].
    destruct E as [E1 E2]. rewrite E1, E2. destruct (decide (l0 = l)) as [->|Hne].
    + rewrite lookup_total_insert_eq. split; [done|congruence].
    + rewrite lookup_total_insert_ne by done. split; congruence.
  - apply release_status in E as (E1 & E2 & _). destruct (decide (l = l0)) as [->|Hne]; [|rewrite E1 by done];
      split; [congruence|done|congruence|congruence].
  - apply condition_wait_status in E as [E1 E2]. destruct (decide (l = l0)) as [->|Hne]; [|rewrite E1 by done];
      split; [congruence|done|congruence|congruence].
  - apply (exit_status _ _ l c Hcur) in E as [E|[E Hin]]; [rewrite E; split; congruence|].
    rewrite E. split; [congruence|done].
  - apply (kill_status _ _ l) in E as [E|[E (i & Hf & Hin)]]; [rewrite E; split; congruence|].
    rewrite E. split; [congruence|]. cbn. eauto.
  - injection E as <-. cbn. destruct (decide (l0 = l)) as [->|Hne].
    + rewrite lookup_total_insert_eq. split; [congruence|done].
    + rewrite lookup_total_insert_ne by done. split; congruence.
Qed.

(** C38: in a state that satisfies the invariant, releasing a mutex (whoever holds
    it) frees it and wakes all its waiters: each is ready, is in the ready queue and
    will test the mutex again; every other task keeps its status; the releasing
    task goes on. *)
Theorem mutex_release_wakes s Q c l :
  kernel_inv s Q c ->
  exists s' Q', do_mutex_lock_release l s = Ok (tt, s') /\ kernel_inv s' Q' c
    /\ lock_status s' !!! l = UNLOCKED /\ Q' (mutex_lock_queue l) = []
    /\ (forall t, t ∈ Q (mutex_lock_queue l) ->
         status s' t = TASK_READY /\ t ∈ Q' ready_queue /\ suspended s' !!! t = R_mutex_lock_acquire l)
    /\ (forall t, t ∉ Q (mutex_lock_queue l) -> status s' t = status s t).
Proof.
  intros [(H & Hc & Hrun) HS].
  destruct (do_mutex_lock_release_inv s Q c l H HS) as (W & s' & HW & E & H' & S' & St & _ & F & _ & Ls).
  exists s', (<[ready_queue := Q ready_queue ++ W]> (<[mutex_lock_queue l := []]> Q)).
  split_and!; [done| |by rewrite Ls, decide_True|by qcase| |].
  - split; [|exact S']. split_and!; [done..|]. rewrite St, decide_False; [done|].
    rewrite HW. by apply (inv_running s).
  - intros t Ht. rewrite St, decide_True by by rewrite HW. split_and!; [done| |].
    { qcase. apply elem_of_app. right. by rewrite HW. }
    rewrite (lock_frame_outer suspended _ _ F) by done. by apply (si_retry _ _ HS).
  - intros t Ht. rewrite St, decide_False; [done|]. by rewrite HW.
Qed.
Lemma mutex_release_wakes_witness :
  exists s' Q', do_mutex_lock_release 0 demo_boot = Ok (tt, s') /\ kernel_inv s' Q' 1.
Proof.
  destruct demo_boot_inv as (Q & [HK _] & _).
  destruct (mutex_release_wakes demo_boot Q 1 0 HK) as (s' & Q' & E & HK' & _).
  exists s', Q'. split; [exact E|exact HK'].
Defined.

(** ** Semaphores, barriers and conditions *)

(** C7: [up] hands its unit to the first waiter, which becomes ready, and adds
    it to the value only when nobody waits; [down] takes a unit when there is
    one, and otherwise puts the running task at the end of the semaphore's
    queue and lets another task run.  A waiting task never misses a unit. *)
Theorem semaphore_correct s Q c i :
  kernel_inv s Q c ->
  (exists s', do_semaphore_up i s = Ok (tt, s') /\
    match Q (semaphore_queue i) with
    | [] => kernel_inv s' Q c /\ sem_value s' !!! i = i32 (sem_value s !!! i + 1)
    | x :: l => kernel_inv s' (<[ready_queue := Q ready_queue ++ [x]]> (<[semaphore_queue i := l]> Q)) c
        /\ sem_value s' = sem_value s /\ status s' x = TASK_READY /\ sem_value s !!! i = 0
    end)
  /\ (if decide (sem_value s !!! i = 0)
      then blocks s Q c (semaphore_queue i) R_return (do_semaphore_down i s)
      else exists s', do_semaphore_down i s = Ok (tt, s') /\ kernel_inv s' Q c
        /\ sem_value s' !!! i = i32 (sem_value s !!! i - 1)).
Proof.
  intros HK. split; [|by apply do_semaphore_down_spec].
  pose proof (do_semaphore_up_spec s Q c i HK) as Hs. destruct (Q (semaphore_queue i)) as [|x l] eqn:EQ.
  - destruct Hs as (s' & E & H1 & H2). eauto.
  - destruct Hs as (s' & E & H1 & H2 & H3). exists s'. split_and!; try done.
    destruct (decide (sem_value s !!! i = 0)) as [E0|E0]; [done|].
    pose proof (si_sem _ _ (proj2 HK) i E0). congruence.
Qed.
Lemma semaphore_correct_witness : exists s', do_semaphore_up 3 demo_boot = Ok (tt, s').
Proof.
  destruct demo_boot_inv as (Q & [HK _] & _).
  destruct (semaphore_correct demo_boot Q 1 3 HK) as [(s' & E & _) _]. exists s'. exact E.
Defined.

(** C8: of the [max_num] tasks that meet at a barrier, all but the last block in
    its queue; the last one does not block, makes all the others ready and
    resets the count. *)
Theorem barrier_correct s Q c i :
  kernel_inv s Q c -> 0 < max_num s !!! i < 2 ^ 31 ->
  if decide (Z.of_nat (length (Q (barrier_queue i))) + 1 = max_num s !!! i)
  then exists s', do_barrier_wait i s = Ok (tt, s')
    /\ kernel_inv s' (<[ready_queue := Q ready_queue ++ Q (barrier_queue i)]> (<[barrier_queue i := []]> Q)) c
    /\ not_arrive_num s' !!! i = max_num s !!! i
    /\ (forall t, t ∈ Q (barrier_queue i) -> status s' t = TASK_READY)
  else blocks (s <| not_arrive_num := <[i := not_arrive_num s !!! i - 1]> (not_arrive_num s) |>)
         Q c (barrier_queue i) R_return (do_barrier_wait i s).
Proof.
  intros HK Hmax. pose proof (do_barrier_wait_spec s Q c i HK Hmax) as Hs.
  destruct (si_barrier _ _ (proj2 HK) i Hmax) as [Hn _].
  destruct (decide (not_arrive_num s !!! i = 1)), (decide (Z.of_nat _ + 1 = _)); try done; lia.
Qed.
Lemma barrier_correct_witness :
  exists s s', max_num s !!! 0%nat = 1 /\ do_barrier_wait 0 s = Ok (tt, s').
Proof.
  destruct demo_boot_inv as (Q & [HK _] & HQ).
  destruct (do_barrier_init_spec demo_boot Q 1 0 1 HK (HQ _)) as (s & _ & HK1 & Em).
  pose proof (barrier_correct s Q 1 0 HK1 ltac:(rewrite Em; lia)) as Hb.
  rewrite HQ, Em in Hb. rewrite decide_True in Hb by reflexivity.
  destruct Hb as (s' & E & _). exists s, s'. split; [exact Em|exact E].
Defined.

(** C9: when somebody else can run (a ready task, a sleeper that is due, or a
    waiter of the mutex), [do_condition_wait] releases the mutex, leaves the
    caller blocked as the last waiter of the condition and passes the CPU on; the
    caller takes the mutex again before it returns.  When nobody else can run,
    the kernel stays in the scheduler for ever or follows a NULL pointer.
    [do_condition_signal] moves the first waiter of the condition to the end of
    the ready queue, [do_condition_broadcast] all of them in their order; without
    waiters both do nothing. *)
Theorem condition_correct s Q c l i :
  kernel_inv s Q c ->
  ((runnable s Q \/ Q (mutex_lock_queue l) <> []) /\ (exists t s' Q',
      do_condition_wait l i s = Ok (tt, s') /\ kernel_inv s' Q' t /\ t <> c
      /\ status s' c = TASK_BLOCKED /\ Q' (condition_queue i) = Q (condition_queue i) ++ [c]
      /\ lock_status s' !!! l = UNLOCKED /\ Q' (mutex_lock_queue l) = []
      /\ suspended s' !!! c = R_mutex_lock_acquire l)
    \/ ~ (runnable s Q \/ Q (mutex_lock_queue l) <> []) /\ do_condition_wait l i s = Fault (idle_fault Q))
  /\ (exists s', do_condition_signal i s = Ok (tt, s') /\
       match Q (condition_queue i) with
       | [] => s' = s
       | x :: m => kernel_inv s' (<[ready_queue := Q ready_queue ++ [x]]> (<[condition_queue i := m]> Q)) c
           /\ forall u, status s' u = if decide (u = x) then TASK_READY else status s u
       end)
  /\ (exists s', do_condition_broadcast i s = Ok (tt, s')
       /\ kernel_inv s' (<[ready_queue := Q ready_queue ++ Q (condition_queue i)]> (<[condition_queue i := []]> Q)) c
       /\ forall u, status s' u = if decide (u ∈ Q (condition_queue i)) then TASK_READY else status s u).
Proof.
  intros HK. split_and!.
  - destruct (do_condition_wait_spec s Q c l i HK)
      as [(Hr & t & s' & Q' & E & HK' & Ht & Hst & EQ & EM & EL & Hs & _)|[Hn E]]; [left|by right].
    split; [done|]. exists t, s', Q'. split_and!; done.
  - destruct (do_condition_signal_spec s Q c i HK) as (s2 & E2 & Hc). exists s2. split; [done|].
    destruct (Q (condition_queue i)) as [|x m]; [done|]. destruct Hc as [HK2 W]. split; [done|].
    intros u. rewrite (woken_status W). apply decide_ext. set_solver.
  - destruct (do_condition_broadcast_spec s Q c i HK) as (s2 & E2 & HK2 & W). exists s2. split_and!; try done.
    intros u. apply (woken_status W).
Qed.
Lemma demo_spawn_ready : exists Q c, full_inv demo_spawn Q c /\ Q ready_queue <> [].
Proof.
  destruct (reachable_full 1 2 demo_spawn ltac:(lia) demo_spawn_reachable) as (Q & c & HF).
  exists Q, c. split; [exact HF|]. assert (0%nat ∈ Q ready_queue) as Hin.
  { apply (inv_status demo_spawn Q c 0 (proj1 (proj1 (proj1 HF)))); [unfold NUM_MAX_TASK; lia|].
    right. vm_compute. reflexivity. }
  intros E. rewrite E in Hin. by apply not_elem_of_nil in Hin.
Qed.
Lemma condition_correct_witness : exists s', do_condition_wait 0 0 demo_spawn = Ok (tt, s').
Proof.
  destruct demo_spawn_ready as (Q & c & [HK _] & Hr).
  destruct (condition_correct demo_spawn Q c 0 0 HK) as [[(_ & t & s' & Q' & E & _)|[Hn _]] _].
  - exists s'. exact E.
  - destruct Hn. left. left. exact Hr.
Defined.

(** ** Sleeping *)

(** A sleeper whose time has not come is not woken. *)
Lemma woken_sleeper_keeps s l W l' t :
  woken_sleeper s l W l' -> t ∈ l -> expired s t = false -> t ∈ l'.
Proof.
  intros [(_ & -> & _)|(m1 & y & m2 & _ & -> & -> & Hy & _)] Hin Ht; [done|].
  apply elem_of_app in Hin as [?|[->|?]%elem_of_cons]; [set_solver|congruence|set_solver].
Qed.
Lemma first_such {A} (f : A -> bool) l1 x l2 m1 y m2 :
  l1 ++ x :: l2 = m1 ++ y :: m2 -> Forall (fun u => f u = false) l1 -> Forall (fun u => f u = false) m1 ->
  f x = true -> f y = true -> l1 = m1 /\ x = y /\ l2 = m2.
Proof.
  intros E Hl Hm Hx Hy. revert m1 Hm E. induction Hl as [|u l1 Hu _ IH]; intros [|z m1] Hm E; cbn in E; simplify_eq.
  - done.
  - apply Forall_cons in Hm as [? _]. congruence.
  - congruence.
  - apply Forall_cons in Hm as [_ Hm]. by destruct (IH m1) as (-> & -> & ->).
Qed.
(** The first sleeper whose time has come is. *)
Lemma woken_sleeper_first s W l' l1 t l2 :
  woken_sleeper s (l1 ++ t :: l2) W l' -> Forall (fun u => expired s u = false) l1 -> expired s t = true ->
  W = [t] /\ l' = l1 ++ l2.
Proof.
  intros [(_ & _ & Hall)|(m1 & y & m2 & -> & E & -> & Hy & Hm)] Hl Ht.
  - apply Forall_app in Hall as [_ [Hx _]%Forall_cons]. congruence.
  - by destruct (first_such (expired s) _ _ _ _ _ _ E Hl Hm Ht Hy) as (-> & -> & ->).
Qed.

Lemma scheduler_keeps_sleeper s Q c t s' :
  inv s Q c -> t ∈ Q sleeping_queue -> expired s t = false -> scheduler s = Ok (tt, s') ->
  exists Q' c', kinv s' Q' c' /\ c' <> t /\ t ∈ Q' sleeping_queue /\ status s' t = TASK_SLEEPING
    /\ sleeping_deadline (pcb s' t) = sleeping_deadline (pcb s t).
Proof.
  intros H Hin He E. destruct (scheduler_spec s Q c H) as (W & l' & HW & Hs).
  pose proof (woken_sleeper_keeps _ _ _ _ _ HW Hin He) as Hl.
  destruct (ready_with_current s Q c ++ W) as [|x l]; [by rewrite Hs in E|].
  destruct Hs as (l1 & l2 & s1 & _ & E1 & HK & _). rewrite E1 in E. injection E as <-.
  assert (t ∈ (<[ready_queue := l1 ++ l2]> (<[sleeping_queue := l']> Q)) sleeping_queue) as Ht by by qcase.
  pose proof HK as (HI & Hlt & Hrun). assert (status s1 t = TASK_SLEEPING) as Hst
    by (apply (inv_status _ _ _ t HI); [by apply (inv_members _ _ _ HI _ _ Ht)|done]).
  eexists _, _. split_and!; [exact HK| |exact Ht|exact Hst|].
  - intros Et. rewrite Et in Hrun. congruence.
  - by apply (sched_frame_field _ _ _ _ (keeps_scheduler _ _ _ E1)).
Qed.

Lemma scheduler_wakes_first s Q c t l1 l2 :
  inv s Q c -> Q sleeping_queue = l1 ++ t :: l2 -> Forall (fun u => expired s u = false) l1 -> expired s t = true ->
  exists s' Q' c', scheduler s = Ok (tt, s') /\ kinv s' Q' c' /\ (c' = t \/ t ∈ Q' ready_queue) /\ Q' sleeping_queue = l1 ++ l2.
Proof.
  intros H EQ Hl He. destruct (scheduler_spec s Q c H) as (W & l' & HW & Hs).
  rewrite EQ in HW. apply woken_sleeper_first in HW as [-> ->]; [|done..].
  destruct (ready_with_current s Q c ++ [t]) as [|x l] eqn:El2; [by destruct (ready_with_current s Q c)|].
  destruct Hs as (n1 & n2 & s1 & E & E1 & HK & _). eexists s1, _, _. split_and!; [exact E1|exact HK| |by qcase].
  assert (t ∈ x :: l) as Ht by (rewrite <-El2; set_solver). rewrite E in Ht.
  apply elem_of_app in Ht as [?|[<-|?]%elem_of_cons]; [right|by left|right]; qcase; set_solver.
Qed.

Lemma do_sleep_runnable s Q c n s1 :
  kinv s Q c -> expired s1 c = false -> time_elapsed s1 = time_elapsed s ->
  (forall t, t <> c -> sleeping_deadline (pcb s1 t) = sleeping_deadline (pcb s t) /\ status s1 t = status s t) ->
  n = Q sleeping_queue ++ [c] ->
  runnable s1 (<[sleeping_queue := n]> Q) <-> runnable s Q.
Proof.
  intros (H & Hc & Hrun) He Et Hd ->. unfold runnable.
  assert (forall t, t <> c -> expired s1 t = expired s t) as Hex.
  { intros t Ht. unfold expired, get_timer. by rewrite Et, (proj1 (Hd t Ht)). }
  assert (forall t, t ∈ Q sleeping_queue -> t <> c) as Hne by (intros t Ht ->; by apply (inv_running s Q c H Hc Hrun) in Ht).
  rewrite fn_lookup_insert, fn_lookup_insert_ne by done. split; intros [?|(t & Ht & E)]; try (by left); right; exists t.
  - apply elem_of_app in Ht as [Ht| ->%list_elem_of_singleton]; [|congruence]. split; [done|]. rewrite <-Hex; auto.
  - split; [set_solver|]. rewrite Hex; auto.
Qed.

(** C10: [do_sleep n] parks the caller in the sleeping queue with the deadline
    get_timer() + n (which must not exceed 32 bits), and another task runs; when
    nobody is ready and no other sleeper is due, the kernel stays in the wait loop
    of the scheduler for ever.  As long as the clock has not passed the deadline,
    no run of the scheduler wakes the sleeper; as soon as it has and no sleeper
    before it in the queue is due, the next run of the scheduler takes it (and
    nobody else) out of the sleeping queue and either gives it the CPU or puts it
    into the ready queue. *)
Theorem sleep_correct s Q c n :
  kinv s Q c -> 0 <= n -> 0 <= get_timer s -> get_timer s + n < 2 ^ 32 ->
  (runnable s Q /\ (exists t s' Q', do_sleep n s = Ok (tt, s') /\ kinv s' Q' t /\ t <> c
      /\ status s' c = TASK_SLEEPING /\ c ∈ Q' sleeping_queue /\ sleeping_deadline (pcb s' c) = get_timer s + n)
   \/ ~ runnable s Q /\ do_sleep n s = Fault Diverges)
  /\ forall s2 Q2 c2, inv s2 Q2 c2 -> c ∈ Q2 sleeping_queue -> sleeping_deadline (pcb s2 c) = get_timer s + n ->
     (get_timer s2 <= get_timer s + n -> forall s3, scheduler s2 = Ok (tt, s3) ->
        exists Q3 c3, kinv s3 Q3 c3 /\ c3 <> c /\ c ∈ Q3 sleeping_queue /\ status s3 c = TASK_SLEEPING
          /\ sleeping_deadline (pcb s3 c) = get_timer s + n)
     /\ (get_timer s + n < get_timer s2 -> forall l1 l2, Q2 sleeping_queue = l1 ++ c :: l2 ->
        Forall (fun t => get_timer s2 <= sleeping_deadline (pcb s2 t)) l1 ->
        exists s3 Q3 c3, scheduler s2 = Ok (tt, s3) /\ kinv s3 Q3 c3 /\ (c3 = c \/ c ∈ Q3 ready_queue)
          /\ Q3 sleeping_queue = l1 ++ l2).
Proof.
  intros HK Hn Ht Hw. split.
  - pose proof HK as (H & Hc & Hrun). destruct (do_sleep_spec s Q c n HK) as (s1 & -> & H1 & Hs1 & Hd & Et & _ & Ho).
    unfold u32 in Hd. rewrite Z.mod_small in Hd by lia.
    assert (expired s1 c = false) as Hex by (unfold expired, get_timer in *; rewrite Hd, Et; lia).
    rewrite <-(do_sleep_runnable s Q c _ s1 HK Hex Et Ho eq_refl).
    destruct (scheduler_parked s1 _ c H1) as [(Hr & t & s' & Q' & E & _)|[Hr E]]; [by rewrite Hs1|left|right].
    + split; [done|]. destruct (scheduler_keeps_sleeper s1 _ c c s' H1) as (Q3 & c3 & HK3 & Hne & Hin & Hst & Hdl); [qcase; set_solver|done..|].
      exists c3, s', Q3. split_and!; try done. by rewrite Hdl.
    + split; [done|]. rewrite E, fn_lookup_insert. by destruct (Q sleeping_queue).
  - intros s2 Q2 c2 H2 Hin Hd. split.
    + intros Hle s3 E. destruct (scheduler_keeps_sleeper s2 Q2 c2 c s3 H2 Hin) as (Q3 & c3 & HK3 & Hne & Hin3 & Hst & Hdl); [|done|].
      * unfold expired. rewrite Hd. lia.
      * exists Q3, c3. split_and!; try done. congruence.
    + intros Hlt l1 l2 EQ Hall. apply (scheduler_wakes_first s2 Q2 c2); [done..| |unfold expired; rewrite Hd; lia].
      eapply Forall_impl; [exact Hall|]. unfold expired. cbn. lia.
Qed.
Lemma sleep_correct_witness : exists s', do_sleep 3 demo_spawn = Ok (tt, s').
Proof.
  destruct demo_spawn_ready as (Q & c & [[HK _] _] & Hr).
  destruct (sleep_correct demo_spawn Q c 3 HK) as [[(_ & t & s' & Q' & E & _)|[Hn _]] _];
    [lia|vm_compute; discriminate|vm_compute; reflexivity|exists s'; exact E|destruct Hn; left; exact Hr].
Defined.

(** ** Processes *)


(** The switch away from a parked task, with the tasks it moves. *)
Lemma parked_switch s Q c :
  inv s Q c -> sync_inv s Q -> proc_inv s Q -> status s c <> TASK_RUNNING -> runnable s Q ->
  exists t s' Q', scheduler s = Ok (tt, s') /\ full_inv s' Q' t /\ sched_frame s s'
    /\ (exists q, t ∈ Q q) /\ (forall u q, u ∈ Q' q -> exists q', u ∈ Q q')
    /\ (forall u, u ∈ Q ready_queue -> u = t \/ u ∈ Q' ready_queue).
Proof.
  intros H HS HP Hc Hr. destruct (scheduler_spec s Q c H) as (W & l' & HW & Hs).
  assert (ready_with_current s Q c = Q ready_queue) as ER.
  { unfold ready_with_current. by rewrite decide_False by naive_solver. }
  rewrite ER in Hs. destruct (Q ready_queue ++ W) as [|x l] eqn:EW.
  { apply app_eq_nil in EW as [EQ ->]. destruct Hr as [Hr|(t & Ht & He)]; [done|].
    pose proof (woken_sleeper_none _ _ _ HW t Ht). congruence. }
  destruct Hs as (l1 & l2 & s' & E & Es & HK & _). eexists _, s', _. split; [done|].
  pose proof (keeps_scheduler _ _ _ Es) as F.
  assert (Hincl : forall u, u ∈ x :: l -> exists q, u ∈ Q q).
  { intros u. rewrite <-EW. intros [?|?]%elem_of_app; [eauto|]. exists sleeping_queue. by eapply woken_sleeper_due. }
  split_and!; [split; [split; [done|]|]|done|apply Hincl, pick_in| |].
  - revert HS. apply sync_inv_transfer; try by apply (sched_frame_outer _ _ _ F).
    + intros _ u _. by rewrite (sched_frame_outer suspended _ _ F).
    + intros q ? ?. by qcase.
  - revert HP. apply proc_inv_transfer; [by eapply exit_scheduler|intros u; by qcase].
  - intros u q. qcase; [|intros Hu; exists sleeping_queue|by eauto].
    + intros Hu. apply Hincl. rewrite E. set_solver.
    + destruct HW as [(_ & -> & _)|(m1 & y & m2 & _ & -> & -> & _)]; set_solver.
  - intros u Hu. assert (u ∈ x :: l) as Hin by (rewrite <-EW; set_solver). rewrite E in Hin. qcase. set_solver.
Qed.

Lemma unqueued_exited s Q c t :
  inv s Q c -> (t < NUM_MAX_TASK)%nat -> t <> c -> (forall q, t ∉ Q q) -> status s t = TASK_EXITED.
Proof.
  intros H Ht Hne Hq. pose proof (inv_ok _ _ _ H t Ht) as Hok.
  destruct (status s t); cbn in Hok; try done; exfalso.
  - destruct Hok as (q & _ & _ & Hin). by apply Hq in Hin.
  - by destruct Hok.
  - by apply Hq in Hok.
  - by apply Hq in Hok.
  - by apply Hq in Hok.
Qed.

(** What becomes of the running task [c] when it exits: another task runs, [c] is
    exited and in no queue, everybody who waited for it is ready or runs, and the
    mutexes of its lock table are free.  Or nobody is ready and nobody waits for
    [c], and no task is left to run. *)
Definition leaves (s : kstate) (Q : queue_id -> list nat) (c : nat) (o : outcome (unit * kstate)) : Prop :=
  (exists t s' Q', o = Ok (tt, s') /\ full_inv s' Q' t /\ t <> c
    /\ status s' c = TASK_EXITED /\ (forall q, c ∉ Q' q)
    /\ (forall u, u ∈ Q (waiting_queue c) -> u = t \/ u ∈ Q' ready_queue)
    /\ (forall l, Some l ∈ pcb_lock (pcb s c) -> lock_status s' !!! l = UNLOCKED))
  \/ Q ready_queue = [] /\ Q (waiting_queue c) = [] /\ (o = Fault NullDeref \/ o = Fault Diverges).

Lemma leaving s Q c s1 Q1 :
  (c < NUM_MAX_TASK)%nat -> c ∉ Q ready_queue -> inv s1 Q1 c -> sync_inv s1 Q1 -> proc_inv s1 Q1 -> status s1 c = TASK_EXITED ->
  (forall t, t <> c -> t ∈ Q ready_queue -> t ∈ Q1 ready_queue) -> (forall t, t ∈ Q (waiting_queue c) -> t ∈ Q1 ready_queue) ->
  (forall l, Some l ∈ pcb_lock (pcb s c) -> lock_status s1 !!! l = UNLOCKED) ->
  leaves s Q c (scheduler (with_resume c R_return s1)).
Proof.
  intros Hc Hnr H1 S1 P1 X4 X0 X5 X6. set (s2 := with_resume c R_return s1).
  assert (inv s2 Q1 c) as H2 by by apply (inv_stores s1).
  assert (Hst2 : status s2 c = TASK_EXITED) by exact X4.
  assert (Hcq : forall q, c ∉ Q1 q) by (intros q Hq; pose proof (task_ok_queued _ _ _ _ _ H2 Hq) as [_ Hu']; done).
  destruct (scheduler_parked s2 Q1 c H2) as [[Hr _]|[Hn E]]; [by rewrite Hst2|left|right].
  - destruct (parked_switch s2 Q1 c H2) as (t & s' & Q' & E & HF' & F & [q Ht] & Hsub & Hrdy).
    + revert S1. apply sync_inv_transfer; try done. intros l u Hu. cbn. rewrite lookup_total_insert_ne; [done|].
      intros <-. by apply Hcq in Hu.
    + revert P1. apply proc_inv_transfer; [|done]. by split.
    + by rewrite Hst2.
    + done.
    + assert (Htc : t <> c) by (intros ->; by apply Hcq in Ht).
      assert (Hfree : forall q, c ∉ Q' q) by (intros q' Hq'; apply Hsub in Hq' as [q'' Hq'']; by apply Hcq in Hq'').
      exists t, s', Q'. split_and!; try done.
      * eapply unqueued_exited; [apply HF'|done|by apply not_eq_sym|done].
      * intros u Hu. by apply Hrdy, X5.
      * intros l Hl. rewrite (sched_frame_outer lock_status _ _ F) by done. by apply X6.
  - assert (Q1 ready_queue = []) as E1 by (destruct (Q1 ready_queue) eqn:EQ; [done|destruct Hn; left; by rewrite EQ]).
    split_and!; try (apply elem_of_nil_inv; intros u Hu; apply (not_elem_of_nil u); rewrite <-E1).
    + apply X0; [|done]. by intros ->.
    + by apply X5.
    + rewrite E. destruct (Q1 sleeping_queue); auto.
Qed.

(** C12: [do_exit] releases every mutex in the lock table of the caller, wakes
    everybody who waits for the caller, and never returns to it: another task
    runs, and the caller is exited and in no queue.  Only when nobody is ready and
    nobody waits for the caller there may be no task to switch to; then the kernel
    stays in the scheduler for ever or follows a NULL pointer. *)
Theorem exit_correct s Q c : full_inv s Q c -> leaves s Q c (do_exit s).
Proof.
  intros HF. destruct (do_exit_spec s Q c HF) as (s1 & Q1 & -> & [X1 X2 X3 X4 X0 X5 X6 _]).
  destruct HF as [[(H & Hc & Hrun) _] _]. apply (leaving s Q c s1 Q1); auto. by apply (inv_running s).
Qed.
Lemma exit_correct_witness : exists s', do_exit demo_spawn = Ok (tt, s').
Proof.
  destruct demo_spawn_ready as (Q & c & HF & Hr).
  destruct (exit_correct demo_spawn Q c HF) as [(t & s' & Q' & E & _)|[E _]]; [exists s'; exact E|contradiction].
Defined.

(** [do_waitpid n] returns at once when no process has the pid or the
    process has exited; otherwise the caller blocks as the last task in the
    waiting queue of exactly that process (from where [do_exit] and [do_kill]
    wake it). *)
Theorem waitpid_correct s Q c n :
  full_inv s Q c ->
  match find_pcb (has_pid n) s with
  | Some i => pcb_pid (pcb s i) = n /\ (if decide (status s i = TASK_EXITED) then do_waitpid n s = Ok (tt, s)
       else blocks s Q c (waiting_queue i) R_return (do_waitpid n s))
  | None => do_waitpid n s = Ok (tt, s)
      /\ forall i, (i < NUM_MAX_TASK)%nat -> pcb_pid (pcb s i) <> n
  end.
Proof.
  intros HF. pose proof (do_waitpid_spec s Q c n HF) as Hs. pose proof (find_pcb_spec (has_pid n) s) as Hf.
  destruct (find_pcb (has_pid n) s) as [i|].
  - destruct Hf as [_ Hf%Z.eqb_eq]. done.
  - split; [done|]. intros i Hi Hn. specialize (Hf i Hi). unfold has_pid in Hf. lia.
Qed.
Lemma waitpid_correct_witness : do_waitpid 77 demo_boot = Ok (tt, demo_boot).
Proof.
  destruct demo_boot_inv as (Q & HF & _). pose proof (waitpid_correct demo_boot Q 1 77 HF) as Hw.
  assert (find_pcb (has_pid 77) demo_boot = None) as E by (vm_compute; reflexivity).
  rewrite E in Hw. exact (proj1 Hw).
Defined.

(** C13: [do_kill n], for a pid other than 0, does nothing when no process has the
    pid or the process has exited.  Otherwise, when the process is not blocked or
    is blocked on a mutex of the table Lock[] (the code takes a blocked process out
    of no other queue): it is exited and in no queue, everybody who waited for it
    is ready, the mutexes of its lock table are free and nobody's pid changes; the
    caller goes on running, unless it killed itself: then it leaves as in
    [do_exit]. *)
Theorem kill_correct s Q c n :
  full_inv s Q c -> n <> 0 ->
  match find_pcb (has_pid n) s with
  | None => do_kill n s = Ok (tt, s) /\ forall i, (i < NUM_MAX_TASK)%nat -> pcb_pid (pcb s i) <> n
  | Some i => pcb_pid (pcb s i) = n /\
      if decide (status s i = TASK_EXITED) then do_kill n s = Ok (tt, s)
      else killable s Q i ->
        if decide (i = c) then leaves s Q c (do_kill n s)
        else exists s' Q', do_kill n s = Ok (tt, s') /\ full_inv s' Q' c /\ status s' i = TASK_EXITED
          /\ (forall q, i ∉ Q' q) /\ (forall t, t ∈ Q (waiting_queue i) -> t ∈ Q' ready_queue)
          /\ (forall l, Some l ∈ pcb_lock (pcb s i) -> lock_status s' !!! l = UNLOCKED)
          /\ (forall t, pcb_pid (pcb s' t) = pcb_pid (pcb s t))
  end.
Proof.
  intros HF Hn. pose proof (do_kill_spec s Q c n HF Hn) as Hs. pose proof (find_pcb_spec (has_pid n) s) as Hf.
  destruct (find_pcb (has_pid n) s) as [i|].
  2: { split; [done|]. intros i Hi Ei. specialize (Hf i Hi). unfold has_pid in Hf. lia. }
  destruct Hf as [_ Hf%Z.eqb_eq]. split; [done|]. case_decide as Hex; [done|]. intros Hk.
  destruct (Hs Hk) as (s' & Q' & [K1 K2 K3 K4 K5 K6 K0 K7 K8] & E). destruct HF as [[(H & Hc & Hrun) HS] HP].
  rewrite E. destruct (decide (i = c)) as [->|Hic].
  - apply (leaving s Q c s' Q'); auto. by apply (inv_running s).
  - exists s', Q'. split_and!; try done.
    + split; [split; [split_and!|]|]; try done. by rewrite K5.
    + intros q Hq. by pose proof (task_ok_queued _ _ _ _ _ K1 Hq) as [_ Hu'].
Qed.
Lemma kill_correct_witness : exists s', do_kill 2 demo_spawn = Ok (tt, s').
Proof.
  destruct demo_spawn_ready as (Q & c & HF & Hr). pose proof (inv_cur _ _ _ (proj1 (proj1 (proj1 HF)))) as Ec.
  assert (current_running demo_spawn = Some 1%nat) as E1 by (vm_compute; reflexivity).
  rewrite E1 in Ec. injection Ec as <-.
  assert (status demo_spawn 0 = TASK_CREATED) as E0 by (vm_compute; reflexivity).
  assert (find_pcb (has_pid 2) demo_spawn = Some 0%nat) as Ef by (vm_compute; reflexivity).
  pose proof (kill_correct demo_spawn Q 1 2 HF ltac:(discriminate)) as Hk. rewrite Ef, E0 in Hk.
  destruct Hk as [_ Hk]. cbn [decide] in Hk. rewrite decide_False in Hk by discriminate. rewrite decide_False in Hk by discriminate.
  destruct Hk as (s' & Q' & E & _); [|exists s'; exact E].
  unfold killable. rewrite E0. discriminate.
Defined.

(** ** The process list *)

Definition with_status (s : kstate) (st : task_status_t) : list nat :=
  filter (fun j => status s j = st) (seq 0 NUM_MAX_TASK).
(** The tasks in the order in which [do_ps] shows them. *)
Definition ps_list (s : kstate) (c : nat) : list nat :=
  c :: with_status s TASK_READY ++ with_status s TASK_SLEEPING ++ with_status s TASK_BLOCKED.
Definition shown (s : kstate) (k t : nat) : process_show_t :=
  mk_show (Z.of_nat k) (pcb_pid (pcb s t)) (status s t).

(** [L] holds the entries of the tasks [ts] from index [i] on, and is [l]
    elsewhere. *)
Definition shows (s : kstate) (i : nat) (ts : list nat) (l L : list process_show_t) : Prop :=
  length L = length l /\
  forall k, L !! k = if decide (i <= k < i + length ts)%nat
                     then shown s k <$> ts !! (k - i)%nat else l !! k.

Lemma shows_app s i ts ts' l L L' :
  shows s i ts l L -> shows s (i + length ts) ts' L L' -> shows s i (ts ++ ts') l L'.
Proof.
  intros [E H] [E' H']. split; [congruence|]. intros k. rewrite H', length_app.
  destruct (decide (i + length ts <= k < i + length ts + length ts')%nat).
  - rewrite decide_True by lia. rewrite lookup_app_r by lia.
    by replace (k - i - length ts)%nat with (k - (i + length ts))%nat by lia.
  - rewrite H. destruct (decide (i <= k < i + length ts)%nat).
    + rewrite decide_True by lia. by rewrite lookup_app_l by lia.
    + by rewrite decide_False by lia.
Qed.

Lemma show_spec (s : kstate) (i t : nat) :
  (i < length (ProcessShow s))%nat ->
  exists L, show (Z.of_nat i) (pcb_pid (pcb s t)) (status s t) s = Ok (tt, s <| ProcessShow := L |>)
    /\ shows s i [t] (ProcessShow s) L.
Proof.
  intros Hi. unfold show. rewrite (bind_Ok _ _ _ _ _ eq_refl), wr_in_range by lia.
  eexists. split; [done|]. split; [apply length_insert|]. intros k. rewrite Nat2Z.id. cbn [length].
  destruct (decide (k = i)) as [->|Hne].
  - rewrite decide_True by lia. rewrite list_lookup_insert_eq by done. by rewrite Nat.sub_diag.
  - rewrite decide_False by lia. by rewrite list_lookup_insert_ne.
Qed.

Lemma ps_pass_spec st js i s :
  let F := filter (fun j => status s j = st) js in
  (i + length F <= length (ProcessShow s))%nat ->
  exists L, ps_pass st js (Z.of_nat i) s = Ok (Z.of_nat (i + length F), s <| ProcessShow := L |>)
    /\ shows s i F (ProcessShow s) L.
Proof.
  revert i s. induction js as [|j js IH]; intros i s F Hlen; cbn [ps_pass].
  - exists (ProcessShow s). subst F. rewrite Nat.add_0_r. split; [by destruct s|].
    split; [done|]. intros k. rewrite decide_False; [done|]. cbn. lia.
  - rewrite (bind_Ok _ _ _ _ _ eq_refl). subst F. rewrite filter_cons in *.
    destruct (decide (status s j = st)) as [E|E]; [|by apply IH].
    rewrite (bind_Ok _ _ _ _ _ eq_refl). cbn [length] in *.
    destruct (show_spec s i j) as (L1 & E1 & S1); [lia|]. rewrite (bind_Ok _ _ _ _ _ E1).
    set (s1 := s <| ProcessShow := L1 |>). replace (Z.of_nat i + 1) with (Z.of_nat (i + 1)) by lia.
    destruct (IH (i + 1)%nat s1) as (L2 & E2 & S2).
    { change (ProcessShow s1) with L1. rewrite (proj1 S1).
      change (filter (fun j => status s1 j = st) js) with (filter (fun j => status s j = st) js). lia. }
    exists L2. split.
    + etrans; [exact E2|].
      change (filter (fun j => status s1 j = st) js) with (filter (fun j => status s j = st) js).
      by replace (i + 1 + length (filter (fun j => status s j = st) js))%nat
        with (i + S (length (filter (fun j => status s j = st) js)))%nat by lia.
    + by apply (shows_app s i [j] _ _ L1).
Qed.

Lemma ps_list_length s Q c : kinv s Q c -> (length (ps_list s c) <= 40)%nat.
Proof.
  intros (H & Hc & Hrun). change 40%nat with (length (seq 0 NUM_MAX_TASK)).
  apply submseteq_length, NoDup_submseteq.
  - assert (forall st, NoDup (with_status s st)) as Hnd by (intros; apply NoDup_filter, NoDup_seq).
    assert (forall st st' t, st <> st' -> t ∈ with_status s st -> t ∉ with_status s st') as Hd.
    { intros st st' t Hne [E1 _]%list_elem_of_filter [E2 _]%list_elem_of_filter. congruence. }
    unfold ps_list. apply NoDup_cons. split.
    + rewrite !elem_of_app. unfold with_status. rewrite !list_elem_of_filter. rewrite Hrun. naive_solver.
    + apply NoDup_app. split_and!; [done| |apply NoDup_app; split_and!; [done| |done]].
      * intros t Ht. rewrite elem_of_app. intros [Ht'|Ht']; (eapply Hd; [|exact Ht|exact Ht']; done).
      * intros t Ht. by eapply Hd; [|exact Ht].
  - intros t. unfold ps_list, with_status. rewrite elem_of_cons, !elem_of_app, !list_elem_of_filter.
    rewrite !elem_of_seq. intros [->|?]; [lia|naive_solver].
Qed.

Lemma ps_pass_table st i s L0 :
  (i + length (with_status s st) <= length L0)%nat ->
  exists L, ps_pass st (seq 0 NUM_MAX_TASK) (Z.of_nat i) (s <| ProcessShow := L0 |>)
            = Ok (Z.of_nat (i + length (with_status s st)), s <| ProcessShow := L |>)
    /\ shows s i (with_status s st) L0 L.
Proof. exact (ps_pass_spec st (seq 0 NUM_MAX_TASK) i (s <| ProcessShow := L0 |>)). Qed.

(** The list before its end mark. *)
Lemma ps_lists s Q c :
  kinv s Q c -> length (ProcessShow s) = 40%nat ->
  exists L, shows s 0 (ps_list s c) (ProcessShow s) L /\
    do_ps s = (let! l := gets ProcessShow in
               let! r := lift (rd l (Z.of_nat (length (ps_list s c)))) in
               let! l' := lift (wr l (Z.of_nat (length (ps_list s c))) (mk_show (-1) (show_pid r) (show_status r))) in
               modify (fun s => s <| ProcessShow := l' |>)) (s <| ProcessShow := L |>).
Proof.
  intros HK Hlen. pose proof (ps_list_length s Q c HK) as Hmax. destruct HK as (H & Hc & Hrun).
  unfold ps_list in *. cbn [length] in *. rewrite !length_app in *.
  destruct (show_spec s 0 c) as (L0 & E0 & S0); [lia|].
  destruct (ps_pass_table TASK_READY 1 s L0) as (L1 & E1 & S1); [rewrite (proj1 S0); lia|].
  destruct (ps_pass_table TASK_SLEEPING (1 + length (with_status s TASK_READY)) s L1) as (L2 & E2 & S2);
    [rewrite (proj1 S1), (proj1 S0); lia|].
  destruct (ps_pass_table TASK_BLOCKED (1 + length (with_status s TASK_READY) + length (with_status s TASK_SLEEPING)) s L2)
    as (L3 & E3 & S3); [rewrite (proj1 S2), (proj1 S1), (proj1 S0); lia|].
  exists L3. split.
  - apply (shows_app s 0 [c] _ _ L0); [exact S0|]. apply (shows_app _ _ _ _ _ L1); [exact S1|].
    by apply (shows_app _ _ _ _ _ L2).
  - unfold do_ps. rewrite (bind_Ok _ _ _ _ _ eq_refl), (inv_cur _ _ _ H), (bind_Ok _ _ _ _ _ eq_refl), (bind_Ok _ _ _ _ _ eq_refl).
    rewrite (bind_Ok _ _ _ _ _ E0), (bind_Ok _ _ _ _ _ E1), (bind_Ok _ _ _ _ _ E2), (bind_Ok _ _ _ _ _ E3).
    by rewrite <-!Nat.add_assoc.
Qed.

(** C14: [do_ps] fills [ProcessShow] with the running task, then the ready, the
    sleeping and the blocked ones, each in the order of the table, numbered from
    0, and ends the list with the number -1; but when the table is full, the
    end mark is written behind the end of the array. *)
Theorem ps_correct s Q c :
  full_inv s Q c -> length (ProcessShow s) = 40%nat ->
  let L := ps_list s c in
  if decide (length L < 40)%nat
  then exists s', do_ps s = Ok (tt, s') /\
    (forall k, (k < length L)%nat -> ProcessShow s' !! k = shown s k <$> L !! k)
    /\ show_num <$> (ProcessShow s' !! length L) = Some (-1)
  else do_ps s = Fault OutOfBounds.
Proof.
  intros [[HK _] _] Hlen L. destruct (ps_lists s Q c HK Hlen) as (l & [Hl Hs] & E). rewrite E. clear E.
  fold L in Hs |- *. pose proof (ps_list_length s Q c HK) as Hmax. fold L in Hmax.
  rewrite (bind_Ok _ _ _ _ _ eq_refl). cbn [ProcessShow]. change (ProcessShow (s <| ProcessShow := l |>)) with l.
  case_decide as Hd.
  - destruct (rd_in_range l (Z.of_nat (length L))) as (r & Er & _); [lia|]. unfold bind at 1. rewrite Er. cbn [lift].
    rewrite wr_in_range by lia. eexists. split; [reflexivity|]. rewrite Nat2Z.id.
    set (l2 := <[length L := _]> l). change (ProcessShow _) with l2. subst l2. split.
    + intros k Hk. rewrite list_lookup_insert_ne by lia. rewrite Hs, decide_True by lia. by rewrite Nat.sub_0_r.
    + by rewrite list_lookup_insert_eq by lia.
  - unfold rd. rewrite lookup_ge_None_2 by lia. by destruct (0 <=? _).
Qed.
Lemma ps_correct_witness : exists s', do_ps demo_boot = Ok (tt, s').
Proof.
  destruct demo_boot_inv as (Q & HF & _).
  assert (length (ProcessShow demo_boot) = 40%nat) as El by (vm_compute; reflexivity).
  pose proof (ps_correct demo_boot Q 1 HF El) as Hp. cbv zeta in Hp.
  rewrite decide_True in Hp by (apply Nat.ltb_lt; vm_compute; reflexivity).
  destruct Hp as (s' & E & _). exists s'. exact E.
Defined.

(** ** Behaviours the code does not mean to have *)

Fixpoint run_calls (first_entry : Z) (ks : list call) (s : kstate) : outcome kstate :=
  match ks with
  | [] => Ok s
  | k :: r =>
      match exec first_entry k s with
      | Ok (_, s') => run_calls first_entry r s'
      | Fault f => Fault f
      end
  end.
Definition observe {A} (f : kstate -> A) (o : outcome kstate) : option A :=
  match o with Ok s => Some (f s) | Fault _ => None end.
Definition demo_calls (ks : list call) : outcome kstate :=
  run_calls 1 (C_spawn (mk_task_info 7 USER_PROCESS) :: ks) demo_boot.

(** [do_kill] looks for a blocked process only in the queues of mutexes: a
    process that is killed while it waits for a semaphore stays in that queue,
    and the next [up] makes the exited process ready again. *)
Theorem kill_leaves_semaphore_waiter :
  observe (fun s => status s 0) (demo_calls [C_tick; C_semaphore_down 0; C_kill 2]) = Some TASK_EXITED
  /\ observe (fun s => (status s 0, q_head (queue s ready_queue)))
       (demo_calls [C_tick; C_semaphore_down 0; C_kill 2; C_semaphore_up 0])
     = Some (TASK_READY, Some 0%nat).
Proof. split; vm_compute; reflexivity. Qed.

(** a release leaves the entry of the mutex in the lock table of its owner.
    When that task exits, the mutex is released again, although meanwhile
    another task holds it. *)
Theorem exit_releases_foreign_lock :
  observe (fun s => (current_running s, lock_status s !!! 0%nat))
    (demo_calls [C_acquire 0; C_release 0; C_tick; C_acquire 0]) = Some (Some 0%nat, LOCKED)
  /\ observe (fun s => (status s 1, status s 0, lock_status s !!! 0%nat))
       (demo_calls [C_acquire 0; C_release 0; C_tick; C_acquire 0; C_tick; C_tick; C_exit])
     = Some (TASK_EXITED, TASK_RUNNING, UNLOCKED).
Proof. split; vm_compute; reflexivity. Qed.
