(* ===== verification/CString.v ===== *)
(** The string library of libs/string.c.

    A function works on a memory region [m], a list of bytes; its pointers are
    offsets into the region and a NULL pointer is [None].  Reading or writing
    outside the region is [Fault OutOfBounds].  A loop that scans a string gets
    [S (length m)] rounds: it advances in every round, so it has left the region
    before they are used up ([Diverges] is never the answer, see the
    specifications below). *)

From S2P Require Import Prelude.

Abbreviation mem := (list Z).

Definition digit_0 : Z := 48.  (* '0' *)
Definition digit_9 : Z := 57.  (* '9' *)
Definition char_a : Z := 97.   (* 'a' *)
Definition char_f : Z := 102.  (* 'f' *)

(** ** Operations *)

Fixpoint strlen_loop (fuel : nat) (m : mem) (src i : Z) : outcome Z :=
  match fuel with
  | O => Fault Diverges
  | S fuel' =>
      try! c := rd m (src + i) in
      if c =? 0 then Ok i else strlen_loop fuel' m src (i + 1)
  end.
Definition strlen (m : mem) (src : Z) : outcome Z := strlen_loop (S (length m)) m src 0.

Fixpoint memcpy (m : mem) (dest src : Z) (len : nat) : outcome mem :=
  match len with
  | O => Ok m
  | S len' =>
      try! b := rd m src in
      try! m := wr m dest b in
      memcpy m (dest + 1) (src + 1) len'
  end.

Fixpoint memset (m : mem) (dest val : Z) (len : nat) : outcome mem :=
  match len with
  | O => Ok m
  | S len' => try! m := wr m dest (u8 val) in memset m (dest + 1) val len'
  end.
Definition bzero (m : mem) (dest : Z) (len : nat) : outcome mem := memset m dest 0 len.

Fixpoint strcmp_loop (fuel : nat) (m : mem) (str1 str2 : Z) : outcome (Z * Z) :=
  match fuel with
  | O => Fault Diverges
  | S fuel' =>
      try! c1 := rd m str1 in
      if c1 =? 0 then Ok (str1, str2)
      else
        try! c2 := rd m str2 in
        if c2 =? 0 then Ok (str1, str2)
        else if c1 =? c2 then strcmp_loop fuel' m (str1 + 1) (str2 + 1) else Ok (str1, str2)
  end.
Definition strcmp (m : mem) (str1 str2 : Z) : outcome Z :=
  try! p := strcmp_loop (S (length m)) m str1 str2 in
  try! c1 := rd m (fst p) in
  if c1 =? 0 then
    try! c2 := rd m (snd p) in
    if c2 =? 0 then Ok 0 else Ok (-1)
  else Ok 1.

Fixpoint strcpy_loop (fuel : nat) (m : mem) (dest src : Z) : outcome mem :=
  match fuel with
  | O => Fault Diverges
  | S fuel' =>
      try! c := rd m src in
      if c =? 0 then wr m dest 0
      else try! m := wr m dest c in strcpy_loop fuel' m (dest + 1) (src + 1)
  end.
Definition strcpy (m : mem) (dest src : Z) : outcome mem := strcpy_loop (S (length m)) m dest src.

Fixpoint reverse_loop (fuel : nat) (m : mem) (s i j : Z) : outcome mem :=
  match fuel with
  | O => Fault Diverges
  | S fuel' =>
      if i <? j then
        try! c := rd m (s + i) in
        try! d := rd m (s + j) in
        try! m := wr m (s + i) d in
        try! m := wr m (s + j) c in
        reverse_loop fuel' m s (i + 1) (j - 1)
      else Ok m
  end.
Definition reverse (m : mem) (s : Z) : outcome mem :=
  try! n := strlen m s in
  reverse_loop (S (length m)) m s 0 (n - 1).

(** The loops of [itohex] and [itoa]; the result has the position behind the
    last digit.  An [uint32_t] has at most 32 digits in any base. *)
Fixpoint digits_loop (fuel : nat) (base : Z) (ch : Z -> Z) (m : mem) (n s i : Z) : outcome (mem * Z) :=
  match fuel with
  | O => Fault Diverges
  | S fuel' =>
      try! m := wr m (s + i) (ch (n mod base)) in
      if n / base >? 0 then digits_loop fuel' base ch m (n / base) s (i + 1) else Ok (m, i + 1)
  end.
Definition hex_char (d : Z) : Z := if d <? 10 then d + digit_0 else d - 10 + char_a.
Definition dec_char (d : Z) : Z := d + digit_0.
Definition itohex (m : mem) (n s : Z) : outcome mem :=
  try! r := digits_loop 32 16 hex_char m n s 0 in
  try! m := wr (fst r) (s + snd r) 0 in
  reverse m s.
Definition itoa (m : mem) (n s : Z) : outcome mem :=
  try! r := digits_loop 32 10 dec_char m n s 0 in
  try! m := wr (fst r) (s + snd r) 0 in
  reverse m s.

Definition is_dec (c : Z) : bool := (digit_0 <=? c) && (c <=? digit_9).
Definition is_hex_char (c : Z) : bool := is_dec c || ((char_a <=? c) && (c <=? char_f)).

(** The loops of [atoi], [atoh] and [htoi]: [ok] is the test, [val] the value
    of a digit, [n] an [int]. *)
Fixpoint parse_loop (fuel : nat) (base : Z) (ok : Z -> bool) (val : Z -> Z) (m : mem) (s n : Z) : outcome Z :=
  match fuel with
  | O => Fault Diverges
  | S fuel' =>
      try! c := rd m s in
      if ok c then parse_loop fuel' base ok val m (s + 1) (i32 (n * base + val c)) else Ok n
  end.
Definition atoi (m : mem) (s : Z) : outcome Z :=
  try! n := parse_loop (S (length m)) 10 is_dec (fun c => c - digit_0) m s 0 in Ok (u32 n).
Definition atoh (m : mem) (s : Z) : outcome Z :=
  try! n := parse_loop (S (length m)) 16 is_hex_char
              (fun c => if is_dec c then c - digit_0 else c - char_a) m s 0 in Ok (u32 n).
Definition htoi (m : mem) (s : Z) : outcome Z :=
  parse_loop (S (length m)) 16 is_hex_char
    (fun c => if is_dec c then c - digit_0 else c - char_a + 10) m s 0.

(** *** [strpbrk]: a bit map of the control characters *)

Fixpoint set_map_loop (fuel : nat) (m : mem) (ctrl : Z) (map : list Z) : outcome (list Z) :=
  match fuel with
  | O => Fault Diverges
  | S fuel' =>
      try! c := rd m ctrl in
      if c =? 0 then Ok map
      else
        try! b := rd map (Z.shiftr c 3) in
        try! map := wr map (Z.shiftr c 3) (u8 (Z.lor b (Z.shiftl 1 (Z.land c 7)))) in
        set_map_loop fuel' m (ctrl + 1) map
  end.
Fixpoint search_map_loop (fuel : nat) (m : mem) (str : Z) (map : list Z) : outcome (option Z) :=
  match fuel with
  | O => Fault Diverges
  | S fuel' =>
      try! c := rd m str in
      if c =? 0 then Ok None
      else
        try! b := rd map (Z.shiftr c 3) in
        if Z.land b (Z.shiftl 1 (Z.land c 7)) =? 0 then search_map_loop fuel' m (str + 1) map
        else Ok (Some str)
  end.
Definition strpbrk (m : mem) (string control : Z) : outcome (option Z) :=
  try! map := set_map_loop (S (length m)) m control (replicate 32 0) in
  search_map_loop (S (length m)) m string map.

(** *** [strspn], [strchr], [strrchr], [strtok] *)

(** The inner loop of [strspn]: the character at which [a] stops. *)
Fixpoint accept_loop (fuel : nat) (m : mem) (c a : Z) : outcome Z :=
  match fuel with
  | O => Fault Diverges
  | S fuel' =>
      try! x := rd m a in
      if x =? 0 then Ok x else if c =? x then Ok x else accept_loop fuel' m c (a + 1)
  end.
Fixpoint strspn_loop (fuel : nat) (m : mem) (p accept count : Z) : outcome Z :=
  match fuel with
  | O => Fault Diverges
  | S fuel' =>
      try! c := rd m p in
      if c =? 0 then Ok count
      else
        try! x := accept_loop (S (length m)) m c accept in
        if x =? 0 then Ok count else strspn_loop fuel' m (p + 1) accept (count + 1)
  end.
Definition strspn (m : mem) (s accept : Z) : outcome Z := strspn_loop (S (length m)) m s accept 0.

Fixpoint strchr_loop (fuel : nat) (m : mem) (s c : Z) : outcome (option Z) :=
  match fuel with
  | O => Fault Diverges
  | S fuel' =>
      try! x := rd m s in
      if x =? 0 then Ok None
      else if x =? u8 c then Ok (Some s) else strchr_loop fuel' m (s + 1) c
  end.
Definition strchr (m : mem) (s : option Z) (c : Z) : outcome (option Z) :=
  match s with None => Ok None | Some s => strchr_loop (S (length m)) m s c end.

Fixpoint strrchr_loop (fuel : nat) (m : mem) (s c p_char : Z) : outcome Z :=
  match fuel with
  | O => Fault Diverges
  | S fuel' =>
      try! x := rd m s in
      if x =? 0 then Ok p_char
      else strrchr_loop fuel' m (s + 1) c (if x =? u8 c then s else p_char)
  end.
Definition strrchr (m : mem) (s : option Z) (c : Z) : outcome (option Z) :=
  match s with
  | None => Ok None
  | Some s => try! p := strrchr_loop (S (length m)) m s c s in Ok (Some p)
  end.

(** The result is the token, the new value of [*temp_str] and the memory. *)
Definition myStrtok_origin (m : mem) (str_arr : option Z) (delimiters : Z) (temp_str : option Z)
    : outcome (option Z * option Z * mem) :=
  match (match str_arr with None => temp_str | Some _ => str_arr end) with
  | None => Fault NullDeref
  | Some p =>
      try! n := strspn m p delimiters in
      try! c := rd m (p + n) in
      if c =? 0 then Ok (None, temp_str, m)
      else
        try! q := strpbrk m (p + n) delimiters in
        match q with
        | None => try! t := strchr m (Some (p + n)) 0 in Ok (Some (p + n), t, m)
        | Some e => try! m := wr m e 0 in Ok (Some (p + n), Some (e + 1), m)
        end
  end.
(** [strtok]: the static variable [last] is the second component of the state. *)
Definition strtok (str_arr : option Z) (delimiters : Z) : M (mem * option Z) (option Z) := fun st =>
  try! r := myStrtok_origin (fst st) str_arr delimiters (snd st) in
  Ok (fst (fst r), (snd r, snd (fst r))).

(** ** Strings in memory *)


(** The string [s] (without its end mark) is at [p]. *)
Definition cstr (m : mem) (p : Z) (s : list Z) : Prop :=
  exists pre post, m = pre ++ s ++ 0 :: post /\ p = len pre /\ Forall (fun b => b <> 0) s.

Lemma rd_at {A} (pre post : list A) x i : i = len pre -> rd (pre ++ x :: post) i = Ok x.
Proof. intros ->. apply rd_lookup; [lia|]. rewrite Nat2Z.id. by apply list_lookup_middle. Qed.
Lemma wr_at {A} (pre post : list A) x y i : i = len pre -> wr (pre ++ x :: post) i y = Ok (pre ++ y :: post).
Proof.
  intros ->. rewrite wr_in_range by (rewrite length_app; cbn; lia). rewrite Nat2Z.id.
  by rewrite insert_app_r_alt, Nat.sub_diag by lia.
Qed.

(** One round of a scan: the character under the pointer, and the string with
    that character moved to the part already read. *)
Lemma scan_char (pre : list Z) x s post p :
  p = len pre -> rd (pre ++ (x :: s) ++ 0 :: post) p = Ok x.
Proof. intros ->. by apply rd_at. Qed.
Lemma scan_end (pre post : list Z) p : p = len pre -> rd (pre ++ [] ++ 0 :: post) p = Ok 0.
Proof. intros ->. by apply rd_at. Qed.
Lemma scan_step (pre : list Z) x s post : pre ++ (x :: s) ++ 0 :: post = (pre ++ [x]) ++ s ++ 0 :: post.
Proof. by rewrite <-app_assoc. Qed.
Lemma len_snoc {A} (l : list A) x : len (l ++ [x]) = len l + 1.
Proof. rewrite length_app. cbn. lia. Qed.

(** Fuel: what is left of the region is longer than what is left of the string. *)
Lemma cstr_fuel m p s : cstr m p s -> (length s < S (length m))%nat.
Proof. intros (pre & post & -> & _). rewrite !length_app. cbn. lia. Qed.

Lemma cstr_byte_ne x (s : list Z) : Forall (fun b => b <> 0) (x :: s) -> (x =? 0) = false.
Proof. intros [Hx _]%Forall_cons. by apply Z.eqb_neq. Qed.

Lemma strlen_loop_spec s : forall fuel pre post p i,
  p + i = len pre -> (length s < fuel)%nat -> Forall (fun b => b <> 0) s ->
  strlen_loop fuel (pre ++ s ++ 0 :: post) p i = Ok (i + len s).
Proof.
  induction s as [|x s IH]; intros [|fuel] pre post p i Hp Hf Hs; cbn [length] in Hf; try lia; cbn [strlen_loop].
  - rewrite scan_end by lia. cbn. f_equal. lia.
  - rewrite scan_char by lia. cbn [obind]. rewrite (cstr_byte_ne _ _ Hs). rewrite scan_step.
    apply Forall_cons in Hs as [_ Hs]. rewrite IH; [|rewrite len_snoc; lia|lia|done]. f_equal. cbn. lia.
Qed.

Lemma strlen_spec m p s : cstr m p s -> strlen m p = Ok (len s).
Proof.
  intros Hc. pose proof (cstr_fuel _ _ _ Hc) as Hf. destruct Hc as (pre & post & -> & -> & Hs).
  unfold strlen. by rewrite strlen_loop_spec; [|lia|done|done].
Qed.

(** ** Copies *)

Lemma memcpy_lookup n : forall (m : mem) (d s : nat),
  (d + n <= length m)%nat -> (s + n <= length m)%nat -> (d + n <= s \/ s + n <= d)%nat ->
  exists m', memcpy m (Z.of_nat d) (Z.of_nat s) n = Ok m' /\ length m' = length m
    /\ forall k, m' !! k = if decide (d <= k < d + n)%nat then m !! (s + (k - d))%nat else m !! k.
Proof.
  induction n as [|n IH]; intros m d s Hd Hs Hdis; cbn [memcpy].
  - exists m. split_and!; [done..|]. intros k. by rewrite decide_False by lia.
  - destruct (rd_in_range m (Z.of_nat s)) as (b & -> & Hb); [lia|]. cbn [obind]. rewrite Nat2Z.id in Hb.
    rewrite wr_in_range by lia. cbn [obind]. rewrite Nat2Z.id.
    replace (Z.of_nat d + 1) with (Z.of_nat (S d)) by lia. replace (Z.of_nat s + 1) with (Z.of_nat (S s)) by lia.
    destruct (IH (<[d := b]> m) (S d) (S s)) as (m' & E & El & Hk); [rewrite ?length_insert; lia..|].
    exists m'. split_and!; [done|by rewrite El, length_insert|]. intros k. rewrite Hk.
    destruct (decide (k = d)) as [->|Hkd].
    + rewrite decide_False, decide_True by lia. rewrite Nat.sub_diag, Nat.add_0_r, Hb.
      apply list_lookup_insert_eq. lia.
    + destruct (decide (S d <= k < S d + n)%nat).
      * rewrite decide_True by lia. rewrite list_lookup_insert_ne by lia. f_equal. lia.
      * rewrite decide_False by lia. by rewrite list_lookup_insert_ne.
Qed.

Lemma splice_lookup {A} (m l r : list A) (d : nat) :
  splice m (Z.of_nat d) l = Ok r ->
  forall k, r !! k = if decide (d <= k < d + length l)%nat then l !! (k - d)%nat else m !! k.
Proof.
  unfold splice. destruct (_ && _) eqn:E; [|done]. intros [= <-] k. rewrite Nat2Z.id.
  assert (d + length l <= length m)%nat by lia.
  destruct (decide (d <= k < d + length l)%nat).
  - rewrite lookup_app_r by (rewrite length_take; lia). rewrite length_take.
    rewrite lookup_app_l by lia. f_equal. lia.
  - destruct (decide (k < d)%nat).
    + rewrite lookup_app_l by (rewrite length_take; lia). by rewrite lookup_take_lt by lia.
    + rewrite lookup_app_r by (rewrite length_take; lia). rewrite length_take, lookup_app_r by lia.
      rewrite lookup_drop. f_equal. lia.
Qed.

(** A copy out of a region that the copy does not write is a [splice]. *)
Lemma memcpy_spec (n : nat) m dest src l :
  slice m src (Z.of_nat n) = Ok l -> 0 <= dest -> dest + Z.of_nat n <= len m ->
  dest + Z.of_nat n <= src \/ src + Z.of_nat n <= dest ->
  memcpy m dest src n = splice m dest l.
Proof.
  intros Hl Hd Hn Hdis. pose proof (slice_length _ _ _ _ Hl) as El. rewrite Nat2Z.id in El.
  unfold slice in Hl. destruct (_ && _) eqn:E in Hl; [|done]. injection Hl as <-.
  destruct (memcpy_lookup n m (Z.to_nat dest) (Z.to_nat src)) as (m' & E' & Em & Hk); [lia..|].
  rewrite !Z2Nat.id in E' by lia. rewrite E'.
  destruct (splice m dest _) as [r|] eqn:Es; [|by rewrite splice_ok in Es by (rewrite ?El; lia)].
  f_equal. apply list_eq. intros k. rewrite Hk.
  rewrite <-(Z2Nat.id dest) in Es by done. rewrite (splice_lookup _ _ _ _ Es), El.
  destruct (decide _); [|done]. rewrite lookup_take_lt, lookup_drop by lia. f_equal; lia.
Qed.

Lemma memset_spec n : forall pre (old : list Z) post v,
  length old = n ->
  memset (pre ++ old ++ post) (len pre) v n = Ok (pre ++ replicate n (u8 v) ++ post).
Proof.
  induction n as [|n IH]; intros pre old post v Hl; cbn [memset].
  - by destruct old.
  - destruct old as [|x old]; [done|]. cbn [app]. rewrite wr_at by done. cbn [obind].
    replace (len pre + 1) with (len (pre ++ [u8 v])) by (rewrite len_snoc; lia).
    replace (pre ++ u8 v :: old ++ post) with ((pre ++ [u8 v]) ++ old ++ post) by by rewrite <-app_assoc.
    rewrite IH by (cbn in Hl; lia). cbn. by rewrite <-app_assoc.
Qed.

(** ** Comparison *)

Lemma strcmp_loop_spec s1 : forall s2 fuel m pre1 post1 pre2 post2 p1 p2,
  m = pre1 ++ s1 ++ 0 :: post1 -> m = pre2 ++ s2 ++ 0 :: post2 ->
  p1 = len pre1 -> p2 = len pre2 -> (length s1 < fuel)%nat ->
  Forall (fun b => b <> 0) s1 -> Forall (fun b => b <> 0) s2 ->
  exists q1 q2 c1 c2, strcmp_loop fuel m p1 p2 = Ok (q1, q2) /\ rd m q1 = Ok c1 /\ rd m q2 = Ok c2
    /\ (c1 = 0 /\ c2 = 0 <-> s1 = s2) /\ (c1 = 0 <-> s1 `prefix_of` s2).
Proof.
  induction s1 as [|x s1 IH]; intros s2 [|fuel] m pre1 post1 pre2 post2 p1 p2 E1 E2 H1 H2 Hf Hs1 Hs2;
    cbn [length] in Hf; try lia; cbn [strcmp_loop].
  - assert (rd m p1 = Ok 0) as R1 by (rewrite E1; by apply scan_end).
    assert (exists c2, rd m p2 = Ok c2 /\ (c2 = 0 <-> s2 = [])) as (c2 & R2 & Hc2).
    { rewrite E2. destruct s2 as [|y s2]; [exists 0; split; [by apply scan_end|done]|].
      exists y. split; [by apply scan_char|]. apply Forall_cons in Hs2 as [? _]. done. }
    rewrite R1. cbn. exists p1, p2, 0, c2. split_and!; try done.
    + rewrite Hc2. naive_solver.
    + split; [|done]. intros _. apply prefix_nil.
  - assert (rd m p1 = Ok x) as R1 by (rewrite E1; by apply scan_char).
    pose proof (cstr_byte_ne _ _ Hs1) as Hx. apply Forall_cons in Hs1 as [Hx0 Hs1].
    rewrite R1. cbn [obind]. rewrite Hx. destruct s2 as [|y s2].
    + assert (rd m p2 = Ok 0) as R2 by (rewrite E2; by apply scan_end). rewrite R2. cbn.
      exists p1, p2, x, 0. split_and!; try done; [naive_solver|]. split; [done|]. by intros ?%prefix_nil_not.
    + assert (rd m p2 = Ok y) as R2 by (rewrite E2; by apply scan_char). rewrite R2. cbn [obind].
      rewrite (cstr_byte_ne _ _ Hs2). apply Forall_cons in Hs2 as [Hy0 Hs2].
      destruct (Z.eqb_spec x y) as [->|Hne].
      * destruct (IH s2 fuel m (pre1 ++ [y]) post1 (pre2 ++ [y]) post2 (p1 + 1) (p2 + 1))
          as (q1 & q2 & c1 & c2 & E & Q1 & Q2 & H3 & H4); rewrite ?len_snoc; try lia; try done.
        { by rewrite E1, scan_step. } { by rewrite E2, scan_step. }
        exists q1, q2, c1, c2. split_and!; try done.
        -- rewrite H3. naive_solver.
        -- rewrite H4. split; [apply prefix_cons|by apply prefix_cons_inv_2].
      * exists p1, p2, x, y. split_and!; try done; [naive_solver|]. split; [done|].
        by intros ?%prefix_cons_inv_1.
Qed.

Lemma strcmp_spec m p1 p2 s1 s2 :
  cstr m p1 s1 -> cstr m p2 s2 ->
  strcmp m p1 p2 = Ok (if decide (s1 = s2) then 0 else if decide (s1 `prefix_of` s2) then -1 else 1).
Proof.
  intros H1 H2. pose proof (cstr_fuel _ _ _ H1) as Hf.
  destruct H1 as (pre1 & post1 & E1 & E1' & Hs1), H2 as (pre2 & post2 & E2 & E2' & Hs2). unfold strcmp.
  destruct (strcmp_loop_spec s1 s2 (S (length m)) m pre1 post1 pre2 post2 p1 p2)
    as (q1 & q2 & c1 & c2 & -> & R1 & R2 & H3 & H4); try done.
  cbn [obind fst snd]. rewrite R1. cbn [obind]. destruct (Z.eqb_spec c1 0) as [->|Hc1].
  - assert (s1 `prefix_of` s2) as Hp by by apply H4. rewrite R2. cbn [obind].
    destruct (Z.eqb_spec c2 0) as [->|Hc2].
    + by rewrite decide_True by by apply H3.
    + rewrite decide_False by (intros E; apply H3 in E as [_ E]; done). by rewrite decide_True.
  - rewrite decide_False by (intros E; apply H3 in E as [E _]; done).
    by rewrite decide_False by (intros E; apply H4 in E; done).
Qed.

(** [strcpy] copies the string with its end mark. *)
Lemma strcpy_memcpy s : forall fuel m dest src,
  (forall i c, (s ++ [0]) !! i = Some c -> rd m (src + Z.of_nat i) = Ok c) ->
  Forall (fun b => b <> 0) s -> (length s < fuel)%nat ->
  0 <= dest -> dest + len s + 1 <= len m -> dest + len s + 1 <= src \/ src + len s + 1 <= dest ->
  strcpy_loop fuel m dest src = memcpy m dest src (S (length s)).
Proof.
  induction s as [|x s IH]; intros [|fuel] m dest src Hm Hs Hf Hd Hl Hdis; cbn [length] in *; try lia;
    cbn [strcpy_loop memcpy].
  - pose proof (Hm 0%nat 0 eq_refl) as R. rewrite Z.add_0_r in R. rewrite R. cbn. by destruct (wr m dest 0).
  - pose proof (Hm 0%nat x eq_refl) as R. rewrite Z.add_0_r in R. rewrite R. cbn [obind].
    rewrite (cstr_byte_ne _ _ Hs). apply Forall_cons in Hs as [_ Hs].
    destruct (wr m dest x) as [m1|] eqn:W; [|done]. cbn [obind].
    assert (length m1 = length m) as El.
    { rewrite wr_in_range in W by lia. injection W as <-. apply length_insert. }
    apply IH; [|done|lia..].
    intros i c Hi. rewrite (rd_wr_ne _ _ _ _ _ W).
    + replace (src + 1 + Z.of_nat i) with (src + Z.of_nat (S i)) by lia. by apply Hm.
    + apply lookup_lt_Some in Hi. rewrite length_app in Hi. cbn in Hi. lia.
Qed.

Lemma cstr_rd m p s : cstr m p s -> forall i c, (s ++ [0]) !! i = Some c -> rd m (p + Z.of_nat i) = Ok c.
Proof.
  intros (pre & post & -> & -> & _) i c Hi. apply rd_lookup; [lia|].
  replace (Z.to_nat (len pre + Z.of_nat i)) with (length pre + i)%nat by lia.
  rewrite lookup_app_r by lia. replace (length pre + i - length pre)%nat with i by lia.
  replace (s ++ 0 :: post) with ((s ++ [0]) ++ post) by by rewrite <-app_assoc.
  by apply lookup_app_l_Some.
Qed.

Lemma cstr_slice m p s : cstr m p s -> slice m p (len s + 1) = Ok (s ++ [0]).
Proof.
  intros (pre & post & -> & -> & _). rewrite slice_ok by (rewrite ?length_app; cbn; lia).
  rewrite Nat2Z.id, drop_app_length. f_equal. replace (Z.to_nat (len s + 1)) with (length (s ++ [0])) by (rewrite length_app; cbn; lia).
  replace (s ++ 0 :: post) with ((s ++ [0]) ++ post) by by rewrite <-app_assoc. by rewrite take_app_length.
Qed.

Lemma strcpy_spec m dest src s :
  cstr m src s -> 0 <= dest -> dest + len s + 1 <= len m ->
  dest + len s + 1 <= src \/ src + len s + 1 <= dest ->
  strcpy m dest src = splice m dest (s ++ [0]).
Proof.
  intros Hc Hd Hl Hdis. unfold strcpy.
  rewrite (strcpy_memcpy s); [|by apply cstr_rd|by destruct Hc as (? & ? & _ & _ & ?)|by eapply cstr_fuel|lia..].
  apply memcpy_spec; [|lia..]. replace (Z.of_nat (S (length s))) with (len s + 1) by lia. by apply cstr_slice.
Qed.

(** ** [reverse] *)

Lemma reverse_loop_spec n : forall fuel mid pre post s i j,
  (length mid <= n)%nat -> s + i = len pre -> j = i + len mid - 1 -> (n < fuel)%nat ->
  reverse_loop fuel (pre ++ mid ++ post) s i j = Ok (pre ++ rev mid ++ post).
Proof.
  induction n as [n IH] using lt_wf_ind. intros [|fuel] mid pre post s i j Hn Hs Hj Hf; [lia|].
  cbn [reverse_loop]. destruct (Z.ltb_spec i j) as [Hij|Hij].
  - destruct mid as [|x mid]; [cbn in Hj; lia|]. destruct (exists_last (l := mid)) as (inner & y & ->);
      [intros ->; cbn in Hj; lia|].
    rewrite length_cons, length_app in Hn, Hj. cbn [length] in Hn, Hj.
    replace (pre ++ (x :: inner ++ [y]) ++ post) with (pre ++ x :: inner ++ y :: post)
      by (rewrite <-app_comm_cons, <-app_assoc; done).
    rewrite rd_at by lia. cbn [obind].
    replace (pre ++ x :: inner ++ y :: post) with ((pre ++ x :: inner) ++ y :: post) by by rewrite <-app_assoc.
    rewrite rd_at by (rewrite length_app; cbn; lia). cbn [obind].
    rewrite <-app_assoc, <-app_comm_cons. rewrite wr_at by lia. cbn [obind].
    replace (pre ++ y :: inner ++ y :: post) with ((pre ++ y :: inner) ++ y :: post) by by rewrite <-app_assoc.
    rewrite wr_at by (rewrite length_app; cbn; lia). cbn [obind].
    replace ((pre ++ y :: inner) ++ x :: post) with ((pre ++ [y]) ++ inner ++ (x :: post)) by by rewrite <-!app_assoc.
    rewrite (IH (length inner)); [|lia|lia|rewrite len_snoc; lia|lia|lia].
    f_equal. cbn. rewrite rev_app_distr. cbn. by rewrite <-!app_assoc.
  - destruct mid as [|x [|y mid]]; [done..|]. cbn [length] in Hj. lia.
Qed.

Lemma reverse_spec pre s post :
  Forall (fun b => b <> 0) s ->
  reverse (pre ++ s ++ 0 :: post) (len pre) = Ok (pre ++ rev s ++ 0 :: post).
Proof.
  intros Hs. unfold reverse. rewrite (strlen_spec _ _ s) by by exists pre, post. cbn [obind].
  apply (reverse_loop_spec (length s)); try lia. rewrite !length_app. cbn. lia.
Qed.

(** ** Numbers *)

(** The digits of [n], the last one first. *)
Fixpoint digits (fuel : nat) (base n : Z) : list Z :=
  match fuel with
  | O => []
  | S fuel' => n mod base :: (if n / base >? 0 then digits fuel' base (n / base) else [])
  end.
Definition value (base : Z) (ds : list Z) : Z := foldl (fun n d => n * base + d) 0 ds.

Lemma digits_loop_spec fuel base ch : forall n pre old post s i,
  1 < base -> (0 < fuel)%nat -> 0 <= n < base ^ Z.of_nat fuel -> s + i = len pre -> length old = length (digits fuel base n) ->
  digits_loop fuel base ch (pre ++ old ++ post) n s i
  = Ok (pre ++ map ch (digits fuel base n) ++ post, i + len old).
Proof.
  induction fuel as [|fuel IH]; intros n pre old post s i Hb Hf Hn Hs Hold; [lia|].
  cbn [digits_loop digits] in *. destruct old as [|x old]; [done|]. cbn [length] in Hold.
  cbn [app]. rewrite wr_at by lia. cbn [obind].
  rewrite Z.gtb_ltb in *. destruct (Z.ltb_spec 0 (n / base)) as [Hq|Hq].
  - replace (pre ++ ch (n mod base) :: old ++ post) with ((pre ++ [ch (n mod base)]) ++ old ++ post)
      by by rewrite <-app_assoc.
    rewrite IH.
    + cbn [map length]. rewrite <-!app_assoc. replace (i + 1 + len old) with (i + Z.of_nat (S (length old))) by lia. done.
    + done.
    + destruct fuel; [|lia]. rewrite Nat2Z.inj_succ, Z.pow_succ_r in Hn by lia.
      rewrite Z.div_small in Hq; cbn in *; lia.
    + split; [lia|]. apply Z.div_lt_upper_bound; [lia|].
      rewrite Nat2Z.inj_succ, Z.pow_succ_r in Hn by lia. lia.
    + rewrite len_snoc. lia.
    + lia.
  - by destruct old.
Qed.

Lemma foldl_snoc_value base ds d : value base (ds ++ [d]) = value base ds * base + d.
Proof. unfold value. by rewrite foldl_app. Qed.

Lemma value_digits fuel base : forall n,
  1 < base -> 0 <= n < base ^ Z.of_nat fuel -> value base (rev (digits fuel base n)) = n.
Proof.
  induction fuel as [|fuel IH]; intros n Hb Hn; [cbn in *; lia|].
  cbn [digits rev]. rewrite foldl_snoc_value.
  assert (n = base * (n / base) + n mod base) as Hdm by (apply Z.div_mod; lia).
  rewrite Nat2Z.inj_succ, Z.pow_succ_r in Hn by lia.
  rewrite Z.gtb_ltb. destruct (Z.ltb_spec 0 (n / base)) as [Hq|Hq].
  - rewrite IH; [by rewrite Z.mul_comm|lia|]. split; [lia|]. apply Z.div_lt_upper_bound; lia.
  - assert (n / base = 0) as Hq0 by (apply Z.le_antisymm; [done|]; apply Z.div_pos; lia).
    rewrite Hq0, Z.mul_0_r in Hdm. cbn. lia.
Qed.

Lemma digits_range fuel base : forall n, 1 < base -> Forall (fun d => 0 <= d < base) (digits fuel base n).
Proof.
  induction fuel as [|fuel IH]; intros n Hb; cbn [digits]; constructor.
  - apply Z.mod_pos_bound. lia.
  - by destruct (_ >? _); [apply IH|].
Qed.

(** The two conversions to text, on any buffer that has room for the digits and
    the end mark. *)
Lemma to_text_spec base ch pre old x post n :
  1 < base -> 0 <= n < 2 ^ 32 -> (forall d, 0 <= d < base -> ch d <> 0) ->
  length old = length (digits 32 base n) ->
  (try! r := digits_loop 32 base ch (pre ++ old ++ x :: post) n (len pre) 0 in
   try! m := wr (fst r) (len pre + snd r) 0 in
   reverse m (len pre))
  = Ok (pre ++ map ch (rev (digits 32 base n)) ++ 0 :: post).
Proof.
  intros Hb Hn Hch Hold. assert (2 ^ 32 <= base ^ 32) by (apply Z.pow_le_mono_l; lia).
  rewrite digits_loop_spec by (try done; lia). cbn [obind fst snd].
  rewrite app_assoc, wr_at by (rewrite length_app, length_map; lia). cbn [obind].
  rewrite <-app_assoc, reverse_spec; [by rewrite map_rev|].
  apply Forall_map. eapply Forall_impl; [by apply digits_range|]. apply Hch.
Qed.

Lemma itoa_spec pre old x post n :
  0 <= n < 2 ^ 32 -> length old = length (digits 32 10 n) ->
  itoa (pre ++ old ++ x :: post) n (len pre) = Ok (pre ++ map dec_char (rev (digits 32 10 n)) ++ 0 :: post).
Proof. intros Hn Hold. apply to_text_spec; [lia|done| |done]. intros d Hd. unfold dec_char, digit_0. lia. Qed.

Lemma itohex_spec pre old x post n :
  0 <= n < 2 ^ 32 -> length old = length (digits 32 16 n) ->
  itohex (pre ++ old ++ x :: post) n (len pre) = Ok (pre ++ map hex_char (rev (digits 32 16 n)) ++ 0 :: post).
Proof.
  intros Hn Hold. apply to_text_spec; [lia|done| |done]. intros d Hd.
  unfold hex_char, digit_0, char_a. destruct (_ <? _); lia.
Qed.

(** Parsing stops at the first character that is no digit. *)
Lemma parse_loop_spec base ok val s : forall fuel pre t post p n,
  p = len pre -> (length s < fuel)%nat -> Forall (fun c => ok c = true) s -> ok t = false ->
  parse_loop fuel base ok val (pre ++ s ++ t :: post) p n
  = Ok (foldl (fun n c => i32 (n * base + val c)) n s).
Proof.
  induction s as [|x s IH]; intros [|fuel] pre t post p n Hp Hf Hs Ht; cbn [length] in Hf; try lia; cbn [parse_loop].
  - cbn [app]. rewrite rd_at by lia. cbn [obind]. by rewrite Ht.
  - cbn [app]. rewrite rd_at by lia. cbn [obind]. apply Forall_cons in Hs as [-> Hs].
    replace (pre ++ x :: s ++ t :: post) with ((pre ++ [x]) ++ s ++ t :: post) by by rewrite <-app_assoc.
    rewrite IH; [done|rewrite len_snoc; lia|lia|done..].
Qed.

(** Reduction modulo 2^32 commutes with the accumulation. *)
Lemma u32_i32 z : u32 (i32 z) = u32 z.
Proof.
  unfold u32, i32. rewrite Zminus_mod, Zmod_mod, <-Zminus_mod. f_equal. lia.
Qed.
Lemma i32_u32 z : i32 (u32 z) = i32 z.
Proof. unfold u32, i32. by rewrite Zplus_mod_idemp_l. Qed.
Lemma i32_range z : - 2 ^ 31 <= i32 z < 2 ^ 31.
Proof. unfold i32. pose proof (Z.mod_pos_bound (z + 2 ^ 31) (2 ^ 32)). lia. Qed.
Lemma foldl_i32 base s : forall n n', u32 n = u32 n' ->
  u32 (foldl (fun n d => i32 (n * base + d)) n s) = u32 (foldl (fun n d => n * base + d) n' s).
Proof.
  induction s as [|x s IH]; intros n n' E; cbn [foldl]; [done|]. apply IH. rewrite u32_i32.
  unfold u32 in *. rewrite Z.add_mod, Z.mul_mod, E, <-Z.mul_mod, <-Z.add_mod by lia. done.
Qed.
Lemma foldl_map {A B C} (f : C -> B -> C) (g : A -> B) l c : foldl f c (map g l) = foldl (fun c a => f c (g a)) c l.
Proof. revert c. induction l; intros c; cbn; auto. Qed.

Lemma foldl_ext_in {A B} (f g : B -> A -> B) (l : list A) b :
  (forall a b, a ∈ l -> f b a = g b a) -> foldl f b l = foldl g b l.
Proof.
  revert b. induction l as [|x l IH]; intros b H; cbn; [done|]. rewrite H by set_solver. apply IH. set_solver.
Qed.

Lemma parse_digits base ok val ch pre post n :
  1 < base -> 0 <= n < 2 ^ 32 -> (forall d, 0 <= d < base -> ok (ch d) = true /\ val (ch d) = d) -> ok 0 = false ->
  let m := pre ++ map ch (rev (digits 32 base n)) ++ 0 :: post in
  exists r, parse_loop (S (length m)) base ok val m (len pre) 0 = Ok r /\ u32 r = n.
Proof.
  intros Hb Hn Hch H0 m. assert (2 ^ 32 <= base ^ 32) by (apply Z.pow_le_mono_l; lia).
  assert (Forall (fun d => 0 <= d < base) (rev (digits 32 base n))) as Hr by (apply Forall_rev, digits_range; lia).
  eexists. split.
  - apply parse_loop_spec; [done| | |done].
    + subst m. rewrite !length_app. lia.
    + apply Forall_map. eapply Forall_impl; [exact Hr|]. intros d Hd. by apply Hch.
  - rewrite foldl_map, (foldl_ext_in _ (fun n d => i32 (n * base + d))).
    + rewrite (foldl_i32 base _ 0 0) by done. change (foldl _ 0 _) with (value base (rev (digits 32 base n))).
      rewrite value_digits by lia. unfold u32. by rewrite Z.mod_small by lia.
    + intros d b Hd. rewrite Forall_forall in Hr. by rewrite (proj2 (Hch d (Hr d Hd))).
Qed.

(** ** Searching *)

(** The bit of character [c] in the map of [strpbrk]. *)
Definition map_bit (map : list Z) (c : Z) : bool :=
  Z.testbit (default 0 (map !! Z.to_nat (Z.shiftr c 3))) (Z.land c 7).

Lemma land_shiftl_testbit b k : 0 <= k -> (Z.land b (Z.shiftl 1 k) =? 0) = negb (Z.testbit b k).
Proof.
  intros Hk. destruct (Z.testbit b k) eqn:E; cbn [negb].
  - apply Z.eqb_neq. intros H. apply (f_equal (fun z => Z.testbit z k)) in H.
    rewrite Z.land_spec, Z.shiftl_spec, Z.sub_diag, E, Z.bits_0 in H by lia. done.
  - apply Z.eqb_eq. apply Z.bits_inj'. intros n Hn. rewrite Z.land_spec, Z.bits_0.
    destruct (decide (n = k)) as [->|Hne]; [by rewrite E|].
    rewrite Z.shiftl_spec by lia. destruct (Z.ltb_spec n k).
    + by rewrite (Z.testbit_neg_r 1), andb_false_r by lia.
    + rewrite (Z.bits_above_log2 1), andb_false_r by (cbn; lia). done.
Qed.

Lemma byte_index c : 0 <= c < 256 -> 0 <= Z.shiftr c 3 < 32 /\ 0 <= Z.land c 7 < 8.
Proof.
  intros Hc. rewrite Z.shiftr_div_pow2 by lia. change 7 with (Z.ones 3). rewrite Z.land_ones by lia.
  change (2 ^ 3) with 8. pose proof (Z.mod_pos_bound c 8). split; [|lia].
  split; [apply Z.div_pos; lia|apply Z.div_lt_upper_bound; lia].
Qed.

(** Two characters with the same byte and bit are the same. *)
Lemma byte_index_inj c d : 0 <= c -> 0 <= d -> Z.shiftr c 3 = Z.shiftr d 3 -> Z.land c 7 = Z.land d 7 -> c = d.
Proof.
  intros Hc Hd. rewrite !Z.shiftr_div_pow2 by lia. change 7 with (Z.ones 3). rewrite !Z.land_ones by lia.
  intros H1 H2. rewrite (Z.div_mod c (2 ^ 3)), (Z.div_mod d (2 ^ 3)) by lia. lia.
Qed.

(** One control character is added to the map. *)
Lemma map_set_bit map c b :
  0 <= c < 256 -> length map = 32%nat -> map !! Z.to_nat (Z.shiftr c 3) = Some b -> 0 <= b < 256 ->
  let map' := <[Z.to_nat (Z.shiftr c 3) := u8 (Z.lor b (Z.shiftl 1 (Z.land c 7)))]> map in
  forall d, 0 <= d < 256 -> map_bit map' d = map_bit map d || (d =? c).
Proof.
  intros Hc Hl Hb Hbr map' d Hd. destruct (byte_index c Hc) as [Hi Hk], (byte_index d Hd) as [Hi' Hk'].
  unfold map_bit, map'. destruct (decide (Z.shiftr d 3 = Z.shiftr c 3)) as [E|E].
  - rewrite E, list_lookup_insert_eq by lia. rewrite Hb. cbn [from_option]. unfold id.
    unfold u8. rewrite <-Z.land_ones, Z.land_spec, Z.ones_spec_low, andb_true_r by lia.
    rewrite Z.lor_spec, Z.shiftl_spec by lia. f_equal.
    destruct (Z.eqb_spec d c) as [->|Hne]; [by rewrite Z.sub_diag|].
    destruct (decide (Z.land d 7 = Z.land c 7)) as [E'|E']; [exfalso; apply Hne, byte_index_inj; lia|].
    destruct (decide (Z.land d 7 < Z.land c 7)); [apply Z.testbit_neg_r; lia|].
    apply Z.bits_above_log2; cbn; lia.
  - rewrite list_lookup_insert_ne by lia. destruct (Z.eqb_spec d c); [congruence|]. by rewrite orb_false_r.
Qed.

Lemma set_map_loop_spec ctl : forall fuel pre post p map,
  p = len pre -> (length ctl < fuel)%nat -> Forall (fun c => 0 < c < 256) ctl ->
  length map = 32%nat -> Forall (fun b => 0 <= b < 256) map ->
  exists map', set_map_loop fuel (pre ++ ctl ++ 0 :: post) p map = Ok map'
    /\ length map' = 32%nat
    /\ forall d, 0 <= d < 256 -> map_bit map' d = map_bit map d || bool_decide (d ∈ ctl).
Proof.
  induction ctl as [|c ctl IH]; intros [|fuel] pre post p map Hp Hf Hc Hl Hb; cbn [length] in Hf; try lia;
    cbn [set_map_loop].
  - rewrite scan_end by lia. cbn. exists map. split_and!; [done..|]. intros d Hd.
    rewrite bool_decide_false by set_solver. by rewrite orb_false_r.
  - rewrite scan_char by lia. cbn [obind]. apply Forall_cons in Hc as [Hc0 Hc].
    destruct (Z.eqb_spec c 0); [lia|]. destruct (byte_index c) as [Hi Hk]; [lia|].
    destruct (rd_in_range map (Z.shiftr c 3)) as (b & -> & Eb); [lia|]. cbn [obind].
    rewrite wr_in_range by lia. cbn [obind]. rewrite scan_step.
    assert (0 <= b < 256) as Hbb by (rewrite Forall_forall in Hb; by apply Hb, list_elem_of_lookup_2 with (Z.to_nat (Z.shiftr c 3))).
    destruct (IH fuel (pre ++ [c]) post (p + 1) (<[Z.to_nat (Z.shiftr c 3) := u8 (Z.lor b (Z.shiftl 1 (Z.land c 7)))]> map))
      as (map' & E & El & Hm).
    + rewrite len_snoc. lia.
    + lia.
    + done.
    + by rewrite length_insert.
    + apply Forall_insert; [done|]. unfold u8. apply Z.mod_pos_bound. lia.
    + exists map'. split_and!; [done..|]. intros d Hd. rewrite Hm, (map_set_bit map c b) by (done || lia).
      rewrite <-orb_assoc. f_equal. destruct (Z.eqb_spec d c) as [->|Hne]; cbn.
      * by rewrite bool_decide_true by set_solver.
      * apply bool_decide_ext. set_solver.
Qed.

(** The first character of [s] that satisfies the test. *)
Fixpoint index_of (f : Z -> bool) (s : list Z) : option nat :=
  match s with
  | [] => None
  | x :: r => if f x then Some 0%nat else S <$> index_of f r
  end.

Lemma search_map_loop_spec map (f : Z -> bool) s : forall fuel pre post p,
  length map = 32%nat -> (forall d, 0 <= d < 256 -> map_bit map d = f d) ->
  p = len pre -> (length s < fuel)%nat -> Forall (fun c => 0 < c < 256) s ->
  search_map_loop fuel (pre ++ s ++ 0 :: post) p map = Ok ((fun i => p + Z.of_nat i) <$> index_of f s).
Proof.
  intros fuel pre post p Hl Hm. revert fuel pre p.
  induction s as [|x s IH]; intros [|fuel] pre p Hp Hf Hs; cbn [length] in Hf; try lia; cbn [search_map_loop index_of].
  - by rewrite scan_end by lia.
  - rewrite scan_char by lia. cbn [obind]. apply Forall_cons in Hs as [Hx Hs].
    destruct (Z.eqb_spec x 0); [lia|]. destruct (byte_index x) as [Hi Hk]; [lia|].
    destruct (rd_in_range map (Z.shiftr x 3)) as (b & -> & Eb); [lia|]. cbn [obind].
    rewrite land_shiftl_testbit by lia. assert (Z.testbit b (Z.land x 7) = f x) as ->.
    { rewrite <-Hm by lia. unfold map_bit. by rewrite Eb. }
    destruct (f x); cbn [negb].
    + cbn. by rewrite Z.add_0_r.
    + rewrite scan_step, IH; [|rewrite len_snoc; lia|lia|done]. f_equal.
      destruct (index_of f s); cbn; [|done]. f_equal. lia.
Qed.

Lemma strpbrk_spec m p q s ctl :
  cstr m p s -> cstr m q ctl -> Forall (fun c => 0 < c < 256) s -> Forall (fun c => 0 < c < 256) ctl ->
  strpbrk m p q = Ok ((fun i => p + Z.of_nat i) <$> index_of (fun c => bool_decide (c ∈ ctl)) s).
Proof.
  intros Hs Hc Bs Bc. pose proof (cstr_fuel _ _ _ Hs) as F1. pose proof (cstr_fuel _ _ _ Hc) as F2.
  destruct Hs as (pre & post & E & -> & _), Hc as (pre' & post' & E' & -> & _). unfold strpbrk.
  destruct (set_map_loop_spec ctl (S (length m)) pre' post' (len pre') (replicate 32 0)) as (map & Em & El & Hm);
    [done|done|done|done|by apply Forall_replicate|].
  rewrite <-E' in Em. rewrite Em. cbn [obind]. rewrite E at 2.
  apply search_map_loop_spec; [done| |done|done|done].
  intros d Hd. rewrite Hm by done. unfold map_bit. destruct (byte_index d Hd) as [Hi _].
  rewrite lookup_replicate_2 by lia. by rewrite Z.testbit_0_l.
Qed.

Lemma accept_loop_spec c acc : forall fuel pre post a,
  c <> 0 -> a = len pre -> (length acc < fuel)%nat -> Forall (fun b => b <> 0) acc ->
  accept_loop fuel (pre ++ acc ++ 0 :: post) c a = Ok (if decide (c ∈ acc) then c else 0).
Proof.
  induction acc as [|x acc IH]; intros [|fuel] pre post a Hc Ha Hf Hacc; cbn [length] in Hf; try lia;
    cbn [accept_loop].
  - rewrite scan_end by lia. cbn. by rewrite decide_False by set_solver.
  - rewrite scan_char by lia. cbn [obind]. rewrite (cstr_byte_ne _ _ Hacc). apply Forall_cons in Hacc as [_ Hacc].
    destruct (Z.eqb_spec c x) as [->|Hne]; [by rewrite decide_True by set_solver|].
    rewrite scan_step, IH; [|done|rewrite len_snoc; lia|lia|done].
    destruct (decide (c ∈ acc)); [rewrite decide_True by set_solver; done|].
    by rewrite decide_False by set_solver.
Qed.

Definition span (f : Z -> bool) (s : list Z) : nat := default (length s) (index_of (fun c => negb (f c)) s).

Lemma span_cons f x s : span f (x :: s) = if f x then S (span f s) else 0%nat.
Proof. unfold span. cbn. destruct (f x); cbn; [|done]. by destruct (index_of _ s). Qed.
Lemma span_le f s : (span f s <= length s)%nat.
Proof. induction s as [|x s IH]; [done|]. rewrite span_cons. destruct (f x); cbn; lia. Qed.

Lemma strspn_loop_spec s acc q m : forall fuel pre post p n,
  m = pre ++ s ++ 0 :: post -> cstr m q acc -> p = len pre -> (length s < fuel)%nat ->
  Forall (fun b => b <> 0) s ->
  strspn_loop fuel m p q n = Ok (n + Z.of_nat (span (fun c => bool_decide (c ∈ acc)) s)).
Proof.
  induction s as [|x s IH]; intros [|fuel] pre post p n Em Hq Hp Hf Hs; cbn [length] in Hf; try lia;
    cbn [strspn_loop].
  - rewrite Em, scan_end by lia. cbn. f_equal. lia.
  - rewrite Em at 1. rewrite scan_char by lia. cbn [obind]. rewrite (cstr_byte_ne _ _ Hs).
    apply Forall_cons in Hs as [Hx Hs]. pose proof (cstr_fuel _ _ _ Hq) as Fq.
    destruct Hq as (pre' & post' & Em' & Hq' & Hacc). rewrite Em' at 2.
    rewrite accept_loop_spec by done. cbn [obind]. rewrite span_cons.
    destruct (decide (x ∈ acc)) as [Hin|Hin].
    + rewrite bool_decide_true by done. destruct (Z.eqb_spec x 0); [done|].
      rewrite (IH fuel (pre ++ [x]) post); [f_equal; lia|by rewrite Em, scan_step|by exists pre', post'|
        rewrite len_snoc; lia|lia|done].
    + rewrite bool_decide_false by done. cbn. f_equal. lia.
Qed.

Lemma strspn_spec m p q s acc :
  cstr m p s -> cstr m q acc ->
  strspn m p q = Ok (Z.of_nat (span (fun c => bool_decide (c ∈ acc)) s)).
Proof.
  intros Hs Hq. pose proof (cstr_fuel _ _ _ Hs) as Hf. destruct Hs as (pre & post & Em & -> & Hn).
  unfold strspn. by rewrite (strspn_loop_spec s acc q m _ pre post).
Qed.

Lemma strchr_loop_spec c s : forall fuel pre post p,
  p = len pre -> (length s < fuel)%nat -> Forall (fun b => b <> 0) s ->
  strchr_loop fuel (pre ++ s ++ 0 :: post) p c = Ok ((fun i => p + Z.of_nat i) <$> index_of (Z.eqb (u8 c)) s).
Proof.
  induction s as [|x s IH]; intros [|fuel] pre post p Hp Hf Hs; cbn [length] in Hf; try lia; cbn [strchr_loop index_of].
  - by rewrite scan_end by lia.
  - rewrite scan_char by lia. cbn [obind]. rewrite (cstr_byte_ne _ _ Hs). apply Forall_cons in Hs as [_ Hs].
    rewrite (Z.eqb_sym x). destruct (u8 c =? x); [cbn; by rewrite Z.add_0_r|].
    rewrite scan_step, IH; [|rewrite len_snoc; lia|lia|done]. f_equal.
    destruct (index_of _ s); cbn; [|done]. f_equal. lia.
Qed.

(** [strchr] finds the first occurrence.  The end mark is never found, unlike
    with the function of the C library. *)
Lemma strchr_spec m p s c :
  cstr m p s -> strchr m (Some p) c = Ok ((fun i => p + Z.of_nat i) <$> index_of (Z.eqb (u8 c)) s).
Proof.
  intros Hs. pose proof (cstr_fuel _ _ _ Hs) as Hf. destruct Hs as (pre & post & -> & -> & Hn).
  unfold strchr. by apply strchr_loop_spec.
Qed.

(** The last occurrence, or the beginning of the string. *)
Fixpoint last_index (f : Z -> bool) (s : list Z) (i d : nat) : nat :=
  match s with
  | [] => d
  | x :: r => last_index f r (S i) (if f x then i else d)
  end.
Lemma strrchr_loop_spec c s : forall fuel pre post p p0 i d,
  p = len pre -> p = p0 + Z.of_nat i -> (length s < fuel)%nat -> Forall (fun b => b <> 0) s ->
  strrchr_loop fuel (pre ++ s ++ 0 :: post) p c (p0 + Z.of_nat d)
  = Ok (p0 + Z.of_nat (last_index (Z.eqb (u8 c)) s i d)).
Proof.
  induction s as [|x s IH]; intros [|fuel] pre post p p0 i d Hp Hi Hf Hs; cbn [length] in Hf; try lia;
    cbn [strrchr_loop last_index].
  - by rewrite scan_end by lia.
  - rewrite scan_char by lia. cbn [obind]. rewrite (cstr_byte_ne _ _ Hs). apply Forall_cons in Hs as [_ Hs].
    rewrite scan_step, (Z.eqb_sym x). replace (if u8 c =? x then p else p0 + Z.of_nat d)
      with (p0 + Z.of_nat (if u8 c =? x then i else d)) by (destruct (_ =? _); lia).
    apply IH; [rewrite len_snoc; lia|lia|lia|done].
Qed.
Lemma strrchr_spec m p s c :
  cstr m p s -> strrchr m (Some p) c = Ok (Some (p + Z.of_nat (last_index (Z.eqb (u8 c)) s 0 0))).
Proof.
  intros Hs. pose proof (cstr_fuel _ _ _ Hs) as Hf. destruct Hs as (pre & post & -> & -> & Hn).
  unfold strrchr. replace (len pre) with (len pre + Z.of_nat 0) at 2 by lia.
  by rewrite (strrchr_loop_spec c s _ pre post (len pre) (len pre) 0 0) by (done || lia).
Qed.

(** The string at [p] from its character [k] on. *)
Lemma cstr_drop m p s k : (k <= length s)%nat -> cstr m p s -> cstr m (p + Z.of_nat k) (drop k s).
Proof.
  intros Hk (pre & post & -> & -> & Hs). exists (pre ++ take k s), post. split_and!.
  - rewrite <-app_assoc. by rewrite (app_assoc (take k s)), take_drop.
  - rewrite length_app, length_take. lia.
  - by apply Forall_drop.
Qed.

Lemma cstr_head m p s : cstr m p s -> rd m p = Ok (hd 0 s).
Proof.
  intros (pre & post & -> & -> & _). destruct s; [by apply scan_end|by apply scan_char].
Qed.

(** An end mark written into a string cuts it. *)
Lemma cstr_cut m p s e m' :
  cstr m p s -> (e < length s)%nat -> wr m (p + Z.of_nat e) 0 = Ok m' ->
  cstr m' p (take e s) /\ cstr m' (p + Z.of_nat e + 1) (drop (S e) s).
Proof.
  intros (pre & post & -> & -> & Hs) He. destruct (lookup_lt_is_Some_2 s e He) as [x Hx].
  rewrite <-(take_drop_middle s e x Hx) at 1. rewrite <-app_assoc. cbn [app].
  rewrite app_assoc, wr_at by (rewrite length_app, length_take; lia). intros [= <-]. split.
  - exists pre, (drop (S e) s ++ 0 :: post). split_and!; [by rewrite <-!app_assoc|done|by apply Forall_take].
  - exists ((pre ++ take e s) ++ [0]), post. split_and!; [by rewrite <-!app_assoc| |by apply Forall_drop].
    rewrite !length_app, length_take. cbn. lia.
Qed.

Lemma index_of_lt f s i : index_of f s = Some i -> (i < length s)%nat.
Proof.
  revert i. induction s as [|x s IH]; intros i; cbn; [done|]. destruct (f x); [intros [= <-]; lia|].
  destruct (index_of f s) as [j|]; cbn; [|done]. intros [= <-]. specialize (IH j eq_refl). lia.
Qed.

Lemma index_of_none f s : (forall c, c ∈ s -> f c = false) -> index_of f s = None.
Proof.
  induction s as [|x s IH]; intros H; cbn; [done|]. rewrite H by set_solver. rewrite IH; [done|]. set_solver.
Qed.

Section strtok.
Context (m : mem) (p q : Z) (s dl : list Z) (last : option Z).
Context (Hs : cstr m p s) (Hd : cstr m q dl).
Context (Bs : Forall (fun c => 0 < c < 256) s) (Bd : Forall (fun c => 0 < c < 256) dl).
Let is_delim c := bool_decide (c ∈ dl).
Let n := span is_delim s.

Lemma strtok_none : n = length s -> strtok (Some p) q (m, last) = Ok (None, (m, last)).
Proof using Hs Hd.
  intros En. unfold strtok, myStrtok_origin. cbn [fst snd].
  rewrite (strspn_spec m p q s dl Hs Hd). fold is_delim. fold n. cbn [obind].
  rewrite (cstr_head _ _ _ (cstr_drop m p s n (span_le _ _) Hs)). rewrite En, drop_all. done.
Qed.

Lemma strtok_some : (n < length s)%nat ->
  strtok (Some p) q (m, last) =
  match index_of is_delim (drop n s) with
  | None => Ok (Some (p + Z.of_nat n), (m, None))
  | Some e => try! m' := wr m (p + Z.of_nat n + Z.of_nat e) 0 in
              Ok (Some (p + Z.of_nat n), (m', Some (p + Z.of_nat n + Z.of_nat e + 1)))
  end.
Proof using Hs Hd Bs Bd.
  intros Hn. unfold strtok, myStrtok_origin. cbn [fst snd].
  rewrite (strspn_spec m p q s dl Hs Hd). fold is_delim. fold n. cbn [obind].
  pose proof (cstr_drop m p s n (span_le _ _) Hs) as Hr. rewrite (cstr_head _ _ _ Hr). cbn [obind].
  destruct (drop n s) as [|x r] eqn:Ed.
  { apply (f_equal length) in Ed. rewrite length_drop in Ed. cbn in Ed. lia. }
  assert (Forall (fun c => 0 < c < 256) (x :: r)) as Br by (rewrite <-Ed; by apply Forall_drop).
  cbn [hd]. destruct (Z.eqb_spec x 0) as [->|Hx]; [apply Forall_cons in Br; lia|].
  rewrite (strpbrk_spec _ _ _ _ _ Hr Hd Br Bd). fold is_delim. cbn [obind].
  destruct (index_of is_delim (x :: r)) as [e|] eqn:Ee; cbn [fmap option_fmap option_map].
  - by destruct (wr m _ 0).
  - rewrite (strchr_spec _ _ _ 0 Hr). cbn [obind]. 
    assert (index_of (Z.eqb (u8 0)) (x :: r) = None) as ->; [|done].
    apply index_of_none. intros c Hc. change (u8 0) with 0. destruct Hr as (? & ? & _ & _ & Hnz).
    rewrite Forall_forall in Hnz. apply Z.eqb_neq. intros <-. by apply (Hnz 0 Hc).
Qed.
End strtok.

(** ** Properties *)

(** C15: every 32-bit number survives [itoa] followed by [atoi], and [itohex]
    followed by [htoi], in any buffer with room for its digits. *)
Theorem number_roundtrip pre old x post old' x' post' n :
  0 <= n < 2 ^ 32 -> length old = length (digits 32 10 n) -> length old' = length (digits 32 16 n) ->
  (exists m, itoa (pre ++ old ++ x :: post) n (len pre) = Ok m /\ atoi m (len pre) = Ok n)
  /\ (exists m r, itohex (pre ++ old' ++ x' :: post') n (len pre) = Ok m
        /\ htoi m (len pre) = Ok r /\ u32 r = n).
Proof.
  intros Hn Hold Hold'. split.
  - rewrite (itoa_spec _ _ _ _ _ Hn Hold). eexists. split; [reflexivity|]. unfold atoi.
    destruct (parse_digits 10 is_dec (fun c => c - digit_0) dec_char pre post n) as (r & E & Hr);
      [lia|exact Hn| |reflexivity|].
    + intros d Hd. unfold is_dec, dec_char, digit_0, digit_9. lia.
    + rewrite E. cbn [obind]. by rewrite Hr.
  - rewrite (itohex_spec _ _ _ _ _ Hn Hold'). eexists.
    destruct (parse_digits 16 is_hex_char (fun c => if is_dec c then c - digit_0 else c - char_a + 10) hex_char pre post' n)
      as (r & E & Hr); [lia|exact Hn| |reflexivity|].
    + intros d Hd. unfold is_hex_char, is_dec, hex_char, digit_0, digit_9, char_a, char_f.
      destruct (Z.ltb_spec d 10); [split; [lia|]; rewrite (proj2 (andb_true_iff _ _)) by lia; lia|].
      split; [lia|]. rewrite (proj2 (andb_false_iff _ _)) by lia. lia.
    + exists r. split; [reflexivity|]. split; [exact E|exact Hr].
Qed.
Lemma number_roundtrip_witness :
  exists m, itoa ([9; 9] ++ [0; 0; 0] ++ 0 :: [7]) 234 2 = Ok m /\ atoi m 2 = Ok 234.
Proof.
  refine (proj1 (number_roundtrip [9; 9] [0; 0; 0] 0 [7] [0; 0] 0 [] 234 _ _ _));
    [lia|reflexivity|reflexivity].
Defined.

(** [atoh] takes the letter digits for 0 to 5: the text "1a" is read as 16,
    where [htoi] reads 26. *)
Theorem atoh_letters : atoh [49; 97; 0] 0 = Ok 16 /\ htoi [49; 97; 0] 0 = Ok 26.
Proof. split; vm_compute; reflexivity. Qed.

(** [strcpy] puts the string and its end mark at the destination, which
    holds the same string afterwards, and changes nothing else; [strcmp] then
    finds them equal.  (The regions do not overlap.) *)
Theorem strcpy_correct m dest src s m' :
  cstr m src s -> 0 <= dest -> dest + len s + 1 <= len m ->
  dest + len s + 1 <= src \/ src + len s + 1 <= dest -> strcpy m dest src = Ok m' ->
  cstr m' dest s /\ strlen m' dest = Ok (len s)
  /\ (forall j k, 0 <= k -> j + k <= dest \/ dest + len s + 1 <= j -> slice m' j k = slice m j k).
Proof.
  intros Hc Hd Hl Hdis E. rewrite (strcpy_spec m dest src s Hc Hd Hl Hdis) in E.
  assert (cstr m' dest s) as Hc'.
  { rewrite splice_ok in E by (rewrite ?length_app; cbn; lia). injection E as <-.
    exists (take (Z.to_nat dest) m), (drop (Z.to_nat dest + length (s ++ [0])) m). split_and!.
    - by rewrite <-!app_assoc.
    - rewrite length_take. lia.
    - by destruct Hc as (? & ? & _ & _ & ?). }
  split_and!; [done|by apply strlen_spec|]. intros j k Hk Hjk.
  apply (slice_splice_disj _ _ _ _ _ _ E); [done|]. rewrite length_app. cbn. lia.
Qed.
Lemma strcpy_correct_witness : strlen [104; 105; 0; 104; 105; 0; 1] 3 = Ok 2.
Proof.
  refine (proj1 (proj2 (strcpy_correct [104; 105; 0; 9; 9; 9; 1] 3 0 [104; 105] _ _ _ _ _ _)));
    [|lia|cbn; lia|cbn; lia|vm_compute; reflexivity].
  exists [], [9; 9; 9; 1]. split; [reflexivity|]. split; [reflexivity|]. repeat constructor; discriminate.
Defined.

(** [strcmp] is 0 exactly on equal strings, -1 when the first is a proper
    prefix of the second, and 1 otherwise (so it is no ordering: two different
    strings of the same length compare as 1 both ways). *)
Theorem strcmp_correct m p1 p2 s1 s2 :
  cstr m p1 s1 -> cstr m p2 s2 ->
  exists r, strcmp m p1 p2 = Ok r /\ (r = 0 <-> s1 = s2)
    /\ (r = -1 <-> s1 `prefix_of` s2 /\ s1 <> s2) /\ (r = 1 <-> ~ s1 `prefix_of` s2).
Proof.
  intros H1 H2. rewrite (strcmp_spec m p1 p2 s1 s2 H1 H2). eexists. split; [done|].
  destruct (decide (s1 = s2)) as [->|Hne]; [|destruct (decide (s1 `prefix_of` s2))]; split_and!;
    split; try done; try naive_solver.
Qed.
Lemma strcmp_correct_witness : exists r, strcmp [97; 0; 97; 98; 0] 0 2 = Ok r.
Proof.
  destruct (strcmp_correct [97; 0; 97; 98; 0] 0 2 [97] [97; 98]) as (r & E & _).
  - exists [], [97; 98; 0]. split; [reflexivity|]. split; [reflexivity|]. repeat constructor; discriminate.
  - exists [97; 0], []. split; [reflexivity|]. split; [reflexivity|]. repeat constructor; discriminate.
  - exists r. exact E.
Defined.

(** [strtok] on a string with a token: the token starts behind the leading
    delimiters; when a delimiter follows it, the end mark written there makes it
    a string of its own and the next call goes on with the rest.  When none
    follows, the saved pointer is NULL, and the next call dereferences it
    (instead of returning NULL). *)
Theorem strtok_correct m p q s dl last :
  let delim c := bool_decide (c ∈ dl) in
  let n := span delim s in
  cstr m p s -> cstr m q dl -> Forall (fun c => 0 < c < 256) s -> Forall (fun c => 0 < c < 256) dl ->
  (n < length s)%nat ->
  match index_of delim (drop n s) with
  | Some e => exists m', strtok (Some p) q (m, last) =
        Ok (Some (p + Z.of_nat n), (m', Some (p + Z.of_nat n + Z.of_nat e + 1)))
      /\ cstr m' (p + Z.of_nat n) (take e (drop n s))
      /\ cstr m' (p + Z.of_nat n + Z.of_nat e + 1) (drop (S e) (drop n s))
  | None => strtok (Some p) q (m, last) = Ok (Some (p + Z.of_nat n), (m, None))
      /\ cstr m (p + Z.of_nat n) (drop n s)
      /\ strtok None q (m, None) = Fault NullDeref
  end.
Proof.
  intros delim n Hs Hd Bs Bd Hn. rewrite (strtok_some m p q s dl last Hs Hd Bs Bd Hn).
  fold delim. fold n. pose proof (cstr_drop m p s n (span_le _ _) Hs) as Hr.
  destruct (index_of delim (drop n s)) as [e|] eqn:Ee; [|done].
  pose proof (index_of_lt _ _ _ Ee) as He.
  assert (exists m', wr m (p + Z.of_nat n + Z.of_nat e) 0 = Ok m') as [m' Ew].
  { rewrite wr_in_range; [eauto|]. destruct Hr as (pre & post & -> & -> & _). rewrite !length_app in *. cbn. lia. }
  rewrite Ew. exists m'. split; [done|]. by eapply cstr_cut.
Qed.
Lemma strtok_correct_witness : strtok None 4 ([47; 97; 98; 0; 47; 0], None) = Fault NullDeref.
Proof.
  assert (cstr [47; 97; 98; 0; 47; 0] 0 [47; 97; 98]) as H1.
  { exists [], [47; 0]. split; [reflexivity|]. split; [reflexivity|]. repeat constructor; discriminate. }
  assert (cstr [47; 97; 98; 0; 47; 0] 4 [47]) as H2.
  { exists [47; 97; 98; 0], []. split; [reflexivity|]. split; [reflexivity|]. repeat constructor; discriminate. }
  exact (proj2 (proj2 (strtok_correct [47; 97; 98; 0; 47; 0] 0 4 [47; 97; 98] [47] None H1 H2
    ltac:(repeat constructor; lia) ltac:(repeat constructor; lia) ltac:(vm_compute; lia)))).
Defined.
