(* ===== verification/SdBlock.v ===== *)
(** Writing a block to the card: Write_Single_Block.c of other/libepmon.

    The routines of the monitor ROM that it calls, at fixed addresses, are the
    interface [SdPort]; what went over the lines to the card is its history. *)

From S2P Require Import Prelude CString.

(** ** The interface *)

Inductive bus_event :=
| E_cmd (CMDIndex CMDArg ReaType CSLowRSV : Z)   (* a command *)
| E_clock (value : Z)                            (* flash_writeb_cmd *)
| E_byte (IOData : Z)                            (* SD_Write *)
| E_word (IOData : Z)                            (* SD_2Byte_Write *)
| E_read
| E_cs (value : Z).                              (* the chip select register *)

Class SdPort (P : Type) := {
  flash_writeb_cmd : Z -> P -> P;
  SD_2Byte_Write : Z -> P -> P;
  SD_Write : Z -> P -> P;
  SD_Read : P -> Z * P;
  SD_CMD_Write : Z -> Z -> Z -> Z -> P -> Z * P;
  set_cs : Z -> P -> P;
  bus : P -> list bus_event;
  clock_bus v p : bus (flash_writeb_cmd v p) = bus p ++ [E_clock v];
  word_bus v p : bus (SD_2Byte_Write v p) = bus p ++ [E_word v];
  byte_bus v p : bus (SD_Write v p) = bus p ++ [E_byte v];
  read_bus p : bus (snd (SD_Read p)) = bus p ++ [E_read];
  cmd_bus i a t c p : bus (snd (SD_CMD_Write i a t c p)) = bus p ++ [E_cmd i a t c];
  cs_bus v p : bus (set_cs v p) = bus p ++ [E_cs v];
  (* a card that writes a block to its memory is ready again at some time *)
  card_ready p : exists k, fst (SD_Read (Nat.iter k (fun p => snd (SD_Read p)) p)) = 0xffff
}.

Section block.
Context {P : Type} `{SP : SdPort P}.
Abbreviation Port := (M P).

(** At most [n] times, until the command is answered. *)
Fixpoint cmd_loop (n : nat) (ByteAddress : Z) : Port unit :=
  match n with
  | O => ret tt
  | S n' =>
      let! Response := (fun p => Ok (SD_CMD_Write 24 ByteAddress 1 1 p)) in
      if Response =? 0xff00 then ret tt else cmd_loop n' ByteAddress
  end.
Definition data_loop (WriteBuffer : mem) : Port unit :=
  for_range 256 0 (fun temp =>
    let! hi := lift (rd WriteBuffer (2 * temp)) in
    let! lo := lift (rd WriteBuffer (2 * temp + 1)) in
    modify (SD_2Byte_Write (Z.lor (Z.shiftl hi 8) lo))).
Fixpoint busy_loop (fuel : nat) : Port unit :=
  match fuel with
  | O => throw Diverges
  | S fuel' =>
      let! r := (fun p => Ok (SD_Read p)) in
      if r =? 0xffff then ret tt else busy_loop fuel'
  end.
Definition Write_Single_Block (fuel : nat) (ByteAddress : Z) (WriteBuffer : mem) : Port Z :=
  do! cmd_loop 10 ByteAddress;
  do! modify (flash_writeb_cmd 0xff);
  do! modify (SD_Write 0x00fe);
  do! data_loop WriteBuffer;
  do! modify (SD_2Byte_Write 0xffff);
  let! Response := (fun p => Ok (SD_Read p)) in
  do! busy_loop fuel;
  do! modify (set_cs 0xff);
  do! modify (flash_writeb_cmd 0xff);
  ret Response.

(** ** What the card sees *)

(** The words of a block, high byte first. *)
Fixpoint block_words (l : list Z) : list Z :=
  match l with a :: b :: r => Z.lor (Z.shiftl a 8) b :: block_words r | _ => [] end.
(** The bytes that the card takes from them. *)
Definition card_bytes (ws : list Z) : list Z := flat_map (fun w => [Z.shiftr w 8; Z.land w 255]) ws.

Lemma word_of_bytes a b : is_byte a -> is_byte b -> Z.shiftr (Z.lor (Z.shiftl a 8) b) 8 = a /\ Z.land (Z.lor (Z.shiftl a 8) b) 255 = b.
Proof.
  intros Ha Hb. unfold is_byte in *. assert (Z.lor (Z.shiftl a 8) b = a * 256 + b) as ->.
  { assert (Z.land (Z.shiftl a 8) b = 0) as H0.
    { apply Z.bits_inj'. intros n Hn. rewrite Z.land_spec, Z.bits_0. destruct (Z.ltb_spec n 8); [by rewrite Z.shiftl_spec_low by lia|].
      rewrite <-(Z.mod_small b (2 ^ 8)), Z.mod_pow2_bits_high by lia. apply andb_false_r. }
    rewrite <-(Z.add_nocarry_lor _ _ H0), Z.shiftl_mul_pow2 by lia. done. }
  rewrite Z.shiftr_div_pow2 by lia. change 255 with (Z.ones 8). rewrite Z.land_ones by lia. change (2 ^ 8) with 256. Z.div_mod_to_equations. lia.
Qed.
Lemma card_bytes_block k : forall l, length l = (2 * k)%nat -> Forall is_byte l -> card_bytes (block_words l) = l.
Proof.
  induction k as [|k IH]; intros l Hl Hb; [by destruct l|]. destruct l as [|a [|b l]]; try (cbn in Hl; lia).
  apply Forall_cons in Hb as [Ha Hb]. apply Forall_cons in Hb as [Hb Hl']. cbn [block_words]. unfold card_bytes in *. cbn [flat_map app].
  destruct (word_of_bytes a b Ha Hb) as [-> ->]. do 2 f_equal. apply IH; [cbn in Hl; lia|done].
Qed.

Lemma cmd_loop_bus n a : forall p, exists p' k, cmd_loop (S n) a p = Ok (tt, p') /\ (1 <= k <= S n)%nat /\ bus p' = bus p ++ replicate k (E_cmd 24 a 1 1).
Proof.
  induction n as [|n IH]; intros p; cbn [cmd_loop]; unfold bind; destruct (SD_CMD_Write 24 a 1 1 p) as [r p1] eqn:E;
    pose proof (cmd_bus 24 a 1 1 p) as Hb; rewrite E in Hb; cbn [snd] in Hb; destruct (r =? 0xff00);
    try (exists p1, 1%nat; split_and!; [done|lia..|done]).
  destruct (IH p1) as (p2 & k & E2 & Hk & Hb2). exists p2, (S k). split_and!; [exact E2|lia..|]. rewrite Hb2, Hb, <-app_assoc. done.
Qed.
Lemma data_loop_bus l p : length l = 512%nat -> exists p', data_loop l p = Ok (tt, p') /\ bus p' = bus p ++ map E_word (block_words l).
Proof.
  intros Hl. destruct (for_range_total (fun j q => bus q ++ map E_word (block_words (drop (Z.to_nat (2 * j)) l)) = bus p ++ map E_word (block_words l))
    (fun temp => let! hi := lift (rd l (2 * temp)) in let! lo := lift (rd l (2 * temp + 1)) in modify (SD_2Byte_Write (Z.lor (Z.shiftl hi 8) lo))) 256 0 p) as (p' & E & H').
  - done.
  - intros j q Hj Hq. destruct (drop (Z.to_nat (2 * j)) l) as [|a [|b r]] eqn:Ed;
      [apply (f_equal length) in Ed; rewrite length_drop in Ed; cbn in Ed; lia..|].
    assert (l = take (Z.to_nat (2 * j)) l ++ a :: b :: r) as El by (by rewrite <-Ed, take_drop).
    assert (length (take (Z.to_nat (2 * j)) l) = Z.to_nat (2 * j)) as Lt by (rewrite length_take; lia).
    assert (rd l (2 * j) = Ok a) as E1 by (rewrite El; apply rd_at; lia).
    assert (rd l (2 * j + 1) = Ok b) as E2.
    { rewrite El. replace (take (Z.to_nat (2 * j)) l ++ a :: b :: r) with ((take (Z.to_nat (2 * j)) l ++ [a]) ++ b :: r) by by rewrite <-app_assoc.
      apply rd_at. rewrite len_snoc. lia. }
    eexists. split; [unfold bind, lift; rewrite E1, E2; reflexivity|]. rewrite word_bus, <-Hq, <-app_assoc. cbn [app block_words map].
    replace (Z.to_nat (2 * (j + 1))) with (Z.to_nat (2 * j) + 2)%nat by lia. by rewrite <-drop_drop, Ed.
  - exists p'. split; [unfold data_loop; rewrite E; reflexivity|]. rewrite <-H'. change (Z.to_nat (2 * (0 + Z.of_nat 256))) with 512%nat. by rewrite drop_ge, app_nil_r by lia.
Qed.
Lemma busy_loop_bus k : forall p, fst (SD_Read (Nat.iter k (fun p => snd (SD_Read p)) p)) = 0xffff ->
  exists p' n, (forall fuel, (k < fuel)%nat -> busy_loop fuel p = Ok (tt, p')) /\ bus p' = bus p ++ replicate (S n) E_read.
Proof.
  induction k as [|k IH]; intros p Hk; destruct (SD_Read p) as [r p1] eqn:E; pose proof (read_bus p) as Hb; rewrite E in Hb; cbn [snd] in Hb.
  - cbn [Nat.iter nat_rect] in Hk. rewrite E in Hk. cbn [fst] in Hk. subst r. exists p1, 0%nat. split; [|done]. intros [|fuel] Hf; [lia|].
    cbn [busy_loop]. unfold bind. by rewrite E.
  - rewrite Nat.iter_succ_r, E in Hk. cbn [snd] in Hk. destruct (Z.eqb_spec r 0xffff) as [->|Hr].
    + exists p1, 0%nat. split; [|done]. intros [|fuel] Hf; [lia|]. cbn [busy_loop]. unfold bind. by rewrite E.
    + destruct (IH p1 Hk) as (p2 & n & E2 & Hb2). exists p2, (S n). split; [|by rewrite Hb2, Hb, <-app_assoc].
      intros [|fuel] Hf; [lia|]. cbn [busy_loop]. unfold bind. rewrite E. rewrite (proj2 (Z.eqb_neq _ _) Hr). apply E2. lia.
Qed.
End block.

(** ** The card *)

Definition is_half (w : Z) : Prop := 0 <= w < 2 ^ 16.

(** What a card waits for: a command; the token of the block for sector [n]; the
    words of that block, of which it has [ws]; the end of the programming. *)
Inductive phase := Idle | Commanded (n : Z) | Receiving (n : Z) (ws : list Z) | Programming.

(** The protocol of a card for the write of a block.  An idle card accepts the write
    command, and does so within ten tries; the start token, 256 words and a word of
    checksum follow; then the card programs its sector, is busy for less than
    [busy_bound] reads and is idle when it reads 0xffff. *)
Class SdCard (P : Type) `{SP : SdPort P} := {
  card_phase : P -> phase;
  sector : P -> Z -> list Z;
  busy_bound : nat;
  card_cmd n p : card_phase p = Idle ->
    card_phase (snd (SD_CMD_Write 24 n 1 1 p)) = (if fst (SD_CMD_Write 24 n 1 1 p) =? 0xff00 then Commanded n else Idle)
    /\ forall m, sector (snd (SD_CMD_Write 24 n 1 1 p)) m = sector p m;
  card_answers n p : card_phase p = Idle -> exists k, (k < 10)%nat
    /\ fst (SD_CMD_Write 24 n 1 1 (Nat.iter k (fun p => snd (SD_CMD_Write 24 n 1 1 p)) p)) = 0xff00;
  card_clock v p : card_phase (flash_writeb_cmd v p) = card_phase p /\ forall m, sector (flash_writeb_cmd v p) m = sector p m;
  card_token n p : card_phase p = Commanded n ->
    card_phase (SD_Write 0xfe p) = Receiving n [] /\ forall m, sector (SD_Write 0xfe p) m = sector p m;
  card_data n ws w p : card_phase p = Receiving n ws -> (length ws < 256)%nat ->
    card_phase (SD_2Byte_Write w p) = Receiving n (ws ++ [w]) /\ forall m, sector (SD_2Byte_Write w p) m = sector p m;
  card_checksum n ws w p : card_phase p = Receiving n ws -> length ws = 256%nat -> Forall is_half ws ->
    card_phase (SD_2Byte_Write w p) = Programming
    /\ forall m, sector (SD_2Byte_Write w p) m = if m =? n then card_bytes ws else sector p m;
  card_busy p : card_phase p = Programming ->
    card_phase (snd (SD_Read p)) = (if fst (SD_Read p) =? 0xffff then Idle else Programming) /\ forall m, sector (snd (SD_Read p)) m = sector p m;
  card_idle p : card_phase p = Idle -> card_phase (snd (SD_Read p)) = Idle /\ forall m, sector (snd (SD_Read p)) m = sector p m;
  card_done p : card_phase p = Programming \/ card_phase p = Idle ->
    exists k, (k < busy_bound)%nat /\ fst (SD_Read (Nat.iter k (fun p => snd (SD_Read p)) p)) = 0xffff;
  card_cs v p : card_phase (set_cs v p) = card_phase p /\ forall m, sector (set_cs v p) m = sector p m
}.

Section stores.
Context {P : Type} `{SC : SdCard P}.

Lemma cmd_loop_card n k : forall t p, card_phase p = Idle -> (k < t)%nat ->
  fst (SD_CMD_Write 24 n 1 1 (Nat.iter k (fun p => snd (SD_CMD_Write 24 n 1 1 p)) p)) = 0xff00 ->
  exists q, cmd_loop t n p = Ok (tt, q) /\ card_phase q = Commanded n /\ forall m, sector q m = sector p m.
Proof.
  induction k as [|k IH]; intros [|t] p Hp Ht Hk; try lia; cbn [cmd_loop]; unfold bind;
    destruct (card_cmd n p Hp) as [Hph Hs]; destruct (SD_CMD_Write 24 n 1 1 p) as [r q] eqn:E; cbn [fst snd] in Hph, Hs.
  - cbn [Nat.iter nat_rect] in Hk. rewrite E in Hk. cbn [fst] in Hk. subst r. by exists q.
  - rewrite Nat.iter_succ_r, E in Hk. cbn [snd] in Hk. destruct (Z.eqb_spec r 0xff00) as [->|Hr]; [by exists q|].
    destruct (IH t q Hph ltac:(lia) Hk) as (q' & E' & Hq' & Hs'). exists q'. split_and!; [done..|]. intros m. by rewrite Hs', Hs.
Qed.

Lemma block_words_snoc (l : list Z) a b : Nat.even (length l) = true -> block_words (l ++ [a; b]) = block_words l ++ [Z.lor (Z.shiftl a 8) b].
Proof.
  remember (length l) as n eqn:En. revert l En. induction (lt_wf n) as [n _ IH]. intros [|x [|y l]] En Hev.
  - done.
  - subst n. done.
  - cbn [app block_words]. subst n. cbn in Hev. rewrite (IH (length l)) by (done || cbn; lia). done.
Qed.
Lemma block_words_length k : forall l, length l = (2 * k)%nat -> length (block_words l) = k.
Proof.
  induction k as [|k IH]; intros l Hl; [by destruct l|]. destruct l as [|a [|b l]]; cbn in Hl; try lia. cbn. rewrite IH; lia.
Qed.

Lemma half_of_bytes a b : is_byte a -> is_byte b -> is_half (Z.lor (Z.shiftl a 8) b).
Proof.
  intros Ha Hb. destruct (word_of_bytes a b Ha Hb) as [H1 _]. unfold is_byte, is_half in *.
  rewrite Z.shiftr_div_pow2 in H1 by lia. assert (0 <= Z.lor (Z.shiftl a 8) b) by (apply Z.lor_nonneg; rewrite Z.shiftl_nonneg; lia).
  Z.div_mod_to_equations. lia.
Qed.
Lemma block_words_half k : forall l, length l = (2 * k)%nat -> Forall is_byte l -> Forall is_half (block_words l).
Proof.
  induction k as [|k IH]; intros l Hl Hb; [by destruct l|]. destruct l as [|a [|b l]]; cbn in Hl; try lia.
  apply Forall_cons in Hb as [Ha [Hb Hl']%Forall_cons]. cbn. constructor; [by apply half_of_bytes|]. apply IH; [lia|done].
Qed.

Lemma data_loop_card l n p : length l = 512%nat -> card_phase p = Receiving n [] ->
  exists q, data_loop l p = Ok (tt, q) /\ card_phase q = Receiving n (block_words l) /\ forall m, sector q m = sector p m.
Proof.
  intros Hl Hp. destruct (for_range_total (fun j q => card_phase q = Receiving n (block_words (take (Z.to_nat (2 * j)) l)) /\ forall m, sector q m = sector p m)
    (fun temp => let! hi := lift (rd l (2 * temp)) in let! lo := lift (rd l (2 * temp + 1)) in modify (SD_2Byte_Write (Z.lor (Z.shiftl hi 8) lo))) 256 0 p)
    as (q & E & Hq & Hs).
  - done.
  - intros j q Hj [Hq Hs]. change (0 + Z.of_nat 256) with 256 in Hj.
    destruct (rd_in_range l (2 * j)) as (a & Ea & La); [lia|]. destruct (rd_in_range l (2 * j + 1)) as (b & Eb & Lb); [lia|].
    assert (length (take (Z.to_nat (2 * j)) l) = (2 * Z.to_nat j)%nat) as Lt by (rewrite length_take; lia).
    destruct (card_data n _ (Z.lor (Z.shiftl a 8) b) q Hq) as [Hph Hse]; [rewrite (block_words_length (Z.to_nat j)); lia|].
    eexists. split; [unfold bind, lift; rewrite Ea, Eb; reflexivity|]. split; [|intros m; by rewrite Hse, Hs].
    rewrite Hph. f_equal. rewrite <-block_words_snoc by (rewrite Lt; apply Nat.even_spec; by exists (Z.to_nat j)). f_equal.
    replace (Z.to_nat (2 * (j + 1))) with (S (S (Z.to_nat (2 * j)))) by lia.
    replace (Z.to_nat (2 * j + 1)) with (S (Z.to_nat (2 * j))) in Lb by lia.
    rewrite (take_S_r _ _ _ Lb), (take_S_r _ _ _ La), <-app_assoc. done.
  - exists q. split; [unfold data_loop; rewrite E; reflexivity|]. change (Z.to_nat (2 * (0 + Z.of_nat 256))) with 512%nat in Hq. by rewrite take_ge in Hq by lia.
Qed.

Lemma read_card p : card_phase p = Programming \/ card_phase p = Idle ->
  (card_phase (snd (SD_Read p)) = Programming /\ fst (SD_Read p) <> 0xffff \/ card_phase (snd (SD_Read p)) = Idle)
  /\ forall m, sector (snd (SD_Read p)) m = sector p m.
Proof.
  intros [H|H]; [destruct (card_busy p H) as [-> ?]|destruct (card_idle p H) as [-> ?]]; (split; [|done]); [|by right].
  destruct (Z.eqb_spec (fst (SD_Read p)) 0xffff); auto.
Qed.
Lemma busy_loop_card k : forall fuel p, card_phase p = Programming \/ card_phase p = Idle -> (k < fuel)%nat ->
  fst (SD_Read (Nat.iter k (fun p => snd (SD_Read p)) p)) = 0xffff ->
  exists q, busy_loop fuel p = Ok (tt, q) /\ card_phase q = Idle /\ forall m, sector q m = sector p m.
Proof.
  induction k as [|k IH]; intros [|fuel] p Hp Hf Hk; try lia; cbn [busy_loop]; unfold bind;
    destruct (read_card p Hp) as [Hph Hs]; destruct (SD_Read p) as [r q] eqn:E; cbn [fst snd] in Hph, Hs.
  - cbn [Nat.iter nat_rect] in Hk. rewrite E in Hk. cbn [fst] in Hk. subst r. exists q. split_and!; [done| |done]. by destruct Hph as [[_ []]|].
  - rewrite Nat.iter_succ_r, E in Hk. cbn [snd] in Hk. destruct (Z.eqb_spec r 0xffff) as [->|Hr].
    + exists q. split_and!; [done| |done]. by destruct Hph as [[_ []]|].
    + destruct (IH fuel q ltac:(tauto) ltac:(lia) Hk) as (q' & E' & Hq' & Hs'). exists q'. split_and!; [done..|]. intros m. by rewrite Hs', Hs.
Qed.

(** The card has the block in its sector and is idle again. *)
Lemma write_single_block_stores fuel n b p :
  card_phase p = Idle -> length b = 512%nat -> Forall is_byte b -> (busy_bound <= fuel)%nat ->
  exists r q, Write_Single_Block fuel n b p = Ok (r, q) /\ card_phase q = Idle /\ forall m, sector q m = if m =? n then b else sector p m.
Proof.
  intros Hp Hl Hb Hf. destruct (card_answers n p Hp) as (k & Hk & Ek).
  destruct (cmd_loop_card n k 10 p Hp Hk Ek) as (p1 & E1 & Hp1 & Hs1).
  destruct (card_clock 0xff p1) as [Hc Hsc]. rewrite Hp1 in Hc. destruct (card_token n _ Hc) as [Ht Hst]. set (p2 := SD_Write 0xfe _) in *.
  destruct (data_loop_card b n p2 Hl Ht) as (p3 & E3 & Hp3 & Hs3).
  destruct (card_checksum n _ 0xffff p3 Hp3) as [Hp4 Hs4]; [by apply (block_words_length 256)|by apply (block_words_half 256)|]. set (p4 := SD_2Byte_Write 0xffff p3) in *.
  destruct (read_card p4 (or_introl Hp4)) as [Hp5 Hs5]. destruct (SD_Read p4) as [r p5] eqn:E5. cbn [fst snd] in Hp5, Hs5.
  destruct (card_done p5 ltac:(tauto)) as (k' & Hk' & Ek'). destruct (busy_loop_card k' fuel p5 ltac:(tauto) ltac:(lia) Ek') as (p6 & E6 & Hp6 & Hs6).
  exists r, (flash_writeb_cmd 0xff (set_cs 0xff p6)). split_and!.
  - unfold Write_Single_Block. rewrite (bind_Ok _ _ _ _ _ E1). unfold bind at 1 2, modify at 1 2. fold p2. rewrite (bind_Ok _ _ _ _ _ E3).
    unfold bind at 1, modify at 1. fold p4. unfold bind at 1. rewrite E5, (bind_Ok _ _ _ _ _ E6). done.
  - rewrite (proj1 (card_clock _ _)), (proj1 (card_cs _ _)). done.
  - intros m. rewrite (proj2 (card_clock _ _)), (proj2 (card_cs _ _)), Hs6, Hs5, Hs4, (card_bytes_block 256) by done.
    by rewrite Hs3, Hst, Hsc, Hs1.
Qed.
End stores.

(** C17: Write_Single_Block ends, however long the card is busy, and the card sees
    one to ten write commands for the address, the start token, the 512 bytes of
    the buffer in their order, the two bytes of the checksum field and then reads
    until it is ready again; the result is the first of them, the answer of the
    card to the data. *)
Theorem write_single_block_correct {P} `{SP : SdPort P} (ByteAddress : Z) (WriteBuffer : list Z) (p : P) :
  length WriteBuffer = 512%nat -> Forall is_byte WriteBuffer ->
  exists k p' r n m ws, (forall fuel, (k < fuel)%nat -> Write_Single_Block fuel ByteAddress WriteBuffer p = Ok (r, p'))
    /\ bus p' = bus p ++ replicate n (E_cmd 24 ByteAddress 1 1) ++ [E_clock 0xff; E_byte 0xfe] ++ map E_word ws
                ++ [E_word 0xffff; E_read] ++ replicate (S m) E_read ++ [E_cs 0xff; E_clock 0xff]
    /\ (1 <= n <= 10)%nat /\ card_bytes ws = WriteBuffer
    /\ exists q, bus q = bus p ++ replicate n (E_cmd 24 ByteAddress 1 1) ++ [E_clock 0xff; E_byte 0xfe] ++ map E_word ws ++ [E_word 0xffff] /\ r = fst (SD_Read q).
Proof.
  intros Hl Hb. destruct (cmd_loop_bus 9 ByteAddress p) as (p1 & n & E1 & Hn & B1).
  set (p2 := SD_Write 0x00fe (flash_writeb_cmd 0xff p1)). destruct (data_loop_bus WriteBuffer p2 Hl) as (p3 & E3 & B3).
  set (p4 := SD_2Byte_Write 0xffff p3). destruct (SD_Read p4) as [r p5] eqn:E5. pose proof (read_bus p4) as B5. rewrite E5 in B5. cbn [snd] in B5.
  destruct (card_ready p5) as [k Hk]. destruct (busy_loop_bus k p5 Hk) as (p6 & m & E6 & B6).
  assert (bus p4 = bus p ++ replicate n (E_cmd 24 ByteAddress 1 1) ++ [E_clock 0xff; E_byte 0xfe] ++ map E_word (block_words WriteBuffer) ++ [E_word 0xffff]) as B4.
  { unfold p4. rewrite word_bus, B3. unfold p2. rewrite byte_bus, clock_bus, B1, <-!app_assoc. done. }
  exists k, (flash_writeb_cmd 0xff (set_cs 0xff p6)), r, n, m, (block_words WriteBuffer). split_and!; [| |lia..|by apply (card_bytes_block 256)|].
  - intros fuel Hf. unfold Write_Single_Block. rewrite (bind_Ok _ _ _ _ _ E1). unfold bind at 1 2, modify at 1 2. fold p2. rewrite (bind_Ok _ _ _ _ _ E3).
    unfold bind at 1, modify at 1. fold p4. unfold bind at 1. rewrite E5. rewrite (bind_Ok _ _ _ _ _ (E6 fuel Hf)). done.
  - rewrite clock_bus, cs_bus, B6, B5, B4, <-!app_assoc. done.
  - exists p4. split; [exact B4|by rewrite E5].
Qed.

(** A card that answers every command and is never busy. *)
#[export] Program Instance history_port : SdPort (list bus_event) := {|
  flash_writeb_cmd v p := p ++ [E_clock v]; SD_2Byte_Write v p := p ++ [E_word v]; SD_Write v p := p ++ [E_byte v];
  SD_Read p := (0xffff, p ++ [E_read]); SD_CMD_Write i a t c p := (0xff00, p ++ [E_cmd i a t c]); set_cs v p := p ++ [E_cs v]; bus p := p |}.
Solve Obligations with (try done).
Next Obligation. intros p. by exists 0%nat. Qed.
Lemma write_single_block_correct_witness : exists k p' r ws,
  (forall fuel, (k < fuel)%nat -> Write_Single_Block fuel 1024 (replicate 512 165) ([] : list bus_event) = Ok (r, p')) /\ card_bytes ws = replicate 512 165.
Proof.
  destruct (write_single_block_correct 1024 (replicate 512 165) ([] : list bus_event)) as (k & p' & r & n & m & ws & E & _ & _ & H & _).
  - reflexivity.
  - apply Forall_replicate. unfold is_byte. lia.
  - exists k, p', r, ws. split; [exact E|exact H].
Defined.
