(* ===== verification/Sd.v ===== *)
(** The SD card driver of libepmon (sdread.c, sdwrite.c, memcopy.c) and the
    interface through which the file system uses it.

    The functions at fixed ROM addresses (the sector read of the board, the
    byte-wise read and write of QEMU, and the port of the card on which
    [Write_Single_Block] of SdBlock.v works) are not part of the sources: they are
    the operations of the class [Rom], with their documented behaviour as its
    laws.  [BlockDevice] is what the file system relies on: a card of
    2^20 blocks of 4 KB each, addressed by 32-bit byte addresses.  The instance
    [sd_card_device] discharges it for the modelled driver. *)

From S2P Require Import Prelude CString SdBlock.

Definition SECTOR_SIZE : Z := 512.

(** ** memcopy: a copy that tolerates overlap *)

(** [while(n-- > 0) *--t = *--f;] *)
Fixpoint memcopy_down (m : mem) (t f : Z) (n : nat) : outcome mem :=
  match n with
  | O => Ok m
  | S n' =>
      try! b := rd m (f - 1) in
      try! m := wr m (t - 1) b in
      memcopy_down m (t - 1) (f - 1) n'
  end.
(** [while(n-- > 0) *t++ = *f++;] *)
Fixpoint memcopy_up (m : mem) (t f : Z) (n : nat) : outcome mem :=
  match n with
  | O => Ok m
  | S n' =>
      try! b := rd m f in
      try! m := wr m t b in
      memcopy_up m (t + 1) (f + 1) n'
  end.
Definition memcopy (m : mem) (s1 s2 : Z) (n : nat) : outcome mem :=
  if s2 <? s1 then memcopy_down m (s1 + Z.of_nat n) (s2 + Z.of_nat n) n
  else memcopy_up m s1 s2 n.

(** ** The ROM and the driver *)

(** [Read_Single_Block] reads one sector, [new_sdcard_read] and [new_sdcard_write]
    move any run of bytes; the port is what [Write_Single_Block] writes to. *)
Class Rom (C : Type) := {
  rom_word : Z; (* the word of the ROM at 0x8005f65c *)
  rom_port :: SdPort C;
  Read_Single_Block : C -> Z -> list Z;
  new_sdcard_read : C -> Z -> Z -> list Z;
  new_sdcard_write : C -> Z -> list Z -> C
}.

(** The card and the two bounce buffers at 0xa0100200 and 0xa0100400. *)
Record sd (C : Type) := mk_sd { card : C; read_indexbuf : list Z; write_indexbuf : list Z }.
Arguments mk_sd {C}. Arguments card {C}. Arguments read_indexbuf {C}. Arguments write_indexbuf {C}.

Section driver.
  Context {C : Type} `{Rom C}.

Definition isQEMU : bool := rom_word =? 0x27bdffa8.

(** [once = (512 - (pos&511)) < left ? (512 - (pos&511)) : left] *)
Definition once (pos left : Z) : Z :=
  if SECTOR_SIZE - Z.land pos 511 <? left then SECTOR_SIZE - Z.land pos 511 else left.

Fixpoint sdread_loop (fuel : nat) (pos left : Z) (buf : list Z) (d : sd C) : outcome (list Z * sd C) :=
  match fuel with
  | O => Fault Diverges
  | S fuel' =>
      if left =? 0 then Ok (buf, d)
      else
        let indexbuf := Read_Single_Block (card d) (Z.shiftr pos 9) in
        try! chunk := slice indexbuf (Z.land pos 511) (once pos left) in
        sdread_loop fuel' (u32 (pos + once pos left)) (u32 (left - once pos left)) (buf ++ chunk)
          (mk_sd (card d) indexbuf (write_indexbuf d))
  end.

(** [sdread]: the bytes that it stores at [buf]. *)
Definition sdread (base n : Z) : M (sd C) (list Z) := fun d =>
  if isQEMU then Ok (new_sdcard_read (card d) base n, d)
  else sdread_loop (S (Z.to_nat n)) base n [] d.

(** [busy] is the fuel for the loops in which [Write_Single_Block] waits for the card. *)
Fixpoint sdwrite_loop (busy fuel : nat) (buf : list Z) (off pos left : Z) (d : sd C) : outcome (sd C) :=
  match fuel with
  | O => Fault Diverges
  | S fuel' =>
      if left =? 0 then Ok d
      else
        try! chunk := slice buf off (once pos left) in
        try! indexbuf := splice (write_indexbuf d) (Z.land pos 511) chunk in
        try! r := Write_Single_Block busy (Z.shiftr pos 9) indexbuf (card d) in
        sdwrite_loop busy fuel' buf (off + once pos left) (u32 (pos + once pos left)) (u32 (left - once pos left))
          (mk_sd (snd r) (read_indexbuf d) indexbuf)
  end.

(** [sdwrite] of the [n] bytes at [buf]. *)
Definition sdwrite (busy : nat) (buf : list Z) (base n : Z) : M (sd C) unit := fun d =>
  if isQEMU then
    try! bytes := slice buf 0 n in
    Ok (tt, mk_sd (new_sdcard_write (card d) base bytes) (read_indexbuf d) (write_indexbuf d))
  else try! d := sdwrite_loop busy (S (Z.to_nat n)) buf 0 base n d in Ok (tt, d).

End driver.

(** ** The interface of the file system *)

Definition DEV_BLOCK : Z := 4096.
Definition DEV_BLOCKS : Z := 2 ^ 20.

(** A device of 4 KB blocks: [block_at d k] is the contents of the block at
    byte address [4096 k]; whole blocks are read and written. *)
Class BlockDevice (D : Type) := {
  sd_read : Z -> Z -> M D (list Z);
  sd_write : list Z -> Z -> Z -> M D unit;
  dev_wf : D -> Prop;
  block_at : D -> Z -> list Z;
  block_at_wf : forall d k, dev_wf d -> 0 <= k < DEV_BLOCKS ->
    len (block_at d k) = DEV_BLOCK /\ Forall is_byte (block_at d k);
  sd_read_block : forall d k, dev_wf d -> 0 <= k < DEV_BLOCKS ->
    exists d', sd_read (DEV_BLOCK * k) DEV_BLOCK d = Ok (block_at d k, d') /\ dev_wf d'
      /\ forall j, block_at d' j = block_at d j;
  sd_write_block : forall d k b, dev_wf d -> 0 <= k < DEV_BLOCKS -> len b = DEV_BLOCK -> Forall is_byte b ->
    exists d', sd_write b (DEV_BLOCK * k) DEV_BLOCK d = Ok (tt, d') /\ dev_wf d'
      /\ forall j, 0 <= j < DEV_BLOCKS -> block_at d' j = if j =? k then b else block_at d j
}.

(** ** The driver implements the interface *)

(** The byte at address [a] of a card. *)
Definition card_byte {C} `{Rom C} (c : C) (a : Z) : Z :=
  Read_Single_Block c (Z.shiftr a 9) !!! Z.to_nat (Z.land a 511).

(** The documented behaviour of the ROM functions: the sectors of the card are what
    [Read_Single_Block] reads. *)
Class RomLaws (C : Type) `{Rom C} := {
  rom_card :: SdCard C;
  read_sector_wf : forall c n, length (Read_Single_Block c n) = 512%nat /\ Forall is_byte (Read_Single_Block c n);
  read_sector : forall c n, Read_Single_Block c n = sector c n;
  qemu_read : forall c base n, 0 <= n -> new_sdcard_read c base n = card_byte c <$> seqZ base n;
  qemu_write : forall c base b a, 0 <= a -> Forall is_byte b ->
    card_byte (new_sdcard_write c base b) a =
      if (base <=? a) && (a <? base + len b) then b !!! Z.to_nat (a - base) else card_byte c a
}.

Section lemmas.
Context {C : Type} `{RomLaws C}.

Lemma shiftr9 a : Z.shiftr a 9 = a / 512.
Proof using. by rewrite Z.shiftr_div_pow2. Qed.
Lemma land511 a : Z.land a 511 = a mod 512.
Proof using. change 511 with (Z.ones 9). by rewrite Z.land_ones. Qed.

Lemma in_run base n a : base <= a < base + n -> (base <=? a) && (a <? base + n) = true.
Proof using. intros [H1 H2]. by rewrite (proj2 (Z.leb_le _ _) H1), (proj2 (Z.ltb_lt _ _) H2). Qed.
Lemma not_in_run base n a : a < base \/ base + n <= a -> (base <=? a) && (a <? base + n) = false.
Proof using. intros Ha. destruct (Z.leb_spec base a), (Z.ltb_spec a (base + n)); cbn; lia. Qed.

Lemma card_byte_is_byte c a : is_byte (card_byte c a).
Proof using All.
  unfold card_byte. destruct (read_sector_wf c (Z.shiftr a 9)) as [Hl Hb].
  rewrite land511. eapply (Forall_lookup_1 _ _ (Z.to_nat (a mod 512))); [exact Hb|].
  apply list_lookup_lookup_total_lt. pose proof (Z.mod_pos_bound a 512). lia.
Qed.

(** A sector is the run of its 512 bytes. *)
Lemma sector_bytes c n : Read_Single_Block c n = card_byte c <$> seqZ (512 * n) 512.
Proof using All.
  destruct (read_sector_wf c n) as [Hl _]. apply list_eq_same_length with 512%nat;
    [by rewrite length_fmap, length_seqZ|done|].
  intros i x y Hi Hx Hy. apply list_lookup_fmap_Some in Hy as (a & -> & Ha).
  apply lookup_seqZ in Ha as [-> _]. unfold card_byte. rewrite shiftr9, land511.
  replace (512 * n + Z.of_nat i) with (Z.of_nat i + n * 512) by lia.
  rewrite Z.div_add, Z.mod_add, Z.div_small, Z.mod_small by lia. rewrite Nat2Z.id.
  symmetry. by apply list_lookup_total_correct.
Qed.

Lemma slice_run (f : Z -> Z) a n o k :
  0 <= o -> 0 <= k -> o + k <= n -> slice (f <$> seqZ a n) o k = Ok (f <$> seqZ (a + o) k).
Proof using.
  intros Ho Hk Hn. rewrite slice_ok by (rewrite ?length_fmap, ?length_seqZ; lia). f_equal.
  rewrite <-fmap_drop, <-fmap_take. f_equal.
  replace n with (o + (k + (n - o - k))) by lia. rewrite !seqZ_app by lia.
  rewrite drop_app_length' by (rewrite length_seqZ; lia).
  by rewrite take_app_length' by (rewrite length_seqZ; lia).
Qed.

Lemma once_bound pos left : 0 < left -> 0 < once pos left <= left /\ pos mod 512 + once pos left <= 512.
Proof using.
  intros Hl. unfold once, SECTOR_SIZE. rewrite land511. pose proof (Z.mod_pos_bound pos 512).
  destruct (Z.ltb_spec (512 - pos mod 512) left); lia.
Qed.

Lemma sdread_loop_spec fuel : forall pos left buf (d : sd C),
  0 <= pos -> 0 <= left -> pos + left <= 2 ^ 32 -> left < Z.of_nat fuel ->
  exists d', sdread_loop fuel pos left buf d = Ok (buf ++ (card_byte (card d) <$> seqZ pos left), d')
    /\ card d' = card d /\ write_indexbuf d' = write_indexbuf d.
Proof using All.
  induction fuel as [|fuel IH]; intros pos left buf d Hp Hl Hw Hf; [lia|]. cbn [sdread_loop].
  destruct (Z.eqb_spec left 0) as [->|Hne].
  { exists d. by rewrite app_nil_r. }
  destruct (once_bound pos left) as [[H1 H2] H3]; [lia|].
  pose proof (Z.mod_pos_bound pos 512 ltac:(lia)). pose proof (Z.div_mod pos 512 ltac:(lia)).
  rewrite sector_bytes, shiftr9, land511, slice_run by lia. cbn [obind].
  replace (512 * (pos / 512) + pos mod 512) with pos by lia.
  set (k := once pos left) in *. unfold u32 at 2. rewrite (Z.mod_small (left - k)) by lia.
  assert (Hrun : forall c, card_byte c <$> seqZ pos left =
    (card_byte c <$> seqZ pos k) ++ (card_byte c <$> seqZ (pos + k) (left - k))).
  { intros c. rewrite <-fmap_app, <-seqZ_app by lia. by replace (k + (left - k)) with left by lia. }
  rewrite Hrun, app_assoc.
  destruct (Z.eqb_spec (left - k) 0) as [E|E].
  - rewrite E. destruct fuel as [|fuel]; [lia|]. cbn. rewrite app_nil_r. eauto.
  - unfold u32. rewrite (Z.mod_small (pos + k)) by lia.
    apply (IH (pos + k) (left - k) _ (mk_sd (card d) _ (write_indexbuf d))); lia.
Qed.

Lemma sdread_spec base n (d : sd C) :
  0 <= base -> 0 <= n -> base + n <= 2 ^ 32 ->
  exists d', sdread base n d = Ok (card_byte (card d) <$> seqZ base n, d')
    /\ card d' = card d /\ write_indexbuf d' = write_indexbuf d.
Proof using All.
  intros Hb Hn Hw. unfold sdread. destruct isQEMU.
  - exists d. by rewrite qemu_read.
  - apply (sdread_loop_spec _ base n []); lia.
Qed.

(** On the board, the card waits for a command. *)
Definition card_waits (c : C) : Prop := isQEMU = false -> card_phase c = Idle.

(** The card after [b] was stored at [base]. *)
Definition stored (c : C) (base : Z) (b : list Z) (c' : C) : Prop :=
  forall a, 0 <= a -> card_byte c' a =
    if (base <=? a) && (a <? base + len b) then b !!! Z.to_nat (a - base) else card_byte c a.

Lemma write_sector_stored busy c n b :
  card_phase c = Idle -> (busy_bound <= busy)%nat -> 0 <= n -> length b = 512%nat -> Forall is_byte b ->
  exists r c', Write_Single_Block busy n b c = Ok (r, c') /\ card_phase c' = Idle /\ stored c (512 * n) b c'.
Proof using All.
  intros Hc Hbu Hn Hl Hb. destruct (write_single_block_stores busy n b c Hc Hl Hb Hbu) as (r & c' & E & Hc' & Hs).
  exists r, c'. split_and!; [done..|]. intros a Ha. unfold card_byte at 1. rewrite read_sector, Hs, <-read_sector, shiftr9, land511, Hl by done.
  pose proof (Z.div_mod a 512 ltac:(lia)). pose proof (Z.mod_pos_bound a 512 ltac:(lia)).
  destruct (Z.eqb_spec (a / 512) n) as [<-|Hne].
  - rewrite in_run by lia. by replace (a - 512 * (a / 512)) with (a mod 512) by lia.
  - rewrite not_in_run by nia. by unfold card_byte; rewrite shiftr9, land511.
Qed.

Lemma stored_app c base b1 b2 c' c'' :
  stored c base b1 c' -> stored c' (base + len b1) b2 c'' -> stored c base (b1 ++ b2) c''.
Proof using.
  intros H1 H2 a Ha. rewrite H2, H1 by done. rewrite length_app.
  destruct (Z.leb_spec (base + len b1) a), (Z.ltb_spec a (base + len b1 + len b2)),
    (Z.leb_spec base a), (Z.ltb_spec a (base + len b1)),
    (Z.ltb_spec a (base + Z.of_nat (length b1 + length b2))); try lia; cbn; try done.
  - rewrite lookup_total_app_r by lia. f_equal. lia.
  - by rewrite lookup_total_app_l by lia.
Qed.

Lemma take_drop_middle_len (b : list Z) :
  512 <= len b -> exists b1 b2, b = b1 ++ b2 /\ length b1 = 512%nat.
Proof using.
  intros Hb. exists (take 512 b), (drop 512 b). split; [by rewrite take_drop|].
  rewrite length_take. lia.
Qed.

Lemma sdwrite_loop_spec busy n : (busy_bound <= busy)%nat -> forall fuel pre b pos (d : sd C),
  card_phase (card d) = Idle -> 0 <= pos -> pos mod 512 = 0 -> len b = 512 * Z.of_nat n -> pos + len b <= 2 ^ 32 -> (n < fuel)%nat ->
  Forall is_byte b -> length (write_indexbuf d) = 512%nat ->
  exists d', sdwrite_loop busy fuel (pre ++ b) (len pre) pos (len b) d = Ok d'
    /\ stored (card d) pos b (card d') /\ length (write_indexbuf d') = 512%nat /\ card_phase (card d') = Idle.
Proof using All.
  intros Hbu. induction n as [|n IH]; intros [|fuel] pre b pos d Hid Hp Hm Hl Hw Hf Hb Hi; try lia; cbn [sdwrite_loop].
  { assert (len b = 0) as Hb0 by lia. rewrite Hb0. cbn. exists d. split_and!; [done| |done..].
    intros a Ha. by rewrite not_in_run by lia. }
  destruct (Z.eqb_spec (len b) 0); [lia|].
  assert (once pos (len b) = 512) as ->.
  { unfold once, SECTOR_SIZE. rewrite land511, Hm. destruct (Z.ltb_spec (512 - 0) (len b)); lia. }
  destruct (take_drop_middle_len b) as (b1 & b2 & -> & Hb1); [lia|].
  rewrite slice_ok by (rewrite ?length_app in *; lia). cbn [obind].
  rewrite Nat2Z.id, drop_app_length, take_app_length' by (rewrite Hb1; done).
  rewrite land511, Hm, splice_ok by lia. cbn [obind]. change (Z.to_nat 0) with 0%nat.
  cbn [take app Nat.add]. rewrite drop_ge, app_nil_r by lia. apply Forall_app in Hb as [Hbb1 Hbb2].
  rewrite length_app in Hl, Hw. rewrite Z.mod_divide in Hm by lia. destruct Hm as [q ->].
  destruct (write_sector_stored busy (card d) q b1 Hid Hbu ltac:(lia) Hb1 Hbb1) as (r & c' & Ew & Hid' & Hst).
  replace (Z.shiftr (q * 512) 9) with q by (rewrite shiftr9, Z.div_mul; lia). rewrite take_0. cbn [app]. rewrite Ew. cbn [obind snd]. rewrite (Z.mul_comm q 512).
  assert (Hlen : u32 (len (b1 ++ b2) - 512) = len b2).
  { unfold u32. rewrite length_app, Z.mod_small; lia. }
  rewrite Hlen, app_assoc. assert (Hb1' : len b1 = 512) by lia.
  replace (len pre + 512) with (len (pre ++ b1)) by (rewrite length_app; lia).
  destruct (decide (b2 = [])) as [->|Hne].
  - rewrite !app_nil_r. destruct fuel as [|fuel]; [lia|]. cbn. eexists. split_and!; done.
  - assert (0 < len b2) by (destruct b2; [done|cbn; lia]).
    unfold u32. rewrite (Z.mod_small (512 * q + _)) by lia.
    destruct (IH fuel (pre ++ b1) b2 (512 * q + 512)
      (mk_sd c' (read_indexbuf d) b1)) as (d' & E & Hs & Hi' & Hid2);
      [done|lia|by replace (512 * q + 512) with ((q + 1) * 512) by lia; rewrite Z.mod_mul|lia|lia|lia|done|done|].
    exists d'. split_and!; [exact E| |done..]. eapply stored_app; [done|]. by rewrite Hb1'.
Qed.

Lemma sdwrite_spec busy b base (d : sd C) :
  (busy_bound <= busy)%nat -> card_waits (card d) -> 0 <= base -> base mod 512 = 0 -> len b mod 512 = 0 -> base + len b <= 2 ^ 32 ->
  Forall is_byte b -> length (write_indexbuf d) = 512%nat ->
  exists d', sdwrite busy b base (len b) d = Ok (tt, d')
    /\ stored (card d) base b (card d') /\ length (write_indexbuf d') = 512%nat /\ card_waits (card d').
Proof using All.
  intros Hbu Hid Hb Hm Hl Hw Hby Hi. unfold sdwrite, card_waits in *. destruct isQEMU.
  - rewrite slice_ok by lia. cbn [obind]. rewrite Nat2Z.id. change (Z.to_nat 0) with 0%nat.
    rewrite drop_0, take_ge by lia. eexists. split_and!; [done| |done..]. cbn. intros a Ha. by apply qemu_write.
  - pose proof (Z.div_mod (len b) 512 ltac:(lia)). assert (0 <= len b / 512) by (apply Z.div_pos; lia).
    destruct (sdwrite_loop_spec busy (Z.to_nat (len b / 512)) Hbu (S (Z.to_nat (len b))) [] b base d)
      as (d' & E & Hs & Hi' & Hid'); [by apply Hid|lia..|done|done|].
    change ([] ++ b) with b in E. change (len []) with 0 in E. rewrite E. exists d'. by split_and!.
Qed.

(** The contents of a 4 KB block of the card. *)
Definition card_block (d : sd C) (k : Z) : list Z := card_byte (card d) <$> seqZ (DEV_BLOCK * k) DEV_BLOCK.

Lemma card_block_stored (d d' : sd C) k b j :
  0 <= k -> 0 <= j -> len b = DEV_BLOCK -> stored (card d) (DEV_BLOCK * k) b (card d') ->
  card_block d' j = if j =? k then b else card_block d j.
Proof using.
  intros Hk Hj Hb Hs. unfold card_block, DEV_BLOCK in *. apply list_eq. intros i.
  destruct (decide (i < 4096)%nat) as [Hi|Hi].
  - rewrite list_lookup_fmap, lookup_seqZ_lt by lia. cbn. rewrite Hs by lia. rewrite Hb.
    destruct (Z.eqb_spec j k) as [->|Hne].
    + rewrite in_run by lia. replace (4096 * k + Z.of_nat i - 4096 * k) with (Z.of_nat i) by lia.
      rewrite Nat2Z.id. symmetry. apply list_lookup_lookup_total_lt. lia.
    + rewrite not_in_run by nia. by rewrite list_lookup_fmap, lookup_seqZ_lt by lia.
  - rewrite (proj2 (lookup_ge_None _ i)) by (rewrite length_fmap, length_seqZ; lia). symmetry.
    apply lookup_ge_None. destruct (_ =? _); [lia|]. rewrite length_fmap, length_seqZ. lia.
Qed.

#[export, program] Instance sd_card_device : BlockDevice (sd C) := {
  sd_read := sdread;
  sd_write := sdwrite busy_bound;
  dev_wf d := length (write_indexbuf d) = 512%nat /\ card_waits (card d);
  block_at := card_block
}.
Next Obligation.
  intros d k _ Hk. unfold card_block, DEV_BLOCK in *. rewrite length_fmap, length_seqZ. split; [done|].
  apply Forall_fmap, Forall_forall. intros a _. apply card_byte_is_byte.
Qed.
Next Obligation.
  intros d k Hd Hk. unfold DEV_BLOCKS in Hk. destruct (sdread_spec (DEV_BLOCK * k) DEV_BLOCK d)
    as (d' & E & Hc & Hw); [unfold DEV_BLOCK; lia..|].
  exists d'. split_and!; [exact E|rewrite Hw; apply Hd|rewrite Hc; apply Hd|]. intros j. unfold card_block. by rewrite Hc.
Qed.
Next Obligation.
  intros d k b [Hd Hid] Hk Hl Hb. unfold DEV_BLOCKS in Hk.
  destruct (sdwrite_spec busy_bound b (DEV_BLOCK * k) d (le_n _) Hid) as (d' & E & Hs & Hw & Hid'); [unfold DEV_BLOCK in *..|done|done|].
  - lia.
  - replace (4096 * k) with (8 * k * 512) by lia. apply Z.mod_mul. lia.
  - by rewrite Hl.
  - lia.
  - rewrite Hl in E. exists d'. split_and!; [exact E|done|done|].
    intros j Hj. apply card_block_stored; [lia|lia|done|done].
Qed.
End lemmas.

(** ** A card as a map of its sectors *)

(** Sectors that were never written hold zeros. *)
Definition blank_sector : list Z := replicate 512 0.
Record sector_map := mk_card { sectors : gmap Z (list Z); waits_for : phase; seen : list bus_event (* the last one first *) }.
Definition sector_at (c : sector_map) (n : Z) : list Z :=
  u8 <$> take 512 (default [] (sectors c !! n) ++ blank_sector).
Definition put_sector (c : sector_map) (n : Z) (b : list Z) : sector_map := mk_card (<[n := b]> (sectors c)) (waits_for c) (seen c).
(** The card answers the first command and is never busy. *)
Definition see (e : bus_event) (f : phase -> phase) (c : sector_map) : sector_map := mk_card (sectors c) (f (waits_for c)) (e :: seen c).
Definition take_word (w : Z) (c : sector_map) : sector_map :=
  match waits_for c with
  | Receiving n ws => if decide (length ws < 256)%nat then see (E_word w) (fun _ => Receiving n (ws ++ [w])) c
                      else see (E_word w) (fun _ => Programming) (put_sector c n (card_bytes ws))
  | _ => see (E_word w) id c
  end.
#[export] Program Instance sector_port : SdPort sector_map := {|
  flash_writeb_cmd v := see (E_clock v) id;
  SD_2Byte_Write := take_word;
  SD_Write v := see (E_byte v) (fun ph => match ph with Commanded n => Receiving n [] | _ => ph end);
  SD_Read c := (0xffff, see E_read (fun _ => Idle) c);
  SD_CMD_Write i a t r c := (0xff00, see (E_cmd i a t r) (fun ph => match ph with Idle => Commanded a | _ => ph end) c);
  set_cs v := see (E_cs v) id;
  bus c := rev (seen c)
|}.
Solve Obligations with (try done).
Next Obligation. intros v c. unfold take_word. destruct (waits_for c); try done. by case_decide. Qed.
Next Obligation. intros c. by exists 0%nat. Qed.
Definition put_bytes (c : sector_map) (base : Z) (b : list Z) : sector_map :=
  foldr (fun n c' => put_sector c' n
    ((fun a => if (base <=? a) && (a <? base + len b) then b !!! Z.to_nat (a - base)
               else sector_at c (Z.shiftr a 9) !!! Z.to_nat (Z.land a 511)) <$> seqZ (512 * n) 512))
    c (seqZ (base / 512) (len b / 512 + 2)).

(** A board ([word] is what [isQEMU] probes) with such a card. *)
Definition sector_rom (word : Z) : Rom sector_map := {|
  rom_word := word;
  rom_port := sector_port;
  Read_Single_Block := sector_at;
  new_sdcard_read c base n := (fun a => sector_at c (Z.shiftr a 9) !!! Z.to_nat (Z.land a 511)) <$> seqZ base n;
  new_sdcard_write := put_bytes
|}.

Lemma u8_is_byte z : is_byte (u8 z).
Proof. unfold is_byte, u8. pose proof (Z.mod_pos_bound z (2 ^ 8)). lia. Qed.
Lemma u8_id z : is_byte z -> u8 z = z.
Proof. unfold is_byte, u8. intros Hz. apply Z.mod_small. lia. Qed.
Lemma fmap_u8_id l : Forall is_byte l -> u8 <$> l = l.
Proof. induction 1 as [|b l Hb _ IH]; [done|]. cbn. by rewrite u8_id, IH. Qed.

Lemma sector_at_wf c n : length (sector_at c n) = 512%nat /\ Forall is_byte (sector_at c n).
Proof.
  unfold sector_at. split.
  - rewrite length_fmap, length_take, length_app. unfold blank_sector. rewrite length_replicate. lia.
  - apply Forall_fmap, Forall_forall. intros x _. apply u8_is_byte.
Qed.
Lemma sector_at_put c n b m :
  length b = 512%nat -> Forall is_byte b -> sector_at (put_sector c n b) m = if m =? n then b else sector_at c m.
Proof.
  intros Hl Hb. unfold sector_at, put_sector. cbn [sectors]. destruct (Z.eqb_spec m n) as [->|Hne].
  - rewrite lookup_insert_eq. cbn [default]. rewrite take_app_length' by done. by apply fmap_u8_id.
  - by rewrite lookup_insert_ne by done.
Qed.

Lemma card_bytes_wf ws : length ws = 256%nat -> Forall is_half ws -> length (card_bytes ws) = 512%nat /\ Forall is_byte (card_bytes ws).
Proof.
  intros Hl Hw. split.
  - unfold card_bytes. rewrite (flat_map_constant_length (c := 2)) by done. lia.
  - clear Hl. induction Hw as [|w ws Hw _ IH]; [constructor|]. unfold card_bytes in *. cbn. unfold is_half, is_byte in *.
    change 255 with (Z.ones 8). rewrite Z.shiftr_div_pow2, Z.land_ones by lia. repeat constructor; try done; Z.div_mod_to_equations; lia.
Qed.
#[export, program] Instance sector_card : SdCard sector_map := {
  card_phase := waits_for;
  sector := sector_at;
  busy_bound := 1
}.
Next Obligation. intros n c Hc. cbn. by rewrite Hc. Qed.
Next Obligation. intros n c Hc. exists 0%nat. split; [lia|done]. Qed.
Next Obligation. done. Qed.
Next Obligation. intros n c Hc. cbn. by rewrite Hc. Qed.
Next Obligation. intros n ws w c Hc Hl. cbn. unfold take_word. rewrite Hc. by rewrite decide_True. Qed.
Next Obligation.
  intros n ws w c Hc Hl Hw. cbn. unfold take_word. rewrite Hc, decide_False by lia. split; [done|]. intros m.
  destruct (card_bytes_wf ws Hl Hw) as [Hl' Hb]. exact (sector_at_put c n (card_bytes ws) m Hl' Hb).
Qed.
Next Obligation. done. Qed.
Next Obligation. done. Qed.
Next Obligation. intros c _. exists 0%nat. split; [lia|done]. Qed.
Next Obligation. done. Qed.

Lemma put_bytes_sector c base b n : Forall is_byte b ->
  sector_at (put_bytes c base b) n =
    if bool_decide (n ∈ seqZ (base / 512) (len b / 512 + 2))
    then (fun a => if (base <=? a) && (a <? base + len b) then b !!! Z.to_nat (a - base)
          else sector_at c (Z.shiftr a 9) !!! Z.to_nat (Z.land a 511)) <$> seqZ (512 * n) 512
    else sector_at c n.
Proof.
  intros Hb. unfold put_bytes. induction (seqZ _ _) as [|m l IH]; [done|]. cbn [foldr].
  rewrite sector_at_put; [|by rewrite length_fmap, length_seqZ|].
  - destruct (Z.eqb_spec n m) as [->|Hne].
    + rewrite bool_decide_true; [done|]. apply elem_of_cons. by left.
    + rewrite IH. rewrite (bool_decide_ext (n ∈ m :: l) (n ∈ l)); [done|]. rewrite elem_of_cons. clear -Hne. tauto.
  - apply Forall_fmap, Forall_forall. intros a _. cbn. destruct (_ && _) eqn:E.
    + apply (Forall_lookup_1 _ _ (Z.to_nat (a - base)) _ Hb). apply list_lookup_lookup_total_lt. lia.
    + destruct (sector_at_wf c (Z.shiftr a 9)) as [Hl Hby]. rewrite land511.
      apply (Forall_lookup_1 _ _ (Z.to_nat (a mod 512)) _ Hby). apply list_lookup_lookup_total_lt.
      pose proof (Z.mod_pos_bound a 512). lia.
Qed.

Definition sector_rom_laws word : @RomLaws sector_map (sector_rom word).
Proof.
  refine {| rom_card := sector_card : @SdCard sector_map (@rom_port _ (sector_rom word)) |}.
  - apply sector_at_wf.
  - done.
  - done.
  - intros c base b a Ha Hb. unfold card_byte. cbn -[put_bytes sector_at].
    rewrite put_bytes_sector by done. pose proof (Z.div_mod a 512 ltac:(lia)).
    pose proof (Z.mod_pos_bound a 512 ltac:(lia)).
    pose proof (Z.div_mod base 512 ltac:(lia)). pose proof (Z.mod_pos_bound base 512 ltac:(lia)).
    pose proof (Z.div_mod (len b) 512 ltac:(lia)). pose proof (Z.mod_pos_bound (len b) 512 ltac:(lia)).
    destruct (bool_decide_reflect (Z.shiftr a 9 ∈ seqZ (base / 512) (len b / 512 + 2))) as [Hin|Hout].
    + rewrite shiftr9, land511, list_lookup_total_alt, list_lookup_fmap, lookup_seqZ_lt by lia. cbn.
      replace (512 * (a / 512) + Z.of_nat (Z.to_nat (a mod 512))) with a by lia.
      by rewrite shiftr9, land511.
    + rewrite elem_of_seqZ, shiftr9 in Hout. by rewrite not_in_run by lia.
Defined.

(** The board of the examples: an LS1C with an empty card. *)
#[export] Instance ls1c : Rom sector_map := sector_rom 0.
#[export] Instance ls1c_laws : RomLaws sector_map := sector_rom_laws 0.
Definition blank_map : sector_map := mk_card ∅ Idle [].
Definition blank_card : sd sector_map := mk_sd blank_map blank_sector blank_sector.

Lemma blank_card_wf : dev_wf blank_card.
Proof. split; [reflexivity|]. intros _. reflexivity. Qed.

(** ** Copies that overlap *)

Lemma memcopy_up_lookup n : forall (m : mem) (t f : nat),
  (t <= f)%nat -> (f + n <= length m)%nat ->
  exists m', memcopy_up m (Z.of_nat t) (Z.of_nat f) n = Ok m' /\ length m' = length m
    /\ forall k, m' !! k = if decide (t <= k < t + n)%nat then m !! (f + (k - t))%nat else m !! k.
Proof.
  induction n as [|n IH]; intros m t f Ht Hf; cbn [memcopy_up].
  - exists m. split_and!; [done..|]. intros k. by rewrite decide_False by lia.
  - destruct (rd_in_range m (Z.of_nat f)) as (b & -> & Hb); [lia|]. cbn [obind]. rewrite Nat2Z.id in Hb.
    rewrite wr_in_range by lia. cbn [obind]. rewrite Nat2Z.id.
    replace (Z.of_nat t + 1) with (Z.of_nat (S t)) by lia. replace (Z.of_nat f + 1) with (Z.of_nat (S f)) by lia.
    destruct (IH (<[t := b]> m) (S t) (S f)) as (m' & E & El & Hk); [lia|rewrite length_insert; lia|].
    exists m'. split_and!; [done|by rewrite El, length_insert|]. intros k. rewrite Hk.
    destruct (decide (k = t)) as [->|Hkt].
    + rewrite decide_False, decide_True by lia. rewrite Nat.sub_diag, Nat.add_0_r, Hb.
      apply list_lookup_insert_eq. lia.
    + destruct (decide (S t <= k < S t + n)%nat).
      * rewrite decide_True by lia. rewrite list_lookup_insert_ne by lia. f_equal. lia.
      * rewrite decide_False by lia. by rewrite list_lookup_insert_ne.
Qed.

Lemma memcopy_down_lookup n : forall (m : mem) (t f : nat),
  (f <= t)%nat -> (t + n <= length m)%nat ->
  exists m', memcopy_down m (Z.of_nat (t + n)) (Z.of_nat (f + n)) n = Ok m' /\ length m' = length m
    /\ forall k, m' !! k = if decide (t <= k < t + n)%nat then m !! (f + (k - t))%nat else m !! k.
Proof.
  induction n as [|n IH]; intros m t f Ht Hf; cbn [memcopy_down].
  - exists m. split_and!; [done..|]. intros k. by rewrite decide_False by lia.
  - replace (Z.of_nat (t + S n) - 1) with (Z.of_nat (t + n)) by lia.
    replace (Z.of_nat (f + S n) - 1) with (Z.of_nat (f + n)) by lia.
    destruct (rd_in_range m (Z.of_nat (f + n))) as (b & -> & Hb); [lia|]. cbn [obind]. rewrite Nat2Z.id in Hb.
    rewrite wr_in_range by lia. cbn [obind]. rewrite Nat2Z.id.
    destruct (IH (<[(t + n)%nat := b]> m) t f) as (m' & E & El & Hk); [lia|rewrite length_insert; lia|].
    exists m'. split_and!; [done|by rewrite El, length_insert|]. intros k. rewrite Hk.
    destruct (decide (k = t + n)%nat) as [->|Hkt].
    + rewrite decide_False, decide_True by lia. rewrite list_lookup_insert_eq by lia.
      rewrite <-Hb. f_equal. lia.
    + destruct (decide (t <= k < t + n)%nat).
      * rewrite decide_True by lia. by rewrite list_lookup_insert_ne by lia.
      * rewrite decide_False by lia. by rewrite list_lookup_insert_ne by lia.
Qed.

(** ** Properties *)

(** memcopy copies correctly however the two regions overlap: when source
    and destination are inside the memory, the destination ends up with the
    bytes the source had before the call and nothing else changes. *)
Theorem memcopy_correct (m l : mem) (s1 s2 : Z) (n : nat) :
  slice m s2 (Z.of_nat n) = Ok l -> 0 <= s1 -> s1 + Z.of_nat n <= len m ->
  memcopy m s1 s2 n = splice m s1 l.
Proof.
  intros Hl Hd Hn. pose proof (slice_length _ _ _ _ Hl) as El. rewrite Nat2Z.id in El.
  unfold slice in Hl. destruct (_ && _) eqn:E in Hl; [|done]. injection Hl as <-.
  assert (exists m', memcopy m s1 s2 n = Ok m' /\ length m' = length m /\ forall k,
    m' !! k = if decide (Z.to_nat s1 <= k < Z.to_nat s1 + n)%nat then m !! (Z.to_nat s2 + (k - Z.to_nat s1))%nat
              else m !! k) as (m' & E' & Em & Hk).
  { unfold memcopy. destruct (Z.ltb_spec s2 s1).
    - replace (s1 + Z.of_nat n) with (Z.of_nat (Z.to_nat s1 + n)) by lia.
      replace (s2 + Z.of_nat n) with (Z.of_nat (Z.to_nat s2 + n)) by lia. apply memcopy_down_lookup; lia.
    - rewrite <-(Z2Nat.id s1), <-(Z2Nat.id s2), !Nat2Z.id by lia. apply memcopy_up_lookup; lia. }
  rewrite E'. destruct (splice m s1 _) as [r|] eqn:Es; [|by rewrite splice_ok in Es by (rewrite ?El; lia)].
  f_equal. apply list_eq. intros k. rewrite Hk.
  rewrite <-(Z2Nat.id s1) in Es by done. rewrite (splice_lookup _ _ _ _ Es), El.
  destruct (decide _); [|done]. rewrite lookup_take_lt, lookup_drop by lia. f_equal; lia.
Qed.

Lemma memcopy_correct_witness :
  memcopy [1; 2; 3; 4; 5] 1 0 4 = Ok [1; 1; 2; 3; 4] /\ memcopy [1; 2; 3; 4; 5] 0 1 4 = Ok [2; 3; 4; 5; 5].
Proof.
  split.
  - rewrite (memcopy_correct _ [1; 2; 3; 4]); [reflexivity|reflexivity|lia|cbn; lia].
  - rewrite (memcopy_correct _ [2; 3; 4; 5]); [reflexivity|reflexivity|lia|cbn; lia].
Defined.

(** C16: on the board, a write of whole sectors to the SD card is read back: when the
    card waits for a command, sdwrite returns (its loops ending when the card is no
    longer busy) and leaves the card waiting for a command; then sdread of the
    written range gives the written bytes, and of any range apart from it what it
    gave before.  The sectors are written by Write_Single_Block over the port of the
    card; the card follows the protocol for the write of a block ([SdCard]): it
    accepts the write command within the ten tries the code makes, takes the token,
    512 bytes and a checksum, does not refuse the data, and is ready again after a
    bounded number of reads. *)
Theorem sd_roundtrip {C} `{RomLaws C} (busy : nat) (b : list Z) (base : Z) (d : sd C) :
  isQEMU (C := C) = false -> card_phase (card d) = Idle -> (busy_bound (P := C) <= busy)%nat ->
  0 <= base -> base mod 512 = 0 -> len b mod 512 = 0 -> base + len b <= 2 ^ 32 ->
  Forall is_byte b -> length (write_indexbuf d) = 512%nat ->
  exists d', sdwrite busy b base (len b) d = Ok (tt, d') /\ card_phase (card d') = Idle
    /\ (exists d'', sdread base (len b) d' = Ok (b, d''))
    /\ forall p n, 0 <= p -> 0 <= n -> p + n <= 2 ^ 32 -> p + n <= base \/ base + len b <= p ->
       exists bytes e e', sdread p n d = Ok (bytes, e) /\ sdread p n d' = Ok (bytes, e').
Proof.
  intros Hq Hid Hbu Hb Hm Hl Hw Hby Hi. destruct (sdwrite_spec busy b base d) as (d' & E & Hs & _ & Hid'); [exact Hbu|by intros _|assumption..|].
  exists d'. split_and!; [done|by apply Hid'| |].
  - destruct (sdread_spec base (len b) d') as (d'' & -> & _); [lia..|]. exists d''. do 2 f_equal.
    apply list_eq. intros i. destruct (decide (i < length b)%nat) as [Hlt|Hge].
    + rewrite list_lookup_fmap, lookup_seqZ_lt by lia. cbn. rewrite Hs, in_run by lia.
      replace (base + Z.of_nat i - base) with (Z.of_nat i) by lia. rewrite Nat2Z.id.
      symmetry. by apply list_lookup_lookup_total_lt.
    + rewrite !(proj2 (lookup_ge_None _ _)); [done|lia|rewrite length_fmap, length_seqZ; lia].
  - intros p n Hp Hn Hpn Hdis. destruct (sdread_spec p n d) as (e & -> & _); [lia..|].
    destruct (sdread_spec p n d') as (e' & -> & _); [lia..|].
    exists (card_byte (card d) <$> seqZ p n), e, e'. split; [done|]. do 2 f_equal.
    apply list_fmap_ext. intros i a Ha. apply lookup_seqZ in Ha as [-> Hi']. cbn.
    rewrite Hs by lia. by rewrite not_in_run by lia.
Qed.

Lemma sd_roundtrip_witness :
  exists d', sdwrite 1 (replicate 512 7) 1024 512 blank_card = Ok (tt, d')
    /\ exists d'', sdread 1024 512 d' = Ok (replicate 512 7, d'').
Proof.
  destruct (sd_roundtrip 1 (replicate 512 7) 1024 blank_card) as (d' & E & _ & R & _).
  - reflexivity.
  - reflexivity.
  - apply le_n.
  - lia.
  - reflexivity.
  - reflexivity.
  - cbn. lia.
  - apply Forall_replicate. unfold is_byte. lia.
  - reflexivity.
  - exists d'. split; [exact E|exact R].
Defined.

(** sdwrite does not read a sector before it changes a part of it: a write
    of a single byte overwrites the other bytes of its sector with what the
    bounce buffer held from an earlier write. *)
Theorem sdwrite_part_of_sector :
  let d := mk_sd blank_map blank_sector (replicate 512 7) in
  exists d', sdwrite 1 [9] 1 1 d = Ok (tt, d')
    /\ fst <$> (match sdread 0 3 d with Ok r => Some r | Fault _ => None end) = Some [0; 0; 0]
    /\ fst <$> (match sdread 0 3 d' with Ok r => Some r | Fault _ => None end) = Some [7; 9; 7].
Proof. vm_compute. eexists. split_and!; reflexivity. Qed.
