(* ===== verification/Bitmap.v ===== *)
(** The bit maps of libs/bitmap.c and the search for a clear bit.

    A map is the byte array itself; the operations are the code's, [bit_at] is
    the mathematical view that their specifications use. *)

From S2P Require Import Prelude CString.

Definition check_bitmap (bitmap : mem) (index : Z) : outcome Z :=
  let byte := index / 8 in
  let offset := index mod 8 in
  try! b := rd bitmap byte in
  let shift := u8 (Z.land (Z.shiftl 1 offset) b) in
  Ok (if shift =? 0 then 0 else 1).

Definition set_bitmap (bitmap : mem) (index : Z) : outcome mem :=
  let byte := index / 8 in
  let offset := index mod 8 in
  try! b := rd bitmap byte in
  wr bitmap byte (u8 (Z.lor b (Z.shiftl 1 offset))).

Definition unset_bitmap (bitmap : mem) (index : Z) : outcome mem :=
  let byte := index / 8 in
  let offset := index mod 8 in
  try! b := rd bitmap byte in
  wr bitmap byte (u8 (Z.land b (Z.lnot (Z.shiftl 1 offset)))).

(** ** Specification *)

Definition bit_at (l : mem) (i : Z) : bool := Z.testbit (l !!! Z.to_nat (i / 8)) (i mod 8).

(** Indices inside a map. *)
Definition in_map (l : mem) (i : Z) : Prop := 0 <= i < 8 * len l.

Lemma in_map_byte l i : in_map l i -> 0 <= i / 8 < len l /\ 0 <= i mod 8 < 8.
Proof.
  unfold in_map. intros Hi. pose proof (Z.div_mod i 8 ltac:(lia)). pose proof (Z.mod_pos_bound i 8 ltac:(lia)). lia.
Qed.

Lemma rd_total (l : mem) i : 0 <= i < len l -> rd l i = Ok (l !!! Z.to_nat i).
Proof.
  intros Hi. apply rd_lookup; [lia|]. apply list_lookup_lookup_total_lt. lia.
Qed.
Lemma byte_at l i : Forall is_byte l -> is_byte (l !!! i).
Proof.
  intros Hl. destruct (decide (i < length l)%nat).
  - eapply Forall_lookup_1; [exact Hl|]. by apply list_lookup_lookup_total_lt.
  - rewrite list_lookup_total_alt, lookup_ge_None_2 by lia. unfold is_byte. cbn. lia.
Qed.

Lemma u8_testbit z i : 0 <= i < 8 -> Z.testbit (u8 z) i = Z.testbit z i.
Proof. intros Hi. unfold u8. rewrite Z.mod_pow2_bits_low; [done|lia]. Qed.
Lemma testbit_one i j : 0 <= i -> 0 <= j -> Z.testbit (Z.shiftl 1 i) j = (j =? i).
Proof. intros Hi Hj. rewrite Z.shiftl_1_l, Z.pow2_bits_eqb by lia. apply Z.eqb_sym. Qed.

(** Two indices of the same byte and bit are the same. *)
Lemma same_bit i j : (j / 8 =? i / 8) && (j mod 8 =? i mod 8) = (j =? i).
Proof.
  pose proof (Z.div_mod i 8 ltac:(lia)). pose proof (Z.div_mod j 8 ltac:(lia)).
  destruct (Z.eqb_spec (j / 8) (i / 8)), (Z.eqb_spec (j mod 8) (i mod 8)), (Z.eqb_spec j i);
    subst; cbn; try done; lia.
Qed.

Lemma check_bitmap_spec l i : in_map l i -> check_bitmap l i = Ok (if bit_at l i then 1 else 0).
Proof.
  intros Hi. destruct (in_map_byte _ _ Hi) as [Hb Ho]. unfold check_bitmap, bit_at.
  rewrite rd_total by lia. cbn [obind]. set (b := l !!! _).
  assert (u8 (Z.land (Z.shiftl 1 (i mod 8)) b) = if Z.testbit b (i mod 8) then 2 ^ (i mod 8) else 0) as ->.
  { unfold u8. apply Z.bits_inj'. intros k Hk. rewrite Z.testbit_mod_pow2, Z.land_spec, testbit_one by lia.
    destruct (Z.eqb_spec k (i mod 8)) as [->|Hne].
    - rewrite (proj2 (Z.ltb_lt _ _)) by lia. destruct (Z.testbit b (i mod 8)); cbn;
        [by rewrite Z.pow2_bits_true by lia|by rewrite Z.bits_0].
    - rewrite andb_false_r. destruct (Z.testbit b _); [by rewrite Z.pow2_bits_false by lia|by rewrite Z.bits_0]. }
  destruct (Z.testbit b _); [|done].
  destruct (Z.eqb_spec (2 ^ (i mod 8)) 0) as [E|]; [|done]. pose proof (Z.pow_pos_nonneg 2 (i mod 8)). lia.
Qed.

(** Writing the byte of an index: what a bit is afterwards. *)
Lemma bit_at_insert l i v j :
  in_map l i -> 0 <= j ->
  bit_at (<[Z.to_nat (i / 8) := v]> l) j = if j / 8 =? i / 8 then Z.testbit v (j mod 8) else bit_at l j.
Proof.
  intros Hi Hj. destruct (in_map_byte _ _ Hi) as [Hb Ho]. unfold bit_at.
  assert (0 <= j / 8) by (apply Z.div_pos; lia).
  destruct (Z.eqb_spec (j / 8) (i / 8)) as [->|Hne].
  - by rewrite list_lookup_total_insert_eq by lia.
  - by rewrite list_lookup_total_insert_ne by lia.
Qed.

Lemma set_bitmap_spec l i : in_map l i ->
  exists l', set_bitmap l i = Ok l' /\ length l' = length l /\ (Forall is_byte l -> Forall is_byte l')
    /\ forall j, 0 <= j -> bit_at l' j = (j =? i) || bit_at l j.
Proof.
  intros Hi. destruct (in_map_byte _ _ Hi) as [Hb Ho]. unfold set_bitmap.
  rewrite rd_total by lia. cbn [obind]. rewrite wr_in_range by lia. eexists. split_and!; [done| | |].
  - by rewrite length_insert.
  - intros Hl. apply Forall_insert; [done|]. unfold is_byte, u8. pose proof (Z.mod_pos_bound
      (Z.lor (l !!! Z.to_nat (i / 8)) (Z.shiftl 1 (i mod 8))) (2 ^ 8)). lia.
  - intros j Hj. rewrite bit_at_insert by done. pose proof (Z.mod_pos_bound j 8 ltac:(lia)).
    rewrite <-(same_bit i j). destruct (Z.eqb_spec (j / 8) (i / 8)) as [E|Hne]; [|done]. cbn.
    rewrite u8_testbit, Z.lor_spec, testbit_one by lia. unfold bit_at. rewrite E. apply orb_comm.
Qed.

Lemma unset_bitmap_spec l i : in_map l i ->
  exists l', unset_bitmap l i = Ok l' /\ length l' = length l /\ (Forall is_byte l -> Forall is_byte l')
    /\ forall j, 0 <= j -> bit_at l' j = negb (j =? i) && bit_at l j.
Proof.
  intros Hi. destruct (in_map_byte _ _ Hi) as [Hb Ho]. unfold unset_bitmap.
  rewrite rd_total by lia. cbn [obind]. rewrite wr_in_range by lia. eexists. split_and!; [done| | |].
  - by rewrite length_insert.
  - intros Hl. apply Forall_insert; [done|]. unfold is_byte, u8. pose proof (Z.mod_pos_bound
      (Z.land (l !!! Z.to_nat (i / 8)) (Z.lnot (Z.shiftl 1 (i mod 8)))) (2 ^ 8)). lia.
  - intros j Hj. rewrite bit_at_insert by done. pose proof (Z.mod_pos_bound j 8 ltac:(lia)).
    rewrite <-(same_bit i j). destruct (Z.eqb_spec (j / 8) (i / 8)) as [E|Hne]; [|done]. cbn.
    rewrite u8_testbit, Z.land_spec, Z.lnot_spec, testbit_one by lia. unfold bit_at. rewrite E. apply andb_comm.
Qed.

(** A byte that is not 0xff has a clear bit; 0xff has none. *)
Lemma byte_full b : is_byte b -> (b =? 255) = true <-> forall k, 0 <= k < 8 -> Z.testbit b k = true.
Proof.
  unfold is_byte. intros Hb. rewrite Z.eqb_eq. split.
  - intros -> k Hk. change 255 with (Z.ones 8). by rewrite Z.ones_spec_low.
  - intros Hk. change 255 with (Z.ones 8). apply Z.bits_inj'. intros k Hk0.
    destruct (decide (k < 8)); [by rewrite Hk, Z.ones_spec_low by lia|].
    rewrite Z.ones_spec_high by lia. rewrite <-(Z.mod_small b (2 ^ 8)) by lia.
    by rewrite Z.mod_pow2_bits_high by lia.
Qed.
