(* ===== verification/FsData.v ===== *)
(** The data of the file system: constants and structures of include/os/fs.h,
    their layout in memory, the global buffers of kernel/fs/fs.c, and the
    accesses to blocks and bit maps that everything else is built on.

    A buffer is its byte array; a structure that the code copies to and from a
    buffer is a record with its byte layout ([inode_bytes], [dentry_bytes]).  A
    [char *] argument is the string it points to, without the end mark. *)

From S2P Require Import Prelude CString Bitmap Sd.

(** ** Constants *)

Definition FS_SIZE : Z := 0x40000000.
Definition FS_START_SD_OFFSET : Z := 0x20000000.
Definition FS_MAGIC_NUMBER : Z := 0x2e575159.
Definition SUPERBLOCK_BLOCK_INDEX : Z := 0.
Definition BLOCK_BMP_BLOCKS_NUM : Z := 8.
Definition BLOCK_BMP_BLOCK_INDEX : Z := 1.
Definition INODE_BMP_BLOCK_INDEX : Z := 9.
Definition INODE_TABLE_BLOCK_INDEX : Z := 10.
Definition DATA_BLOCK_INDEX : Z := 266.
Definition BLOCK_SIZE : Z := 0x1000.
Definition BLOCK_NUM : Z := 262144.       (* FS_SIZE / BLOCK_SIZE *)
Definition BLOCK_BITMAP_SIZE : Z := 32768. (* BLOCK_NUM / 8 *)
Definition INODE_SIZE : Z := 128.
Definition INODE_NUM : Z := 8192.
Definition INODE_BITMAP_SIZE : Z := 1024.
Definition INODE_NUM_PER_BLOCK : Z := 32.
Definition MAX_DIRECT_NUM : Z := 12.
Definition MAX_NAME_LENGTH : Z := 64.
Definition DENTRY_SIZE : Z := 128.
Definition MAX_PATH_LENGTH : Z := 512.
Definition DENTRY_NUM_PER_BLOCK : Z := 32.
Definition MAX_FILE_DESCRIPTOR_NUM : Z := 32.
Definition POINTER_PER_BLOCK : Z := 1024.
Definition FIRST_POINTER : Z := 12.
Definition SECOND_POINTER : Z := 1036.         (* FIRST_POINTER + 1024 *)
Definition THIRD_POINTER : Z := 1049612.       (* SECOND_POINTER + 1024^2 *)
Definition MAX_BLOCK_INDEX : Z := 1074791436.  (* THIRD_POINTER + 1024^3 *)
Definition MAX_LS_NUM : Z := 10.
Definition MAX_DENTRY_BLOCK_NUM : Z := 12.
Definition FILE_READ_MAX_LENGTH : Z := 20480.  (* 5 blocks *)
Definition FILE_WRITE_MAX_LENGTH : Z := 20480.
Definition CAT_MAX_LENGTH : Z := 20480.
Definition CAT_LENGTH : Z := 200.

Definition O_RDWR : Z := 2.
Definition S_IFMT : Z := 0xf000.
Definition S_IFLNK : Z := 0xa000.
Definition S_IFREG : Z := 0x8000.
Definition S_IFDIR : Z := 0x4000.
Definition S_ISDIR (m : Z) : bool := Z.land m S_IFMT =? S_IFDIR.
Definition S_ISLNK (m : Z) : bool := Z.land m S_IFMT =? S_IFLNK.

Definition ERROR_DUP_DIR_NAME : Z := -1.
Definition ERROR_NO_FREE_INODE : Z := -2.
Definition ERROR_NO_FREE_BLOCK : Z := -3.
Definition ERROR_DIR_NUM_INCORRECT : Z := -4.
Definition ERROR_DENTRY_SETTING_INCORRECT : Z := -5.

(** ** Words in a buffer *)

Definition get_word (buf : mem) (i : Z) : outcome Z := try! b := slice buf (4 * i) 4 in Ok (le_val b).
Definition set_word (buf : mem) (i v : Z) : outcome mem := splice buf (4 * i) (le_bytes 4 v).

(** The bytes of an array of words, and back. *)
Definition bytes_of_words (ws : list Z) : list Z := mjoin (le_bytes 4 <$> ws).
Fixpoint words_of_bytes (n : nat) (l : list Z) : list Z :=
  match n with O => [] | S n' => le_val (take 4 l) :: words_of_bytes n' (drop 4 l) end.

(** ** Structures *)

Record inode_t := mk_inode {
  i_fmode : Z;
  i_links_cnt : Z;
  i_fsize : Z;
  i_fnum : Z;
  i_atime : Z;
  i_ctime : Z;
  i_mtime : Z;
  i_direct_table : list Z;
  i_indirect_block_1_ptr : Z;
  i_indirect_block_2_ptr : Z;
  i_indirect_block_3_ptr : Z;
  i_num : Z;
  i_padding : list Z
}.
#[export] Instance inode_struct : Struct inode_t := fun i =>
  mk_inode (i_fmode i) (i_links_cnt i) (i_fsize i) (i_fnum i) (i_atime i) (i_ctime i) (i_mtime i)
    (i_direct_table i) (i_indirect_block_1_ptr i) (i_indirect_block_2_ptr i) (i_indirect_block_3_ptr i)
    (i_num i) (i_padding i).

(** The 32 words of an inode; the first holds the two half words. *)
Definition inode_words (i : inode_t) : list Z :=
  [i_fmode i + 2 ^ 16 * i_links_cnt i; i_fsize i; i_fnum i; i_atime i; i_ctime i; i_mtime i]
  ++ i_direct_table i
  ++ [i_indirect_block_1_ptr i; i_indirect_block_2_ptr i; i_indirect_block_3_ptr i; i_num i]
  ++ i_padding i.
Definition inode_of_words (w : list Z) : inode_t :=
  mk_inode (w !!! 0%nat mod 2 ^ 16) (w !!! 0%nat / 2 ^ 16) (w !!! 1%nat) (w !!! 2%nat) (w !!! 3%nat)
    (w !!! 4%nat) (w !!! 5%nat) (take 12 (drop 6 w)) (w !!! 18%nat) (w !!! 19%nat) (w !!! 20%nat)
    (w !!! 21%nat) (drop 22 w).
Definition inode_bytes (i : inode_t) : list Z := bytes_of_words (inode_words i).
Definition inode_of_bytes (l : list Z) : inode_t := inode_of_words (words_of_bytes 32 l).

Record dentry_t := mk_dentry { d_inum : Z; d_name : list Z; d_padding : list Z }.
#[export] Instance dentry_struct : Struct dentry_t := fun d => mk_dentry (d_inum d) (d_name d) (d_padding d).
Definition dentry_bytes (d : dentry_t) : list Z := le_bytes 4 (d_inum d) ++ d_name d ++ d_padding d.
Definition zero_dentry : dentry_t := mk_dentry 0 (replicate 64 0) (replicate 60 0).

Record file_descriptor_t := mk_fd { fd_inum : Z; fd_mode : Z; fd_r_offset : Z; fd_w_offset : Z }.
#[export] Instance fd_struct : Struct file_descriptor_t := fun f =>
  mk_fd (fd_inum f) (fd_mode f) (fd_r_offset f) (fd_w_offset f).
Definition zero_fd : file_descriptor_t := mk_fd 0 0 0 0.

(** The fields of the superblock, by their word in [superblock_buffer]. *)
Definition s_disk_size : Z := 0.
Definition s_block_size : Z := 1.
Definition s_magic : Z := 2.
Definition s_total_inodes_cnt : Z := 3.
Definition s_total_blocks_cnt : Z := 4.
Definition s_free_inode_cnt : Z := 5.
Definition s_free_blocks_cnt : Z := 6.
Definition s_blockbmp_block_index : Z := 7.
Definition s_inodebmp_block_index : Z := 8.
Definition s_inodetable_block_index : Z := 9.
Definition s_data_block_index : Z := 10.
Definition s_inode_size : Z := 12.
Definition s_dentry_size : Z := 13.

(** What the file system prints: an error, or the numbers of a report. *)
Inductive message := FS_ERROR (code : Z) | LINK_CANNOT_BE_DIR | Report (values : list Z).

(** ** The state *)

(** [stack_dentry] is what a [dentry_t] local of a function holds before it is
    assigned; [ticks] is what [get_ticks] returns. *)
Record fs (D : Type) := mk_fs {
  disk : D;
  superblock_buffer : mem;
  blockbmp_buffer : mem;
  inodebmp_block_buffer : mem;
  inodetable_block_buffer : mem;
  data_block_buffer : mem;
  dentry_block_buffer : mem;
  file_descriptor_table : list file_descriptor_t;
  find_file_buffer : mem;
  parse_file_buffer : mem;
  buffer0 : mem;
  buffer1 : mem;
  buffer2 : mem;
  buffer3 : mem;
  root_inode : inode_t;
  current_dir : inode_t;
  current_dir_link : inode_t;
  cat_buffer : mem;
  fread_buffer : mem;
  fwrite_buffer : mem;
  parent_buffer : mem;
  parent_buffer_1 : mem;
  parent_buffer_2 : mem;
  path_buffer : mem;
  name_buffer : mem;
  ls_buffer : mem;
  stack_dentry : dentry_t;
  ticks : Z;
  console : list message
}.
Arguments mk_fs {D}. Arguments disk {D}. Arguments superblock_buffer {D}. Arguments blockbmp_buffer {D}.
Arguments inodebmp_block_buffer {D}. Arguments inodetable_block_buffer {D}. Arguments data_block_buffer {D}.
Arguments dentry_block_buffer {D}. Arguments file_descriptor_table {D}. Arguments find_file_buffer {D}.
Arguments parse_file_buffer {D}. Arguments buffer0 {D}. Arguments buffer1 {D}. Arguments buffer2 {D}.
Arguments buffer3 {D}. Arguments root_inode {D}. Arguments current_dir {D}. Arguments current_dir_link {D}.
Arguments cat_buffer {D}. Arguments fread_buffer {D}. Arguments fwrite_buffer {D}. Arguments parent_buffer {D}.
Arguments parent_buffer_1 {D}. Arguments parent_buffer_2 {D}. Arguments path_buffer {D}. Arguments name_buffer {D}.
Arguments ls_buffer {D}. Arguments stack_dentry {D}. Arguments ticks {D}. Arguments console {D}.
#[export] Instance fs_struct D : Struct (fs D) := fun s =>
  mk_fs (disk s) (superblock_buffer s) (blockbmp_buffer s) (inodebmp_block_buffer s)
    (inodetable_block_buffer s) (data_block_buffer s) (dentry_block_buffer s) (file_descriptor_table s)
    (find_file_buffer s) (parse_file_buffer s) (buffer0 s) (buffer1 s) (buffer2 s) (buffer3 s)
    (root_inode s) (current_dir s) (current_dir_link s) (cat_buffer s) (fread_buffer s) (fwrite_buffer s)
    (parent_buffer s) (parent_buffer_1 s) (parent_buffer_2 s) (path_buffer s) (name_buffer s)
    (ls_buffer s) (stack_dentry s) (ticks s) (console s).

(** The state at boot: every global buffer is zero. *)
Definition zeros (n : Z) : mem := replicate (Z.to_nat n) 0.
Definition zero_inode : inode_t := mk_inode 0 0 0 0 0 0 0 (zeros 12) 0 0 0 0 (zeros 10).
Definition boot_fs {D} (d : D) (junk : dentry_t) (now : Z) : fs D :=
  mk_fs d (zeros BLOCK_SIZE) (zeros BLOCK_BITMAP_SIZE) (zeros BLOCK_SIZE) (zeros BLOCK_SIZE)
    (zeros BLOCK_SIZE) (zeros BLOCK_SIZE) (replicate 32 zero_fd) (zeros BLOCK_SIZE) (zeros MAX_PATH_LENGTH)
    (zeros BLOCK_SIZE) (zeros BLOCK_SIZE) (zeros BLOCK_SIZE) (zeros BLOCK_SIZE)
    zero_inode zero_inode zero_inode (zeros CAT_MAX_LENGTH) (zeros FILE_READ_MAX_LENGTH)
    (zeros FILE_WRITE_MAX_LENGTH) (zeros MAX_PATH_LENGTH) (zeros MAX_PATH_LENGTH) (zeros MAX_PATH_LENGTH)
    (zeros MAX_PATH_LENGTH) (zeros MAX_NAME_LENGTH) (zeros 1280) junk now [].

Section blocks.
  Context {D : Type} `{BlockDevice D}.
  Abbreviation Fs := (M (fs D)).

(** [f = v;] and [f = o;] for an access [o] that can fault. *)
Definition assign {T} (f : fs D -> T) {F : Field f} (v : T) : Fs unit := modify (put (fun _ => v)).
Definition assign_to {T} (f : fs D -> T) {F : Field f} (o : T -> outcome T) : Fs unit :=
  let! x := gets f in let! v := lift (o x) in assign f v.

Definition print (m : message) : Fs unit := modify (fun s => s <| console := console s ++ [m] |>).

(** ** The SD card *)

Definition sd_card_read (sd_offset size : Z) : Fs mem := fun s =>
  match sd_read sd_offset size (disk s) with
  | Ok (b, d) => Ok (b, s <| disk := d |>)
  | Fault f => Fault f
  end.
Definition sd_card_write (dest : mem) (sd_offset size : Z) : Fs unit := fun s =>
  match sd_write dest sd_offset size (disk s) with
  | Ok (_, d) => Ok (tt, s <| disk := d |>)
  | Fault f => Fault f
  end.

Definition write_block (block_index : Z) (block_buffer : mem) : Fs unit :=
  let sd_offset := u32 (block_index * BLOCK_SIZE + FS_START_SD_OFFSET) in
  sd_card_write block_buffer sd_offset BLOCK_SIZE.
(** [read_block]: the bytes that it stores at [block_buffer]. *)
Definition read_block (block_index : Z) : Fs mem :=
  let sd_offset := u32 (block_index * BLOCK_SIZE + FS_START_SD_OFFSET) in
  sd_card_read sd_offset BLOCK_SIZE.

(** ** Bit maps *)

Definition set_block_bmp (block_index : Z) : Fs unit :=
  assign_to blockbmp_buffer (fun b => set_bitmap b block_index).
Definition unset_block_bmp (block_index : Z) : Fs unit :=
  assign_to blockbmp_buffer (fun b => unset_bitmap b block_index).
Definition check_block_bmp (block_index : Z) : Fs Z :=
  let! b := gets blockbmp_buffer in lift (check_bitmap b block_index).
Definition set_inode_bmp (inum : Z) : Fs unit :=
  assign_to inodebmp_block_buffer (fun b => set_bitmap b inum).
Definition unset_inode_bmp (inum : Z) : Fs unit :=
  assign_to inodebmp_block_buffer (fun b => unset_bitmap b inum).
Definition check_inode_bmp (inum : Z) : Fs Z :=
  let! b := gets inodebmp_block_buffer in lift (check_bitmap b inum).

(** [while(check_bmp(j) == 1) j++;] *)
Fixpoint skip_used (fuel : nat) (check : Z -> Fs Z) (j : Z) : Fs Z :=
  match fuel with
  | O => throw Diverges
  | S fuel' => let! c := check j in if c =? 1 then skip_used fuel' check (j + 1) else ret j
  end.
(** The search loop; [None] when every byte is 0xff.  A byte that is not 0xff
    has a clear bit, so [skip_used] takes at most 8 rounds. *)
Fixpoint find_free_loop (n : nat) (bmp : fs D -> mem) (check : Z -> Fs Z) (i j : Z) : Fs (option Z) :=
  match n with
  | O => ret None
  | S n' =>
      let! buf := gets bmp in
      let! b := lift (rd buf i) in
      if b =? 0xff then find_free_loop n' bmp check (i + 1) (j + 8)
      else let! j := skip_used 9 check j in ret (Some j)
  end.
Definition find_free_inode : Fs Z :=
  let! r := find_free_loop (Z.to_nat INODE_BITMAP_SIZE) inodebmp_block_buffer check_inode_bmp 0 0 in
  match r with
  | Some j => ret j
  | None => do! print (FS_ERROR ERROR_NO_FREE_INODE); ret ERROR_NO_FREE_INODE
  end.
Definition find_free_block : Fs Z :=
  let! r := find_free_loop (Z.to_nat BLOCK_BITMAP_SIZE) blockbmp_buffer check_block_bmp 0 0 in
  match r with
  | Some j => ret j
  | None => do! print (FS_ERROR ERROR_NO_FREE_BLOCK); ret ERROR_NO_FREE_BLOCK
  end.

(** ** Synchronisation with the disk *)

Definition sync_to_disk_inode_bmp : Fs unit :=
  let! b := gets inodebmp_block_buffer in write_block INODE_BMP_BLOCK_INDEX b.
Definition sync_to_disk_block_bmp : Fs unit :=
  for_range 8 0 (fun i =>
    let! b := gets blockbmp_buffer in
    let! part := lift (slice b (BLOCK_SIZE * i) BLOCK_SIZE) in
    write_block (BLOCK_BMP_BLOCK_INDEX + i) part).
Definition sync_to_disk_superblock : Fs unit :=
  let! b := gets superblock_buffer in write_block SUPERBLOCK_BLOCK_INDEX b.
Definition sync_to_disk_inode_table (inode_table_offset : Z) : Fs unit :=
  let! b := gets inodetable_block_buffer in write_block (u32 (INODE_TABLE_BLOCK_INDEX + inode_table_offset)) b.
Definition sync_to_disk_file_data (block_index : Z) : Fs unit :=
  let! b := gets data_block_buffer in write_block block_index b.
Definition sync_to_disk_dentry (block_index : Z) : Fs unit :=
  let! b := gets dentry_block_buffer in write_block block_index b.

Definition sync_from_disk_inode_bmp : Fs unit :=
  let! b := read_block INODE_BMP_BLOCK_INDEX in assign inodebmp_block_buffer b.
Definition sync_from_disk_block_bmp : Fs unit :=
  for_range 8 0 (fun i =>
    let! b := read_block (BLOCK_BMP_BLOCK_INDEX + i) in
    assign_to blockbmp_buffer (fun buf => splice buf (BLOCK_SIZE * i) b)).
Definition sync_from_disk_superblock : Fs unit :=
  let! b := read_block SUPERBLOCK_BLOCK_INDEX in assign superblock_buffer b.
Definition sync_from_disk_inode_table (inode_table_offset : Z) : Fs unit :=
  let! b := read_block (u32 (INODE_TABLE_BLOCK_INDEX + inode_table_offset)) in assign inodetable_block_buffer b.
Definition sync_from_disk_file_data (block_index : Z) : Fs unit :=
  let! b := read_block block_index in assign data_block_buffer b.
Definition sync_from_disk_dentry (block_index : Z) : Fs unit :=
  let! b := read_block block_index in assign dentry_block_buffer b.

(** ** Inodes and the superblock *)

Definition clear_block_index (block_index : Z) : Fs unit :=
  do! assign buffer0 (zeros BLOCK_SIZE);
  let! b := gets buffer0 in write_block block_index b.
Definition write_to_buffer_inode (inode_ptr : inode_t) : Fs unit :=
  assign_to inodetable_block_buffer
    (fun b => splice b (i_num inode_ptr mod INODE_NUM_PER_BLOCK * INODE_SIZE) (inode_bytes inode_ptr)).
(** [sync_from_disk_inode]: the inode that it stores at [inode_ptr]. *)
Definition sync_from_disk_inode (inum : Z) : Fs inode_t :=
  let inode_table_offset := inum / INODE_NUM_PER_BLOCK in
  do! sync_from_disk_inode_table inode_table_offset;
  let! b := gets inodetable_block_buffer in
  let! l := lift (slice b (inum mod INODE_NUM_PER_BLOCK * INODE_SIZE) INODE_SIZE) in
  ret (inode_of_bytes l).
Definition sync_to_disk_inode (inode_ptr : inode_t) : Fs unit :=
  do! assign inodetable_block_buffer (zeros BLOCK_SIZE);
  let inode_table_offset := i_num inode_ptr / INODE_NUM_PER_BLOCK in
  do! sync_from_disk_inode_table inode_table_offset;
  do! write_to_buffer_inode inode_ptr;
  sync_to_disk_inode_table inode_table_offset.

Definition get_sb (field : Z) : Fs Z := let! b := gets superblock_buffer in lift (get_word b field).
Definition set_sb (field v : Z) : Fs unit := assign_to superblock_buffer (fun b => set_word b field v).
Definition decr_sb (field : Z) : Fs unit := let! v := get_sb field in set_sb field (u32 (v - 1)).

(** [set_block_bmp(find_free_block()); sync; s_free_blocks_cnt--; sync], the
    sequence that allocates a block. *)
Definition allocate_block : Fs Z :=
  let! free_index := find_free_block in
  let free_index := u32 free_index in
  do! set_block_bmp free_index;
  do! sync_to_disk_block_bmp;
  do! decr_sb s_free_blocks_cnt;
  do! sync_to_disk_superblock;
  ret free_index.
Definition allocate_inode : Fs Z :=
  let! free_inum := find_free_inode in
  let free_inum := u32 free_inum in
  do! set_inode_bmp free_inum;
  do! sync_to_disk_inode_bmp;
  do! decr_sb s_free_inode_cnt;
  do! sync_to_disk_superblock;
  ret free_inum.

End blocks.
