(* ===== verification/FsOps.v ===== *)
(** The operations of kernel/fs/fs.c, function by function.

    A pointer to an inode that a function only reads is an argument; one that
    it also changes is an argument and a result.  Strings are read from a
    buffer with [str_at], which faults when the buffer holds no end mark. *)

From S2P Require Import Prelude CString Bitmap Sd FsData.

Definition char_slash : Z := 47. (* '/' *)
Definition char_dot : Z := 46.   (* '.' *)
Definition NOT_FOUND : Z := u32 (-1).

(** The string at [p]; [strcpy] of a string to [p]; [strcmp] of a string with
    the one at [p] (the two regions side by side). *)
Definition str_at (m : mem) (p : Z) : outcome mem := try! n := strlen m p in slice m p n.
Definition strcpy_to (m : mem) (p : Z) (s : mem) : outcome mem := splice m p (s ++ [0]).
Definition strcmp_at (s m : mem) (p : Z) : outcome Z := strcmp (s ++ 0 :: m) 0 (len s + 1 + p).

(** A computation with a local variable [l]. *)
Definition with_local {S L A} (l : L) (m : M (S * L) A) : M S A := fun s =>
  match m (s, l) with Ok (a, (s', _)) => Ok (a, s') | Fault f => Fault f end.
Definition zoom {S L A} (m : M S A) : M (S * L) A := fun sl =>
  match m (fst sl) with Ok (a, s') => Ok (a, (s', snd sl)) | Fault f => Fault f end.
Definition local {S L} : M (S * L) L := fun sl => Ok (snd sl, sl).
Definition set_local {S L} (l : L) : M (S * L) unit := fun sl => Ok (tt, (fst sl, l)).

Section operations.
  Context {D : Type} `{BlockDevice D}.
  Abbreviation Fs := (M (fs D)).

(** ** Paths *)

Fixpoint count_char_loop (fuel : nat) (c : Z) (str : mem) (i cnt : Z) : outcome Z :=
  match fuel with
  | O => Fault Diverges
  | S fuel' =>
      try! x := rd str i in
      if x =? 0 then Ok cnt
      else count_char_loop fuel' c str (i + 1) (if x =? c then cnt + 1 else cnt)
  end.
Definition count_char_in_string (c : Z) (str : mem) : outcome Z := count_char_loop (S (length str)) c str 0 0.

(** [separate_path]: the new contents of [parent] and [name]. *)
Definition separate_path (path parent name : mem) : outcome (mem * mem) :=
  try! parent := strcpy_to parent 0 path in
  try! loc := strrchr parent (Some 0) char_slash in
  match loc with
  | None => Fault NullDeref
  | Some loc =>
      try! tail := str_at parent (loc + 1) in
      try! name := strcpy_to name 0 tail in
      try! name := wr name (len tail) 0 in
      let loc := if loc =? 0 then loc + 1 else loc in
      try! parent := wr parent loc 0 in
      Ok (parent, name)
  end.
(** [separate_path(path_buffer, parent_buffer, name_buffer)] *)
Definition separate_path_buffers : Fs unit :=
  let! pb := gets path_buffer in
  let! path := lift (str_at pb 0) in
  let! parent := gets parent_buffer in
  let! name := gets name_buffer in
  let! r := lift (separate_path path parent name) in
  do! assign parent_buffer (fst r);
  assign name_buffer (snd r).
(** [separate_path(parent_buffer, parent_buffer_1, parent_buffer_2)] *)
Definition separate_path_parents : Fs unit :=
  let! pb := gets parent_buffer in
  let! path := lift (str_at pb 0) in
  let! parent := gets parent_buffer_1 in
  let! name := gets parent_buffer_2 in
  let! r := lift (separate_path path parent name) in
  do! assign parent_buffer_1 (fst r);
  assign parent_buffer_2 (snd r).
Definition clear_path_buffers : Fs unit :=
  do! assign parent_buffer (zeros MAX_PATH_LENGTH);
  do! assign path_buffer (zeros MAX_PATH_LENGTH);
  assign name_buffer (zeros MAX_NAME_LENGTH).
(** The string in a buffer. *)
Definition str_in (f : fs D -> mem) : Fs mem := let! b := gets f in lift (str_at b 0).

(** ** Block pointers of an inode *)

Definition clear_pointer_buffers : Fs unit :=
  do! assign buffer1 (zeros BLOCK_SIZE);
  do! assign buffer2 (zeros BLOCK_SIZE);
  assign buffer3 (zeros BLOCK_SIZE).
(** [read_block(b, bufferN)] and [bufferN[i]]. *)
Definition load_pointers (f : fs D -> mem) {F : Field f} (b : Z) : Fs unit :=
  let! l := read_block b in assign f l.
Definition pointer (f : fs D -> mem) (i : Z) : Fs Z := let! l := gets f in lift (get_word l i).

Definition get_block_index_in_inode (inode_ptr : inode_t) (idx : Z) : Fs Z :=
  do! clear_pointer_buffers;
  if idx <? FIRST_POINTER then let! b := lift (rd (i_direct_table inode_ptr) idx) in ret (i32 b)
  else if idx <? SECOND_POINTER then
    if i_indirect_block_1_ptr inode_ptr =? 0 then ret (-1)
    else
      do! load_pointers buffer1 (i_indirect_block_1_ptr inode_ptr);
      let! b := pointer buffer1 (idx - FIRST_POINTER) in
      ret (i32 b)
  else if idx <? THIRD_POINTER then
    if i_indirect_block_1_ptr inode_ptr =? 0 then ret (-1)
    else
      do! load_pointers buffer1 (i_indirect_block_1_ptr inode_ptr);
      let! b1 := pointer buffer1 ((idx - SECOND_POINTER) / POINTER_PER_BLOCK) in
      if b1 =? 0 then ret (-1)
      else
        do! load_pointers buffer2 b1;
        let! b := pointer buffer2 ((idx - SECOND_POINTER) mod POINTER_PER_BLOCK) in
        ret (i32 b)
  else if idx <? MAX_BLOCK_INDEX then
    if i_indirect_block_1_ptr inode_ptr =? 0 then ret (-1)
    else
      do! load_pointers buffer1 (i_indirect_block_1_ptr inode_ptr);
      let! b1 := pointer buffer1 ((idx - THIRD_POINTER) / (POINTER_PER_BLOCK * POINTER_PER_BLOCK)) in
      if b1 =? 0 then ret (-1)
      else
        do! load_pointers buffer2 b1;
        let! b2 := pointer buffer2
          ((idx - THIRD_POINTER) mod (POINTER_PER_BLOCK * POINTER_PER_BLOCK) / POINTER_PER_BLOCK) in
        if b2 =? 0 then ret (-1)
        else
          do! load_pointers buffer3 b2;
          let! b := pointer buffer3 ((idx - THIRD_POINTER) mod POINTER_PER_BLOCK) in
          ret (i32 b)
  else throw NoReturnValue.

(** A new, cleared pointer block, counted in the size of the inode:
    [allocate; clear_block_index(free); i_fsize += BLOCK_SIZE]. *)
Definition new_pointer_block (inode_ptr : inode_t) : Fs (Z * inode_t) :=
  let! free_index := allocate_block in
  do! clear_block_index free_index;
  ret (free_index, inode_ptr <| i_fsize := u32 (i_fsize inode_ptr + BLOCK_SIZE) |>).
(** [bufferN[i] = v; write_block(b, bufferN)] *)
Definition store_pointer (f : fs D -> mem) {F : Field f} (b i v : Z) : Fs unit :=
  do! assign_to f (fun l => set_word l i v);
  let! l := gets f in write_block b l.

(** The case [idx < THIRD_POINTER]; the code goes on behind it. *)
Definition write_double_indirect (inode_ptr : inode_t) (idx block_index : Z) : Fs inode_t :=
  let! inode_ptr :=
    if i_indirect_block_2_ptr inode_ptr =? 0 then
      let! r := new_pointer_block inode_ptr in
      let inode_ptr := (snd r) <| i_indirect_block_2_ptr := fst r |> in
      do! sync_to_disk_inode inode_ptr; ret inode_ptr
    else ret inode_ptr in
  do! load_pointers buffer1 (i_indirect_block_2_ptr inode_ptr);
  let! b1 := pointer buffer1 ((idx - SECOND_POINTER) / POINTER_PER_BLOCK) in
  let! inode_ptr :=
    if b1 =? 0 then
      let! r := new_pointer_block inode_ptr in
      do! sync_to_disk_inode (snd r);
      do! store_pointer buffer1 (i_indirect_block_2_ptr (snd r)) ((idx - SECOND_POINTER) / POINTER_PER_BLOCK) (fst r);
      ret (snd r)
    else ret inode_ptr in
  let! b1 := pointer buffer1 ((idx - SECOND_POINTER) / POINTER_PER_BLOCK) in
  do! load_pointers buffer2 b1;
  do! store_pointer buffer2 b1 ((idx - SECOND_POINTER) mod POINTER_PER_BLOCK) block_index;
  ret inode_ptr.

(** The case [idx < MAX_BLOCK_INDEX]; [idx - THIRD_POINTER] is unsigned. *)
Definition write_triple_indirect (inode_ptr : inode_t) (idx block_index : Z) : Fs inode_t :=
  let off := u32 (idx - THIRD_POINTER) in
  let! inode_ptr :=
    if i_indirect_block_3_ptr inode_ptr =? 0 then
      let! r := new_pointer_block inode_ptr in
      let inode_ptr := (snd r) <| i_indirect_block_3_ptr := fst r |> in
      do! sync_to_disk_inode inode_ptr; ret inode_ptr
    else ret inode_ptr in
  do! load_pointers buffer1 (i_indirect_block_3_ptr inode_ptr);
  let! b1 := pointer buffer1 (off / (POINTER_PER_BLOCK * POINTER_PER_BLOCK)) in
  let! inode_ptr :=
    if b1 =? 0 then
      let! r := new_pointer_block inode_ptr in
      do! sync_to_disk_inode (snd r);
      do! store_pointer buffer1 (i_indirect_block_2_ptr (snd r)) (off / (POINTER_PER_BLOCK * POINTER_PER_BLOCK)) (fst r);
      ret (snd r)
    else ret inode_ptr in
  let! b1 := pointer buffer1 (off / (POINTER_PER_BLOCK * POINTER_PER_BLOCK)) in
  do! load_pointers buffer2 b1;
  let! b2 := pointer buffer2 (off mod (POINTER_PER_BLOCK * POINTER_PER_BLOCK) / POINTER_PER_BLOCK) in
  let! inode_ptr :=
    if b2 =? 0 then
      let! r := new_pointer_block inode_ptr in
      do! sync_to_disk_inode (snd r);
      do! store_pointer buffer2 b1 (off mod (POINTER_PER_BLOCK * POINTER_PER_BLOCK) / POINTER_PER_BLOCK) (fst r);
      ret (snd r)
    else ret inode_ptr in
  let! b2 := pointer buffer2 (off mod (POINTER_PER_BLOCK * POINTER_PER_BLOCK) / POINTER_PER_BLOCK) in
  do! load_pointers buffer3 b2;
  do! store_pointer buffer3 b2 (off mod POINTER_PER_BLOCK) block_index;
  ret inode_ptr.

Definition write_block_index_in_inode (inode_ptr : inode_t) (idx block_index : Z) : Fs inode_t :=
  do! clear_pointer_buffers;
  if idx <? FIRST_POINTER then
    let! t := lift (wr (i_direct_table inode_ptr) idx block_index) in
    let inode_ptr := inode_ptr <| i_direct_table := t |> in
    do! sync_to_disk_inode inode_ptr; ret inode_ptr
  else if idx <? SECOND_POINTER then
    let! inode_ptr :=
      if i_indirect_block_1_ptr inode_ptr =? 0 then
        let! r := new_pointer_block inode_ptr in
        let inode_ptr := (snd r) <| i_indirect_block_1_ptr := fst r |> in
        do! sync_to_disk_inode inode_ptr; ret inode_ptr
      else ret inode_ptr in
    do! load_pointers buffer1 (i_indirect_block_1_ptr inode_ptr);
    do! store_pointer buffer1 (i_indirect_block_1_ptr inode_ptr) (idx - FIRST_POINTER) block_index;
    ret inode_ptr
  else
    let! inode_ptr :=
      if idx <? THIRD_POINTER then write_double_indirect inode_ptr idx block_index else ret inode_ptr in
    if idx <? MAX_BLOCK_INDEX then write_triple_indirect inode_ptr idx block_index else ret inode_ptr.

(** ** Directory entries *)

(** [dentry_table[minor] = *dentry_ptr]; a result [None] is the [return;]
    without a value. *)
Definition write_dentry (inode_ptr : inode_t) (dnum : Z) (dentry_ptr : dentry_t) : Fs (option Z * inode_t) :=
  if dnum <? 2 then
    do! print (FS_ERROR ERROR_DIR_NUM_INCORRECT); ret (Some ERROR_DIR_NUM_INCORRECT, inode_ptr)
  else if u32 (i_fnum inode_ptr + 2) <? dnum then
    do! print (FS_ERROR ERROR_DENTRY_SETTING_INCORRECT); ret (Some ERROR_DENTRY_SETTING_INCORRECT, inode_ptr)
  else
    let major_index := dnum / DENTRY_NUM_PER_BLOCK in
    let minor_index := dnum mod DENTRY_NUM_PER_BLOCK in
    do! assign dentry_block_buffer (zeros BLOCK_SIZE);
    let! b := get_block_index_in_inode inode_ptr major_index in
    let! inode_ptr :=
      if b =? 0 then
        let! free_block_index := allocate_block in
        let! inode_ptr := write_block_index_in_inode inode_ptr major_index free_block_index in
        let inode_ptr := inode_ptr <| i_fsize := u32 (i_fsize inode_ptr + BLOCK_SIZE) |>
                                   <| i_fnum := u32 (i_fnum inode_ptr + 1) |> in
        do! sync_to_disk_inode inode_ptr; ret inode_ptr
      else
        let inode_ptr := inode_ptr <| i_fnum := u32 (i_fnum inode_ptr + 1) |> in
        do! sync_to_disk_inode inode_ptr;
        let! b := get_block_index_in_inode inode_ptr major_index in
        let! l := read_block (u32 b) in
        do! assign dentry_block_buffer l;
        ret inode_ptr in
    do! assign_to dentry_block_buffer (fun l => splice l (DENTRY_SIZE * minor_index) (dentry_bytes dentry_ptr));
    let! b := get_block_index_in_inode inode_ptr major_index in
    let! l := gets dentry_block_buffer in
    do! write_block (u32 b) l;
    ret (None, inode_ptr).

Definition remove_dentry (inode_ptr : inode_t) (dnum : Z) : Fs inode_t :=
  let! r := write_dentry inode_ptr dnum zero_dentry in
  let inode_ptr := (snd r) <| i_fnum := u32 (i_fnum (snd r) - 1) |> in
  do! sync_to_disk_inode inode_ptr;
  ret inode_ptr.

(** [read_dentry]: the bytes that it stores at [dentry_ptr]. *)
Definition read_dentry (inode_ptr : inode_t) (dnum : Z) : Fs mem :=
  let major_loc := dnum / DENTRY_NUM_PER_BLOCK in
  let minor_loc := dnum mod DENTRY_NUM_PER_BLOCK in
  do! assign find_file_buffer (zeros BLOCK_SIZE);
  let! b := get_block_index_in_inode inode_ptr major_loc in
  let! l := read_block (u32 b) in
  do! assign find_file_buffer l;
  lift (slice l (DENTRY_SIZE * minor_loc) DENTRY_SIZE).

(** [p[j].d_name] and [p[j].d_inum] in a block of entries. *)
Definition name_pos (j : Z) : Z := DENTRY_SIZE * j + 4.
Definition inum_at (l : mem) (j : Z) : outcome Z := get_word l (32 * j).

(** [for(; j < DENTRY_NUM_PER_BLOCK; j++) if(strcmp(name, p[j].d_name) == 0) return ...;]
    with [n] rounds left: the [j] of the match, or [None] when [j] reaches the end. *)
Fixpoint scan_dentries (n : nat) (name p : mem) (j : Z) : outcome (option Z) :=
  match n with
  | O => Ok None
  | S n' =>
      try! c := strcmp_at name p (name_pos j) in
      if c =? 0 then Ok (Some j) else scan_dentries n' name p (j + 1)
  end.

(** The search of [find_file], [_find_file] and [find_dentry]: [rounds] blocks,
    the local [j] is not reset between blocks; [result i j] is what the code
    returns for a match. *)
Definition search_dir (rounds : positive) (inode_ptr : inode_t) (name : mem) (result : Z -> Z -> Fs Z) : Fs Z :=
  do! assign find_file_buffer (zeros BLOCK_SIZE);
  with_local 0 (
    let! r := for_until_pos rounds 0 (fun i =>
      let! b := zoom (get_block_index_in_inode inode_ptr i) in
      let! l := zoom (read_block (u32 b)) in
      do! zoom (assign find_file_buffer l);
      let! j := local in
      let! m := lift (scan_dentries (Z.to_nat (DENTRY_NUM_PER_BLOCK - j)) name l j) in
      match m with
      | Some j => let! v := zoom (result i j) in ret (Some v)
      | None => do! set_local DENTRY_NUM_PER_BLOCK; ret None
      end) in
    match r with Some v => ret v | None => ret (-1) end).

Definition entry_inum (_ j : Z) : Fs Z :=
  let! l := gets find_file_buffer in let! v := lift (inum_at l j) in ret (i32 v).
Definition find_file (inode_ptr : inode_t) (name : mem) : Fs Z :=
  search_dir (Z.to_pos MAX_BLOCK_INDEX) inode_ptr name entry_inum.
Definition _find_file (inode_ptr : inode_t) (name : mem) : Fs Z :=
  search_dir 2 inode_ptr name entry_inum.
Definition find_dentry (inode_ptr : inode_t) (name : mem) : Fs Z :=
  search_dir (Z.to_pos MAX_DENTRY_BLOCK_NUM) inode_ptr name (fun i j => ret (i * DENTRY_NUM_PER_BLOCK + j)).

(** The loop of [parse_path] over the [l] characters; [_p] is the start of the
    current component, [inum] the last inode number found. *)
Fixpoint parse_path_loop (n : nat) (i _p : Z) (_inode : inode_t) (inum : option Z) : Fs (option Z) :=
  match n with
  | O => ret inum
  | S n' =>
      let! b := gets parse_file_buffer in
      let! c := lift (rd b i) in
      if c =? char_slash then
        do! assign_to parse_file_buffer (fun b => wr b i 0);
        let! b := gets parse_file_buffer in
        let! component := lift (str_at b _p) in
        let! found := find_file _inode component in
        let inum := u32 found in
        let! _inode := sync_from_disk_inode inum in
        parse_path_loop n' (i + 1) (i + 1) _inode (Some inum)
      else parse_path_loop n' (i + 1) _p _inode inum
  end.
Definition parse_path (path : mem) (inode_ptr : inode_t) : Fs Z :=
  do! assign parse_file_buffer (zeros MAX_PATH_LENGTH);
  do! assign_to parse_file_buffer (fun b => strcpy_to b 0 path);
  let! b := gets parse_file_buffer in
  let! n := lift (strlen b 0) in
  do! assign_to parse_file_buffer (fun b => strcpy_to b n [char_slash]);
  let! b := gets parse_file_buffer in
  let! l := lift (strlen b 0) in
  let! r := parse_path_loop (Z.to_nat l) 0 0 inode_ptr None in
  match r with Some inum => ret inum | None => throw NoReturnValue end.

End operations.
