(* ===== verification/FsCalls.v ===== *)
(** The system calls of kernel/fs/fs.c: creating and mounting the file system,
    directories, files, links.

    Buffers of the caller are arguments and results: a [char *] that is read is
    the bytes it points to, one that is filled is returned. *)

From S2P Require Import Prelude CString Bitmap Sd FsData FsOps.

Section calls.
Context {D : Type} `{BlockDevice D}.
Abbreviation Fs := (M (fs D)).

(** ** Releasing the blocks of an inode

    The result [Some tt] is a [return] out of the loops. *)

Definition release_direct (inode_ptr : inode_t) : Fs (option unit) :=
  for_until 12 0 (fun i =>
    let! b := lift (rd (i_direct_table inode_ptr) i) in
    if b =? 0 then ret (Some tt) else do! unset_block_bmp b; ret None).

(** The innermost loop over a pointer block in [f]; [parents] are released when
    the block ends early. *)
Definition release_entries (f : fs D -> mem) (parents : Fs unit) : Fs (option unit) :=
  for_until (Z.to_nat POINTER_PER_BLOCK) 0 (fun k =>
    let! b := pointer f k in
    if b =? 0 then do! parents; ret (Some tt) else do! unset_block_bmp b; ret None).

Definition release_1 (ptr : Z) : Fs (option unit) :=
  if ptr =? 0 then ret (Some tt)
  else
    do! load_pointers buffer1 ptr;
    let! r := release_entries buffer1 (unset_block_bmp ptr) in
    match r with Some _ => ret r | None => do! unset_block_bmp ptr; ret None end.

Definition release_2 (ptr : Z) : Fs (option unit) :=
  if ptr =? 0 then ret (Some tt)
  else
    do! load_pointers buffer1 ptr;
    let! r := for_until (Z.to_nat POINTER_PER_BLOCK) 0 (fun i =>
      let! b := pointer buffer1 i in
      if b =? 0 then do! unset_block_bmp ptr; ret (Some tt)
      else
        do! load_pointers buffer2 b;
        let! r := release_entries buffer2 (do! unset_block_bmp b; unset_block_bmp ptr) in
        match r with Some _ => ret r | None => do! unset_block_bmp b; ret None end) in
    match r with Some _ => ret r | None => do! unset_block_bmp ptr; ret None end.

Definition release_3 (ptr : Z) : Fs (option unit) :=
  if ptr =? 0 then ret (Some tt)
  else
    do! load_pointers buffer1 ptr;
    let! r := for_until (Z.to_nat POINTER_PER_BLOCK) 0 (fun i =>
      let! b := pointer buffer1 i in
      if b =? 0 then do! unset_block_bmp ptr; ret (Some tt)
      else
        do! load_pointers buffer2 b;
        let! r := for_until (Z.to_nat POINTER_PER_BLOCK) 0 (fun j =>
          let! c := pointer buffer2 j in
          if c =? 0 then do! unset_block_bmp b; do! unset_block_bmp ptr; ret (Some tt)
          else
            do! load_pointers buffer3 c;
            let! r := release_entries buffer3
              (do! unset_block_bmp c; do! unset_block_bmp b; unset_block_bmp ptr) in
            match r with Some _ => ret r | None => do! unset_block_bmp c; ret None end) in
        match r with Some _ => ret r | None => do! unset_block_bmp b; ret None end) in
    match r with Some _ => ret r | None => do! unset_block_bmp ptr; ret None end.

Definition release_inode_block (inode_ptr : inode_t) : Fs unit :=
  do! clear_pointer_buffers;
  let! r := release_direct inode_ptr in
  match r with Some _ => ret tt | None =>
    let! r := release_1 (i_indirect_block_1_ptr inode_ptr) in
    match r with Some _ => ret tt | None =>
      let! r := release_2 (i_indirect_block_2_ptr inode_ptr) in
      match r with Some _ => ret tt | None =>
        do! release_3 (i_indirect_block_3_ptr inode_ptr); ret tt
      end
    end
  end.

(** ** Creating and mounting *)

(** The numbers that are printed about the superblock. *)
Fixpoint read_fields (fields : list (Z * Z)) : Fs (list Z) :=
  match fields with
  | [] => ret []
  | (f, scale) :: r => let! v := get_sb f in let! l := read_fields r in ret (u32 (v * scale) :: l)
  end.
Definition layout_fields : list (Z * Z) :=
  [(s_blockbmp_block_index, 1); (s_blockbmp_block_index, BLOCK_SIZE);
   (s_inodebmp_block_index, 1); (s_inodebmp_block_index, BLOCK_SIZE);
   (s_inodetable_block_index, 1); (s_inodetable_block_index, BLOCK_SIZE);
   (s_data_block_index, 1); (s_inode_size, 1); (s_dentry_size, 1)].
Definition print_superblock : Fs unit :=
  let! l := read_fields ([(s_magic, 1); (s_disk_size, 1); (s_block_size, 1); (s_total_blocks_cnt, 1);
    (s_free_blocks_cnt, 1); (s_total_inodes_cnt, 1); (s_free_inode_cnt, 1)] ++ layout_fields) in
  print (Report l).
Definition print_new_superblock : Fs unit :=
  let! l := read_fields ([(s_magic, 1); (s_disk_size, 1); (s_block_size, 1); (s_total_blocks_cnt, 1);
    (s_total_inodes_cnt, 1)] ++ layout_fields) in
  print (Report l).

(** An inode with one block (or none, [block = 0]) as the calls initialise it. *)
Definition fresh_inode (mode size now block num : Z) : inode_t :=
  mk_inode mode 1 size 0 now now now (block :: zeros 11) 0 0 0 num (zeros 10).

(** The entries "." and ".." in [dentry_block_buffer]. *)
Definition write_dots (self parent : Z) : Fs unit :=
  do! assign_to dentry_block_buffer (fun l => set_word l 0 self);
  do! assign_to dentry_block_buffer (fun l => strcpy_to l (name_pos 0) [char_dot]);
  do! assign_to dentry_block_buffer (fun l => set_word l 32 parent);
  assign_to dentry_block_buffer (fun l => strcpy_to l (name_pos 1) [char_dot; char_dot]).

Definition mkfs_superblock : Fs unit :=
  do! set_sb s_magic FS_MAGIC_NUMBER;
  do! set_sb s_disk_size FS_SIZE;
  do! set_sb s_block_size BLOCK_SIZE;
  do! set_sb s_total_blocks_cnt BLOCK_NUM;
  do! set_sb s_total_inodes_cnt INODE_NUM;
  do! set_sb s_blockbmp_block_index BLOCK_BMP_BLOCK_INDEX;
  do! set_sb s_inodebmp_block_index INODE_BMP_BLOCK_INDEX;
  do! set_sb s_inodetable_block_index INODE_TABLE_BLOCK_INDEX;
  do! set_sb s_data_block_index DATA_BLOCK_INDEX;
  do! set_sb s_free_blocks_cnt (BLOCK_NUM - DATA_BLOCK_INDEX);
  do! set_sb s_free_inode_cnt INODE_NUM;
  do! set_sb s_inode_size INODE_SIZE;
  do! set_sb s_dentry_size DENTRY_SIZE;
  sync_to_disk_superblock.
Definition mkfs_clear : Fs unit :=
  do! assign data_block_buffer (zeros BLOCK_SIZE);
  do! assign superblock_buffer (zeros BLOCK_SIZE);
  do! assign blockbmp_buffer (zeros BLOCK_BITMAP_SIZE);
  do! assign inodebmp_block_buffer (zeros BLOCK_SIZE);
  do! assign dentry_block_buffer (zeros BLOCK_SIZE);
  do! assign inodetable_block_buffer (zeros BLOCK_SIZE);
  do! assign file_descriptor_table (replicate 32 zero_fd);
  do! assign parent_buffer (zeros MAX_PATH_LENGTH);
  do! assign name_buffer (zeros MAX_NAME_LENGTH);
  do! sync_to_disk_block_bmp;
  sync_to_disk_inode_bmp.
Definition mkfs_bitmaps : Fs unit :=
  do! for_range (Z.to_nat DATA_BLOCK_INDEX) 0 set_block_bmp;
  do! sync_to_disk_block_bmp;
  do! set_inode_bmp 0;
  do! sync_to_disk_inode_bmp;
  do! decr_sb s_free_inode_cnt;
  do! sync_to_disk_superblock;
  do! set_block_bmp DATA_BLOCK_INDEX;
  do! sync_to_disk_block_bmp;
  do! decr_sb s_free_blocks_cnt;
  sync_to_disk_superblock.
Definition mkfs_root : Fs unit :=
  let! now := gets ticks in
  do! assign root_inode (fresh_inode (Z.lor S_IFDIR 493 (* 0755 *)) BLOCK_SIZE now DATA_BLOCK_INDEX 0);
  let! root := gets root_inode in
  do! sync_to_disk_inode root;
  do! write_dots 0 0;
  do! sync_to_disk_dentry DATA_BLOCK_INDEX;
  let! root := gets root_inode in
  assign current_dir root.
Definition do_mkfs : Fs unit :=
  do! mkfs_clear;
  do! mkfs_superblock;
  do! mkfs_bitmaps;
  do! mkfs_root;
  print_new_superblock.

Definition init_fs : Fs unit :=
  do! sync_from_disk_superblock;
  let! magic := get_sb s_magic in
  if magic =? FS_MAGIC_NUMBER then
    do! sync_from_disk_block_bmp;
    do! sync_from_disk_inode_bmp;
    let! root := sync_from_disk_inode 0 in
    do! assign root_inode root;
    do! assign current_dir root;
    print_superblock
  else do_mkfs.

Definition do_statfs : Fs unit :=
  do! sync_from_disk_superblock;
  print_superblock.

(** ** Directories *)

(** A local [dentry_t] with its number and name assigned. *)
Definition named_dentry (inum : Z) (name : mem) : Fs dentry_t :=
  let! junk := gets stack_dentry in
  let! n := lift (strcpy_to (d_name junk) 0 name) in
  ret (mk_dentry inum n (d_padding junk)).

Definition do_mkdir (path : mem) (mode : Z) : Fs Z :=
  do! clear_path_buffers;
  do! assign_to path_buffer (fun b => splice b 0 path);
  do! assign_to path_buffer (fun b => wr b (len path) 0);
  do! separate_path_buffers;
  let! cwd := gets current_dir in
  let! parent := str_in parent_buffer in
  let! found := find_file cwd parent in
  let parent_inum := u32 found in
  do! sync_from_disk_block_bmp;
  do! sync_from_disk_inode_bmp;
  let! parent_inode := sync_from_disk_inode parent_inum in
  let! name := str_in name_buffer in
  let! dup := find_dentry parent_inode name in
  if dup =? -1 then
    let! free_inum := allocate_inode in
    let! free_block_index := allocate_block in
    let! now := gets ticks in
    do! sync_to_disk_inode (fresh_inode (u16 (Z.lor S_IFDIR mode)) BLOCK_SIZE now free_block_index free_inum);
    do! assign dentry_block_buffer (zeros BLOCK_SIZE);
    do! write_dots free_inum parent_inum;
    do! sync_to_disk_dentry free_block_index;
    let! name := str_in name_buffer in
    let! parent_dentry := named_dentry free_inum name in
    do! write_dentry parent_inode (u32 (i_fnum parent_inode + 2)) parent_dentry;
    ret 0
  else
    do! print (FS_ERROR ERROR_DUP_DIR_NAME);
    ret (u32 ERROR_DUP_DIR_NAME).

Definition do_rmdir (path : mem) : Fs unit :=
  do! sync_from_disk_block_bmp;
  do! sync_from_disk_inode_bmp;
  do! clear_path_buffers;
  do! assign_to path_buffer (fun b => splice b 0 path);
  do! assign_to path_buffer (fun b => wr b (len path) 0);
  do! separate_path_buffers;
  let! cwd := gets current_dir in
  let! parent := str_in parent_buffer in
  let! found := find_file cwd parent in
  let! parent_inode := sync_from_disk_inode (u32 found) in
  let! name := str_in name_buffer in
  let! found := find_file parent_inode name in
  let child_inum := u32 found in
  let! child_inode := sync_from_disk_inode child_inum in
  do! unset_inode_bmp child_inum;
  do! sync_to_disk_inode_bmp;
  do! release_inode_block child_inode;
  do! sync_to_disk_block_bmp;
  let! dnum := find_dentry parent_inode name in
  let! parent_inode := remove_dentry parent_inode (u32 dnum) in
  sync_to_disk_inode parent_inode.

(** [is_empty_dnetry(&p[j])] *)
Definition is_empty_dnetry (p : mem) (j : Z) : outcome bool :=
  try! n := inum_at p j in
  if n =? 0 then try! c := rd p (name_pos j) in Ok (c =? 0) else Ok false.

(** The loop of [do_ls] over one block; the result is [k] and whether the
    function returned. *)
Fixpoint ls_scan (n : nat) (p : mem) (j k : Z) : Fs (Z * bool) :=
  match n with
  | O => ret (k, false)
  | S n' =>
      let! e := lift (is_empty_dnetry p j) in
      if negb e then
        let! d := lift (slice p (DENTRY_SIZE * j) DENTRY_SIZE) in
        do! assign_to ls_buffer (fun b => splice b (DENTRY_SIZE * k) d);
        ls_scan n' p (j + 1) (k + 1)
      else
        let! e1 := lift (is_empty_dnetry p (j + 1)) in
        let! e2 := (if e1 then lift (is_empty_dnetry p (j + 2)) else ret false) in
        if e2 then ret (k, true) else ls_scan n' p (j + 1) k
  end.
Definition ls_dir (dir : inode_t) : Fs unit :=
  with_local 0 (
    do! for_until_pos (Z.to_pos MAX_BLOCK_INDEX) 0 (fun i =>
      let! b := zoom (get_block_index_in_inode dir i) in
      let! p := zoom (read_block (u32 b)) in
      do! zoom (assign find_file_buffer p);
      let! k := local in
      let! r := zoom (ls_scan 32 p 0 k) in
      do! set_local (fst r);
      ret (if snd r then Some tt else None));
    ret tt).
Definition do_ls : Fs unit :=
  do! assign find_file_buffer (zeros BLOCK_SIZE);
  do! assign ls_buffer (zeros (MAX_LS_NUM * DENTRY_SIZE));
  do! assign data_block_buffer (zeros BLOCK_SIZE);
  let! cwd := gets current_dir in
  if S_ISLNK (i_fmode cwd) then
    let! block_index := lift (rd (i_direct_table cwd) 0) in
    do! sync_from_disk_file_data block_index;
    do! assign_to path_buffer (fun b => strcpy_to b 0 [char_dot]);
    let! data := gets data_block_buffer in
    let! target := lift (str_at data (DENTRY_SIZE * 2)) in
    do! assign_to path_buffer (fun b => strcpy_to b 1 target);
    let! path := str_in path_buffer in
    let! root := gets root_inode in
    let! inum := parse_path path root in
    let! inode := sync_from_disk_inode inum in
    do! assign current_dir_link inode;
    ls_dir inode
  else ls_dir cwd.

(** One step of [do_cd]: [if((inum = find_file(current_dir_ptr, name)) != -1)
    { sync_from_disk_inode(inum, &ino); *current_dir_ptr = ino; next }]. *)
Definition cd_step (name : mem) (next : Fs unit) : Fs unit :=
  let! cwd := gets current_dir in
  let! found := find_file cwd name in
  let inum := u32 found in
  if inum =? NOT_FOUND then ret tt
  else
    let! ino := sync_from_disk_inode inum in
    do! assign current_dir ino;
    next.
(** The start of [do_cd] and [do_find]: the number of '/' in the path. *)
Definition load_path (name : mem) : Fs Z :=
  do! assign path_buffer (zeros MAX_PATH_LENGTH);
  do! assign parent_buffer (zeros MAX_PATH_LENGTH);
  do! assign parent_buffer_1 (zeros MAX_PATH_LENGTH);
  do! assign parent_buffer_2 (zeros MAX_PATH_LENGTH);
  do! assign name_buffer (zeros MAX_NAME_LENGTH);
  do! assign_to path_buffer (fun b => splice b 0 name);
  do! assign_to parent_buffer (fun b => wr b (len name) 0);
  let! pb := gets path_buffer in
  lift (count_char_in_string char_slash pb).
Definition do_cd (name : mem) : Fs unit :=
  let! slashes := load_path name in
  if slashes =? 0 then cd_step name (ret tt)
  else if slashes =? 1 then
    do! separate_path_buffers;
    let! parent := str_in parent_buffer in
    cd_step parent (
      let! n := str_in name_buffer in
      cd_step n (ret tt))
  else if slashes =? 2 then
    do! separate_path_buffers;
    do! separate_path_parents;
    let! p1 := str_in parent_buffer_1 in
    cd_step p1 (
      let! p2 := str_in parent_buffer_2 in
      cd_step p2 (
        let! n := str_in name_buffer in
        cd_step n (ret tt)))
  else ret tt.

(** ** Files *)

Definition is_empty_fd (f : file_descriptor_t) : bool :=
  (fd_inum f =? 0) && (fd_mode f =? 0) && (fd_r_offset f =? 0) && (fd_w_offset f =? 0).

(** The start of [do_fopen], [do_touch] and [do_rename]: [separate_path] of
    "./name", and the inode number of the parent. *)
Definition open_parent (name : mem) : Fs Z :=
  do! clear_path_buffers;
  do! assign_to path_buffer (fun b => strcpy_to b 0 [char_dot; char_slash]);
  do! assign_to path_buffer (fun b => strcpy_to b 2 name);
  do! separate_path_buffers;
  let! cwd := gets current_dir in
  let! parent := str_in parent_buffer in
  let! found := find_file cwd parent in
  ret (u32 found).

Fixpoint fd_with_inum (n : nat) (inum i : Z) : Fs (option Z) :=
  match n with
  | O => ret None
  | S n' =>
      let! t := gets file_descriptor_table in
      let! f := lift (rd t i) in
      if fd_inum f =? inum then ret (Some i) else fd_with_inum n' inum (i + 1)
  end.
(** [while(!is_empty_fd(&file_descriptor_table[j])) j++;] runs off the table
    when there is no empty descriptor: at most 33 rounds. *)
Fixpoint first_empty_fd (fuel : nat) (j : Z) : Fs Z :=
  match fuel with
  | O => throw Diverges
  | S fuel' =>
      let! t := gets file_descriptor_table in
      let! f := lift (rd t j) in
      if is_empty_fd f then ret j else first_empty_fd fuel' (j + 1)
  end.
Definition do_fopen (name : mem) (mode : Z) : Fs Z :=
  let! parent_inum := open_parent name in
  let! parent_inode := sync_from_disk_inode parent_inum in
  let! n := str_in name_buffer in
  let! found := find_file parent_inode n in
  let child_inum := u32 found in
  do! sync_from_disk_inode child_inum;
  let! open := fd_with_inum (Z.to_nat MAX_FILE_DESCRIPTOR_NUM) child_inum 0 in
  match open with
  | Some i => ret i
  | None =>
      let! j := first_empty_fd 33 0 in
      do! assign_to file_descriptor_table (fun t => wr t j (mk_fd child_inum mode 0 0));
      ret j
  end.

Definition get_fd (fd : Z) : Fs file_descriptor_t := let! t := gets file_descriptor_table in lift (rd t fd).
Definition set_fd (fd : Z) (f : file_descriptor_t -> file_descriptor_t) : Fs unit :=
  let! d := get_fd fd in assign_to file_descriptor_table (fun t => wr t fd (f d)).

(** [for(; i <= block_need; i++)] of [do_fwrite]; the direct table has 12
    entries, so 13 rounds are enough. *)
Fixpoint fwrite_allocate (fuel : nat) (i block_need begin_block : Z) (inode : inode_t) : Fs inode_t :=
  match fuel with
  | O => throw Diverges
  | S fuel' =>
      if i <=? block_need then
        let! free_index := allocate_block in
        do! clear_block_index free_index;
        let! t := lift (wr (i_direct_table inode) (u32 (begin_block + i)) free_index) in
        let inode := inode <| i_indirect_block_1_ptr := free_index |>
                           <| i_fsize := u32 (i_fsize inode + BLOCK_SIZE) |> <| i_direct_table := t |> in
        do! sync_to_disk_inode inode;
        fwrite_allocate fuel' (i + 1) block_need begin_block inode
      else ret inode
  end.

(** [for(i = begin; i <= end; i++) f(i, buffer + (i - begin)*BLOCK_SIZE)]: the
    buffers hold 5 blocks, so 6 rounds are enough. *)
Fixpoint block_loop (fuel : nat) (i begin_index end_index : Z) (f : Z -> Z -> Fs unit) : Fs unit :=
  match fuel with
  | O => throw Diverges
  | S fuel' =>
      if i <=? end_index then
        do! f i ((i - begin_index) * BLOCK_SIZE);
        block_loop fuel' (i + 1) begin_index end_index f
      else ret tt
  end.

Definition do_fwrite (fd : Z) (buffer : mem) (length : Z) : Fs Z :=
  do! assign fwrite_buffer (zeros FILE_READ_MAX_LENGTH);
  let! d := get_fd fd in
  let begin_block := fd_w_offset d / BLOCK_SIZE in
  let end_block := u32 (fd_w_offset d + length) / BLOCK_SIZE in
  let block_need := u32 (end_block - begin_block) in
  let! inode := sync_from_disk_inode (fd_inum d) in
  let! inode :=
    if fd_w_offset d =? 0 then fwrite_allocate 13 0 block_need begin_block inode
    else if negb (block_need =? 0) then fwrite_allocate 13 1 block_need begin_block inode
    else ret inode in
  let! b := get_block_index_in_inode inode begin_block in
  let! e := get_block_index_in_inode inode end_block in
  let begin_index := u32 b in
  let end_index := u32 e in
  do! block_loop 7 begin_index begin_index end_index (fun i off =>
    let! l := read_block i in assign_to fwrite_buffer (fun b => splice b off l));
  let! bytes := lift (slice buffer 0 (u32 length)) in
  do! assign_to fwrite_buffer (fun b => splice b (fd_w_offset d mod BLOCK_SIZE) bytes);
  do! set_fd fd (fun d => d <| fd_w_offset := u32 (fd_w_offset d + length) |>);
  do! block_loop 7 begin_index begin_index end_index (fun i off =>
    let! b := gets fwrite_buffer in
    let! l := lift (slice b off BLOCK_SIZE) in
    write_block i l);
  ret length.

(** The result is the bytes stored at [buffer]; the call returns [length]. *)
Definition do_fread (fd : Z) (length : Z) : Fs mem :=
  do! assign fread_buffer (zeros FILE_READ_MAX_LENGTH);
  let! d := get_fd fd in
  let begin_block := fd_r_offset d / BLOCK_SIZE in
  let end_block := u32 (fd_r_offset d + length) / BLOCK_SIZE in
  let! inode := sync_from_disk_inode (fd_inum d) in
  let! b := get_block_index_in_inode inode begin_block in
  let! e := get_block_index_in_inode inode end_block in
  let begin_index := u32 b in
  let end_index := u32 e in
  do! block_loop 7 begin_index begin_index end_index (fun i off =>
    let! l := read_block i in assign_to fread_buffer (fun b => splice b off l));
  let! b := gets fread_buffer in
  let! bytes := lift (slice b (fd_r_offset d mod BLOCK_SIZE) (u32 length)) in
  do! set_fd fd (fun d => d <| fd_r_offset := u32 (fd_r_offset d + length) |>);
  ret bytes.

Definition do_fclose (fd : Z) : Fs unit := assign_to file_descriptor_table (fun t => wr t fd zero_fd).

Definition do_touch (name : mem) (mode : Z) : Fs Z :=
  let! parent_inum := open_parent name in
  do! sync_from_disk_block_bmp;
  do! sync_from_disk_inode_bmp;
  let! parent_inode := sync_from_disk_inode parent_inum in
  let! n := str_in name_buffer in
  let! dup := find_dentry parent_inode n in
  if dup =? -1 then
    let! free_inum := allocate_inode in
    let! now := gets ticks in
    do! sync_to_disk_inode (fresh_inode (u16 (Z.lor S_IFREG mode)) 0 now 0 free_inum);
    let! n := str_in name_buffer in
    let! parent_dentry := named_dentry free_inum n in
    do! write_dentry parent_inode (u32 (i_fnum parent_inode + 2)) parent_dentry;
    ret 0
  else
    do! print (FS_ERROR ERROR_DUP_DIR_NAME);
    ret ERROR_DUP_DIR_NAME.

Definition do_cat (name : mem) : Fs unit :=
  do! assign cat_buffer (zeros CAT_MAX_LENGTH);
  let! fd := do_fopen name O_RDWR in
  do! set_fd fd (fun d => d <| fd_r_offset := 0 |>);
  let! bytes := do_fread fd CAT_LENGTH in
  do! assign_to cat_buffer (fun b => splice b 0 bytes);
  assign_to cat_buffer (fun b => wr b CAT_LENGTH 0).

(** ** Search, renaming, links *)

(** One step of [do_find] in the copy [dir] of the current directory. *)
Definition find_step (dir : inode_t) (name : mem) (next : inode_t -> Fs (option Z)) : Fs (option Z) :=
  let! found := _find_file dir name in
  let inum := u32 found in
  if inum =? NOT_FOUND then ret (Some 0)
  else let! ino := sync_from_disk_inode inum in next ino.
(** [None]: the function ends without a [return]. *)
Definition do_find (path name : mem) : Fs (option Z) :=
  let! slashes := load_path path in
  let! dir := gets current_dir in
  if slashes =? 0 then find_step dir name (fun _ => ret (Some 1))
  else if slashes =? 1 then
    do! separate_path_buffers;
    let! parent := str_in parent_buffer in
    find_step dir parent (fun dir =>
      let! n := str_in name_buffer in
      find_step dir n (fun _ => ret (Some 1)))
  else if slashes =? 2 then
    do! separate_path_buffers;
    do! separate_path_parents;
    let! p1 := str_in parent_buffer_1 in
    find_step dir p1 (fun dir =>
      let! p2 := str_in parent_buffer_2 in
      find_step dir p2 (fun dir =>
        let! n := str_in name_buffer in
        find_step dir n (fun _ => ret (Some 1))))
  else ret None.

Definition do_rename (old_name new_name : mem) : Fs unit :=
  let! parent_inum := open_parent old_name in
  let! parent_inode := sync_from_disk_inode parent_inum in
  let! n := str_in name_buffer in
  let! found := find_file parent_inode n in
  let child_inum := u32 found in
  do! sync_from_disk_inode child_inum;
  let! dnum := find_dentry parent_inode old_name in
  let! d := lift (splice (d_name zero_dentry) 0 new_name) in
  do! write_dentry parent_inode (u32 dnum) (mk_dentry child_inum d (d_padding zero_dentry));
  ret tt.

Definition do_link (src_path new_path : mem) : Fs unit :=
  do! clear_path_buffers;
  let! cwd := gets current_dir in
  let! src_inum := parse_path src_path cwd in
  let! src_inode := sync_from_disk_inode src_inum in
  if S_ISDIR (i_fmode src_inode) then print LINK_CANNOT_BE_DIR
  else
    do! assign_to path_buffer (fun b => strcpy_to b 0 new_path);
    do! separate_path_buffers;
    let! parent := str_in parent_buffer in
    let! cwd := gets current_dir in
    let! parent_inum := parse_path parent cwd in
    let! parent_inode := sync_from_disk_inode parent_inum in
    do! sync_to_disk_inode (src_inode <| i_links_cnt := u16 (i_links_cnt src_inode + 1) |>);
    let! n := str_in name_buffer in
    let! parent_den := named_dentry src_inum n in
    do! write_dentry parent_inode (u32 (i_fnum parent_inode + 2)) parent_den;
    ret tt.

Definition do_symlink (src_path new_path : mem) : Fs unit :=
  do! clear_path_buffers;
  do! assign data_block_buffer (zeros BLOCK_SIZE);
  do! assign_to path_buffer (fun b => strcpy_to b 0 [char_dot]);
  do! assign_to path_buffer (fun b => strcpy_to b 1 src_path);
  do! separate_path_buffers;
  let! cwd := gets current_dir in
  let! parent_inum := parse_path new_path cwd in
  do! sync_from_disk_block_bmp;
  do! sync_from_disk_inode_bmp;
  let! parent_inode := sync_from_disk_inode parent_inum in
  let! free_inum := allocate_inode in
  let! free_block_index := allocate_block in
  let! now := gets ticks in
  do! sync_to_disk_inode (fresh_inode S_IFLNK BLOCK_SIZE now free_block_index free_inum);
  do! assign dentry_block_buffer (zeros BLOCK_SIZE);
  do! write_dots free_inum parent_inum;
  do! sync_to_disk_dentry free_block_index;
  do! sync_from_disk_file_data free_block_index;
  do! assign_to data_block_buffer (fun b => splice b (DENTRY_SIZE * 2) src_path);
  do! assign_to data_block_buffer (fun b => wr b (DENTRY_SIZE * 2 + len src_path) 0);
  do! sync_to_disk_file_data free_block_index;
  let! n := str_in name_buffer in
  let! parent_dentry := named_dentry free_inum n in
  do! write_dentry parent_inode (u32 (i_fnum parent_inode + 2)) parent_dentry;
  ret tt.

End calls.
