(* ===== verification/Wp.v ===== *)
(** Total correctness of computations, and machine words.

    [wp m s Q] says that [m] returns from [s] and that [Q] holds of its result. *)

From S2P Require Import Prelude.

(** ** Total correctness *)

Definition wp {S A} (m : M S A) (s : S) (Q : A -> S -> Prop) : Prop :=
  exists a s', m s = Ok (a, s') /\ Q a s'.

Section wp.
Context {S : Type}.

Lemma wp_ret {A} (a : A) (s : S) Q : Q a s -> wp (ret a) s Q.
Proof. intros HQ. by exists a, s. Qed.
Lemma wp_bind {A B} (m : M S A) (k : A -> M S B) s Q :
  wp m s (fun a s' => wp (k a) s' Q) -> wp (bind m k) s Q.
Proof.
  intros (a & s' & E & b & s'' & E' & HQ). exists b, s''. split; [|done]. by rewrite (bind_Ok _ _ _ _ _ E).
Qed.
Lemma wp_gets {A} (f : S -> A) s Q : Q (f s) s -> wp (gets f) s Q.
Proof. intros HQ. by exists (f s), s. Qed.
Lemma wp_modify (f : S -> S) s Q : Q tt (f s) -> wp (modify f) s Q.
Proof. intros HQ. by exists tt, (f s). Qed.
Lemma wp_lift {A} (o : outcome A) a (s : S) Q : o = Ok a -> Q a s -> wp (lift o) s Q.
Proof. intros -> HQ. by exists a, s. Qed.
Lemma wp_mono {A} (m : M S A) (s : S) (P Q : A -> S -> Prop) :
  wp m s P -> (forall a s', P a s' -> Q a s') -> wp m s Q.
Proof. intros (a & s' & E & HP) HPQ. exists a, s'. auto. Qed.
Lemma wp_for_range (I : Z -> S -> Prop) n i body s (Q : unit -> S -> Prop) :
  I i s ->
  (forall j t, i <= j < i + Z.of_nat n -> I j t -> wp (body j) t (fun _ t' => I (j + 1) t')) ->
  (forall t, I (i + Z.of_nat n) t -> Q tt t) -> wp (for_range n i body) s Q.
Proof.
  intros HI Hb HQ. destruct (for_range_total I body n i s HI) as (s' & E & HI').
  - intros j t Hj Ht. destruct (Hb j t Hj Ht) as ([] & t' & E & H'). eauto.
  - exists tt, s'. auto.
Qed.
Lemma wp_seq {A B} (m : M S unit) (m' : M S A) (k : A -> M S B) (s : S) Q :
  wp (do! m; m') s (fun a s' => wp (k a) s' Q) -> wp (do! m; let! a := m' in k a) s Q.
Proof.
  intros (a & s2 & E & Hk). apply bind_Ok_inv in E as ([] & s1 & E1 & E2). apply wp_bind.
  exists tt, s1. split; [done|]. apply wp_bind. by exists a, s2.
Qed.

Lemma wp_for_until_none {R} (I : S -> Prop) (body : Z -> M S (option R)) n i (s : S) :
  I s -> (forall j u, i <= j < i + Z.of_nat n -> I u -> wp (body j) u (fun r u' => r = None /\ I u')) ->
  wp (for_until n i body) s (fun r s' => r = None /\ I s').
Proof.
  revert i s. induction n as [|n IH]; intros i s Hs Hb; cbn [for_until]; [by apply wp_ret|].
  apply wp_bind. eapply wp_mono; [apply Hb; [lia|done]|]. intros r s' [-> Hs'].
  apply IH; [done|]. intros j u Hj. apply Hb. lia.
Qed.
End wp.

(** Symbolic execution of the monadic steps; a component extends it with its own. *)
Ltac wp_basic :=
  lazymatch goal with
  | |- wp (bind _ _) _ _ => apply wp_bind
  | |- wp (ret _) _ _ => apply wp_ret
  | |- wp (gets _) _ _ => apply wp_gets
  | |- wp (modify _) _ _ => apply wp_modify
  end.

(** ** Words *)

Definition is_word (w : Z) : Prop := 0 <= w < 2 ^ 32.

Lemma u32_word z : is_word (u32 z).
Proof. unfold is_word, u32. apply Z.mod_pos_bound. lia. Qed.
Lemma u32_id z : is_word z -> u32 z = z.
Proof. unfold is_word, u32. intros Hz. by apply Z.mod_small. Qed.
