(* ===== verification/FsLemmas.v ===== *)
(** How the operations of the file system act on the disk and the buffers.

    [to s s' f]: [s'] has the memory of [s] up to scratch
    buffers, and the disk has the contents [f]; [ev s s'] is the case where the
    disk has not changed either. *)

From S2P Require Import Prelude Wp CString Bitmap Sd FsData FsOps FsCalls.

(** Symbolic execution of the monadic steps. *)
Ltac wp_step :=
  lazymatch goal with
  | |- wp (assign _ _) _ _ => unfold assign; apply wp_modify; cbn [put]
  | |- wp (print _) _ _ => unfold print; apply wp_modify; cbn [put]
  | |- _ => wp_basic
  end.
Ltac wp_auto := repeat wp_step.

(** ** Words *)

Lemma u32_i32_id z : is_word z -> u32 (i32 z) = z.
Proof. intros Hz. by rewrite u32_i32, u32_id. Qed.
Lemma i32_zero z : is_word z -> (i32 z =? 0) = (z =? 0).
Proof.
  intros Hz. destruct (Z.eqb_spec z 0) as [->|Hne]; [done|]. apply Z.eqb_neq. intros E.
  apply Hne. rewrite <-(u32_i32_id z Hz), E. done.
Qed.

Lemma bytes_of_words_length ws : length (bytes_of_words ws) = (4 * length ws)%nat.
Proof.
  induction ws as [|w ws IH]; [done|].
  change (bytes_of_words (w :: ws)) with (le_bytes 4 w ++ bytes_of_words ws).
  rewrite length_app, le_bytes_length, IH. cbn. lia.
Qed.
Lemma bytes_of_words_byte ws : Forall is_byte (bytes_of_words ws).
Proof. induction ws as [|w ws IH]; [constructor|]. apply Forall_app. split; [apply le_bytes_is_byte|done]. Qed.
Lemma words_of_bytes_of_words ws : Forall is_word ws -> words_of_bytes (length ws) (bytes_of_words ws) = ws.
Proof.
  induction 1 as [|w ws Hw _ IH]; [done|].
  change (bytes_of_words (w :: ws)) with (le_bytes 4 w ++ bytes_of_words ws).
  cbn [length words_of_bytes]. rewrite take_app_length', drop_app_length' by by rewrite le_bytes_length.
  by rewrite IH, le_val_bytes.
Qed.

Lemma get_word_ok l i : 0 <= i -> 4 * i + 4 <= len l -> Forall is_byte l -> exists w, get_word l i = Ok w /\ is_word w.
Proof.
  intros Hi Hl Hb. unfold get_word. destruct (slice l (4 * i) 4) as [b|] eqn:E.
  - cbn. eexists. split; [done|]. unfold is_word. pose proof (slice_length _ _ _ _ E) as El.
    change (2 ^ 32) with (256 ^ Z.of_nat 4). change (Z.to_nat 4) with 4%nat in El. rewrite <-El. apply le_val_bound.
    by eapply slice_Forall.
  - rewrite slice_ok in E by lia. done.
Qed.
Lemma set_word_ok l i v :
  0 <= i -> 4 * i + 4 <= len l -> exists l', set_word l i v = Ok l' /\ length l' = length l
    /\ (Forall is_byte l -> Forall is_byte l') /\ get_word l' i = Ok (u32 v)
    /\ (forall j, 0 <= j -> j <> i -> get_word l' j = get_word l j).
Proof.
  intros Hi Hl. unfold set_word. destruct (splice l (4 * i) (le_bytes 4 v)) as [l'|] eqn:E;
    [|rewrite splice_ok in E by (rewrite ?le_bytes_length; lia); done].
  exists l'. split_and!; [done|by eapply splice_length| | |].
  - intros Hb. eapply splice_Forall; [done..|]. apply le_bytes_is_byte.
  - unfold get_word. pose proof (slice_splice _ _ _ _ E) as Es. rewrite le_bytes_length in Es.
    change (Z.of_nat 4) with 4 in Es. rewrite Es. cbn [obind]. f_equal.
    rewrite <-(le_val_bytes 4 (u32 v)) by apply u32_word. f_equal. symmetry. apply (le_bytes_mod 4).
  - intros j Hj Hne. unfold get_word. rewrite (slice_splice_disj _ _ _ _ _ _ E); [done|lia|].
    rewrite le_bytes_length. lia.
Qed.

(** ** Inodes *)

Record inode_wf (i : inode_t) : Prop := {
  iw_mode : 0 <= i_fmode i < 2 ^ 16;
  iw_links : 0 <= i_links_cnt i < 2 ^ 16;
  iw_words : Forall is_word [i_fsize i; i_fnum i; i_atime i; i_ctime i; i_mtime i; i_indirect_block_1_ptr i;
    i_indirect_block_2_ptr i; i_indirect_block_3_ptr i; i_num i];
  iw_direct : length (i_direct_table i) = 12%nat /\ Forall is_word (i_direct_table i);
  iw_padding : length (i_padding i) = 10%nat /\ Forall is_word (i_padding i)
}.

Lemma inode_words_wf i : inode_wf i -> length (inode_words i) = 32%nat /\ Forall is_word (inode_words i).
Proof.
  intros [Hm Hl Hw [Hd1 Hd2] [Hp1 Hp2]]. unfold inode_words. rewrite !length_app, Hd1, Hp1. split; [done|].
  rewrite !Forall_cons in Hw. rewrite !Forall_app, !Forall_cons. unfold is_word in *.
  split_and!; try done; try lia; apply Hw.
Qed.

Lemma inode_of_words_inode i : inode_wf i -> inode_of_words (inode_words i) = i.
Proof.
  intros [Hm Hl Hw [Hd1 Hd2] [Hp1 Hp2]]. destruct i as [m l sz n a c mt d p1 p2 p3 nm pad]. cbn in *.
  do 12 (destruct d as [|? d]; [done|]). destruct d; [|done].
  unfold inode_of_words, inode_words. cbn [app lookup_total list_lookup_total take drop i_fmode i_links_cnt i_fsize
    i_fnum i_atime i_ctime i_mtime i_direct_table i_indirect_block_1_ptr i_indirect_block_2_ptr i_indirect_block_3_ptr
    i_num i_padding]. f_equal.
  - rewrite Z.mul_comm, Z.mod_add, Z.mod_small by lia. done.
  - rewrite Z.mul_comm, Z.div_add, Z.div_small by lia. lia.
Qed.

Lemma inode_bytes_length i : inode_wf i -> length (inode_bytes i) = 128%nat.
Proof. intros Hi. unfold inode_bytes. rewrite bytes_of_words_length. by rewrite (proj1 (inode_words_wf i Hi)). Qed.
Lemma inode_bytes_byte i : Forall is_byte (inode_bytes i).
Proof. apply bytes_of_words_byte. Qed.
Lemma inode_of_bytes_inode i : inode_wf i -> inode_of_bytes (inode_bytes i) = i.
Proof.
  intros Hi. destruct (inode_words_wf i Hi) as [Hl Hw]. unfold inode_of_bytes, inode_bytes.
  rewrite <-Hl, words_of_bytes_of_words by done. by apply inode_of_words_inode.
Qed.

(** ** The frame *)

(** The part of the card the file system addresses wraps around at 2^20. *)
Definition blk (k : Z) : Z := (k + 2 ^ 17) mod DEV_BLOCKS.
(** The states of a block buffer. *)
Definition block_ok (l : mem) : Prop := len l = BLOCK_SIZE /\ Forall is_byte l.

Section frame.
Context {D : Type} `{BlockDevice D}.
Implicit Types s t : fs D.

Definition dblock s (k : Z) : mem := block_at (disk s) (blk k).

Record fs_wf s : Prop := {
  wf_dev : dev_wf (disk s);
  wf_sb : block_ok (superblock_buffer s);
  wf_bb : len (blockbmp_buffer s) = BLOCK_BITMAP_SIZE /\ Forall is_byte (blockbmp_buffer s);
  wf_ib : block_ok (inodebmp_block_buffer s);
  wf_fd : len (file_descriptor_table s) = MAX_FILE_DESCRIPTOR_NUM;
  wf_name : len (d_name (stack_dentry s)) = MAX_NAME_LENGTH /\ Forall is_byte (d_name (stack_dentry s));
  wf_pad : len (d_padding (stack_dentry s)) = 60 /\ Forall is_byte (d_padding (stack_dentry s))
}.

(** The memory without the buffers that hold no state between operations. *)
Definition norm (d : D) s : fs D :=
  s <| disk := d |> <| inodetable_block_buffer := [] |> <| find_file_buffer := [] |>
    <| buffer0 := [] |> <| buffer1 := [] |> <| buffer2 := [] |> <| buffer3 := [] |>.

Record to s s' (f : Z -> mem) : Prop := {
  to_dev : dev_wf (disk s');
  to_blk : forall k, 0 <= k < DEV_BLOCKS -> dblock s' k = f k;
  to_mem : norm (disk s) s' = norm (disk s) s
}.
Definition ev s s' : Prop := to s s' (dblock s).

Definition upd (f : Z -> mem) (k : Z) (b : mem) : Z -> mem := fun j => if j =? k then b else f j.

Lemma blk_range k : 0 <= blk k < DEV_BLOCKS.
Proof. unfold blk. apply Z.mod_pos_bound. unfold DEV_BLOCKS. lia. Qed.
Lemma blk_inj j k : 0 <= j < DEV_BLOCKS -> 0 <= k < DEV_BLOCKS -> blk j = blk k -> j = k.
Proof.
  unfold blk, DEV_BLOCKS. intros Hj Hk E.
  assert ((j - k) mod 2 ^ 20 = 0) as E'.
  { replace (j - k) with (j + 2 ^ 17 - (k + 2 ^ 17)) by lia. rewrite Zminus_mod, E, Z.sub_diag. done. }
  apply Z.mod_divide in E' as [q Hq]; lia.
Qed.
Lemma blk_mod k : blk (k mod DEV_BLOCKS) = blk k.
Proof. unfold blk. by rewrite Zplus_mod_idemp_l. Qed.
Lemma dblock_mod s k : dblock s k = dblock s (k mod DEV_BLOCKS).
Proof. unfold dblock. by rewrite blk_mod. Qed.
Lemma dblock_ok s k : dev_wf (disk s) -> block_ok (dblock s k).
Proof. intros Hd. apply (block_at_wf _ _ Hd), blk_range. Qed.

Lemma sd_offset k : u32 (k * BLOCK_SIZE + FS_START_SD_OFFSET) = DEV_BLOCK * blk k.
Proof.
  unfold u32, blk, BLOCK_SIZE, FS_START_SD_OFFSET, DEV_BLOCK, DEV_BLOCKS.
  replace (k * 4096 + 536870912) with (4096 * (k + 2 ^ 17)) by lia.
  change (2 ^ 32) with (4096 * 2 ^ 20). by rewrite Z.mul_mod_distr_l.
Qed.

Lemma to_refl s : dev_wf (disk s) -> ev s s.
Proof. by split. Qed.
Lemma to_dblock s s' f k : to s s' f -> 0 <= k < DEV_BLOCKS -> dblock s' k = f k.
Proof. intros [_ Hb _]. apply Hb. Qed.
Lemma ev_dblock s s' k : ev s s' -> dblock s' k = dblock s k.
Proof.
  intros [_ Hb _]. rewrite dblock_mod, Hb, <-dblock_mod; [done|]. apply Z.mod_pos_bound. unfold DEV_BLOCKS. lia.
Qed.
Lemma norm_norm d d' s s' : norm d s' = norm d s -> norm d' s' = norm d' s.
Proof. intros E. exact (f_equal (fun x : fs D => x <| disk := d' |>) E). Qed.
Lemma to_trans s s1 s2 f g : to s s1 f -> to s1 s2 g -> to s s2 g.
Proof. intros [_ _ E] [H1 H2 E']. split; [done|done|]. rewrite <-E. eapply norm_norm, E'. Qed.
Lemma ev_trans s s1 s2 : ev s s1 -> ev s1 s2 -> ev s s2.
Proof.
  intros E1 E2. destruct (to_trans _ _ _ _ _ E1 E2) as [H1 H2 H3]. split; [done| |done].
  intros k Hk. rewrite H2 by done. by apply ev_dblock.
Qed.
Lemma to_ext s s' f g : to s s' f -> (forall k, 0 <= k < DEV_BLOCKS -> f k = g k) -> to s s' g.
Proof. intros [H1 H2 H3] E. split; [done| |done]. intros k Hk. by rewrite H2, E. Qed.
(** A field outside the scratch buffers. *)
Lemma to_field {T} (p : fs D -> T) s s' f : (forall d t, p (norm d t) = p t) -> to s s' f -> p s' = p s.
Proof. intros Hp [_ _ E]. by rewrite <-(Hp (disk s) s'), E, Hp. Qed.
Lemma to_wf s s' f : to s s' f -> fs_wf s -> fs_wf s'.
Proof.
  intros Ht [H1 H2 H3 H4 H5 H6 H7]. split; [by destruct Ht|..].
  - by rewrite (to_field superblock_buffer _ _ _ (fun _ _ => eq_refl) Ht).
  - by rewrite (to_field blockbmp_buffer _ _ _ (fun _ _ => eq_refl) Ht).
  - by rewrite (to_field inodebmp_block_buffer _ _ _ (fun _ _ => eq_refl) Ht).
  - by rewrite (to_field file_descriptor_table _ _ _ (fun _ _ => eq_refl) Ht).
  - by rewrite (to_field stack_dentry _ _ _ (fun _ _ => eq_refl) Ht).
  - by rewrite (to_field stack_dentry _ _ _ (fun _ _ => eq_refl) Ht).
Qed.

(** ** Blocks *)

Lemma wp_read_block k s (Q : mem -> fs D -> Prop) :
  dev_wf (disk s) ->
  (forall d, dev_wf d -> (forall j, block_at d j = block_at (disk s) j) -> Q (dblock s k) (s <| disk := d |>)) ->
  wp (read_block k) s Q.
Proof.
  intros Hd HQ. unfold wp, read_block, sd_card_read. rewrite sd_offset.
  destruct (sd_read_block (disk s) (blk k) Hd (blk_range k)) as (d & E & Hd' & Hj).
  change BLOCK_SIZE with DEV_BLOCK. rewrite E. eauto.
Qed.
Lemma wp_write_block k b s (Q : unit -> fs D -> Prop) :
  dev_wf (disk s) -> 0 <= k < DEV_BLOCKS -> block_ok b ->
  (forall d, dev_wf d -> (forall j, 0 <= j < DEV_BLOCKS ->
     block_at d (blk j) = upd (dblock s) k b j) -> Q tt (s <| disk := d |>)) ->
  wp (write_block k b) s Q.
Proof.
  intros Hd Hk [Hl Hb] HQ. unfold wp, write_block, sd_card_write. rewrite sd_offset.
  destruct (sd_write_block (disk s) (blk k) b Hd (blk_range k) Hl Hb) as (d & E & Hd' & Hj).
  change BLOCK_SIZE with DEV_BLOCK. rewrite E. exists tt, (s <| disk := d |>). split; [done|].
  apply HQ; [done|]. intros j Hj'. rewrite Hj by apply blk_range. unfold upd, dblock.
  destruct (Z.eqb_spec (blk j) (blk k)) as [E'|E'], (Z.eqb_spec j k) as [->|Hne]; try done.
  by apply blk_inj in E'.
Qed.

(** As relations between states. *)
Lemma read_block_ev k s : dev_wf (disk s) -> wp (read_block k) s (fun b s' => b = dblock s k /\ ev s s').
Proof.
  intros Hd. apply wp_read_block; [done|]. intros d Hd' Hj. split; [done|]. split; [done| |done].
  intros j _. unfold dblock. cbn. apply Hj.
Qed.
Lemma write_block_to k b s :
  dev_wf (disk s) -> 0 <= k < DEV_BLOCKS -> block_ok b ->
  wp (write_block k b) s (fun _ s' => to s s' (upd (dblock s) k b)).
Proof.
  intros Hd Hk Hb. apply wp_write_block; [done..|]. intros d Hd' Hj. split; [done| |done]. intros j Hj'. by apply Hj.
Qed.

End frame.
