(* ===== verification/FsState.v ===== *)
(** The file system as memory and data blocks.

    [st t g s]: the state [s] has the memory [t], up to scratch buffers and the
    inside of the card; its disk holds the super block and the bit maps of [t]
    and, from block 10 on, the blocks [g].  An operation is then a transformer
    of the pair [(t, g)]: [runs m t g Q] says that [m] returns from every such
    state and that [Q] holds of its result and of the new pair. *)

From S2P Require Import Prelude Wp CString Bitmap Sd FsData FsOps FsCalls FsLemmas.

(** Overwriting inside a list, total versions of [splice] and of the word accesses. *)
Definition overlay {A} (l : list A) (i : Z) (l' : list A) : list A :=
  take (Z.to_nat i) l ++ l' ++ drop (Z.to_nat i + length l') l.
Definition word_in (l : mem) (i : Z) : Z := le_val (take 4 (drop (Z.to_nat (4 * i)) l)).
Definition put_word (l : mem) (i v : Z) : mem := overlay l (4 * i) (le_bytes 4 v).
Definition piece (l : mem) (i : Z) : mem := take 4096 (drop (Z.to_nat (4096 * i)) l).

Lemma splice_overlay {A} (l l' : list A) i :
  0 <= i -> i + len l' <= len l -> splice l i l' = Ok (overlay l i l').
Proof. intros H1 H2. by rewrite splice_ok. Qed.
Lemma overlay_length {A} (l l' : list A) i : 0 <= i -> i + len l' <= len l -> length (overlay l i l') = length l.
Proof. intros H1 H2. eapply splice_length, splice_overlay; done. Qed.
Lemma overlay_block l i l' :
  block_ok l -> 0 <= i -> i + len l' <= BLOCK_SIZE -> Forall is_byte l' -> block_ok (overlay l i l').
Proof.
  intros [Hl Hb] Hi Hn Hb'. pose proof (splice_overlay l l' i Hi ltac:(lia)) as E. split.
  - by rewrite (splice_length _ _ _ _ E).
  - by eapply splice_Forall.
Qed.
Lemma get_word_in l i : 0 <= i -> 4 * i + 4 <= len l -> get_word l i = Ok (word_in l i).
Proof. intros Hi Hl. unfold get_word. by rewrite slice_ok by lia. Qed.
Lemma set_word_put l i v : 0 <= i -> 4 * i + 4 <= len l -> set_word l i v = Ok (put_word l i v).
Proof. intros Hi Hl. unfold set_word. apply splice_overlay; [lia|]. rewrite le_bytes_length. lia. Qed.
Lemma word_in_word l i : 0 <= i -> 4 * i + 4 <= len l -> Forall is_byte l -> is_word (word_in l i).
Proof.
  intros Hi Hl Hb. destruct (get_word_ok l i Hi Hl Hb) as (w & E & Hw). rewrite get_word_in in E by done.
  by injection E as ->.
Qed.
Lemma word_in_put l i v j :
  0 <= i -> 4 * i + 4 <= len l -> 0 <= j -> 4 * j + 4 <= len l ->
  word_in (put_word l i v) j = if j =? i then u32 v else word_in l j.
Proof.
  intros Hi Hl Hj Hl'. destruct (set_word_ok l i v Hi Hl) as (l' & E & El & _ & E1 & E2).
  rewrite set_word_put in E by done. injection E as <-.
  assert (get_word (put_word l i v) j = Ok (word_in (put_word l i v) j)) as E.
  { apply get_word_in; [done|]. rewrite El. done. }
  destruct (Z.eqb_spec j i) as [->|Hne]; [rewrite E1 in E; congruence|].
  rewrite E2, get_word_in in E by done. congruence.
Qed.
Lemma put_word_block l i v : block_ok l -> 0 <= i < 1024 -> block_ok (put_word l i v).
Proof.
  intros Hl Hi. apply overlay_block; [done|lia| |apply le_bytes_is_byte].
  rewrite le_bytes_length. unfold BLOCK_SIZE. lia.
Qed.
Lemma zeros_len n : 0 <= n -> len (zeros n) = n.
Proof. intros Hn. unfold zeros. rewrite length_replicate. lia. Qed.
Lemma zeros_block : block_ok (zeros BLOCK_SIZE).
Proof.
  split; [done|]. unfold zeros. apply Forall_replicate. unfold is_byte. lia.
Qed.
Lemma piece_block l i :
  len l = BLOCK_BITMAP_SIZE -> Forall is_byte l -> 0 <= i < 8 -> block_ok (piece l i).
Proof.
  unfold block_ok, piece, BLOCK_BITMAP_SIZE, BLOCK_SIZE. intros Hl Hb Hi. split.
  - rewrite length_take, length_drop. lia.
  - by apply Forall_take, Forall_drop.
Qed.

Section state.
Context {D : Type} `{BlockDevice D}.
Implicit Types s t : fs D.
Implicit Types g : Z -> mem.

(** The metadata blocks as the buffers have them, and the whole disk. *)
Definition meta t (k : Z) : mem :=
  if k =? 0 then superblock_buffer t
  else if k =? 9 then inodebmp_block_buffer t
  else piece (blockbmp_buffer t) (k - 1).
Definition disk_of t g (k : Z) : mem := if k <? 10 then meta t k else g k.
Definition st t g s : Prop := to t s (disk_of t g).
(** The buffers of the super block and the bit maps agree with the disk. *)
Definition synced s : Prop := forall k, 0 <= k < 10 -> dblock s k = meta s k.

Definition runs {A} (m : M (fs D) A) t g (Q : A -> fs D -> (Z -> mem) -> Prop) : Prop :=
  forall s, st t g s -> wp m s (fun a s' => exists t' g', st t' g' s' /\ Q a t' g').

Lemma st_self s : dev_wf (disk s) -> synced s -> st s (dblock s) s.
Proof.
  intros Hd Hs. split; [done| |done]. intros k Hk. unfold disk_of. destruct (Z.ltb_spec k 10); [|done].
  apply Hs. lia.
Qed.
Lemma st_synced t g s : st t g s -> synced s.
Proof.
  intros Hs k Hk. rewrite (to_dblock _ _ _ _ Hs) by (unfold DEV_BLOCKS; lia). unfold disk_of, meta.
  rewrite (proj2 (Z.ltb_lt _ _)) by lia.
  by rewrite (to_field superblock_buffer _ _ _ (fun _ _ => eq_refl) Hs),
    (to_field blockbmp_buffer _ _ _ (fun _ _ => eq_refl) Hs),
    (to_field inodebmp_block_buffer _ _ _ (fun _ _ => eq_refl) Hs).
Qed.
Lemma st_data t g s k : st t g s -> 10 <= k < DEV_BLOCKS -> dblock s k = g k.
Proof.
  intros Hs Hk. rewrite (to_dblock _ _ _ _ Hs) by lia. unfold disk_of. by rewrite (proj2 (Z.ltb_ge _ _)) by lia.
Qed.
Lemma st_block t g s k : st t g s -> 10 <= k < DEV_BLOCKS -> block_ok (g k).
Proof. intros Hs Hk. rewrite <-(st_data _ _ _ _ Hs Hk). apply dblock_ok. by destruct Hs. Qed.
Lemma st_get {T} (p : fs D -> T) t g s : (forall d u, p (norm d u) = p u) -> st t g s -> p s = p t.
Proof. apply to_field. Qed.

(** A step that keeps the pair. *)
Lemma ev_st t g s s' : st t g s -> ev s s' -> st t g s'.
Proof.
  intros [H1 H2 H3] He. pose proof He as [H1' H2' H3']. split; [done| |].
  - intros k Hk. by rewrite (ev_dblock _ _ _ He), H2.
  - rewrite <-H3. eapply norm_norm, H3'.
Qed.

(** ** Rules *)

Lemma runs_ret {A} (a : A) t g (Q : A -> fs D -> (Z -> mem) -> Prop) : Q a t g -> runs (ret a) t g Q.
Proof. intros HQ s Hs. apply wp_ret. eauto. Qed.
Lemma runs_bind {A B} (m : M (fs D) A) (k : A -> M (fs D) B) t g Q :
  runs m t g (fun a t' g' => runs (k a) t' g' Q) -> runs (bind m k) t g Q.
Proof.
  intros Hm s Hs. apply wp_bind. eapply wp_mono; [by apply Hm|].
  intros a s' (t' & g' & Hs' & Hk). by apply Hk.
Qed.
Lemma runs_mono {A} (m : M (fs D) A) t g (P Q : A -> fs D -> (Z -> mem) -> Prop) :
  runs m t g P -> (forall a t' g', P a t' g' -> Q a t' g') -> runs m t g Q.
Proof.
  intros Hm HPQ s Hs. eapply wp_mono; [by apply Hm|]. intros a s' (t' & g' & Hs' & HP). eauto 9.
Qed.
Lemma runs_lift {A} (o : outcome A) a t g (Q : A -> fs D -> (Z -> mem) -> Prop) :
  o = Ok a -> Q a t g -> runs (lift o) t g Q.
Proof. intros Ho HQ s Hs. eapply wp_lift; [done|]. eauto. Qed.
Lemma runs_gets {T} (p : fs D -> T) t g (Q : T -> fs D -> (Z -> mem) -> Prop) :
  (forall d u, p (norm d u) = p u) -> Q (p t) t g -> runs (gets p) t g Q.
Proof. intros Hp HQ s Hs. apply wp_gets. rewrite (st_get p _ _ _ Hp Hs). eauto. Qed.
(** A change of memory outside the metadata and the scratch buffers. *)
Lemma runs_modify (f : fs D -> fs D) t g (Q : unit -> fs D -> (Z -> mem) -> Prop) :
  (forall d u, norm d (f u) = f (norm d u)) -> (forall u, meta (f u) = meta u) -> (forall u, disk (f u) = disk u) ->
  Q tt (f t) g -> runs (modify f) t g Q.
Proof.
  intros Hn Hm Hd HQ s [H1 H2 H3]. apply wp_modify. exists (f t), g. split; [|done]. split.
  - by rewrite Hd.
  - intros k Hk. unfold dblock in *. rewrite Hd, H2 by done. unfold disk_of. by rewrite Hm.
  - rewrite Hd, !Hn. by rewrite H3.
Qed.
(** A change of a scratch buffer. *)
Lemma runs_scratch (f : fs D -> fs D) t g (Q : unit -> fs D -> (Z -> mem) -> Prop) :
  (forall d u, norm d (f u) = norm d u) -> (forall u, disk (f u) = disk u) -> Q tt t g -> runs (modify f) t g Q.
Proof.
  intros Hn Hd HQ s [H1 H2 H3]. apply wp_modify. exists t, g. split; [|done]. split.
  - by rewrite Hd.
  - intros k Hk. unfold dblock in *. by rewrite Hd, H2.
  - by rewrite Hn.
Qed.
(** Use of a specification that keeps the pair. *)
Lemma runs_ev {A} (m : M (fs D) A) t g (P : A -> Prop) Q :
  (forall s, st t g s -> wp m s (fun a s' => P a /\ ev s s')) ->
  (forall a, P a -> Q a t g) -> runs m t g Q.
Proof.
  intros Hm HQ s Hs. eapply wp_mono; [by apply Hm|]. intros a s' [Ha He]. exists t, g.
  split; [by eapply ev_st|auto].
Qed.
(** The inside of a computation that uses scratch buffers. *)
Lemma runs_wp {A} (m : M (fs D) A) t g Q :
  (forall s, st t g s -> wp m s (fun a s' => exists t' g', st t' g' s' /\ Q a t' g')) -> runs m t g Q.
Proof. done. Qed.

Lemma runs_read_block k t g (Q : mem -> fs D -> (Z -> mem) -> Prop) :
  10 <= k < DEV_BLOCKS -> (block_ok (g k) -> Q (g k) t g) -> runs (read_block k) t g Q.
Proof.
  intros Hk HQ. intros s Hs. pose proof (st_block _ _ _ _ Hs Hk) as Hb. revert s Hs.
  eapply (runs_ev _ _ _ (fun b => b = g k)); [|by intros b ->; auto].
  intros s Hs. eapply wp_mono; [apply read_block_ev; by destruct Hs|]. intros b s' [-> He].
  split; [by apply (st_data t g)|done].
Qed.
Lemma runs_write_block k b t g (Q : unit -> fs D -> (Z -> mem) -> Prop) :
  10 <= k < DEV_BLOCKS -> block_ok b -> Q tt t (upd g k b) -> runs (write_block k b) t g Q.
Proof.
  intros Hk Hb HQ s Hs. eapply wp_mono; [apply write_block_to; [by destruct Hs|lia|done]|].
  intros [] s' Hs'. exists t, (upd g k b). split; [|done].
  eapply to_ext; [eapply to_trans; [exact Hs|exact Hs']|].
  intros j Hj. unfold upd at 1. rewrite (to_dblock _ _ _ _ Hs Hj). unfold disk_of, upd.
  destruct (Z.eqb_spec j k) as [->|Hne]; [|done]. by rewrite (proj2 (Z.ltb_ge _ _)) by lia.
Qed.

End state.

(** Symbolic execution on the pair. *)
Ltac runs_step :=
  lazymatch goal with
  | |- runs (bind _ _) _ _ _ => apply runs_bind
  | |- runs (ret _) _ _ _ => apply runs_ret
  | |- runs (gets _) _ _ _ => apply runs_gets; [done|]
  | |- runs (modify _) _ _ _ => first [apply runs_scratch; [done|done|] | apply runs_modify; [done|done|done|]]
  | |- runs (assign _ _) _ _ _ => unfold assign; cbn [put]
  | |- runs (print _) _ _ _ => unfold print
  | |- runs (assign_to _ _) _ _ _ => unfold assign_to
  end; cbv beta zeta.
Ltac runs_auto := repeat runs_step.
