(* ===== verification/FsInode.v ===== *)
(** Inodes on the disk, block pointers and allocation, as transformers of the
    memory and the data blocks. *)

From S2P Require Import Prelude Wp CString Bitmap Sd FsData FsOps FsCalls FsLemmas FsState.

(** The block of the inode table that holds inode [i], the inode there, and the
    disk after an inode is written. *)
Definition table_block (i : Z) : Z := INODE_TABLE_BLOCK_INDEX + i / INODE_NUM_PER_BLOCK.
Definition inode_in (g : Z -> mem) (i : Z) : inode_t :=
  inode_of_bytes (take 128 (drop (Z.to_nat (i mod INODE_NUM_PER_BLOCK * INODE_SIZE)) (g (table_block i)))).
Definition put_inode (g : Z -> mem) (ino : inode_t) : Z -> mem :=
  upd g (table_block (i_num ino))
    (overlay (g (table_block (i_num ino))) (i_num ino mod INODE_NUM_PER_BLOCK * INODE_SIZE) (inode_bytes ino)).

Definition is_inum (i : Z) : Prop := 0 <= i < INODE_NUM.

Lemma is_inum_table i : is_inum i -> 10 <= table_block i < DATA_BLOCK_INDEX /\ 0 <= i mod 32 < 32.
Proof.
  unfold is_inum, INODE_NUM, table_block, INODE_TABLE_BLOCK_INDEX, INODE_NUM_PER_BLOCK, DATA_BLOCK_INDEX.
  intros Hi. split; [|by apply Z.mod_pos_bound].
  pose proof (Z.div_mod i 32 ltac:(lia)). pose proof (Z.mod_pos_bound i 32 ltac:(lia)). lia.
Qed.

Lemma slice_in {A} (l : list A) i n :
  0 <= i -> 0 <= n -> i + n <= len l -> slice l i n = Ok (take (Z.to_nat n) (drop (Z.to_nat i) l)).
Proof. apply slice_ok. Qed.

(** Reading what was overlaid, and beside it. *)
Lemma overlay_same {A} (l l' : list A) i n :
  0 <= i -> i + len l' <= len l -> n = length l' -> take n (drop (Z.to_nat i) (overlay l i l')) = l'.
Proof.
  intros Hi Hl ->. unfold overlay. rewrite drop_app_length' by (rewrite length_take; lia).
  by rewrite take_app_length.
Qed.
Lemma overlay_other {A} (l l' : list A) i j (n : nat) :
  0 <= i -> i + len l' <= len l -> 0 <= j -> j + Z.of_nat n <= i \/ i + len l' <= j ->
  j + Z.of_nat n <= len l ->
  take n (drop (Z.to_nat j) (overlay l i l')) = take n (drop (Z.to_nat j) l).
Proof.
  intros Hi Hl Hj Hd Hn. pose proof (splice_overlay l l' i Hi Hl) as E.
  pose proof (slice_splice_disj _ _ _ _ j (Z.of_nat n) E ltac:(lia) Hd) as Es.
  rewrite !slice_ok in Es by (rewrite ?(overlay_length l l' i Hi Hl); lia). rewrite Nat2Z.id in Es. congruence.
Qed.

Lemma inode_in_put g ino i :
  inode_wf ino -> is_inum (i_num ino) -> is_inum i -> len (g (table_block (i_num ino))) = BLOCK_SIZE ->
  inode_in (put_inode g ino) i = if i =? i_num ino then ino else inode_in g i.
Proof.
  intros Hw Hn Hi Hl. destruct (is_inum_table _ Hn) as [_ Hm], (is_inum_table _ Hi) as [_ Hm'].
  pose proof (inode_bytes_length _ Hw) as Eb. unfold BLOCK_SIZE in Hl.
  unfold inode_in, put_inode, upd, INODE_NUM_PER_BLOCK, INODE_SIZE in *.
  destruct (Z.eqb_spec i (i_num ino)) as [->|Hne].
  - rewrite Z.eqb_refl, overlay_same; [by apply inode_of_bytes_inode|lia|lia|done].
  - destruct (Z.eqb_spec (table_block i) (table_block (i_num ino))) as [E|E]; [|done]. rewrite <-E, overlay_other; [done|..].
    1-3: rewrite ?E; lia.
    + pose proof (Z.div_mod i 32 ltac:(lia)). pose proof (Z.div_mod (i_num ino) 32 ltac:(lia)).
      unfold table_block, INODE_NUM_PER_BLOCK in E. lia.
    + rewrite E. lia.
Qed.
Lemma put_inode_data g ino k : is_inum (i_num ino) -> DATA_BLOCK_INDEX <= k -> put_inode g ino k = g k.
Proof.
  intros Hi Hk. destruct (is_inum_table _ Hi) as [Hr _]. unfold put_inode, upd.
  destruct (Z.eqb_spec k (table_block (i_num ino))) as [->|]; [lia|done].
Qed.
Lemma inode_in_upd g k b i : is_inum i -> DATA_BLOCK_INDEX <= k -> inode_in (upd g k b) i = inode_in g i.
Proof.
  intros Hi Hk. destruct (is_inum_table _ Hi) as [Hr _]. unfold inode_in, upd.
  destruct (Z.eqb_spec (table_block i) k) as [<-|]; [lia|done].
Qed.

#[local] Opaque inode_bytes inode_of_bytes zeros.

Section inodes.
Context {D : Type} `{BlockDevice D}.
Implicit Types s t : fs D.
Implicit Types g : Z -> mem.

Lemma u32_table i : is_inum i -> u32 (INODE_TABLE_BLOCK_INDEX + i / INODE_NUM_PER_BLOCK) = table_block i.
Proof.
  intros Hi. destruct (is_inum_table _ Hi) as [Hr _]. apply u32_id. unfold is_word, DATA_BLOCK_INDEX in *.
  unfold table_block in *. lia.
Qed.
Lemma table_dev i : is_inum i -> 10 <= table_block i < DEV_BLOCKS.
Proof. intros Hi. destruct (is_inum_table _ Hi) as [Hr _]. unfold DATA_BLOCK_INDEX, DEV_BLOCKS in *. lia. Qed.

Lemma runs_sync_from_disk_inode i t g Q :
  is_inum i -> Q (inode_in g i) t g -> runs (D := D) (sync_from_disk_inode i) t g Q.
Proof.
  intros Hi HQ s Hs. pose proof (st_block _ _ _ _ Hs (table_dev i Hi)) as [Hl _].
  destruct (is_inum_table i Hi) as [_ Hm]. revert s Hs.
  apply (runs_ev _ _ _ (fun r => r = inode_in g i)); [|by intros r ->].
  intros s Hs. unfold sync_from_disk_inode, sync_from_disk_inode_table. rewrite u32_table by done. wp_step. wp_step.
  eapply wp_mono; [apply read_block_ev; by destruct Hs|]. intros b s' [-> He]. wp_auto. cbn.
  rewrite (st_data _ _ _ _ Hs (table_dev i Hi)).
  eapply wp_lift; [apply slice_in; unfold INODE_NUM_PER_BLOCK, INODE_SIZE, BLOCK_SIZE in *; lia|].
  wp_step. split; [done|]. eapply ev_trans; [exact He|]. split; [by destruct He|done|done].
Qed.

Lemma runs_sync_to_disk_inode ino t g Q :
  is_inum (i_num ino) -> inode_wf ino -> Q tt t (put_inode g ino) ->
  runs (D := D) (sync_to_disk_inode ino) t g Q.
Proof.
  intros Hi Hw HQ s Hs. pose proof (table_dev _ Hi) as Hdev. pose proof (st_block _ _ _ _ Hs Hdev) as Hb.
  destruct (is_inum_table _ Hi) as [_ Hm]. pose proof (inode_bytes_length _ Hw) as Eb. pose proof Hb as [Hl _].
  unfold sync_to_disk_inode, sync_from_disk_inode_table, sync_to_disk_inode_table, write_to_buffer_inode, assign_to.
  rewrite u32_table by done. wp_auto. eapply wp_mono; [apply read_block_ev; by destruct Hs|].
  intros b s1 [-> He]. wp_auto. cbn.
  assert (dblock (s <| inodetable_block_buffer := zeros BLOCK_SIZE |>) (table_block (i_num ino)) = g (table_block (i_num ino)))
    as -> by exact (st_data _ _ _ _ Hs Hdev).
  eapply wp_lift; [apply splice_overlay; unfold INODE_NUM_PER_BLOCK, INODE_SIZE, BLOCK_SIZE in *; lia|]. wp_auto. cbn.
  assert (block_ok (overlay (g (table_block (i_num ino))) (i_num ino mod INODE_NUM_PER_BLOCK * INODE_SIZE) (inode_bytes ino))) as Hov.
  { apply overlay_block; [done| | |apply inode_bytes_byte];
      unfold INODE_NUM_PER_BLOCK, INODE_SIZE, BLOCK_SIZE in *; lia. }
  match goal with |- wp _ ?u _ => assert (st t g u) as Hs' end.
  { eapply ev_st; [exact Hs|]. apply (ev_trans _ (s <| inodetable_block_buffer := zeros BLOCK_SIZE |>)).
    - split; [by destruct Hs|done|done].
    - eapply ev_trans; [exact He|]. split; [by destruct He|done|done]. }
  eapply (runs_write_block _ _ t g _ Hdev Hov); [exact HQ|exact Hs'].
Qed.

(** ** Allocation *)

(** The index of the first clear bit. *)
Definition first_free (l : mem) (n j : Z) : Prop :=
  0 <= j < 8 * n /\ bit_at l j = false /\ forall i, 0 <= i < j -> bit_at l i = true.

Lemma wp_skip_used (p : fs D -> mem) check s fuel j f :
  (forall i u, check i u = (let! b := gets p in lift (check_bitmap b i)) u) ->
  0 <= j <= f -> f < 8 * len (p s) -> bit_at (p s) f = false -> (forall i, j <= i < f -> bit_at (p s) i = true) ->
  f - j < Z.of_nat fuel -> skip_used fuel check j s = Ok (f, s).
Proof.
  intros Hc. revert j. induction fuel as [|fuel IH]; intros j Hj Hf Hb Hi Hn; [lia|]. cbn [skip_used].
  assert (check j s = Ok (if bit_at (p s) j then 1 else 0, s)) as E.
  { rewrite Hc. mstep. by rewrite check_bitmap_spec by (unfold in_map; lia). }
  rewrite (bind_Ok _ _ _ _ _ E). destruct (decide (j = f)) as [->|Hne].
  - by rewrite Hb.
  - rewrite Hi by lia. cbn. apply IH; try done; [lia|intros i Hi'; apply Hi; lia|lia].
Qed.

Lemma byte_bits l i k : 0 <= i -> 0 <= k < 8 -> bit_at l (8 * i + k) = Z.testbit (l !!! Z.to_nat i) k.
Proof.
  intros Hi Hk. unfold bit_at. rewrite (Z.mul_comm 8), Z.add_comm, Z.div_add, Z.mod_add, Z.div_small, Z.mod_small by lia.
  done.
Qed.

Lemma wp_find_free_loop (p : fs D -> mem) check s n i f :
  (forall i u, check i u = (let! b := gets p in lift (check_bitmap b i)) u) ->
  Forall is_byte (p s) -> 0 <= i -> i + Z.of_nat n <= len (p s) -> 8 * i <= f < 8 * (i + Z.of_nat n) ->
  bit_at (p s) f = false -> (forall j, 8 * i <= j < f -> bit_at (p s) j = true) ->
  find_free_loop n p check i (8 * i) s = Ok (Some f, s).
Proof.
  intros Hc Hby. revert i. induction n as [|n IH]; intros i Hi Hl Hf Hb Hj; [lia|]. cbn [find_free_loop].
  rewrite (bind_Ok _ _ _ _ _ eq_refl).
  assert (lift (rd (p s) i) s = Ok (p s !!! Z.to_nat i, s)) as E by (unfold lift; by rewrite rd_total by lia).
  rewrite (bind_Ok _ _ _ _ _ E). pose proof (byte_full _ (byte_at _ (Z.to_nat i) Hby)) as Hfull.
  destruct (_ =? 255) eqn:Eb.
  - replace (8 * i + 8) with (8 * (i + 1)) by lia. apply IH; try done; [lia|lia| |intros j Hj'; apply Hj; lia].
    assert (f < 8 * i + 8 -> False) as Hx; [|lia]. intros Hlt.
    pose proof (proj1 Hfull eq_refl (f - 8 * i) ltac:(lia)) as Ht.
    rewrite <-byte_bits in Ht by lia. replace (8 * i + (f - 8 * i)) with f in Ht by lia. congruence.
  - assert (f < 8 * i + 8) as Hlt.
    { destruct (decide (f < 8 * i + 8)) as [|Hge]; [done|]. exfalso.
      assert (false = true) as [=]. apply Hfull. intros k Hk. rewrite <-byte_bits by lia. apply Hj. lia. }
    assert (skip_used 9 check (8 * i) s = Ok (f, s)) as E2 by (apply (wp_skip_used p); (done || lia)).
    by rewrite (bind_Ok _ _ _ _ _ E2).
Qed.

Lemma wp_find_free_none (p : fs D -> mem) check s n i :
  Forall is_byte (p s) -> 0 <= i -> i + Z.of_nat n <= len (p s) ->
  (forall j, 8 * i <= j < 8 * (i + Z.of_nat n) -> bit_at (p s) j = true) ->
  find_free_loop n p check i (8 * i) s = Ok (None, s).
Proof.
  intros Hby. revert i. induction n as [|n IH]; intros i Hi Hl Hj; [done|]. cbn [find_free_loop].
  rewrite (bind_Ok _ _ _ _ _ eq_refl).
  assert (lift (rd (p s) i) s = Ok (p s !!! Z.to_nat i, s)) as E by (unfold lift; by rewrite rd_total by lia).
  rewrite (bind_Ok _ _ _ _ _ E). pose proof (byte_full _ (byte_at _ (Z.to_nat i) Hby)) as Hfull.
  rewrite (proj2 Hfull) by (intros k Hk; rewrite <-byte_bits by lia; apply Hj; lia).
  replace (8 * i + 8) with (8 * (i + 1)) by lia. apply IH; [lia|lia|]. intros j Hj'. apply Hj. lia.
Qed.

Lemma find_free_block_spec s f :
  fs_wf s -> first_free (blockbmp_buffer s) BLOCK_BITMAP_SIZE f -> find_free_block s = Ok (f, s).
Proof.
  intros [_ _ [Hl Hb] _ _ _ _] (Hf & Hc & Hu). unfold find_free_block, BLOCK_BITMAP_SIZE in *.
  erewrite bind_Ok; [|apply (wp_find_free_loop blockbmp_buffer _ _ (Z.to_nat 32768) 0 f)]; try done; lia.
Qed.
Lemma find_free_inode_spec s f :
  fs_wf s -> first_free (inodebmp_block_buffer s) INODE_BITMAP_SIZE f -> find_free_inode s = Ok (f, s).
Proof.
  intros [_ _ _ [Hl Hb] _ _ _] (Hf & Hc & Hu). unfold find_free_inode, INODE_BITMAP_SIZE, BLOCK_SIZE in *.
  erewrite bind_Ok; [|apply (wp_find_free_loop inodebmp_block_buffer _ _ (Z.to_nat 1024) 0 f)]; try done; lia.
Qed.

Definition bset (l : mem) (i : Z) : mem := match set_bitmap l i with Ok l' => l' | Fault _ => l end.
Definition bclear (l : mem) (i : Z) : mem := match unset_bitmap l i with Ok l' => l' | Fault _ => l end.

Lemma bset_spec l i : in_map l i ->
  set_bitmap l i = Ok (bset l i) /\ length (bset l i) = length l /\ (Forall is_byte l -> Forall is_byte (bset l i))
    /\ forall j, 0 <= j -> bit_at (bset l i) j = (j =? i) || bit_at l j.
Proof. intros Hi. unfold bset. destruct (set_bitmap_spec l i Hi) as (l' & -> & H1 & H2 & H3). done. Qed.
Lemma bclear_spec l i : in_map l i ->
  unset_bitmap l i = Ok (bclear l i) /\ length (bclear l i) = length l /\ (Forall is_byte l -> Forall is_byte (bclear l i))
    /\ forall j, 0 <= j -> bit_at (bclear l i) j = negb (j =? i) && bit_at l j.
Proof. intros Hi. unfold bclear. destruct (unset_bitmap_spec l i Hi) as (l' & -> & H1 & H2 & H3). done. Qed.

Lemma to_modify (F : fs D -> fs D) t u f :
  (forall d v, norm d (F v) = F (norm d v)) -> (forall v, disk (F v) = disk v) -> to t u f -> to (F t) (F u) f.
Proof.
  intros Hn Hd [H1 H2 H3]. split; [by rewrite Hd| |].
  - intros k Hk. unfold dblock in *. by rewrite Hd, H2.
  - by rewrite Hd, !Hn, H3.
Qed.
Lemma to_write_block k b t u f :
  to t u f -> 0 <= k < DEV_BLOCKS -> block_ok b -> wp (write_block k b) u (fun _ u' => to t u' (upd f k b)).
Proof.
  intros Ht Hk Hb. eapply wp_mono; [apply write_block_to; [by destruct Ht|done|done]|]. intros [] u' Hu.
  eapply to_ext; [eapply to_trans; [exact Ht|exact Hu]|]. intros j Hj. unfold upd.
  destruct (_ =? _); [done|]. by apply (to_dblock t).
Qed.

(** The disk with the block bit map [bb] in its blocks. *)
Definition put_bmp (bb : mem) (n : Z) (f : Z -> mem) (k : Z) : mem :=
  if (1 <=? k) && (k <? 1 + n) then piece bb (k - 1) else f k.

Lemma to_sync_block_bmp t u f :
  to t u f -> len (blockbmp_buffer t) = BLOCK_BITMAP_SIZE -> Forall is_byte (blockbmp_buffer t) ->
  wp sync_to_disk_block_bmp u (fun _ u' => to t u' (put_bmp (blockbmp_buffer t) 8 f)).
Proof.
  intros Ht Hl Hb. unfold sync_to_disk_block_bmp.
  apply (wp_for_range (fun i v => to t v (put_bmp (blockbmp_buffer t) i f))).
  - eapply to_ext; [exact Ht|]. intros k Hk. unfold put_bmp.
    destruct (Z.leb_spec 1 k), (Z.ltb_spec k (1 + 0)); try lia; done.
  - intros i v Hi Hv. wp_auto. rewrite (to_field blockbmp_buffer _ _ _ (fun _ _ => eq_refl) Hv).
    eapply wp_lift; [apply slice_ok; unfold BLOCK_SIZE, BLOCK_BITMAP_SIZE in *; lia|].
    change (take (Z.to_nat BLOCK_SIZE) (drop (Z.to_nat (BLOCK_SIZE * i)) (blockbmp_buffer t)))
      with (piece (blockbmp_buffer t) i).
    eapply wp_mono; [apply (to_write_block _ _ _ _ _ Hv); [unfold BLOCK_BMP_BLOCK_INDEX, DEV_BLOCKS; lia|]|].
    + apply piece_block; [done|done|lia].
    + intros [] v' Hv'. eapply to_ext; [exact Hv'|]. intros k Hk. unfold upd, put_bmp, BLOCK_BMP_BLOCK_INDEX.
      destruct (Z.eqb_spec k (1 + i)) as [->|Hne].
      * destruct (Z.leb_spec 1 (1 + i)), (Z.ltb_spec (1 + i) (1 + (i + 1))); try lia. cbn. f_equal. lia.
      * destruct (Z.leb_spec 1 k), (Z.ltb_spec k (1 + i)), (Z.ltb_spec k (1 + (i + 1))); try lia; done.
  - intros v Hv. exact Hv.
Qed.

Lemma to_decr_sb t u f field :
  to t u f -> block_ok (superblock_buffer t) -> 0 <= field < 1024 ->
  wp (decr_sb field) u (fun _ u' => to (t <| superblock_buffer :=
    put_word (superblock_buffer t) field (u32 (word_in (superblock_buffer t) field - 1)) |>) u' f).
Proof.
  intros Ht [Hl Hb] Hf. unfold decr_sb, get_sb, set_sb, assign_to. unfold BLOCK_SIZE in Hl. wp_auto.
  rewrite (to_field superblock_buffer _ _ _ (fun _ _ => eq_refl) Ht).
  eapply wp_lift; [apply get_word_in; lia|]. wp_auto.
  rewrite (to_field superblock_buffer _ _ _ (fun _ _ => eq_refl) Ht).
  eapply wp_lift; [apply set_word_put; lia|]. wp_auto.
  apply (to_modify (fun v => v <| superblock_buffer :=
    put_word (superblock_buffer t) field (u32 (word_in (superblock_buffer t) field - 1)) |>) t u f); [done|done|exact Ht].
Qed.

(** The memory after a block or an inode is allocated. *)
Definition count_down (l : mem) (field : Z) : mem := put_word l field (u32 (word_in l field - 1)).
Definition with_block t (j : Z) : fs D :=
  t <| blockbmp_buffer := bset (blockbmp_buffer t) j |>
    <| superblock_buffer := count_down (superblock_buffer t) s_free_blocks_cnt |>.
Definition with_inode t (j : Z) : fs D :=
  t <| inodebmp_block_buffer := bset (inodebmp_block_buffer t) j |>
    <| superblock_buffer := count_down (superblock_buffer t) s_free_inode_cnt |>.

Lemma count_down_block l field : block_ok l -> 0 <= field < 1024 -> block_ok (count_down l field).
Proof. apply put_word_block. Qed.

Lemma runs_allocate_block j t g Q :
  fs_wf t -> first_free (blockbmp_buffer t) BLOCK_BITMAP_SIZE j -> Q j (with_block t j) g ->
  runs (D := D) allocate_block t g Q.
Proof.
  intros Hw Hf HQ s Hs. pose proof Hw as [_ Hsb [Hl Hb] _ _ _ _]. pose proof Hf as (Hj & _ & _).
  assert (in_map (blockbmp_buffer t) j) as Hin by (unfold in_map; rewrite Hl; done).
  destruct (bset_spec _ _ Hin) as (Eset & Elen & Ebyte & _). specialize (Ebyte Hb).
  pose proof (st_get blockbmp_buffer _ _ _ (fun _ _ => eq_refl) Hs) as Ebb.
  unfold allocate_block. wp_step. eapply (wp_mono _ _ (fun r s' => r = j /\ s' = s)).
  { exists j, s. split; [|done]. apply find_free_block_spec; [by eapply to_wf|by rewrite Ebb]. }
  intros r s' [-> ->]. cbv zeta. rewrite (u32_id j) by (unfold is_word, BLOCK_BITMAP_SIZE in *; lia).
  unfold set_block_bmp, assign_to. wp_auto. rewrite Ebb. eapply wp_lift; [exact Eset|]. wp_auto.
  assert (to (t <| blockbmp_buffer := bset (blockbmp_buffer t) j |>)
    (s <| blockbmp_buffer := bset (blockbmp_buffer t) j |>) (disk_of t g)) as H1.
  { by apply (to_modify (fun v => v <| blockbmp_buffer := bset (blockbmp_buffer t) j |>)). }
  eapply wp_mono; [apply (to_sync_block_bmp _ _ _ H1); cbn; [by rewrite Elen|done]|]. intros [] u Hu. wp_step.
  eapply wp_mono; [apply (to_decr_sb _ _ _ s_free_blocks_cnt Hu); [done|unfold s_free_blocks_cnt; lia]|].
  intros [] v Hv. unfold sync_to_disk_superblock. wp_auto.
  rewrite (to_field superblock_buffer _ _ _ (fun _ _ => eq_refl) Hv).
  eapply wp_mono; [apply (to_write_block _ _ _ _ _ Hv); [done|]|].
  { apply count_down_block; [done|unfold s_free_blocks_cnt; lia]. }
  intros [] w Hw'. wp_step. exists (with_block t j), g. split; [|done].
  eapply to_ext; [exact Hw'|]. intros k Hk. unfold upd, put_bmp, disk_of, meta, SUPERBLOCK_BLOCK_INDEX.
  change (1 + 8) with 9.
  destruct (Z.eqb_spec k 0) as [->|]; [done|].
  destruct (Z.leb_spec 1 k), (Z.ltb_spec k 9), (Z.ltb_spec k 10), (Z.eqb_spec k 9); try lia; done.
Qed.

Lemma runs_allocate_inode j t g Q :
  fs_wf t -> first_free (inodebmp_block_buffer t) INODE_BITMAP_SIZE j -> Q j (with_inode t j) g ->
  runs (D := D) allocate_inode t g Q.
Proof.
  intros Hw Hf HQ s Hs. pose proof Hw as [_ Hsb _ [Hl Hb] _ _ _]. pose proof Hf as (Hj & _ & _).
  assert (in_map (inodebmp_block_buffer t) j) as Hin.
  { unfold in_map. rewrite Hl. unfold BLOCK_SIZE, INODE_BITMAP_SIZE in *. lia. }
  destruct (bset_spec _ _ Hin) as (Eset & Elen & Ebyte & _). specialize (Ebyte Hb).
  pose proof (st_get inodebmp_block_buffer _ _ _ (fun _ _ => eq_refl) Hs) as Ebb.
  unfold allocate_inode. wp_step. eapply (wp_mono _ _ (fun r s' => r = j /\ s' = s)).
  { exists j, s. split; [|done]. apply find_free_inode_spec; [by eapply to_wf|by rewrite Ebb]. }
  intros r s' [-> ->]. cbv zeta. rewrite (u32_id j) by (unfold is_word, INODE_BITMAP_SIZE in *; lia).
  unfold set_inode_bmp, assign_to, sync_to_disk_inode_bmp. wp_auto. rewrite Ebb. eapply wp_lift; [exact Eset|]. wp_auto.
  assert (to (t <| inodebmp_block_buffer := bset (inodebmp_block_buffer t) j |>)
    (s <| inodebmp_block_buffer := bset (inodebmp_block_buffer t) j |>) (disk_of t g)) as H1.
  { by apply (to_modify (fun v => v <| inodebmp_block_buffer := bset (inodebmp_block_buffer t) j |>)). }
  eapply wp_mono; [apply (to_write_block _ _ _ _ _ H1); [done|split; cbn; [by rewrite Elen|done]]|]. intros [] u Hu. wp_step.
  eapply wp_mono; [apply (to_decr_sb _ _ _ s_free_inode_cnt Hu); [done|unfold s_free_inode_cnt; lia]|].
  intros [] v Hv. unfold sync_to_disk_superblock. wp_auto.
  rewrite (to_field superblock_buffer _ _ _ (fun _ _ => eq_refl) Hv).
  eapply wp_mono; [apply (to_write_block _ _ _ _ _ Hv); [done|]|].
  { apply count_down_block; [done|unfold s_free_inode_cnt; lia]. }
  intros [] w Hw'. wp_step. exists (with_inode t j), g. split; [|done].
  eapply to_ext; [exact Hw'|]. intros k Hk. unfold upd, disk_of, meta, SUPERBLOCK_BLOCK_INDEX, INODE_BMP_BLOCK_INDEX.
  destruct (Z.eqb_spec k 0) as [->|]; [done|].
  destruct (Z.ltb_spec k 10), (Z.eqb_spec k 9); try lia; done.
Qed.
End inodes.
