(* ===== verification/FsDir.v ===== *)
(** Directories: the entries of a directory block, the search for a name and
    the writing of an entry. *)

From S2P Require Import Prelude Wp CString Bitmap Sd FsData FsOps FsCalls FsLemmas FsState FsInode.

(** ** Entries *)

(** The bytes before the first end mark. *)
Fixpoint strz (l : mem) : mem :=
  match l with [] => [] | c :: r => if c =? 0 then [] else c :: strz r end.

(** Entry [j] of a directory block, its name and its inode number. *)
Definition entry (b : mem) (j : Z) : mem := take 128 (drop (Z.to_nat (DENTRY_SIZE * j)) b).
Definition ename (e : mem) : mem := strz (take 64 (drop 4 e)).
Definition einum (e : mem) : Z := le_val (take 4 e).
Definition dents (b : mem) : list mem := entry b <$> seqZ 0 32.

(** A directory block: every name has its end mark. *)
Definition dir_ok (b : mem) : Prop := block_ok b /\ Forall (fun e => 0 ∈ take 64 (drop 4 e)) (dents b).

(** The first entry with a name. *)
Definition dir_find (b name : mem) : option (nat * mem) := list_find (fun e => ename e = name) (dents b).
(** The inode number under which a directory block lists a name. *)
Definition dir_lookup (b name : mem) : option Z := einum ∘ snd <$> dir_find b name.

(** A name as it can be stored in an entry. *)
Definition name_ok (name : mem) : Prop := len name < MAX_NAME_LENGTH /\ Forall (fun c => is_byte c /\ c <> 0) name.

Lemma strz_nonzero l : Forall (fun b => b <> 0) (strz l).
Proof.
  induction l as [|c l IH]; cbn; [constructor|]. destruct (Z.eqb_spec c 0); [constructor|]. by constructor.
Qed.
Lemma strz_split l : 0 ∈ l -> exists r, l = strz l ++ 0 :: r.
Proof.
  induction l as [|c l IH]; [by intros ?%elem_of_nil|]. cbn. destruct (Z.eqb_spec c 0) as [->|Hne].
  - intros _. by exists l.
  - intros [?|Hin]%elem_of_cons; [congruence|]. destruct (IH Hin) as [r Hr]. exists r. cbn. by rewrite <-Hr.
Qed.
Lemma strz_cstr s r : Forall (fun c => c <> 0) s -> strz (s ++ 0 :: r) = s.
Proof.
  induction 1 as [|c s Hc _ IH]; [done|]. cbn. destruct (Z.eqb_spec c 0); [done|]. by rewrite IH.
Qed.
Lemma name_ok_nonzero name : name_ok name -> Forall (fun c => c <> 0) name.
Proof. intros [_ Hn]. eapply Forall_impl; [exact Hn|]. by intros c [_ ?]. Qed.

Lemma entry_length b j : block_ok b -> 0 <= j < 32 -> length (entry b j) = 128%nat.
Proof.
  intros [Hl _] Hj. unfold entry, DENTRY_SIZE, BLOCK_SIZE in *. rewrite length_take, length_drop. lia.
Qed.
Lemma dents_length b : length (dents b) = 32%nat.
Proof. unfold dents. by rewrite length_fmap, length_seqZ. Qed.
Lemma dents_lookup b (j : nat) : (j < 32)%nat -> dents b !! j = Some (entry b (Z.of_nat j)).
Proof. intros Hj. unfold dents. rewrite list_lookup_fmap, lookup_seqZ_lt by lia. cbn. do 2 f_equal. Qed.

(** A block is what comes before an entry, the entry and what comes after it. *)
Lemma entry_split b j : block_ok b -> 0 <= j < 32 ->
  exists pre post, b = pre ++ entry b j ++ post /\ len pre = DENTRY_SIZE * j.
Proof.
  intros [Hl _] Hj. unfold DENTRY_SIZE, BLOCK_SIZE in *.
  exists (take (Z.to_nat (128 * j)) b), (drop 128 (drop (Z.to_nat (128 * j)) b)). unfold entry, DENTRY_SIZE.
  rewrite take_drop, take_drop. split; [done|]. rewrite length_take. lia.
Qed.

Lemma dir_name_cstr b j : dir_ok b -> 0 <= j < 32 -> cstr b (name_pos j) (ename (entry b j)).
Proof.
  intros [Hb Hd] Hj. destruct (entry_split b j Hb Hj) as (pre & post & E & Hp).
  assert (0 ∈ take 64 (drop 4 (entry b j))) as Hz.
  { eapply (Forall_lookup_1 _ _ (Z.to_nat j) _ Hd). rewrite dents_lookup by lia. by rewrite Z2Nat.id by lia. }
  destruct (strz_split _ Hz) as [r Hr]. pose proof (entry_length b j Hb Hj) as He.
  exists (pre ++ take 4 (entry b j)), (r ++ drop 64 (drop 4 (entry b j)) ++ post). split_and!.
  - rewrite E at 1. rewrite <-!app_assoc. f_equal. rewrite <-(take_drop 4 (entry b j)) at 1. rewrite <-app_assoc.
    f_equal. rewrite <-(take_drop 64 (drop 4 (entry b j))) at 1. rewrite Hr at 1. unfold ename. by rewrite <-!app_assoc.
  - rewrite length_app, length_take. unfold name_pos. lia.
  - apply strz_nonzero.
Qed.
Lemma dir_inum b j : block_ok b -> 0 <= j < 32 -> word_in b (32 * j) = einum (entry b j).
Proof.
  intros Hb Hj. unfold word_in, einum, entry, DENTRY_SIZE. rewrite take_take. do 4 f_equal; lia.
Qed.
Lemma einum_word b j : block_ok b -> 0 <= j < 32 -> is_word (einum (entry b j)).
Proof.
  intros Hb Hj. rewrite <-dir_inum by done. destruct Hb as [Hl Hby]. unfold BLOCK_SIZE in Hl.
  apply word_in_word; [lia|lia|done].
Qed.

Lemma entry_overlay b i l j :
  block_ok b -> 0 <= i < 32 -> 0 <= j < 32 -> length l = 128%nat ->
  entry (overlay b (DENTRY_SIZE * i) l) j = if j =? i then l else entry b j.
Proof.
  intros [Hl _] Hi Hj Hn. unfold entry, DENTRY_SIZE, BLOCK_SIZE in *. destruct (Z.eqb_spec j i) as [->|Hne].
  - apply overlay_same; lia.
  - apply overlay_other; lia.
Qed.
Lemma dents_overlay b i l :
  block_ok b -> 0 <= i < 32 -> length l = 128%nat ->
  dents (overlay b (DENTRY_SIZE * i) l) = <[Z.to_nat i := l]> (dents b).
Proof.
  intros Hb Hi Hl. apply list_eq_same_length with 32%nat; [by rewrite length_insert, dents_length|apply dents_length|].
  intros j x y Hj. rewrite dents_lookup by done. intros [= <-] Hy. rewrite entry_overlay by (done || lia).
  destruct (Z.eqb_spec (Z.of_nat j) i) as [E|E].
  - replace (Z.to_nat i) with j in Hy by lia. rewrite list_lookup_insert_eq in Hy by (rewrite dents_length; lia). congruence.
  - rewrite list_lookup_insert_ne, dents_lookup in Hy by lia. congruence.
Qed.

(** ** The scan of a block *)

Lemma strcmp_at_spec s b p s' : Forall (fun c => c <> 0) s -> cstr b p s' ->
  strcmp_at s b p = Ok (if decide (s = s') then 0 else if decide (s `prefix_of` s') then -1 else 1).
Proof.
  intros Hs (pre & post & -> & -> & Hs'). unfold strcmp_at. apply strcmp_spec.
  - exists [], (pre ++ s' ++ 0 :: post). done.
  - exists (s ++ 0 :: pre), post. rewrite length_app. cbn. split_and!; [by rewrite <-app_assoc|lia|done].
Qed.

Lemma scan_dentries_spec b name n j :
  dir_ok b -> Forall (fun c => c <> 0) name -> 0 <= j -> j + Z.of_nat n = 32 ->
  scan_dentries n name b j =
    Ok ((fun r => j + Z.of_nat (fst r)) <$> list_find (fun e => ename e = name) (drop (Z.to_nat j) (dents b))).
Proof.
  intros Hb Hn. revert j. induction n as [|n IH]; intros j Hj Hjn; cbn [scan_dentries].
  - rewrite drop_ge by (rewrite dents_length; lia). done.
  - rewrite (strcmp_at_spec _ _ _ _ Hn (dir_name_cstr b j Hb ltac:(lia))). cbn [obind].
    rewrite (drop_S _ (entry b j) (Z.to_nat j)).
    2: { rewrite dents_lookup by lia. by rewrite Z2Nat.id. }
    cbn [list_find]. destruct (decide (name = ename (entry b j))) as [E|E].
    + rewrite decide_True by done. cbn. do 2 f_equal. lia.
    + assert (((if decide (name `prefix_of` ename (entry b j)) then -1 else 1) =? 0) = false) as -> by by case_decide.
      rewrite decide_False by congruence. replace (S (Z.to_nat j)) with (Z.to_nat (j + 1)) by lia.
      rewrite IH by lia. f_equal. destruct (list_find _ _) as [[k e]|]; [|done]. cbn. f_equal. lia.
Qed.
Lemma scan_block b name : dir_ok b -> Forall (fun c => c <> 0) name ->
  scan_dentries 32 name b 0 = Ok ((fun r => Z.of_nat (fst r)) <$> dir_find b name).
Proof.
  intros Hb Hn. rewrite scan_dentries_spec by done. unfold dir_find. cbn [drop].
  change (Z.to_nat 0) with 0%nat. rewrite drop_0. done.
Qed.
Lemma dir_find_Some b name j e : dir_find b name = Some (j, e) ->
  (j < 32)%nat /\ e = entry b (Z.of_nat j) /\ ename e = name.
Proof.
  unfold dir_find. intros (Hl & Hn & _)%list_find_Some. pose proof (lookup_lt_Some _ _ _ Hl) as Hlt.
  rewrite dents_length in Hlt. rewrite dents_lookup in Hl by done. split_and!; [done|congruence|done].
Qed.

Section search.
Context {D : Type} `{BlockDevice D}.
Implicit Types s t : fs D.
Implicit Types g : Z -> mem.

(** ** Block pointers *)

Lemma ev_scratch s (f : fs D -> fs D) :
  dev_wf (disk s) -> (forall d u, norm d (f u) = norm d u) -> (forall u, disk (f u) = disk u) -> ev s (f s).
Proof.
  intros Hd Hn Hf. split; [by rewrite Hf| |by rewrite Hn]. intros k _. unfold dblock. by rewrite Hf.
Qed.
Lemma ev_clear_pointers s :
  dev_wf (disk s) -> wp clear_pointer_buffers s (fun _ s' => ev s s').
Proof.
  intros Hd. unfold clear_pointer_buffers. wp_auto.
  apply (ev_scratch s (fun u => u <| buffer1 := zeros BLOCK_SIZE |> <| buffer2 := zeros BLOCK_SIZE |>
    <| buffer3 := zeros BLOCK_SIZE |>)); done.
Qed.

(** The direct blocks of an inode. *)
Lemma runs_direct ino idx t g Q :
  length (i_direct_table ino) = 12%nat -> 0 <= idx < FIRST_POINTER ->
  Q (i32 (i_direct_table ino !!! Z.to_nat idx)) t g -> runs (D := D) (get_block_index_in_inode ino idx) t g Q.
Proof.
  intros Hl Hi HQ. unfold FIRST_POINTER in Hi. apply (runs_ev _ _ _ (fun r => r = i32 (i_direct_table ino !!! Z.to_nat idx))); [|by intros r ->].
  intros s Hs. unfold get_block_index_in_inode. wp_step. eapply wp_mono; [apply ev_clear_pointers; by destruct Hs|].
  intros [] s1 H1. rewrite (proj2 (Z.ltb_lt idx FIRST_POINTER)) by (unfold FIRST_POINTER; lia). wp_step.
  eapply wp_lift; [apply rd_total; lia|]. wp_step. done.
Qed.

(** One level of indirection: the block is loaded, a word of it is read. *)
Definition pointer_field (f : fs D -> mem) (F : Field f) : Prop :=
  (forall d u b, norm d (put (proj := f) (fun _ => b) u) = norm d u)
  /\ (forall u b, disk (put (proj := f) (fun _ => b) u) = disk u)
  /\ (forall u b, f (put (proj := f) (fun _ => b) u) = b).

Lemma wp_level f {F : Field f} b i s (Q : Z -> fs D -> Prop) :
  pointer_field f F -> dev_wf (disk s) -> 0 <= i < POINTER_PER_BLOCK ->
  (forall w s', ev s s' -> is_word w -> Q w s') ->
  wp (do! load_pointers f b; pointer f i) s Q.
Proof.
  intros (Hn & Hdk & Hf) Hd Hi HQ. unfold POINTER_PER_BLOCK in Hi. unfold load_pointers, pointer. wp_step. wp_step.
  eapply wp_mono; [by apply read_block_ev|]. intros l s1 [-> H1]. wp_auto. rewrite Hf.
  destruct (dblock_ok s b Hd) as [Hl Hb]. unfold BLOCK_SIZE in Hl.
  eapply wp_lift; [apply get_word_in; lia|]. apply HQ; [|apply word_in_word; (done || lia)].
  eapply ev_trans; [exact H1|]. apply (ev_scratch s1 (put (proj := f) (fun _ => dblock s b))); [by destruct H1|done|done].
Qed.

(** [get_block_index_in_inode] returns for every index in range. *)
Lemma get_block_index_total ino idx s :
  dev_wf (disk s) -> length (i_direct_table ino) = 12%nat -> 0 <= idx < MAX_BLOCK_INDEX ->
  wp (get_block_index_in_inode ino idx) s (fun _ s' => ev s s').
Proof.
  intros Hd Hl Hi. unfold get_block_index_in_inode. wp_step.
  eapply wp_mono; [by apply ev_clear_pointers|]. intros [] s0 H0. pose proof H0 as [Hd0 _ _].
  assert (pointer_field buffer1 _ /\ pointer_field buffer2 _ /\ pointer_field buffer3 _) as (P1 & P2 & P3) by done.
  unfold FIRST_POINTER, SECOND_POINTER, THIRD_POINTER, MAX_BLOCK_INDEX in *.
  destruct (Z.ltb_spec idx 12) as [L1|G1].
  { wp_step. eapply wp_lift; [apply rd_total; lia|]. by wp_step. }
  destruct (Z.ltb_spec idx 1036) as [L2|G2].
  { destruct (_ =? 0); [by wp_step|].
    apply wp_seq, wp_level; [done|done|unfold POINTER_PER_BLOCK; lia|]. intros w s1 H1 _. wp_step.
    by eapply ev_trans. }
  assert (forall j, 0 <= j mod POINTER_PER_BLOCK < POINTER_PER_BLOCK) as Hmod by by intros; apply Z.mod_pos_bound.
  destruct (Z.ltb_spec idx 1049612) as [L3|G3].
  { destruct (_ =? 0); [by wp_step|]. apply wp_seq, wp_level; [done|done| |].
    { unfold POINTER_PER_BLOCK. split; [apply Z.div_pos|apply Z.div_lt_upper_bound]; lia. }
    intros w s1 H1 _. destruct (_ =? 0); [wp_step; by eapply ev_trans|]. pose proof H1 as [Hd1 _ _].
    apply wp_seq, wp_level; [done|done|apply Hmod|]. intros w2 s2 H2 _. wp_step. eauto using ev_trans. }
  rewrite (proj2 (Z.ltb_lt _ _)) by lia. destruct (_ =? 0); [by wp_step|].
  apply wp_seq, wp_level; [done|done| |].
  { unfold POINTER_PER_BLOCK. split; [apply Z.div_pos|apply Z.div_lt_upper_bound]; lia. }
  intros w s1 H1 _. destruct (_ =? 0); [wp_step; by eapply ev_trans|]. pose proof H1 as [Hd1 _ _].
  apply wp_seq, wp_level; [done|done| |].
  { unfold POINTER_PER_BLOCK. pose proof (Z.mod_pos_bound (idx - 1049612) (1024 * 1024) ltac:(lia)).
    split; [apply Z.div_pos|apply Z.div_lt_upper_bound]; lia. }
  intros w2 s2 H2 _. destruct (_ =? 0); [wp_step; eauto using ev_trans|]. pose proof H2 as [Hd2 _ _].
  apply wp_seq, wp_level; [done|done|apply Hmod|]. intros w3 s3 H3 _. wp_step. eauto using ev_trans.
Qed.

(** ** The search of a directory

    [search_dir] looks at the first block only: from the second round on [j] is
    at the end of the block. *)

Lemma wp_zoom {L A} (m : M (fs D) A) s (l : L) (Q : A -> fs D * L -> Prop) :
  wp m s (fun a s' => Q a (s', l)) -> wp (zoom m) (s, l) Q.
Proof. intros (a & s' & E & HQ). exists a, (s', l). split; [|done]. unfold zoom. cbn. by rewrite E. Qed.
Lemma wp_with_local {L A} (l : L) (m : M (fs D * L) A) s (Q : A -> fs D -> Prop) :
  wp m (s, l) (fun a sl => Q a (fst sl)) -> wp (with_local l m) s Q.
Proof. intros (a & [s' l'] & E & HQ). exists a, s'. split; [|done]. unfold with_local. by rewrite E. Qed.

(** A round of the search that finds nothing because [j] is at the end. *)
Definition dir_round (ino : inode_t) (name : mem) (result : Z -> Z -> M (fs D) Z) (i : Z) : M (fs D * Z) (option Z) :=
  let! b := zoom (get_block_index_in_inode ino i) in
  let! l := zoom (read_block (u32 b)) in
  do! zoom (assign find_file_buffer l);
  let! j := local in
  let! m := lift (scan_dentries (Z.to_nat (DENTRY_NUM_PER_BLOCK - j)) name l j) in
  match m with
  | Some j => let! v := zoom (result i j) in ret (Some v)
  | None => do! set_local DENTRY_NUM_PER_BLOCK; ret None
  end.

Lemma idle_round ino name result i s s0 :
  length (i_direct_table ino) = 12%nat -> 0 <= i < MAX_BLOCK_INDEX -> ev s0 s ->
  wp (dir_round ino name result i) (s, DENTRY_NUM_PER_BLOCK)
    (fun r sl => r = None /\ ev s0 (fst sl) /\ snd sl = DENTRY_NUM_PER_BLOCK).
Proof.
  intros Hl Hi He. unfold dir_round. wp_step. apply wp_zoom.
  eapply wp_mono; [apply get_block_index_total; [by destruct He|done|done]|]. intros b s1 H1. wp_step. apply wp_zoom.
  eapply wp_mono; [apply read_block_ev; by destruct H1|]. intros l s2 [_ H2]. wp_step. apply wp_zoom. wp_auto.
  exists DENTRY_NUM_PER_BLOCK. eexists. split; [done|]. wp_step. apply (wp_lift _ None); [done|]. wp_step.
  exists tt. eexists. split; [done|]. wp_step. split_and!; [done| |done]. cbn.
  eapply ev_trans; [exact He|]. eapply ev_trans; [exact H1|]. eapply ev_trans; [exact H2|].
  apply (ev_scratch s2 (fun u => u <| find_file_buffer := l |>)); [by destruct H2|done|done].
Qed.

(** The first block of a directory. *)
Definition first_block (ino : inode_t) : Z := i_direct_table ino !!! 0%nat.
Definition dir_inode (ino : inode_t) (g : Z -> mem) : Prop :=
  length (i_direct_table ino) = 12%nat /\ DATA_BLOCK_INDEX <= first_block ino < BLOCK_NUM /\ dir_ok (g (first_block ino)).

Lemma dir_inode_word ino g : dir_inode ino g -> is_word (first_block ino) /\ 10 <= first_block ino < DEV_BLOCKS.
Proof. intros (_ & Hb & _). unfold is_word, DEV_BLOCKS, DATA_BLOCK_INDEX, BLOCK_NUM in *. lia. Qed.

Lemma first_round ino name result V t g s :
  dir_inode ino g -> Forall (fun c => c <> 0) name -> st t g s ->
  (forall (j : nat) e u, dir_find (g (first_block ino)) name = Some (j, e) -> find_file_buffer u = g (first_block ino) ->
     dev_wf (disk u) -> wp (result 0 (Z.of_nat j)) u (fun v u' => v = V (Z.of_nat j) /\ ev u u')) ->
  wp (dir_round ino name result 0) (s, 0) (fun r sl =>
    r = V ∘ Z.of_nat ∘ fst <$> dir_find (g (first_block ino)) name /\ ev s (fst sl)
    /\ (dir_find (g (first_block ino)) name = None -> snd sl = DENTRY_NUM_PER_BLOCK)).
Proof.
  intros Hdir Hname Hs HV. pose proof (dir_inode_word _ _ Hdir) as [Hword Hdev]. destruct Hdir as (Hl & _ & Hok).
  unfold dir_round. wp_step. apply wp_zoom. unfold get_block_index_in_inode. wp_step.
  eapply wp_mono; [apply ev_clear_pointers; by destruct Hs|]. intros [] s1 H1.
  change (0 <? FIRST_POINTER) with true. cbv iota. wp_step. eapply wp_lift; [apply rd_total; lia|]. wp_auto.
  change (i_direct_table ino !!! Z.to_nat 0) with (first_block ino). rewrite u32_i32_id by done. apply wp_zoom.
  eapply wp_mono; [apply read_block_ev; by destruct H1|]. intros l s2 [-> H2]. wp_step. apply wp_zoom. wp_auto.
  assert (dblock s1 (first_block ino) = g (first_block ino)) as -> by (apply (st_data t); [by eapply ev_st|done]).
  exists 0. eexists. split; [done|]. wp_step. change (Z.to_nat (DENTRY_NUM_PER_BLOCK - 0)) with 32%nat.
  eapply wp_lift; [by apply scan_block|].
  assert (ev s (s2 <| find_file_buffer := g (first_block ino) |>)) as H3.
  { eapply ev_trans; [exact H1|]. eapply ev_trans; [exact H2|].
    apply (ev_scratch s2 (fun u => u <| find_file_buffer := g (first_block ino) |>)); [by destruct H2|done|done]. }
  destruct (dir_find _ _) as [[j e]|] eqn:Ef; cbn [fmap option_fmap option_map fst].
  - wp_step. apply wp_zoom. eapply wp_mono; [apply (HV j e); [done|done|by destruct H3]|].
    intros v u [-> Hu]. wp_step. split_and!; [done|by eapply ev_trans|done].
  - wp_step. exists tt. eexists. split; [done|]. wp_step. done.
Qed.

Lemma runs_search_dir rounds ino name result V t g Q :
  dir_inode ino g -> Forall (fun c => c <> 0) name -> Zpos rounds <= MAX_BLOCK_INDEX ->
  (forall (j : nat) e u, dir_find (g (first_block ino)) name = Some (j, e) -> find_file_buffer u = g (first_block ino) ->
     dev_wf (disk u) -> wp (result 0 (Z.of_nat j)) u (fun v u' => v = V (Z.of_nat j) /\ ev u u')) ->
  Q (default (-1) (V ∘ Z.of_nat ∘ fst <$> dir_find (g (first_block ino)) name)) t g ->
  runs (D := D) (search_dir rounds ino name result) t g Q.
Proof.
  intros Hdir Hname Hr HV HQ. unfold search_dir. runs_auto.
  apply (runs_ev _ _ _ (fun r => r = default (-1) (V ∘ Z.of_nat ∘ fst <$> dir_find (g (first_block ino)) name)));
    [|by intros r ->].
  intros s Hs. apply wp_with_local. wp_step. change (fun i => let! b := zoom _ in _) with (dir_round ino name result).
  assert (forall Q' : option Z -> fs D * Z -> Prop,
    wp (for_until (Pos.to_nat rounds) 0 (dir_round ino name result)) (s, 0) Q' ->
    wp (for_until_pos rounds 0 (dir_round ino name result)) (s, 0) Q') as Hpos.
  { intros Q' (a & sl & E & HQ'). exists a, sl. by rewrite for_until_pos_nat. }
  apply Hpos. clear Hpos. destruct (Pos2Nat.is_succ rounds) as [n Hn]. rewrite Hn. cbn [for_until]. wp_step.
  eapply wp_mono; [by apply (first_round ino name result V t g)|]. intros r [s1 j] (-> & H1 & Hj). cbn [fst snd] in *.
  destruct (dir_find _ _) as [[k e]|]; cbn [fmap option_fmap option_map].
  - wp_auto. by cbn.
  - eapply wp_mono; [apply (wp_for_until_none (fun sl => ev s (fst sl) /\ snd sl = DENTRY_NUM_PER_BLOCK)); [by auto|]|].
    + intros i [u j'] Hi [Hu Hj']. cbn in Hu, Hj'. subst j'. apply idle_round; [by destruct Hdir|lia|done].
    + intros r [u j'] [-> [Hu _]]. wp_step. by cbn.
Qed.

Lemma runs_find_file ino name t g Q :
  dir_inode ino g -> Forall (fun c => c <> 0) name ->
  Q (default (-1) (i32 <$> dir_lookup (g (first_block ino)) name)) t g ->
  runs (D := D) (find_file ino name) t g Q.
Proof.
  intros Hdir Hname HQ. unfold find_file.
  apply (runs_search_dir _ _ _ _ (fun j => i32 (einum (entry (g (first_block ino)) j)))); [done|done|done| |].
  - intros j e u Hf Hu Hd. unfold entry_inum. wp_auto. rewrite Hu. destruct Hdir as (_ & _ & [Hb _]).
    apply dir_find_Some in Hf as (Hj & _ & _). unfold inum_at. eapply wp_lift.
    { apply get_word_in; [lia|]. destruct Hb as [Hb _]. unfold BLOCK_SIZE in Hb. lia. }
    wp_step. rewrite dir_inum by (done || lia). split; [done|by apply to_refl].
  - unfold dir_lookup in HQ. destruct (dir_find _ _) as [[j e]|] eqn:Ef; [|done].
    apply dir_find_Some in Ef as (_ & -> & _). exact HQ.
Qed.
Lemma runs_find_dentry ino name t g Q :
  dir_inode ino g -> Forall (fun c => c <> 0) name ->
  Q (default (-1) (Z.of_nat ∘ fst <$> dir_find (g (first_block ino)) name)) t g ->
  runs (D := D) (find_dentry ino name) t g Q.
Proof.
  intros Hdir Hname HQ. unfold find_dentry. apply (runs_search_dir _ _ _ _ (fun j => j)); [done|done|done| |].
  - intros j e u Hf Hu Hd. wp_step. split; [lia|by apply to_refl].
  - exact HQ.
Qed.
End search.
