(* ===== verification/FsPath.v ===== *)
(** Paths: the last '/' splits a path into parent and name. *)

From S2P Require Import Prelude Wp CString Bitmap Sd FsData FsOps FsCalls FsLemmas FsState FsInode FsDir.

Abbreviation nonzero := (Forall (fun c : Z => c <> 0)).

(** Where [separate_path] cuts: the last '/', or the first character. *)
Definition cut (path : mem) : nat := last_index (Z.eqb char_slash) path 0 0.
Definition path_parent (path : mem) : mem := take (cut path `max` 1) path.
Definition path_name (path : mem) : mem := drop (S (cut path)) path.

Lemma last_index_none f s i d : Forall (fun c => f c = false) s -> last_index f s i d = d.
Proof. intros Hs. revert i d. induction Hs as [|c s Hc _ IH]; intros i d; [done|]. cbn. by rewrite Hc, IH. Qed.
Lemma last_index_app f a x b i d :
  f x = true -> Forall (fun c => f c = false) b -> last_index f (a ++ x :: b) i d = (i + length a)%nat.
Proof.
  intros Hx Hb. revert i d. induction a as [|y a IH]; intros i d; cbn.
  - rewrite Hx, last_index_none by done. lia.
  - rewrite IH. lia.
Qed.
Lemma last_index_lt f s i d : (d < i + length s)%nat -> (last_index f s i d < i + length s)%nat.
Proof.
  revert i d. induction s as [|c s IH]; intros i d Hd; cbn in *; [done|].
  assert (last_index f s (S i) (if f c then i else d) < S i + length s)%nat; [|lia]. apply IH. destruct (f c); lia.
Qed.

Definition no_slash (s : mem) : Prop := Forall (fun c => c <> char_slash) s.
Lemma no_slash_eqb s : no_slash s -> Forall (fun c => Z.eqb char_slash c = false) s.
Proof. intros Hs. eapply Forall_impl; [exact Hs|]. intros c Hc. apply Z.eqb_neq. congruence. Qed.

Lemma path_split dir name : no_slash name ->
  path_parent (dir ++ char_slash :: name) = (if decide (dir = []) then [char_slash] else dir)
  /\ path_name (dir ++ char_slash :: name) = name.
Proof.
  intros Hn. unfold path_parent, path_name, cut.
  rewrite last_index_app by (done || by apply no_slash_eqb). cbn [Nat.add]. split.
  - destruct dir as [|c dir]; [done|]. rewrite decide_False by done.
    replace (length (c :: dir) `max` 1)%nat with (length (c :: dir)) by (cbn; lia). by rewrite take_app_length.
  - by rewrite drop_app_ge, Nat.sub_succ_l, Nat.sub_diag by lia.
Qed.
Lemma path_unsplit path : no_slash path -> path <> [] ->
  path_parent path = take 1 path /\ path_name path = drop 1 path.
Proof.
  intros Hn Hp. unfold path_parent, path_name, cut. by rewrite last_index_none by by apply no_slash_eqb.
Qed.

Lemma cstr_overlay m p s : nonzero s -> 0 <= p -> p + len s + 1 <= len m -> cstr (overlay m p (s ++ [0])) p s.
Proof.
  intros Hs Hp Hl. exists (take (Z.to_nat p) m), (drop (Z.to_nat p + length (s ++ [0])) m). split_and!; [|rewrite length_take; lia|done].
  unfold overlay. by rewrite <-(app_assoc s).
Qed.
Lemma strcpy_to_ok m p s : 0 <= p -> p + len s + 1 <= len m -> strcpy_to m p s = Ok (overlay m p (s ++ [0])).
Proof. intros Hp Hl. apply splice_overlay; [done|]. rewrite length_app. cbn. lia. Qed.
Lemma str_at_ok m p s : cstr m p s -> str_at m p = Ok s.
Proof.
  intros Hc. unfold str_at. rewrite (strlen_spec _ _ _ Hc). cbn [obind].
  destruct Hc as (pre & post & -> & -> & _). rewrite slice_ok by (rewrite ?length_app; lia).
  by rewrite !Nat2Z.id, drop_app_length, take_app_length.
Qed.
Lemma cstr_le m p s : cstr m p s -> 0 <= p /\ p + len s < len m.
Proof. intros (pre & post & -> & -> & _). rewrite !length_app. cbn. lia. Qed.
(** An end mark inside a string, or on its own end mark. *)
Lemma cstr_cut_le m p s e : cstr m p s -> (e <= length s)%nat ->
  exists m', wr m (p + Z.of_nat e) 0 = Ok m' /\ cstr m' p (take e s) /\ length m' = length m.
Proof.
  intros Hc He. pose proof (cstr_le _ _ _ Hc) as [H1 H2]. rewrite wr_in_range by lia. eexists. split; [done|].
  rewrite length_insert. split; [|done]. destruct (decide (e < length s)%nat) as [Hlt|Hge].
  - eapply cstr_cut; [done|done|]. by rewrite wr_in_range by lia.
  - replace e with (length s) by lia. rewrite firstn_all. destruct Hc as (pre & post & -> & -> & Hs).
    exists pre, post. split_and!; [|done|done]. replace (Z.to_nat (len pre + len s)) with (length (pre ++ s) + 0)%nat
      by (rewrite length_app; lia).
    rewrite (app_assoc pre s (0 :: post)), insert_app_r. cbn. by rewrite <-app_assoc.
Qed.

Lemma separate_path_spec path parent name :
  path <> [] -> nonzero path -> len path + 1 <= len parent -> len (path_name path) + 1 <= len name ->
  exists parent' name', separate_path path parent name = Ok (parent', name')
    /\ cstr parent' 0 (path_parent path) /\ cstr name' 0 (path_name path)
    /\ length parent' = length parent /\ length name' = length name.
Proof.
  intros Hne Hnz Hp Hn. unfold separate_path. rewrite strcpy_to_ok by lia. cbn [obind].
  set (p1 := overlay parent 0 (path ++ [0])).
  assert (length p1 = length parent) as Lp1 by (apply overlay_length; rewrite ?length_app; cbn; lia).
  assert (cstr p1 0 path) as C1 by (apply cstr_overlay; (done || lia)).
  rewrite (strrchr_spec _ _ _ _ C1). cbn [obind]. change (last_index (Z.eqb (u8 char_slash)) path 0 0) with (cut path).
  assert (cut path < length path)%nat as Hcut by (apply (last_index_lt _ path 0); destruct path; [done|cbn; lia]).
  assert (cstr p1 (0 + Z.of_nat (cut path) + 1) (path_name path)) as C2.
  { replace (0 + Z.of_nat (cut path) + 1) with (0 + Z.of_nat (S (cut path))) by lia. apply cstr_drop; [lia|done]. }
  rewrite (str_at_ok _ _ _ C2). cbn [obind]. rewrite strcpy_to_ok by lia. cbn [obind].
  set (n1 := overlay name 0 (path_name path ++ [0])).
  assert (length n1 = length name) as Ln1 by (apply overlay_length; rewrite ?length_app; cbn; lia).
  assert (cstr n1 0 (path_name path)) as C3 by (apply cstr_overlay; [by apply Forall_drop|lia|lia]).
  destruct (cstr_cut_le n1 0 (path_name path) (length (path_name path)) C3) as (n2 & En & Cn & Ln2); [done|].
  rewrite firstn_all in Cn. rewrite Z.add_0_l in En. rewrite En. cbn [obind].
  assert ((if 0 + Z.of_nat (cut path) =? 0 then 0 + Z.of_nat (cut path) + 1 else 0 + Z.of_nat (cut path))
    = 0 + Z.of_nat (cut path `max` 1)) as ->.
  { destruct (Z.eqb_spec (0 + Z.of_nat (cut path)) 0); lia. }
  destruct (cstr_cut_le p1 0 path (cut path `max` 1) C1) as (p2 & Ep & Cp & Lp2); [lia|].
  rewrite Ep. cbn [obind]. exists p2, n2. split_and!; [done|done|done|congruence|congruence].
Qed.
