(* ===== verification/FsCreate.v ===== *)
(** Creating directory entries: paths, the writing of an entry, and the calls
    that create files and directories. *)

From S2P Require Import Prelude Wp CString Bitmap Sd FsData FsOps FsCalls FsLemmas FsState FsInode FsDir FsPath.

#[local] Opaque inode_bytes inode_of_bytes zeros.

(** ** Writing an entry *)

Record dentry_wf (d : dentry_t) : Prop := {
  dw_inum : is_word (d_inum d);
  dw_name : len (d_name d) = MAX_NAME_LENGTH /\ Forall is_byte (d_name d);
  dw_pad : len (d_padding d) = 60 /\ Forall is_byte (d_padding d)
}.
Lemma dentry_bytes_wf d : dentry_wf d -> length (dentry_bytes d) = 128%nat /\ Forall is_byte (dentry_bytes d).
Proof.
  intros [Hi [Hn Hnb] [Hp Hpb]]. unfold dentry_bytes, MAX_NAME_LENGTH in *. split.
  - rewrite !length_app, le_bytes_length. lia.
  - rewrite !Forall_app. split_and!; [apply le_bytes_is_byte|done|done].
Qed.
Lemma dentry_bytes_field d : dentry_wf d -> take 64 (drop 4 (dentry_bytes d)) = d_name d.
Proof.
  intros [Hi [Hn _] _]. unfold dentry_bytes, MAX_NAME_LENGTH in *.
  rewrite drop_app_length' by by rewrite le_bytes_length. by rewrite take_app_length' by lia.
Qed.
Lemma dentry_bytes_name d : dentry_wf d -> ename (dentry_bytes d) = strz (d_name d).
Proof. intros Hd. unfold ename. by rewrite dentry_bytes_field. Qed.
Lemma dentry_bytes_inum d : dentry_wf d -> einum (dentry_bytes d) = d_inum d.
Proof.
  intros [Hi _ _]. unfold einum, dentry_bytes. rewrite take_app_length' by by rewrite le_bytes_length.
  by apply le_val_bytes.
Qed.

(** The directory inode with one more entry counted. *)
Definition more_entries (ino : inode_t) : inode_t := ino <| i_fnum := u32 (i_fnum ino + 1) |>.
(** The disk after entry [dnum] of the first block is written. *)
Definition with_entry (g : Z -> mem) (ino : inode_t) (dnum : Z) (d : dentry_t) : Z -> mem :=
  upd (put_inode g (more_entries ino)) (first_block ino)
    (overlay (g (first_block ino)) (DENTRY_SIZE * dnum) (dentry_bytes d)).

Lemma more_entries_wf ino : inode_wf ino -> inode_wf (more_entries ino).
Proof.
  intros [H1 H2 H3 H4 H5]. split; [done|done| |done|done]. cbn. rewrite !Forall_cons in *.
  split_and!; try apply H3. apply u32_word.
Qed.

#[local] Opaque dentry_bytes.

Section create.
Context {D : Type} `{BlockDevice D}.
Implicit Types s t : fs D.
Implicit Types g : Z -> mem.

Lemma runs_write_dentry ino dnum d t g Q :
  dir_inode ino g -> inode_wf ino -> is_inum (i_num ino) -> dentry_wf d ->
  2 <= dnum < DENTRY_NUM_PER_BLOCK -> dnum <= u32 (i_fnum ino + 2) ->
  (forall b, Q (None, more_entries ino) (t <| dentry_block_buffer := b |>) (with_entry g ino dnum d)) ->
  runs (D := D) (write_dentry ino dnum d) t g Q.
Proof.
  intros Hdir Hw Hnum Hd Hn Hn' HQ. pose proof (dir_inode_word _ _ Hdir) as [Hfw Hdev].
  destruct Hdir as (Hl & Hfb & [Hblk _]). destruct (dentry_bytes_wf d Hd) as [Ld Bd].
  unfold write_dentry, DENTRY_NUM_PER_BLOCK in *. rewrite (proj2 (Z.ltb_ge _ _)), (proj2 (Z.ltb_ge _ _)) by lia.
  cbv zeta. rewrite Z.div_small, Z.mod_small by lia. runs_auto.
  apply runs_direct; [done|done|]. change (i_direct_table ino !!! Z.to_nat 0) with (first_block ino).
  rewrite i32_zero by done. destruct (Z.eqb_spec (first_block ino) 0) as [E|_]; [unfold DATA_BLOCK_INDEX in *; lia|].
  runs_auto. apply runs_sync_to_disk_inode; [done|by apply more_entries_wf|]. runs_auto.
  apply runs_direct; [done|done|].
  change (i_direct_table _ !!! Z.to_nat 0) with (first_block ino). rewrite u32_i32_id by done. runs_auto.
  apply runs_read_block; [done|]. intros _. rewrite put_inode_data by (done || lia). runs_auto.
  eapply runs_lift; [apply splice_overlay; cbn; destruct Hblk as [Hb _]; unfold DENTRY_SIZE, BLOCK_SIZE in *; lia|].
  runs_auto. apply runs_direct; [done|done|].
  change (i_direct_table _ !!! Z.to_nat 0) with (first_block ino). rewrite u32_i32_id by done. runs_auto.
  apply runs_write_block; [done| |].
  - apply overlay_block; [done|unfold DENTRY_SIZE; lia|unfold DENTRY_SIZE, BLOCK_SIZE; lia|done].
  - runs_auto. apply HQ.
Qed.

(** The block and the inode of the directory afterwards. *)
Lemma with_entry_block g ino dnum d :
  with_entry g ino dnum d (first_block ino) = overlay (g (first_block ino)) (DENTRY_SIZE * dnum) (dentry_bytes d).
Proof. unfold with_entry, upd. by rewrite Z.eqb_refl. Qed.
Lemma with_entry_inode g ino dnum d i :
  DATA_BLOCK_INDEX <= first_block ino -> inode_wf ino -> is_inum (i_num ino) -> is_inum i ->
  len (g (table_block (i_num ino))) = BLOCK_SIZE ->
  inode_in (with_entry g ino dnum d) i = if i =? i_num ino then more_entries ino else inode_in g i.
Proof.
  intros Hf Hw Hn Hi Hl. unfold with_entry. rewrite inode_in_upd by done.
  by rewrite inode_in_put by (done || by apply more_entries_wf).
Qed.
Lemma with_entry_other g ino dnum d k :
  is_inum (i_num ino) -> DATA_BLOCK_INDEX <= k -> k <> first_block ino -> with_entry g ino dnum d k = g k.
Proof.
  intros Hn Hk Hne. unfold with_entry, upd at 1. rewrite (proj2 (Z.eqb_neq _ _)) by done. by apply put_inode_data.
Qed.

(** ** Looking up after an entry was written *)

(** The new name is found under its number, every other name as before. *)
Lemma dir_lookup_overlay b i d name :
  dir_ok b -> 0 <= i < 32 -> dentry_wf d -> ename (entry b i) = [] -> 0 ∈ d_name d ->
  dir_find b (strz (d_name d)) = None ->
  dir_ok (overlay b (DENTRY_SIZE * i) (dentry_bytes d))
  /\ (name <> [] -> dir_lookup (overlay b (DENTRY_SIZE * i) (dentry_bytes d)) name =
       if decide (name = strz (d_name d)) then Some (d_inum d) else dir_lookup b name).
Proof.
  intros [Hb Ht] Hi Hd He Hz Hf. destruct (dentry_bytes_wf d Hd) as [Ld Bd].
  pose proof (dents_overlay b i _ Hb Hi Ld) as Ed. split.
  - split; [apply overlay_block; unfold DENTRY_SIZE, BLOCK_SIZE; (done || lia)|]. rewrite Ed.
    apply Forall_insert; [done|]. by rewrite dentry_bytes_field.
  - intros Hne. unfold dir_lookup, dir_find in *. rewrite Ed. case_decide as E.
    + subst name. rewrite list_find_insert_new; [|rewrite dents_length; lia|done|by apply dentry_bytes_name].
      change (Some (einum (dentry_bytes d)) = Some (d_inum d)). by rewrite dentry_bytes_inum.
    + rewrite (list_find_insert_other _ _ _ _ (entry b i)); [done|..].
      * rewrite dents_lookup by lia. by rewrite Z2Nat.id by lia.
      * congruence.
      * rewrite dentry_bytes_name by done. congruence.
Qed.

(** A [dentry_t] local that was given a number and a name. *)
Definition new_dentry t (inum : Z) (name : mem) : dentry_t :=
  mk_dentry inum (overlay (d_name (stack_dentry t)) 0 (name ++ [0])) (d_padding (stack_dentry t)).

Lemma new_dentry_wf t inum name :
  fs_wf t -> is_word inum -> name_ok name ->
  dentry_wf (new_dentry t inum name) /\ strz (d_name (new_dentry t inum name)) = name
  /\ 0 ∈ d_name (new_dentry t inum name).
Proof.
  intros [_ _ _ _ _ [Hn Hnb] Hp] Hi Hname. pose proof (name_ok_nonzero _ Hname) as Hnz. destruct Hname as [Hl Hb].
  assert (len (name ++ [0]) <= len (d_name (stack_dentry t))) as Hlen by (rewrite length_app, Hn; cbn; lia).
  pose proof (splice_overlay (d_name (stack_dentry t)) (name ++ [0]) 0 ltac:(lia) ltac:(lia)) as E.
  cbn [new_dentry d_name]. split_and!.
  - split; cbn [new_dentry d_name d_inum d_padding]; [done| |done]. split.
    + by rewrite (splice_length _ _ _ _ E).
    + eapply splice_Forall; [exact E|done|]. apply Forall_app. split; [|by repeat constructor].
      eapply Forall_impl; [exact Hb|]. by intros c [? _].
  - unfold overlay. change (Z.to_nat 0) with 0%nat. cbn [take app]. rewrite <-app_assoc. cbn [app]. by apply strz_cstr.
  - unfold overlay. rewrite !elem_of_app, elem_of_cons. auto.
Qed.

Lemma runs_named_dentry inum name t g Q :
  fs_wf t -> name_ok name -> Q (new_dentry t inum name) t g -> runs (D := D) (named_dentry inum name) t g Q.
Proof.
  intros [_ _ _ _ _ [Hn _] _] [Hl _] HQ. unfold named_dentry. runs_auto.
  eapply runs_lift; [apply splice_overlay; [lia|rewrite length_app, Hn; cbn; lia]|]. by runs_auto.
Qed.

(** ** Paths in the buffers *)

Lemma runs_str_in (p : fs D -> mem) str t g Q :
  (forall d u, p (norm d u) = p u) -> cstr (p t) 0 str -> Q str t g -> runs (D := D) (str_in p) t g Q.
Proof.
  intros Hp Hc HQ. unfold str_in. runs_step. apply runs_gets; [done|]. eapply runs_lift; [by apply str_at_ok|done].
Qed.

(** The memory with other contents of the path buffers. *)
Definition with_paths t (parent path name : mem) : fs D :=
  t <| parent_buffer := parent |> <| path_buffer := path |> <| name_buffer := name |>.

Lemma runs_separate_path_buffers path t g Q :
  path <> [] -> cstr (path_buffer t) 0 path -> len path + 1 <= len (parent_buffer t) ->
  len (path_name path) + 1 <= len (name_buffer t) ->
  (forall parent' name', cstr parent' 0 (path_parent path) -> cstr name' 0 (path_name path) ->
     Q tt (with_paths t parent' (path_buffer t) name') g) ->
  runs (D := D) separate_path_buffers t g Q.
Proof.
  intros Hne Hc Hp Hn HQ. unfold separate_path_buffers. runs_auto. eapply runs_lift; [by apply str_at_ok|]. runs_auto.
  assert (nonzero path) as Hnz by (by destruct Hc as (? & ? & _ & _ & ?)).
  destruct (separate_path_spec path (parent_buffer t) (name_buffer t)) as (p' & n' & E & C1 & C2 & _ & _); [done..|].
  eapply runs_lift; [exact E|]. runs_auto. by apply HQ.
Qed.

(** The directory [n]: its inode, its entries, the unused entries behind them. *)
Record dir_at (g : Z -> mem) (n : Z) : Prop := {
  da_num : is_inum n;
  da_wf : inode_wf (inode_in g n);
  da_self : i_num (inode_in g n) = n;
  da_dir : dir_inode (inode_in g n) g;
  da_dot : dir_lookup (g (first_block (inode_in g n))) [char_dot] = Some n;
  da_free : forall j, i_fnum (inode_in g n) + 2 <= j < DENTRY_NUM_PER_BLOCK ->
    ename (entry (g (first_block (inode_in g n))) j) = []
}.
(** The current directory: the copy in memory leads to the directory on disk. *)
Record cwd_ok t g : Prop := {
  cw_dir : dir_at g (i_num (current_dir t));
  cw_block : dir_inode (current_dir t) g /\ first_block (current_dir t) = first_block (inode_in g (i_num (current_dir t)));
  cw_used : bit_at (inodebmp_block_buffer t) (i_num (current_dir t)) = true;
  cw_alloc : bit_at (blockbmp_buffer t) (first_block (current_dir t)) = true
}.

Lemma cwd_dot t g Q :
  cwd_ok t g -> Q (i32 (i_num (current_dir t))) t g -> runs (D := D) (find_file (current_dir t) [char_dot]) t g Q.
Proof.
  intros [Hd [Hc Hb] _ _] HQ. apply runs_find_file; [done|by repeat constructor|]. rewrite Hb, (da_dot _ _ Hd). exact HQ.
Qed.
Lemma inum_word i : is_inum i -> is_word i.
Proof. unfold is_inum, is_word, INODE_NUM. lia. Qed.

Lemma runs_open_parent name t g Q :
  cwd_ok t g -> name_ok name -> no_slash name ->
  (forall p1 p2 p3, cstr p3 0 name -> Q (i_num (current_dir t)) (with_paths t p1 p2 p3) g) ->
  runs (D := D) (open_parent name) t g Q.
Proof.
  intros Hc Hn Hs HQ. pose proof (name_ok_nonzero _ Hn) as Hnz. destruct Hn as [Hl _]. unfold MAX_NAME_LENGTH in Hl.
  assert (len (zeros MAX_PATH_LENGTH) = 512 /\ len (zeros MAX_NAME_LENGTH) = 64) as [Lz Lz'] by by rewrite !zeros_len.
  unfold open_parent, clear_path_buffers. runs_auto. cbn [path_buffer put].
  eapply runs_lift; [apply strcpy_to_ok; [done|rewrite Lz; done]|]. runs_auto. cbn [path_buffer put].
  set (b1 := overlay (zeros MAX_PATH_LENGTH) 0 ([char_dot; char_slash] ++ [0])).
  assert (len b1 = 512) as L1 by (unfold b1; rewrite overlay_length; [done|done|rewrite Lz; done]).
  eapply runs_lift; [apply strcpy_to_ok; lia|]. runs_auto.
  eapply (runs_separate_path_buffers ([char_dot] ++ char_slash :: name)); cbn [path_buffer parent_buffer name_buffer put]; [done|..].
  - exists [], (drop (2 + length (name ++ [0])) b1). split_and!; [|done|by repeat constructor].
    unfold overlay. change (take (Z.to_nat 2) b1) with [char_dot; char_slash].
    change (Z.to_nat 2) with 2%nat. cbn [app]. by rewrite <-app_assoc.
  - rewrite Lz. cbn. lia.
  - rewrite Lz', (proj2 (path_split _ _ Hs)). lia.
  - intros p' n' C1 C2. rewrite (proj2 (path_split _ _ Hs)) in C2. rewrite (proj1 (path_split _ _ Hs)) in C1.
    runs_auto. eapply runs_str_in; [done|exact C1|]. runs_auto. apply (cwd_dot (with_paths _ _ _ _)).
    + destruct Hc as [A B C E]. by split.
    + runs_auto. rewrite u32_i32_id; [|apply inum_word; apply (cw_dir _ _ Hc)]. by apply (HQ p' _ n').
Qed.

(** Reading the bit maps back from the disk changes nothing. *)
Lemma runs_sync_from_disk_block_bmp t g Q :
  fs_wf t -> Q tt t g -> runs (D := D) sync_from_disk_block_bmp t g Q.
Proof.
  intros Hw HQ. apply (runs_ev _ _ _ (fun _ => True)); [|by intros []]. intros s Hs.
  destruct (to_wf _ _ _ Hs Hw) as [Hd _ [Hl _] _ _ _ _]. unfold BLOCK_BITMAP_SIZE in Hl.
  apply (wp_for_range (fun _ u => ev s u)); [by apply to_refl| |by auto].
  intros i u Hi Hu. wp_step. eapply wp_mono; [apply read_block_ev; by destruct Hu|]. intros b v [-> Hv].
  assert (ev s v) as Hsv by by eapply ev_trans.
  unfold assign_to. wp_auto. rewrite (to_field blockbmp_buffer _ _ _ (fun _ _ => eq_refl) Hsv).
  assert (dblock u (BLOCK_BMP_BLOCK_INDEX + i) = piece (blockbmp_buffer s) i) as ->.
  { rewrite (ev_dblock _ _ _ Hu), (st_synced _ _ _ Hs) by (unfold BLOCK_BMP_BLOCK_INDEX; lia).
    unfold meta, BLOCK_BMP_BLOCK_INDEX. rewrite !(proj2 (Z.eqb_neq _ _)) by lia. f_equal. lia. }
  eapply wp_lift.
  { apply splice_overlay; [unfold BLOCK_SIZE; lia|]. unfold piece, BLOCK_SIZE. rewrite length_take, length_drop. lia. }
  wp_auto. assert (overlay (blockbmp_buffer s) (BLOCK_SIZE * i) (piece (blockbmp_buffer s) i) = blockbmp_buffer s) as ->.
  { unfold overlay, piece, BLOCK_SIZE. rewrite length_take, length_drop.
    replace (4096 `min` (length (blockbmp_buffer s) - Z.to_nat (4096 * i)))%nat with 4096%nat by lia.
    by rewrite <-drop_drop, take_drop, take_drop. }
  destruct Hsv as [H1 H2 H3]. split; [done|done|]. rewrite <-H3.
  rewrite <-(f_equal blockbmp_buffer H3 : blockbmp_buffer v = blockbmp_buffer s). reflexivity.
Qed.
Lemma runs_sync_from_disk_inode_bmp t g Q :
  Q tt t g -> runs (D := D) sync_from_disk_inode_bmp t g Q.
Proof.
  intros HQ. apply (runs_ev _ _ _ (fun _ => True)); [|by intros []]. intros s Hs.
  unfold sync_from_disk_inode_bmp. wp_step. eapply wp_mono; [apply read_block_ev; by destruct Hs|].
  intros b v [-> Hv]. wp_auto. split; [done|].
  assert (dblock s INODE_BMP_BLOCK_INDEX = inodebmp_block_buffer s) as -> by exact (st_synced _ _ _ Hs 9 ltac:(lia)).
  destruct Hv as [H1 H2 H3]. split; [done|done|]. rewrite <-H3.
  rewrite <-(f_equal inodebmp_block_buffer H3 : inodebmp_block_buffer v = inodebmp_block_buffer s). reflexivity.
Qed.
End create.
