(* ===== verification/FsTouch.v ===== *)
(** [do_touch] and [do_mkdir] as transformers of the file system. *)

From S2P Require Import Prelude Wp CString Bitmap Sd FsData FsOps FsCalls FsLemmas FsState FsInode FsDir FsPath FsCreate.

#[local] Opaque inode_bytes inode_of_bytes zeros dentry_bytes.

(** Every data block is a block. *)
Definition blocks_ok (g : Z -> mem) : Prop := forall k, 10 <= k < DEV_BLOCKS -> block_ok (g k).

Lemma upd_blocks g k b : blocks_ok g -> block_ok b -> blocks_ok (upd g k b).
Proof. intros Hg Hb j Hj. unfold upd. destruct (_ =? _); [done|by apply Hg]. Qed.
Lemma put_inode_blocks g ino : blocks_ok g -> inode_wf ino -> is_inum (i_num ino) -> blocks_ok (put_inode g ino).
Proof.
  intros Hg Hw Hn. apply upd_blocks; [done|]. destruct (is_inum_table _ Hn) as [Ht Hm].
  apply overlay_block; [apply Hg; unfold DATA_BLOCK_INDEX, DEV_BLOCKS in *; lia|..|apply inode_bytes_byte];
    rewrite ?inode_bytes_length by done; unfold INODE_NUM_PER_BLOCK, INODE_SIZE, BLOCK_SIZE; lia.
Qed.

Lemma fresh_inode_wf mode size now block num :
  0 <= mode < 2 ^ 16 -> is_word size -> is_word now -> is_word block -> is_word num ->
  inode_wf (fresh_inode mode size now block num).
Proof.
  intros Hm Hs Hn Hb Hi. assert (forall n, Forall is_word (zeros n)) as Hz.
  { intros n. Transparent zeros. unfold zeros. Opaque zeros. apply Forall_replicate. unfold is_word. lia. }
  assert (length (zeros 11) = 11%nat /\ length (zeros 10) = 10%nat) as [L1 L2].
  { pose proof (zeros_len 11). pose proof (zeros_len 10). lia. }
  split; cbn [fresh_inode i_fmode i_links_cnt i_fsize i_fnum i_atime i_ctime i_mtime i_direct_table
    i_indirect_block_1_ptr i_indirect_block_2_ptr i_indirect_block_3_ptr i_num i_padding]; [done|lia|..].
  - rewrite !Forall_cons. unfold is_word in *. split_and!; (lia || done).
  - split; [cbn; by rewrite L1|by constructor].
  - done.
Qed.

Lemma u16_mode z : 0 <= u16 z < 2 ^ 16.
Proof. unfold u16. by apply Z.mod_pos_bound. Qed.

Section touch.
Context {D : Type} `{BlockDevice D}.
Implicit Types s t : fs D.
Implicit Types g : Z -> mem.

Lemma fs_wf_ext t t' :
  disk t' = disk t -> superblock_buffer t' = superblock_buffer t -> blockbmp_buffer t' = blockbmp_buffer t ->
  inodebmp_block_buffer t' = inodebmp_block_buffer t -> file_descriptor_table t' = file_descriptor_table t ->
  stack_dentry t' = stack_dentry t -> fs_wf t -> fs_wf t'.
Proof. intros E1 E2 E3 E4 E5 E6 []. split; congruence. Qed.
Lemma with_inode_wf t j : fs_wf t -> in_map (inodebmp_block_buffer t) j -> fs_wf (with_inode t j).
Proof.
  intros [H1 H2 H3 [H4 H4'] H5 H6 H7] Hj. destruct (bset_spec _ _ Hj) as (_ & El & Eb & _).
  split; [done| |done| |done|done|done].
  - apply count_down_block; [done|unfold s_free_inode_cnt; lia].
  - split; cbn; [by rewrite El|by apply Eb].
Qed.
Lemma with_block_wf t j : fs_wf t -> in_map (blockbmp_buffer t) j -> fs_wf (with_block t j).
Proof.
  intros [H1 H2 [H4 H4'] H3 H5 H6 H7] Hj. destruct (bset_spec _ _ Hj) as (_ & El & Eb & _).
  split; [done| | |done|done|done|done].
  - apply count_down_block; [done|unfold s_free_blocks_cnt; lia].
  - split; cbn; [by rewrite El|by apply Eb].
Qed.

(** What a call may do to the buffers of paths and entries. *)
Definition rebuffered t t' : Prop :=
  exists p1 p2 p3 b, t' = (with_paths t p1 p2 p3) <| dentry_block_buffer := b |>.

(** The inode that [do_touch] creates. *)
Definition touched t (mode j : Z) : inode_t := fresh_inode (u16 (Z.lor S_IFREG mode)) 0 (ticks t) 0 j.

(** The result of a creation in the current directory: the entry [name] for
    inode [j] with the contents [ino], over the data blocks [g]. *)
Definition cwd_inode t g : inode_t := inode_in g (i_num (current_dir t)).
Definition created t g (name : mem) (ino : inode_t) : Z -> mem :=
  with_entry (put_inode g ino) (cwd_inode t g) (i_fnum (cwd_inode t g) + 2) (new_dentry t (i_num ino) name).

Lemma fnum_word t g : cwd_ok t g -> is_word (i_fnum (cwd_inode t g)).
Proof.
  intros [Hd _ _ _]. destruct (da_wf _ _ Hd) as [_ _ Hw _ _]. rewrite !Forall_cons in Hw. apply Hw.
Qed.

Lemma runs_do_touch name mode j t g Q :
  fs_wf t -> cwd_ok t g -> blocks_ok g -> name_ok name -> no_slash name -> is_word (ticks t) ->
  i_fnum (cwd_inode t g) + 2 < DENTRY_NUM_PER_BLOCK ->
  dir_find (g (first_block (cwd_inode t g))) name = None ->
  first_free (inodebmp_block_buffer t) INODE_BITMAP_SIZE j ->
  (forall t', rebuffered (with_inode t j) t' -> Q 0 t' (created t g name (touched t mode j))) ->
  runs (D := D) (do_touch name mode) t g Q.
Proof.
  intros Hw Hc Hg Hn Hs Htick Hroom Hnew Hfree HQ. pose proof (fnum_word _ _ Hc) as Hfw.
  pose proof Hc as [Hd _ _ _]. pose proof (da_num _ _ Hd) as Hnum. pose proof (name_ok_nonzero _ Hn) as Hnz.
  assert (is_inum j) as Hj.
  { destruct Hfree as (Hj & _). unfold is_inum, INODE_NUM, INODE_BITMAP_SIZE in *. lia. }
  unfold do_touch. runs_step. apply runs_open_parent; [done|done|done|]. intros p1 p2 p3 Cp. cbv beta.
  assert (fs_wf (with_paths t p1 p2 p3)) as Hw1 by by apply (fs_wf_ext t).
  runs_step. apply runs_sync_from_disk_block_bmp; [done|]. runs_step. apply runs_sync_from_disk_inode_bmp.
  runs_step. apply runs_sync_from_disk_inode; [done|]. change (inode_in g _) with (cwd_inode t g).
  runs_step. apply (runs_str_in name_buffer name); [done|done|].
  runs_step. apply runs_find_dentry; [apply Hd|done|]. fold (cwd_inode t g). rewrite Hnew. cbn [fmap option_fmap option_map default].
  change (-1 =? -1) with true. cbv iota.
  runs_step. apply (runs_allocate_inode j); [done|done|]. runs_auto.
  apply runs_sync_to_disk_inode; [done|apply fresh_inode_wf; [apply u16_mode|done|done|done|by apply inum_word]|].
  runs_step. apply (runs_str_in name_buffer name); [done|done|].
  runs_step. apply runs_named_dentry; [apply with_inode_wf; [done|]|done|].
  { destruct Hw as [_ _ _ [Hl _] _ _ _]. unfold in_map. cbn. rewrite Hl.
    unfold is_inum, INODE_NUM, BLOCK_SIZE in *. lia. }
  destruct (new_dentry_wf t j name Hw (inum_word _ Hj) Hn) as (Hdw & _ & _).
  pose proof (da_dir _ _ Hd) as (L12 & Hfb & Hok).
  rewrite u32_id by (unfold is_word, DENTRY_NUM_PER_BLOCK in *; lia).
  runs_step. apply runs_write_dentry.
  - split; [exact L12|]. split; [exact Hfb|]. rewrite put_inode_data; [exact Hok|exact Hj|apply Hfb].
  - apply Hd.
  - unfold cwd_inode. by rewrite (da_self _ _ Hd).
  - exact Hdw.
  - unfold is_word in Hfw. unfold DENTRY_NUM_PER_BLOCK in *. lia.
  - rewrite u32_id; [done|]. unfold is_word, DENTRY_NUM_PER_BLOCK in *. lia.
  - intros b. runs_step. apply HQ. by exists p1, p2, p3, b.
Qed.

(** A name that is there already. *)
Lemma runs_do_touch_dup name mode t g Q :
  fs_wf t -> cwd_ok t g -> name_ok name -> no_slash name -> dir_find (g (first_block (cwd_inode t g))) name <> None ->
  (forall p1 p2 p3, Q ERROR_DUP_DIR_NAME
     ((with_paths t p1 p2 p3) <| console := console t ++ [FS_ERROR ERROR_DUP_DIR_NAME] |>) g) ->
  runs (D := D) (do_touch name mode) t g Q.
Proof.
  intros Hw Hc Hn Hs Hdup HQ. pose proof Hc as [Hd _ _ _]. pose proof (da_num _ _ Hd) as Hnum.
  pose proof (name_ok_nonzero _ Hn) as Hnz.
  unfold do_touch. runs_step. apply runs_open_parent; [done|done|done|]. intros p1 p2 p3 Cp. cbv beta.
  assert (fs_wf (with_paths t p1 p2 p3)) as Hw1 by by apply (fs_wf_ext t).
  runs_step. apply runs_sync_from_disk_block_bmp; [done|]. runs_step. apply runs_sync_from_disk_inode_bmp.
  runs_step. apply runs_sync_from_disk_inode; [done|]. change (inode_in g _) with (cwd_inode t g).
  runs_step. apply (runs_str_in name_buffer name); [done|done|].
  runs_step. apply runs_find_dentry; [apply Hd|done|]. fold (cwd_inode t g).
  destruct (dir_find _ _) as [[k e]|]; [|done]. cbn [fmap option_fmap option_map default compose fst].
  unfold id. destruct (Z.eqb_spec (Z.of_nat k) (-1)); [lia|]. runs_auto. apply HQ.
Qed.

(** ** What a creation does to the disk *)

Section created.
Context t g (name : mem) (ino : inode_t)
  (Hw : fs_wf t) (Hc : cwd_ok t g) (Hg : blocks_ok g) (Hn : name_ok name) (Hne : name <> [])
  (Hroom : i_fnum (cwd_inode t g) + 2 < DENTRY_NUM_PER_BLOCK)
  (Hnew : dir_find (g (first_block (cwd_inode t g))) name = None)
  (Hino : inode_wf ino) (Hnum : is_inum (i_num ino)) (Hother : i_num ino <> i_num (current_dir t)).

Abbreviation n := (i_num (current_dir t)).
Abbreviation g' := (created t g name ino).
Abbreviation fb := (first_block (cwd_inode t g)).

Lemma created_facts : is_inum n /\ inode_wf (cwd_inode t g) /\ i_num (cwd_inode t g) = n
  /\ DATA_BLOCK_INDEX <= fb < BLOCK_NUM /\ dir_ok (g fb) /\ 0 <= i_fnum (cwd_inode t g).
Proof using Hc.
  pose proof (fnum_word t g Hc) as Hf. destruct Hc as [[H1 H2 H3 (H4 & H5 & H6) _ _] _ _ _]. unfold is_word in Hf.
  split_and!; try done; [apply H5|apply H5|apply Hf].
Qed.

Lemma created_blocks : blocks_ok (put_inode g ino) /\ blocks_ok g'.
Proof using All.
  destruct created_facts as (F1 & F2 & F3 & F4 & [F5 _] & F6).
  assert (blocks_ok (put_inode g ino)) as Hp by by apply put_inode_blocks. split; [done|].
  destruct (new_dentry_wf t (i_num ino) name Hw (inum_word _ Hnum) Hn) as (Hdw & _ & _).
  destruct (dentry_bytes_wf _ Hdw) as [Ld Bd].
  unfold created, with_entry. apply upd_blocks.
  - apply put_inode_blocks; [done|by apply more_entries_wf|exact (eq_ind_r is_inum F1 F3)].
  - rewrite put_inode_data by (done || lia).
    apply overlay_block; [done|..|done]; unfold DENTRY_SIZE, DENTRY_NUM_PER_BLOCK, BLOCK_SIZE in *; lia.
Qed.

(** The inode table: the new inode, one more entry in the directory. *)
Lemma created_inode i : is_inum i ->
  inode_in g' i = if i =? n then more_entries (cwd_inode t g) else if i =? i_num ino then ino else inode_in g i.
Proof using All.
  intros Hi. destruct created_facts as (F1 & F2 & F3 & F4 & F5 & F6). destruct created_blocks as [Hp _].
  unfold created. rewrite with_entry_inode; rewrite ?F3; try done; [|lia|apply Hp, table_dev; done].
  destruct (_ =? n); [done|]. apply inode_in_put; [done|done|done|]. apply Hg, table_dev. done.
Qed.

(** The directory block. *)
Lemma created_dir : dir_ok (g' fb) /\
  (forall m, m <> [] -> dir_lookup (g' fb) m = if decide (m = name) then Some (i_num ino) else dir_lookup (g fb) m) /\
  (forall j, 0 <= j < DENTRY_NUM_PER_BLOCK -> j <> i_fnum (cwd_inode t g) + 2 -> entry (g' fb) j = entry (g fb) j).
Proof using All.
  destruct created_facts as (F1 & F2 & F3 & F4 & F5 & F6).
  destruct (new_dentry_wf t (i_num ino) name Hw (inum_word _ Hnum) Hn) as (Hdw & Hstr & Hz).
  unfold created. rewrite with_entry_block, put_inode_data by (done || lia). unfold DENTRY_NUM_PER_BLOCK in *.
  assert (ename (entry (g fb) (i_fnum (cwd_inode t g) + 2)) = []) as He.
  { apply (da_free _ _ (cw_dir _ _ Hc)). split; [reflexivity|exact Hroom]. }
  pose proof (dir_lookup_overlay (g fb) (i_fnum (cwd_inode t g) + 2) (new_dentry t (i_num ino) name)) as Hl.
  split_and!.
  - apply (Hl []); [done|lia|done|done|done|by rewrite Hstr].
  - intros m Hm. rewrite (proj2 (Hl m F5 ltac:(lia) Hdw He Hz ltac:(by rewrite Hstr)) Hm). by rewrite Hstr.
  - intros j Hj Hne'. rewrite entry_overlay; [|apply F5|lia|done|by apply dentry_bytes_wf].
    by destruct (Z.eqb_spec j (i_fnum (cwd_inode t g) + 2)).
Qed.

(** The other data blocks. *)
Lemma created_other k : DATA_BLOCK_INDEX <= k -> k <> fb -> g' k = g k.
Proof using Hc Hnum.
  intros Hk Hkf. destruct created_facts as (F1 & F2 & F3 & F4 & F5 & F6).
  unfold created. rewrite with_entry_other; [|by rewrite F3|done|done]. by apply put_inode_data.
Qed.

(** The current directory is still one. *)
Lemma created_cwd t' :
  current_dir t' = current_dir t -> bit_at (inodebmp_block_buffer t') n = true ->
  bit_at (blockbmp_buffer t') (first_block (current_dir t)) = true -> name <> [char_dot] -> cwd_ok t' g'.
Proof using All.
  intros Ecur Hbit Hbit' Hdot. destruct created_facts as (F1 & F2 & F3 & F4 & F5 & F6).
  destruct created_dir as (C1 & C2 & C3). pose proof (created_inode n F1) as Ei. rewrite Z.eqb_refl in Ei.
  assert (first_block (inode_in g' n) = fb) as Ef by by rewrite Ei.
  destruct Hc as [Hd [(B1 & B2 & B3) B4] _ _]. unfold is_word, DENTRY_NUM_PER_BLOCK in *.
  split; rewrite ?Ecur; [split| |done|done]; try done.
  - rewrite Ei. by apply more_entries_wf.
  - by rewrite Ei.
  - split; [rewrite Ei; apply Hd|]. rewrite Ef. done.
  - rewrite Ef, C2, decide_False by congruence. apply (da_dot _ _ Hd).
  - intros j Hj. rewrite Ef. rewrite Ei in Hj. cbn in Hj. rewrite u32_id in Hj by (unfold is_word; lia).
    unfold DENTRY_NUM_PER_BLOCK in Hj. rewrite C3 by lia. apply (da_free _ _ Hd).
    unfold DENTRY_NUM_PER_BLOCK. fold (cwd_inode t g). lia.
  - split; [|by rewrite Ef]. unfold cwd_inode in C1.
    split; [exact B1|]. split; [exact B2|]. rewrite B4. exact C1.
Qed.
End created.

(** ** [do_mkdir] *)

(** The block of a new directory: the entries "." and "..". *)
Definition dots (self parent : Z) : mem :=
  (le_bytes 4 self ++ [char_dot] ++ zeros 123) ++ (le_bytes 4 parent ++ [char_dot; char_dot] ++ zeros 122) ++ zeros 3840.

Lemma le_bytes_4 v : exists a b c d, le_bytes 4 v = [a; b; c; d].
Proof. cbn. eauto. Qed.

Transparent zeros.
Lemma dots_steps self parent :
  obind (set_word (zeros BLOCK_SIZE) 0 self) (fun l =>
  obind (strcpy_to l (name_pos 0) [char_dot]) (fun l =>
  obind (set_word l 32 parent) (fun l => strcpy_to l (name_pos 1) [char_dot; char_dot]))) = Ok (dots self parent).
Proof.
  unfold set_word, dots. destruct (le_bytes_4 self) as (a & b & c & d & ->), (le_bytes_4 parent) as (a' & b' & c' & d' & ->).
  vm_compute. reflexivity.
Qed.
Lemma dots_dents self parent :
  dents (dots self parent) = (le_bytes 4 self ++ [char_dot] ++ zeros 123)
    :: (le_bytes 4 parent ++ [char_dot; char_dot] ++ zeros 122) :: replicate 30 (zeros 128).
Proof.
  unfold dots. destruct (le_bytes_4 self) as (a & b & c & d & ->), (le_bytes_4 parent) as (a' & b' & c' & d' & ->).
  vm_compute. reflexivity.
Qed.
Lemma dots_block self parent : block_ok (dots self parent).
Proof.
  split.
  - unfold dots. destruct (le_bytes_4 self) as (a & b & c & d & ->), (le_bytes_4 parent) as (a' & b' & c' & d' & ->).
    vm_compute. reflexivity.
  - unfold dots, zeros. rewrite !Forall_app, !Forall_cons. unfold char_dot.
    assert (is_byte 46 /\ is_byte 0) as [? ?] by (unfold is_byte; lia).
    split_and!; auto using le_bytes_is_byte, Forall_replicate.
Qed.
(** The entries of a new directory. *)
Lemma dots_dir self parent : is_word self -> is_word parent ->
  dir_ok (dots self parent) /\ dir_lookup (dots self parent) [char_dot] = Some self
  /\ dir_lookup (dots self parent) [char_dot; char_dot] = Some parent
  /\ (forall j, 2 <= j < DENTRY_NUM_PER_BLOCK -> ename (entry (dots self parent) j) = []).
Proof.
  intros Hs Hp. assert (forall v l, is_word v -> einum (le_bytes 4 v ++ l) = v) as Hi.
  { intros v l Hv. unfold einum. rewrite take_app_length' by by rewrite le_bytes_length. by apply le_val_bytes. }
  assert (forall v l, take 64 (drop 4 (le_bytes 4 v ++ l)) = take 64 l) as Hd.
  { intros v l. by rewrite drop_app_length' by by rewrite le_bytes_length. }
  assert (ename (le_bytes 4 self ++ [char_dot] ++ zeros 123) = [char_dot]) as N1 by (unfold ename; by rewrite Hd).
  assert (ename (le_bytes 4 parent ++ [char_dot; char_dot] ++ zeros 122) = [char_dot; char_dot]) as N2
    by (unfold ename; by rewrite Hd).
  split_and!.
  - split; [apply dots_block|]. rewrite dots_dents, !Forall_cons, !Hd. split_and!.
    + apply elem_of_cons. right. apply elem_of_cons. by left.
    + apply elem_of_cons. right. apply elem_of_cons. right. apply elem_of_cons. by left.
    + apply Forall_replicate. apply elem_of_cons. by left.
  - unfold dir_lookup, dir_find. rewrite dots_dents. cbn [list_find]. rewrite decide_True by exact N1.
    change (Some (einum (le_bytes 4 self ++ [char_dot] ++ zeros 123)) = Some self). by rewrite Hi.
  - unfold dir_lookup, dir_find. rewrite dots_dents. cbn [list_find].
    rewrite decide_False by (rewrite N1; done). rewrite decide_True by exact N2.
    change (Some (einum (le_bytes 4 parent ++ [char_dot; char_dot] ++ zeros 122)) = Some parent). by rewrite Hi.
  - intros j Hj. unfold DENTRY_NUM_PER_BLOCK in Hj.
    assert (dents (dots self parent) !! Z.to_nat j = Some (entry (dots self parent) j)) as E.
    { rewrite dents_lookup by lia. by rewrite Z2Nat.id by lia. }
    rewrite dots_dents in E. replace (Z.to_nat j) with (S (S (Z.to_nat (j - 2)))) in E by lia.
    rewrite !lookup_cons in E. apply lookup_replicate in E as [-> _]. done.
Qed.
Opaque zeros.

Lemma runs_write_dots self parent t g Q :
  dentry_block_buffer t = zeros BLOCK_SIZE -> Q tt (t <| dentry_block_buffer := dots self parent |>) g ->
  runs (D := D) (write_dots self parent) t g Q.
Proof.
  intros Ht HQ. pose proof (dots_steps self parent) as E. unfold write_dots. runs_auto. rewrite Ht.
  destruct (set_word _ 0 self) as [l1|] eqn:E1; [|done]. cbn [obind] in E.
  eapply runs_lift; [done|]. runs_auto. cbn [dentry_block_buffer put].
  destruct (strcpy_to l1 _ _) as [l2|] eqn:E2; [|done]. cbn [obind] in E.
  eapply runs_lift; [done|]. runs_auto. cbn [dentry_block_buffer put].
  destruct (set_word l2 _ _) as [l3|] eqn:E3; [|done]. cbn [obind] in E.
  eapply runs_lift; [done|]. runs_auto. cbn [dentry_block_buffer put].
  eapply runs_lift; [exact E|]. runs_auto. exact HQ.
Qed.
Lemma st_ext t g g1 s : (forall k, 10 <= k < DEV_BLOCKS -> g k = g1 k) -> st t g s -> st t g1 s.
Proof.
  intros E Hs. eapply to_ext; [exact Hs|]. intros k Hk. unfold disk_of. destruct (Z.ltb_spec k 10); [done|]. apply E. lia.
Qed.
Lemma runs_data {A} (m : M (fs D) A) t g g1 Q :
  (forall k, 10 <= k < DEV_BLOCKS -> g k = g1 k) -> runs m t g1 Q -> runs m t g Q.
Proof. intros E Hr s Hs. apply Hr. by eapply st_ext. Qed.

(** The path "./name". *)
Lemma runs_mkdir_path name t g Q (k : M (fs D) Z) :
  name_ok name -> no_slash name ->
  (forall p1 p2 p3, cstr p1 0 [char_dot] -> cstr p3 0 name -> runs k (with_paths t p1 p2 p3) g Q) ->
  runs (D := D) (do! clear_path_buffers;
    do! assign_to path_buffer (fun b => splice b 0 ([char_dot; char_slash] ++ name));
    do! assign_to path_buffer (fun b => wr b (len ([char_dot; char_slash] ++ name)) 0);
    do! separate_path_buffers; k) t g Q.
Proof.
  intros Hn Hs HQ. pose proof (name_ok_nonzero _ Hn) as Hnz. destruct Hn as [Hl _]. unfold MAX_NAME_LENGTH in Hl.
  assert (len (zeros MAX_PATH_LENGTH) = 512 /\ len (zeros MAX_NAME_LENGTH) = 64) as [Lz Lz'] by by rewrite !zeros_len.
  set (path := [char_dot; char_slash] ++ name). assert (len path = len name + 2) as Lp by (cbn; lia).
  unfold clear_path_buffers. runs_auto. cbn [path_buffer put].
  eapply runs_lift; [apply splice_overlay; lia|]. runs_auto. cbn [path_buffer put].
  set (b1 := overlay (zeros MAX_PATH_LENGTH) 0 path).
  assert (length b1 = length (zeros MAX_PATH_LENGTH)) as L1 by (apply overlay_length; lia).
  eapply runs_lift; [apply wr_in_range; lia|]. runs_auto.
  eapply (runs_separate_path_buffers path); cbn [path_buffer parent_buffer name_buffer put]; [done|..].
  - exists [], (drop (S (length path)) b1). split_and!; [|done|by repeat constructor].
    rewrite Nat2Z.id, insert_take_drop by lia. rewrite app_nil_l. f_equal. unfold b1, overlay.
    change (Z.to_nat 0) with 0%nat. rewrite take_0, app_nil_l. by rewrite take_app_length.
  - lia.
  - change (path_name path) with (path_name ([char_dot] ++ char_slash :: name)).
    rewrite Lz', (proj2 (path_split _ _ Hs)). lia.
  - intros p' n' C1 C2. change path with ([char_dot] ++ char_slash :: name) in C1, C2.
    rewrite (proj2 (path_split _ _ Hs)) in C2. rewrite (proj1 (path_split _ _ Hs)) in C1. exact (HQ p' _ n' C1 C2).
Qed.

Definition made_dir t (mode b j : Z) : inode_t := fresh_inode (u16 (Z.lor S_IFDIR mode)) BLOCK_SIZE (ticks t) b j.

(** The current directory does not depend on blocks it does not use. *)
Lemma cwd_ok_change t t' g k b :
  cwd_ok t g -> current_dir t' = current_dir t ->
  (forall i, 0 <= i -> bit_at (inodebmp_block_buffer t) i = true -> bit_at (inodebmp_block_buffer t') i = true) ->
  (forall i, 0 <= i -> bit_at (blockbmp_buffer t) i = true -> bit_at (blockbmp_buffer t') i = true) ->
  DATA_BLOCK_INDEX <= k -> k <> first_block (current_dir t) ->
  cwd_ok t' (upd g k b) /\ cwd_inode t' (upd g k b) = cwd_inode t g.
Proof.
  intros [[H1 H2 H3 (H4 & H5 & H6) H7 H8] [(B1 & B2 & B3) B4] C1 C2] Ec Hi Hb Hk Hne.
  assert (inode_in (upd g k b) (i_num (current_dir t)) = inode_in g (i_num (current_dir t))) as Ei by by apply inode_in_upd.
  assert (upd g k b (first_block (current_dir t)) = g (first_block (current_dir t))) as Eb.
  { unfold upd. by destruct (Z.eqb_spec (first_block (current_dir t)) k). }
  split; [|by unfold cwd_inode; rewrite Ec].
  split; rewrite ?Ec; [split|split|apply Hi; [apply H1|done]|apply Hb; [unfold DATA_BLOCK_INDEX in B2; lia|done]]; rewrite ?Ei, <-?B4, ?Eb; try done.
  - split; [done|]. rewrite <-B4, Eb. split; [by rewrite B4|done].
  - by rewrite B4.
  - intros j Hj. rewrite B4. by apply H8.
  - split; [done|]. by rewrite Eb.
Qed.

Lemma made_dir_wf t mode b j : is_word (ticks t) -> is_inum j -> DATA_BLOCK_INDEX <= b -> b < BLOCK_NUM ->
  inode_wf (made_dir t mode b j).
Proof.
  intros Ht Hj Hb Hb'. apply fresh_inode_wf; [apply u16_mode|done|done| |by apply inum_word].
  unfold is_word, BLOCK_NUM, DATA_BLOCK_INDEX in *. lia.
Qed.
Lemma upd_put_inode g b dt ino k : is_inum (i_num ino) -> DATA_BLOCK_INDEX <= b ->
  upd (put_inode g ino) b dt k = put_inode (upd g b dt) ino k.
Proof.
  intros Hn Hb. destruct (is_inum_table _ Hn) as [Ht _]. unfold put_inode, upd.
  destruct (Z.eqb_spec k b) as [E1|E1], (Z.eqb_spec k (table_block (i_num ino))) as [E2|E2],
    (Z.eqb_spec (table_block (i_num ino)) b) as [E3|E3]; lia || done.
Qed.

Lemma runs_do_mkdir name mode j b t g Q :
  fs_wf t -> cwd_ok t g -> blocks_ok g -> name_ok name -> no_slash name -> is_word (ticks t) ->
  i_fnum (cwd_inode t g) + 2 < DENTRY_NUM_PER_BLOCK ->
  dir_find (g (first_block (cwd_inode t g))) name = None ->
  first_free (inodebmp_block_buffer t) INODE_BITMAP_SIZE j ->
  first_free (blockbmp_buffer t) BLOCK_BITMAP_SIZE b -> DATA_BLOCK_INDEX <= b ->
  (forall t', rebuffered (with_block (with_inode t j) b) t' ->
     Q 0 t' (created t (upd g b (dots j (i_num (current_dir t)))) name (made_dir t mode b j))) ->
  runs (D := D) (do_mkdir ([char_dot; char_slash] ++ name) mode) t g Q.
Proof.
  intros Hw Hc Hg Hn Hs Htick Hroom Hnew Hfi Hfb Hb HQ. pose proof (fnum_word _ _ Hc) as Hfw.
  pose proof Hc as [Hd [_ Ecb] _ Hused]. pose proof (da_num _ _ Hd) as Hnum. pose proof (name_ok_nonzero _ Hn) as Hnz.
  assert (is_inum j) as Hj by (destruct Hfi as (Hj & _); unfold is_inum, INODE_NUM, INODE_BITMAP_SIZE in *; lia).
  assert (b < BLOCK_NUM) as Hb' by (destruct Hfb as (Hb' & _); unfold BLOCK_BITMAP_SIZE, BLOCK_NUM in *; lia).
  assert (b <> first_block (current_dir t)) as Hbne by (intros ->; destruct Hfb as (_ & ? & _); congruence).
  pose proof Hw as [_ _ [Lb _] [Li _] _ _ _].
  unfold do_mkdir. apply runs_mkdir_path; [done|done|]. intros p1 p2 p3 C1 Cp.
  set (t1 := with_paths t p1 p2 p3). assert (fs_wf t1) as Hw1 by by apply (fs_wf_ext t).
  assert (cwd_ok t1 g) as Hc1 by (by destruct Hc; split).
  runs_auto. apply (runs_str_in parent_buffer [char_dot]); [done|done|]. runs_step. apply (cwd_dot t1); [done|].
  cbv zeta. change (current_dir t1) with (current_dir t). rewrite u32_i32_id by by apply inum_word.
  runs_step. apply runs_sync_from_disk_block_bmp; [done|]. runs_step. apply runs_sync_from_disk_inode_bmp.
  runs_step. apply runs_sync_from_disk_inode; [done|]. change (inode_in g _) with (cwd_inode t g).
  runs_step. apply (runs_str_in name_buffer name); [done|done|].
  runs_step. apply runs_find_dentry; [apply Hd|done|]. fold (cwd_inode t g). rewrite Hnew. cbn [fmap option_fmap option_map default].
  change (-1 =? -1) with true. cbv iota.
  runs_step. apply (runs_allocate_inode j); [done|done|]. runs_step.
  assert (fs_wf (with_inode t1 j)) as Hw2.
  { apply with_inode_wf; [done|]. unfold in_map. cbn. rewrite Li. unfold is_inum, INODE_NUM, BLOCK_SIZE in *. lia. }
  apply (runs_allocate_block b); [done|done|]. runs_auto.
  assert (fs_wf (with_block (with_inode t1 j) b)) as Hw3.
  { apply with_block_wf; [done|]. unfold in_map. cbn. rewrite Lb. unfold BLOCK_BITMAP_SIZE, BLOCK_NUM in *.
    unfold DATA_BLOCK_INDEX in Hb. lia. }
  apply runs_sync_to_disk_inode; [done|by apply made_dir_wf|]. runs_auto.
  apply runs_write_dots; [done|]. unfold sync_to_disk_dentry. runs_auto.
  assert (10 <= b < DEV_BLOCKS) as Hdev by (unfold BLOCK_NUM, DEV_BLOCKS, DATA_BLOCK_INDEX in *; lia).
  apply runs_write_block; [done|apply dots_block|].
  runs_step. apply (runs_str_in name_buffer name); [done|done|].
  runs_step. apply runs_named_dentry; [by apply (fs_wf_ext (with_block (with_inode t1 j) b))|done|]. runs_step.
  set (dt := dots j (i_num (current_dir t))).
  apply (runs_data _ _ _ (put_inode (upd g b dt) (made_dir t mode b j))).
  { intros k Hk. apply upd_put_inode; [done|done]. }
  destruct (cwd_ok_change t t g b dt Hc eq_refl ltac:(done) ltac:(done) Hb Hbne) as [Hc' Ecwd].
  pose proof (da_dir _ _ (cw_dir _ _ Hc')) as Hdir. fold (cwd_inode t (upd g b dt)) in Hdir. rewrite Ecwd in Hdir.
  destruct (new_dentry_wf t j name Hw (inum_word _ Hj) Hn) as (Hdw & _ & _).
  rewrite u32_id by (unfold is_word, DENTRY_NUM_PER_BLOCK in *; lia).
  apply runs_write_dentry.
  - destruct Hdir as (L12 & Hf & Hok). split; [done|]. split; [done|]. rewrite put_inode_data; [exact Hok|exact Hj|apply Hf].
  - apply Hd.
  - unfold cwd_inode. by rewrite (da_self _ _ Hd).
  - exact Hdw.
  - unfold is_word in Hfw. unfold DENTRY_NUM_PER_BLOCK in *. lia.
  - rewrite u32_id; [done|]. unfold is_word, DENTRY_NUM_PER_BLOCK in *. lia.
  - intros b'. runs_step. unfold created in HQ. fold dt in HQ. rewrite Ecwd in HQ. apply HQ. by exists p1, p2, p3, b'.
Qed.
End touch.
