(* ===== verification/FsMount.v ===== *)
(** Creating and mounting the file system. *)

From S2P Require Import Prelude Wp CString Bitmap Sd FsData FsOps FsCalls FsLemmas FsState FsInode FsDir FsPath FsCreate FsTouch.

#[local] Opaque inode_bytes inode_of_bytes zeros dentry_bytes.

(** The super block that [do_mkfs] writes, before the root is allocated. *)
Definition new_superblock : mem :=
  foldl (fun l p => put_word l (fst p) (snd p)) (zeros BLOCK_SIZE)
    [(s_magic, FS_MAGIC_NUMBER); (s_disk_size, FS_SIZE); (s_block_size, BLOCK_SIZE);
     (s_total_blocks_cnt, BLOCK_NUM); (s_total_inodes_cnt, INODE_NUM);
     (s_blockbmp_block_index, BLOCK_BMP_BLOCK_INDEX); (s_inodebmp_block_index, INODE_BMP_BLOCK_INDEX);
     (s_inodetable_block_index, INODE_TABLE_BLOCK_INDEX); (s_data_block_index, DATA_BLOCK_INDEX);
     (s_free_blocks_cnt, BLOCK_NUM - DATA_BLOCK_INDEX); (s_free_inode_cnt, INODE_NUM);
     (s_inode_size, INODE_SIZE); (s_dentry_size, DENTRY_SIZE)].

Transparent zeros.
Lemma zeros_bit n i : 0 <= i -> bit_at (zeros n) i = false.
Proof.
  intros Hi. unfold bit_at, zeros. destruct (decide (Z.to_nat (i / 8) < Z.to_nat n)%nat).
  - rewrite lookup_total_replicate_2 by done. apply Z.bits_0.
  - rewrite list_lookup_total_alt, lookup_ge_None_2 by (rewrite length_replicate; lia). cbn. apply Z.bits_0.
Qed.
Lemma zeros_byte n : Forall is_byte (zeros n).
Proof. unfold zeros. apply Forall_replicate. unfold is_byte. lia. Qed.
Opaque zeros.

Section mount.
Context {D : Type} `{BlockDevice D}.
Implicit Types s t : fs D.
Implicit Types g : Z -> mem.

Lemma wp_set_sb field v t u f (Q : unit -> fs D -> Prop) :
  to t u f -> block_ok (superblock_buffer t) -> 0 <= field < 1024 ->
  (forall u', to (t <| superblock_buffer := put_word (superblock_buffer t) field v |>) u' f -> Q tt u') ->
  wp (set_sb field v) u Q.
Proof.
  intros Ht [Hl _] Hf HQ. unfold BLOCK_SIZE in Hl. unfold set_sb, assign_to. wp_auto.
  rewrite (to_field superblock_buffer _ _ _ (fun _ _ => eq_refl) Ht).
  eapply wp_lift; [apply set_word_put; lia|]. wp_auto. apply HQ.
  by apply (to_modify (fun w => w <| superblock_buffer := put_word (superblock_buffer t) field v |>)).
Qed.

(** The loop that marks the metadata blocks as used. *)
Lemma wp_mark_blocks n t u f (Q : unit -> fs D -> Prop) :
  to t u f -> blockbmp_buffer t = zeros BLOCK_BITMAP_SIZE -> Z.of_nat n <= BLOCK_NUM ->
  (forall bb u', len bb = BLOCK_BITMAP_SIZE -> Forall is_byte bb ->
     (forall k, 0 <= k -> bit_at bb k = (k <? Z.of_nat n)) -> to (t <| blockbmp_buffer := bb |>) u' f -> Q tt u') ->
  wp (for_range n 0 set_block_bmp) u Q.
Proof.
  intros Ht Hz Hn HQ. unfold BLOCK_BITMAP_SIZE, BLOCK_NUM in *.
  apply (wp_for_range (fun i v => exists bb, len bb = 32768 /\ Forall is_byte bb
    /\ (forall k, 0 <= k -> bit_at bb k = (k <? i)) /\ to (t <| blockbmp_buffer := bb |>) v f)).
  - exists (zeros 32768). split_and!; [by rewrite zeros_len|apply zeros_byte| |].
    + intros k Hk. rewrite zeros_bit by done. symmetry. apply Z.ltb_ge. lia.
    + destruct Ht as [H1 H2 H3]. split; [done|done|]. rewrite <-Hz. exact H3.
  - intros i v Hi (bb & Lb & Bb & Bits & Hv). unfold set_block_bmp, assign_to. wp_auto.
    rewrite (to_field blockbmp_buffer _ _ _ (fun _ _ => eq_refl) Hv). cbn [blockbmp_buffer put].
    destruct (bset_spec bb i) as (E & El & Eb & Ebit); [unfold in_map; lia|].
    eapply wp_lift; [exact E|]. wp_auto. exists (bset bb i). split_and!; [by rewrite El|by apply Eb| |].
    + intros k Hk. rewrite Ebit, Bits by done.
      destruct (Z.eqb_spec k i), (Z.ltb_spec k i), (Z.ltb_spec k (i + 1)); try lia; done.
    + by apply (to_modify (fun w => w <| blockbmp_buffer := bset bb i |>)) in Hv.
  - intros v (bb & Lb & Bb & Bits & Hv). by apply (HQ bb).
Qed.

Lemma to_sync_superblock t u f (Q : unit -> fs D -> Prop) :
  to t u f -> block_ok (superblock_buffer t) ->
  (forall u', to t u' (upd f 0 (superblock_buffer t)) -> Q tt u') -> wp sync_to_disk_superblock u Q.
Proof.
  intros Ht Hb HQ. unfold sync_to_disk_superblock. wp_auto.
  rewrite (to_field superblock_buffer _ _ _ (fun _ _ => eq_refl) Ht).
  eapply wp_mono; [apply (to_write_block _ _ _ _ _ Ht); [done|done]|]. intros [] u'. apply HQ.
Qed.
Lemma to_sync_inode_bmp t u f (Q : unit -> fs D -> Prop) :
  to t u f -> block_ok (inodebmp_block_buffer t) ->
  (forall u', to t u' (upd f 9 (inodebmp_block_buffer t)) -> Q tt u') -> wp sync_to_disk_inode_bmp u Q.
Proof.
  intros Ht Hb HQ. unfold sync_to_disk_inode_bmp. wp_auto.
  rewrite (to_field inodebmp_block_buffer _ _ _ (fun _ _ => eq_refl) Ht).
  eapply wp_mono; [apply (to_write_block _ _ _ _ _ Ht); [done|done]|]. intros [] u'. apply HQ.
Qed.

(** ** [do_mkfs] *)

(** The memory after the buffers are cleared and filled. *)
Definition cleared_fs s (sb bb ib : mem) : fs D :=
  s <| data_block_buffer := zeros BLOCK_SIZE |> <| superblock_buffer := sb |> <| blockbmp_buffer := bb |>
    <| inodebmp_block_buffer := ib |> <| dentry_block_buffer := zeros BLOCK_SIZE |>
    <| file_descriptor_table := replicate 32 zero_fd |>
    <| parent_buffer := zeros MAX_PATH_LENGTH |> <| name_buffer := zeros MAX_NAME_LENGTH |>.

Lemma wp_mkfs_clear s (Q : unit -> fs D -> Prop) :
  fs_wf s ->
  (forall u f, to (cleared_fs s (zeros BLOCK_SIZE) (zeros BLOCK_BITMAP_SIZE) (zeros BLOCK_SIZE)) u f ->
     (forall k, 10 <= k < DEV_BLOCKS -> f k = dblock s k) -> Q tt u) -> wp mkfs_clear s Q.
Proof.
  intros Hw HQ. unfold mkfs_clear. wp_auto.
  match goal with |- wp _ ?v _ => assert (to (cleared_fs s (zeros BLOCK_SIZE) (zeros BLOCK_BITMAP_SIZE) (zeros BLOCK_SIZE)) v (dblock s)) as H0 end.
  { split; [by destruct Hw|done|done]. }
  eapply wp_mono; [apply (to_sync_block_bmp _ _ _ H0); [by cbn; rewrite zeros_len|apply zeros_byte]|]. intros [] u1 H1.
  eapply (to_sync_inode_bmp _ _ _ _ H1); [apply zeros_block|]. intros u2 H2. eapply HQ; [exact H2|].
  intros k Hk. unfold upd, put_bmp. rewrite (proj2 (Z.eqb_neq k 9)) by lia.
  destruct (Z.leb_spec 1 k), (Z.ltb_spec k (1 + 8)); try lia; done.
Qed.

Lemma wp_mkfs_superblock s u f bb ib (Q : unit -> fs D -> Prop) :
  to (cleared_fs s (zeros BLOCK_SIZE) bb ib) u f ->
  (forall u', to (cleared_fs s new_superblock bb ib) u' (upd f 0 new_superblock) -> Q tt u') ->
  wp mkfs_superblock u Q.
Proof.
  intros Ht HQ. unfold mkfs_superblock.
  assert (forall l i v, block_ok l -> 0 <= i < 1024 -> block_ok (put_word l i v)) as Hput by apply put_word_block.
  pose proof zeros_block as Hz.
  do 13 (wp_step; eapply wp_set_sb; [eassumption|cbn [superblock_buffer put cleared_fs]; repeat (apply Hput; [|done]); done|done|];
    clear Ht; let v := fresh "v" in intros v Ht).
  eapply to_sync_superblock; [exact Ht| |intros u' Hu'; apply HQ; exact Hu'].
  cbn [superblock_buffer put cleared_fs]. by repeat (apply Hput; [|done]).
Qed.

(** The bit maps of a new file system: the metadata and the root. *)
Definition new_superblock' : mem := count_down (count_down new_superblock s_free_inode_cnt) s_free_blocks_cnt.

Lemma new_superblock_block : block_ok new_superblock /\ block_ok new_superblock'.
Proof.
  assert (block_ok new_superblock) as Hb.
  { pose proof zeros_block as Hz. unfold new_superblock. cbn [foldl fst snd].
    by repeat (apply put_word_block; [|done]). }
  split; [done|]. unfold new_superblock'. by repeat (apply count_down_block; [|done]).
Qed.

#[local] Opaque new_superblock put_word word_in.

Lemma wp_mkfs_bitmaps s u f (Q : unit -> fs D -> Prop) :
  to (cleared_fs s new_superblock (zeros BLOCK_BITMAP_SIZE) (zeros BLOCK_SIZE)) u f ->
  (forall bb ib u' f', len bb = BLOCK_BITMAP_SIZE -> Forall is_byte bb -> block_ok ib ->
     (forall k, 0 <= k -> bit_at bb k = (k <=? DATA_BLOCK_INDEX)) -> (forall i, 0 <= i -> bit_at ib i = (i =? 0)) ->
     to (cleared_fs s new_superblock' bb ib) u' f' ->
     (forall k, 10 <= k < DEV_BLOCKS -> f' k = f k) -> (forall k, 0 <= k < 10 -> f' k = meta (cleared_fs s new_superblock' bb ib) k) ->
     Q tt u') ->
  wp mkfs_bitmaps u Q.
Proof.
  intros Ht HQ. destruct new_superblock_block as [Hsb Hsb'].
  unfold mkfs_bitmaps. wp_step. eapply wp_mark_blocks; [exact Ht|done|unfold DATA_BLOCK_INDEX, BLOCK_NUM; lia|].
  intros bb u1 Lb Bb Bits H1. wp_step.
  eapply wp_mono; [apply (to_sync_block_bmp _ _ _ H1); done|]. intros [] u2 H2. wp_step.
  unfold set_inode_bmp at 1, assign_to at 1. wp_auto.
  rewrite (to_field inodebmp_block_buffer _ _ _ (fun _ _ => eq_refl) H2). cbn [inodebmp_block_buffer put cleared_fs].
  destruct (bset_spec (zeros BLOCK_SIZE) 0) as (E & El & Eb & Ebit); [unfold in_map; rewrite zeros_len; done|].
  eapply wp_lift; [exact E|]. wp_auto. set (ib := bset (zeros BLOCK_SIZE) 0) in *.
  apply (to_modify (fun w => w <| inodebmp_block_buffer := ib |>)) in H2; [|done|done].
  assert (block_ok ib) as Hib.
  { split; [rewrite El; by apply zeros_len|]. apply Eb, zeros_byte. }
  eapply to_sync_inode_bmp; [exact H2|done|]. intros u3 H3. wp_step.
  eapply wp_mono; [apply (to_decr_sb _ _ _ s_free_inode_cnt H3); [exact Hsb|done]|]. intros [] u4 H4. wp_step.
  eapply to_sync_superblock; [exact H4|apply count_down_block; [exact Hsb|done]|]. intros u5 H5.
  unfold set_block_bmp, assign_to. wp_auto.
  rewrite (to_field blockbmp_buffer _ _ _ (fun _ _ => eq_refl) H5). cbn [blockbmp_buffer put].
  destruct (bset_spec bb DATA_BLOCK_INDEX) as (E' & El' & Eb' & Ebit').
  { unfold in_map. rewrite Lb. unfold DATA_BLOCK_INDEX, BLOCK_BITMAP_SIZE. lia. }
  eapply wp_lift; [exact E'|]. wp_auto. set (bb' := bset bb DATA_BLOCK_INDEX) in *.
  apply (to_modify (fun w => w <| blockbmp_buffer := bb' |>)) in H5; [|done|done].
  eapply wp_mono; [apply (to_sync_block_bmp _ _ _ H5); cbn; [by rewrite El'|by apply Eb']|]. intros [] u6 H6. wp_step.
  eapply wp_mono; [apply (to_decr_sb _ _ _ s_free_blocks_cnt H6); [apply count_down_block; [exact Hsb|done]|done]|]. intros [] u7 H7.
  eapply to_sync_superblock; [exact H7|exact Hsb'|]. intros u8 H8.
  eapply (HQ bb' ib u8); [by rewrite El'|by apply Eb'|done| | |exact H8| |].
  - intros k Hk. rewrite Ebit', Bits by done. unfold DATA_BLOCK_INDEX.
    destruct (Z.eqb_spec k 266), (Z.ltb_spec k (Z.of_nat (Z.to_nat 266))), (Z.leb_spec k 266); try lia; done.
  - intros i Hi. rewrite Ebit, zeros_bit by done. apply orb_false_r.
  - intros k Hk. unfold upd, put_bmp. rewrite !(proj2 (Z.eqb_neq k _)) by lia.
    rewrite (proj2 (Z.ltb_ge k (1 + 8))), andb_false_r by lia. done.
  - intros k Hk. unfold upd, put_bmp, meta. change (1 + 8) with 9.
    destruct (Z.eqb_spec k 0); [done|]. destruct (Z.eqb_spec k 9) as [->|]; [done|].
    destruct (Z.leb_spec 1 k), (Z.ltb_spec k 9); try lia; done.
Qed.

(** The root directory. *)
Definition root_of (now : Z) : inode_t := fresh_inode (Z.lor S_IFDIR 493) BLOCK_SIZE now DATA_BLOCK_INDEX 0.
Definition root_data (now : Z) g : Z -> mem := upd (put_inode g (root_of now)) DATA_BLOCK_INDEX (dots 0 0).

Lemma root_wf now : is_word now -> inode_wf (root_of now).
Proof. intros Hn. by apply fresh_inode_wf. Qed.

Lemma runs_mkfs_root t g (Q : unit -> fs D -> (Z -> mem) -> Prop) :
  dentry_block_buffer t = zeros BLOCK_SIZE -> is_word (ticks t) ->
  Q tt (t <| root_inode := root_of (ticks t) |> <| dentry_block_buffer := dots 0 0 |> <| current_dir := root_of (ticks t) |>)
    (root_data (ticks t) g) -> runs (D := D) mkfs_root t g Q.
Proof.
  intros Hz Hn HQ. unfold mkfs_root. runs_auto. apply runs_sync_to_disk_inode; [done|by apply root_wf|]. runs_step.
  apply runs_write_dots; [done|]. unfold sync_to_disk_dentry. runs_auto. apply runs_write_block; [done|apply dots_block|].
  runs_auto. exact HQ.
Qed.

(** Printing the numbers of the super block. *)
Lemma runs_read_fields l t g (Q : list Z -> fs D -> (Z -> mem) -> Prop) :
  block_ok (superblock_buffer t) -> Forall (fun p => 0 <= fst p < 1024) l ->
  Q ((fun p => u32 (word_in (superblock_buffer t) (fst p) * snd p)) <$> l) t g -> runs (D := D) (read_fields l) t g Q.
Proof.
  intros [Hl Hb] Hf. revert Q. induction Hf as [|[f sc] l Hf _ IH]; intros Q HQ; cbn [read_fields]; [by runs_auto|].
  cbn [fst] in Hf. unfold get_sb. runs_auto. eapply runs_lift; [apply get_word_in; unfold BLOCK_SIZE in *; lia|].
  runs_step. apply IH. runs_auto. exact HQ.
Qed.

Lemma runs_print_new_superblock t g (Q : unit -> fs D -> (Z -> mem) -> Prop) :
  block_ok (superblock_buffer t) -> (forall c, Q tt (t <| console := c |>) g) ->
  runs (D := D) print_new_superblock t g Q.
Proof.
  intros Hb HQ. unfold print_new_superblock. runs_step. apply runs_read_fields; [exact Hb| |].
  - apply (bool_decide_unpack _). vm_compute. exact I.
  - unfold print. runs_auto. apply HQ.
Qed.

(** A fresh file system: its memory and its disk. *)
Definition fresh_fs s (sb bb ib : mem) (c : list message) : fs D :=
  (cleared_fs s sb bb ib) <| root_inode := root_of (ticks s) |> <| dentry_block_buffer := dots 0 0 |>
    <| current_dir := root_of (ticks s) |> <| console := c |>.

Lemma runs_mkfs_end s sb bb ib (Q : unit -> fs D -> (Z -> mem) -> Prop) :
  block_ok sb -> is_word (ticks s) ->
  (forall c, Q tt (fresh_fs s sb bb ib c) (root_data (ticks s) (dblock s))) ->
  runs (D := D) (do! mkfs_root; print_new_superblock) (cleared_fs s sb bb ib) (dblock s) Q.
Proof.
  intros Hb Hn HQ. runs_step. apply runs_mkfs_root; [reflexivity|exact Hn|].
  apply runs_print_new_superblock; [exact Hb|]. exact HQ.
Qed.

#[local] Opaque new_superblock'.

(** What [do_mkfs] leaves: everything in memory and on the disk, up to the text printed. *)
Definition formatted s s' : Prop := exists bb ib c,
  len bb = BLOCK_BITMAP_SIZE /\ Forall is_byte bb /\ block_ok ib
  /\ (forall k, 0 <= k -> bit_at bb k = (k <=? DATA_BLOCK_INDEX)) /\ (forall i, 0 <= i -> bit_at ib i = (i =? 0))
  /\ st (fresh_fs s new_superblock' bb ib c) (root_data (ticks s) (dblock s)) s'.

Lemma wp_do_mkfs s : fs_wf s -> is_word (ticks s) -> wp do_mkfs s (fun _ s' => formatted s s').
Proof.
  intros Hw Hn. unfold do_mkfs. wp_step. apply wp_mkfs_clear; [exact Hw|]. intros u1 f1 H1 E1. wp_step.
  eapply wp_mkfs_superblock; [exact H1|]. intros u2 H2. wp_step. eapply wp_mkfs_bitmaps; [exact H2|].
  intros bb ib u3 f3 Lb Bb Hib B1 B2 H3 E3 M3.
  assert (st (cleared_fs s new_superblock' bb ib) (dblock s) u3) as S3.
  { eapply to_ext; [exact H3|]. intros k Hk. unfold disk_of. destruct (Z.ltb_spec k 10); [apply M3; lia|].
    rewrite E3 by lia. unfold upd. rewrite (proj2 (Z.eqb_neq k 0)) by lia. apply E1. lia. }
  eapply wp_mono; [apply (runs_mkfs_end s new_superblock' bb ib (fun _ t' g' => (exists c, t' = fresh_fs s new_superblock' bb ib c)
    /\ g' = root_data (ticks s) (dblock s))); [apply new_superblock_block|exact Hn| |exact S3]|].
  - intros c. split; [exists c|]; reflexivity.
  - intros [] u4 (t4 & g4 & S4 & [c ->] & ->). exists bb, ib, c. split_and!; assumption.
Qed.
End mount.
