(* ===== verification/FsFile.v ===== *)
(** Reading and writing through a file descriptor, inside the first block of a file. *)

From S2P Require Import Prelude Wp CString Bitmap Sd FsData FsOps FsCalls FsLemmas FsState FsInode FsDir FsTouch.

#[local] Opaque inode_bytes inode_of_bytes zeros dentry_bytes put_word word_in.

(** The first block of a file that holds [c]. *)
Definition file_block (c : mem) : mem := overlay (zeros BLOCK_SIZE) 0 c.

Lemma overlay_app {A} (l r bytes : list A) o :
  0 <= o -> o + len bytes <= len l -> overlay (l ++ r) o bytes = overlay l o bytes ++ r.
Proof.
  intros Ho Hb. unfold overlay. rewrite (take_app_le l) by lia. rewrite (drop_app_le l) by lia. by rewrite <-!app_assoc.
Qed.
Lemma overlay_first {A} (z l bytes : list A) o :
  0 <= o -> o + len bytes <= len l -> take (length l) (overlay (overlay z 0 l) o bytes) = overlay l o bytes.
Proof.
  intros Ho Hb. change (overlay z 0 l) with (l ++ drop (length l) z).
  rewrite overlay_app by done. rewrite <-(overlay_length l bytes o) by done. apply take_app_length.
Qed.
Lemma overlay_append {A} (z c bytes : list A) :
  len c + len bytes <= len z -> overlay (overlay z 0 c) (len c) bytes = overlay z 0 (c ++ bytes).
Proof.
  intros Hz. change (overlay z 0 c) with (c ++ drop (length c) z).
  change (overlay z 0 (c ++ bytes)) with ((c ++ bytes) ++ drop (length (c ++ bytes)) z).
  unfold overlay. rewrite Nat2Z.id, take_app_length, drop_app_ge by lia.
  rewrite drop_drop, length_app, <-app_assoc. do 3 f_equal. lia.
Qed.
Lemma overlay_prefix {A} (z c : list A) : take (length c) (overlay z 0 c) = c.
Proof. change (overlay z 0 c) with (c ++ drop (length c) z). by rewrite take_app_length. Qed.

Lemma file_block_ok c : len c <= BLOCK_SIZE -> Forall is_byte c -> block_ok (file_block c).
Proof. intros Hl Hb. apply overlay_block; [apply zeros_block|lia|lia|done]. Qed.
Lemma file_block_append c bytes :
  len c + len bytes <= BLOCK_SIZE -> overlay (file_block c) (len c) bytes = file_block (c ++ bytes).
Proof. intros Hl. apply overlay_append. by rewrite zeros_len. Qed.

Section file.
Context {D : Type} `{BlockDevice D}.
Implicit Types s t : fs D.
Implicit Types g : Z -> mem.

Lemma runs_clear_block_index k t g (Q : unit -> fs D -> (Z -> mem) -> Prop) :
  10 <= k < DEV_BLOCKS -> Q tt t (upd g k (zeros BLOCK_SIZE)) -> runs (D := D) (clear_block_index k) t g Q.
Proof.
  intros Hk HQ s Hs.
  assert (st t g (s <| buffer0 := zeros BLOCK_SIZE |>)) as Hs'.
  { destruct Hs as [H1 H2 H3]. by split. }
  exact (runs_write_block k (zeros BLOCK_SIZE) t g Q Hk zeros_block HQ _ Hs').
Qed.

(** The table entry of a descriptor. *)
Lemma runs_get_fd fd d t g Q :
  0 <= fd -> file_descriptor_table t !! Z.to_nat fd = Some d -> Q d t g -> runs (D := D) (get_fd fd) t g Q.
Proof.
  intros Hf Hd HQ. unfold get_fd. runs_auto. eapply runs_lift; [by apply rd_lookup|exact HQ].
Qed.
Definition with_fd t (fd : Z) (d : file_descriptor_t) : fs D :=
  t <| file_descriptor_table := <[Z.to_nat fd := d]> (file_descriptor_table t) |>.
Lemma runs_set_fd fd d f t g Q :
  0 <= fd -> file_descriptor_table t !! Z.to_nat fd = Some d -> Q tt (with_fd t fd (f d)) g ->
  runs (D := D) (set_fd fd f) t g Q.
Proof.
  intros Hf Hd HQ. pose proof (lookup_lt_Some _ _ _ Hd). unfold set_fd. runs_step. eapply runs_get_fd; [done|done|].
  unfold assign_to. runs_auto. eapply runs_lift; [apply wr_in_range; lia|]. runs_auto. exact HQ.
Qed.

(** A loop over one block. *)
Lemma runs_one_block b f t g (Q : unit -> fs D -> (Z -> mem) -> Prop) :
  runs (f b 0) t g Q -> runs (D := D) (block_loop 7 b b b f) t g Q.
Proof.
  intros Hf. cbn [block_loop]. rewrite Z.leb_refl, Z.sub_diag. change (0 * BLOCK_SIZE) with 0. runs_step.
  eapply runs_mono; [exact Hf|]. intros [] t' g' HQ. rewrite (proj2 (Z.leb_gt (b + 1) b)) by lia. by runs_step.
Qed.

(** A file whose first block is [b]. *)
Record file_at t g (fd i b : Z) (d : file_descriptor_t) : Prop := {
  fa_fd : 0 <= fd;
  fa_entry : file_descriptor_table t !! Z.to_nat fd = Some d;
  fa_inum : fd_inum d = i /\ is_inum i;
  fa_wf : inode_wf (inode_in g i);
  fa_first : first_block (inode_in g i) = b;
  fa_data : DATA_BLOCK_INDEX <= b < BLOCK_NUM
}.

Lemma file_block_index b : DATA_BLOCK_INDEX <= b < BLOCK_NUM -> is_word b /\ 10 <= b < DEV_BLOCKS.
Proof. unfold DATA_BLOCK_INDEX, BLOCK_NUM, is_word, DEV_BLOCKS. lia. Qed.

(** The two block indices of a transfer inside the first block. *)
Lemma runs_first_block ino b t g (Q : Z -> fs D -> (Z -> mem) -> Prop) :
  inode_wf ino -> first_block ino = b -> Q (i32 b) t g -> runs (D := D) (get_block_index_in_inode ino 0) t g Q.
Proof. intros Hw <- HQ. apply runs_direct; [apply Hw|done|]. exact HQ. Qed.

Lemma first_offsets o n : 0 <= o -> 0 <= n -> o + n < BLOCK_SIZE ->
  o / BLOCK_SIZE = 0 /\ u32 (o + n) / BLOCK_SIZE = 0 /\ u32 (o + n) = o + n /\ o mod BLOCK_SIZE = o /\ u32 n = n.
Proof.
  intros Ho Hn Hl. unfold BLOCK_SIZE in *. rewrite !u32_id by (unfold is_word; lia).
  rewrite !Z.div_small, Z.mod_small by lia. done.
Qed.

(** *** Reading *)
Lemma runs_do_fread fd i b d n t g Q :
  file_at t g fd i b d -> 0 <= fd_r_offset d -> 0 <= n -> fd_r_offset d + n < BLOCK_SIZE ->
  (forall l, Q (take (Z.to_nat n) (drop (Z.to_nat (fd_r_offset d)) (g b)))
     (with_fd (t <| fread_buffer := l |>) fd (d <| fd_r_offset := fd_r_offset d + n |>)) g) ->
  runs (D := D) (do_fread fd n) t g Q.
Proof.
  intros [H1 H2 [H3 H3'] H4 H5 H6] Ho Hn Hl HQ. destruct (first_offsets _ _ Ho Hn Hl) as (E1 & E2 & E3 & E4 & E5).
  destruct (file_block_index b H6) as [Hw Hd]. unfold do_fread. runs_auto. eapply runs_get_fd; [done|done|].
  rewrite E1, E2, E4, E5. runs_step. rewrite H3. apply runs_sync_from_disk_inode; [done|]. runs_step.
  eapply runs_first_block; [done|done|]. runs_step. eapply runs_first_block; [done|done|]. rewrite u32_i32_id by done.
  runs_step. apply runs_one_block. runs_step. apply runs_read_block; [done|]. intros [Lb Bb].
  unfold assign_to. runs_auto. cbn [fread_buffer put]. eapply runs_lift.
  { apply splice_overlay; [lia|]. rewrite Lb, zeros_len; done. }
  runs_auto. set (l := overlay _ 0 (g b)).
  assert (take 4096 l = g b) as El.
  { rewrite <-(overlay_prefix (zeros FILE_READ_MAX_LENGTH) (g b)). unfold BLOCK_SIZE in Lb. f_equal. lia. }
  eapply runs_lift.
  { cbn [fread_buffer put]. apply slice_in; [done|done|]. unfold l. rewrite overlay_length; rewrite ?Lb, ?zeros_len; unfold BLOCK_SIZE, FILE_READ_MAX_LENGTH in *; lia. }
  runs_step. eapply runs_set_fd; [done|done|]. runs_step. rewrite E3.
  assert (take (Z.to_nat n) (drop (Z.to_nat (fd_r_offset d)) l) = take (Z.to_nat n) (drop (Z.to_nat (fd_r_offset d)) (g b))) as ->.
  { rewrite <-El. rewrite skipn_firstn_comm, take_take. f_equal. unfold BLOCK_SIZE in Hl. lia. }
  apply (HQ l).
Qed.

(** *** Writing *)

(** The transfer itself, once the inode has its block. *)
Definition fwrite_transfer (fd o : Z) (buffer : mem) (n : Z) (ino : inode_t) (begin_block end_block : Z) : M (fs D) Z :=
  let! b := get_block_index_in_inode ino begin_block in
  let! e := get_block_index_in_inode ino end_block in
  let begin_index := u32 b in
  let end_index := u32 e in
  do! block_loop 7 begin_index begin_index end_index (fun i off =>
    let! l := read_block i in assign_to fwrite_buffer (fun b => splice b off l));
  let! bytes := lift (slice buffer 0 (u32 n)) in
  do! assign_to fwrite_buffer (fun b => splice b (o mod BLOCK_SIZE) bytes);
  do! set_fd fd (fun d => d <| fd_w_offset := u32 (fd_w_offset d + n) |>);
  do! block_loop 7 begin_index begin_index end_index (fun i off =>
    let! b := gets fwrite_buffer in
    let! l := lift (slice b off BLOCK_SIZE) in
    write_block i l);
  ret n.

Definition wrote t (fd : Z) (d : file_descriptor_t) (n : Z) (l : mem) : fs D :=
  with_fd (t <| fwrite_buffer := l |>) fd (d <| fd_w_offset := fd_w_offset d + n |>).

Lemma runs_fwrite_transfer fd o d bytes rest ino b t g (Q : Z -> fs D -> (Z -> mem) -> Prop) :
  0 <= fd -> file_descriptor_table t !! Z.to_nat fd = Some d -> inode_wf ino -> first_block ino = b ->
  DATA_BLOCK_INDEX <= b < BLOCK_NUM -> Forall is_byte bytes -> fd_w_offset d = o -> 0 <= fd_w_offset d -> fd_w_offset d + len bytes < BLOCK_SIZE ->
  (forall l, Q (len bytes) (wrote t fd d (len bytes) l) (upd g b (overlay (g b) (fd_w_offset d) bytes))) ->
  runs (fwrite_transfer fd o (bytes ++ rest) (len bytes) ino 0 0) (t <| fwrite_buffer := zeros FILE_READ_MAX_LENGTH |>) g Q.
Proof.
  intros H1 H2 H3 H4 H5 Hby <- Ho Hl HQ. destruct (first_offsets _ (len bytes) Ho ltac:(lia) Hl) as (E1 & E2 & E3 & E4 & E5).
  destruct (file_block_index b H5) as [Hw Hd]. unfold fwrite_transfer. runs_step.
  eapply runs_first_block; [done|done|]. runs_step. eapply runs_first_block; [done|done|]. rewrite u32_i32_id by done.
  runs_step. apply runs_one_block. runs_step. apply runs_read_block; [done|]. intros Hblk. pose proof Hblk as [Lb Bb].
  unfold assign_to. runs_auto. cbn [fwrite_buffer put]. eapply runs_lift.
  { apply splice_overlay; [lia|]. rewrite Lb, zeros_len; done. }
  runs_auto. rewrite E5, E4. set (l := overlay _ 0 (g b)).
  assert (len l = FILE_READ_MAX_LENGTH) as Ll.
  { unfold l. rewrite overlay_length; [by rewrite zeros_len|done|]. rewrite Lb, zeros_len; done. }
  eapply runs_lift; [apply slice_in; rewrite ?length_app; lia|]. runs_auto. cbn [fwrite_buffer put].
  change (Z.to_nat 0) with 0%nat. rewrite drop_0, Nat2Z.id, take_app_length.
  eapply runs_lift; [apply splice_overlay; [done|unfold BLOCK_SIZE, FILE_READ_MAX_LENGTH in *; lia]|]. runs_auto.
  eapply runs_set_fd; [done|done|]. runs_step. apply runs_one_block. runs_auto. cbn [fwrite_buffer put with_fd].
  eapply runs_lift.
  { apply slice_in; [done|done|]. rewrite overlay_length; rewrite ?Ll; unfold BLOCK_SIZE, FILE_READ_MAX_LENGTH in *; lia. }
  change (Z.to_nat 0) with 0%nat. rewrite drop_0.
  assert (take (Z.to_nat BLOCK_SIZE) (overlay l (fd_w_offset d) bytes) = overlay (g b) (fd_w_offset d) bytes) as ->.
  { rewrite <-Lb, Nat2Z.id. apply overlay_first; lia. }
  apply runs_write_block; [done|apply overlay_block; (done || lia)|]. runs_step. rewrite E3. apply HQ.
Qed.

(** The inode with its first block. *)
Definition with_first (ino : inode_t) (b : Z) : inode_t :=
  ino <| i_indirect_block_1_ptr := b |> <| i_fsize := u32 (i_fsize ino + BLOCK_SIZE) |>
      <| i_direct_table := <[0%nat := b]> (i_direct_table ino) |>.

Lemma with_first_wf ino b : inode_wf ino -> is_word b -> inode_wf (with_first ino b).
Proof.
  intros [W1 W2 W3 [W4 W4'] W5] Hb. split; [done|done| | |done]; cbn.
  - rewrite !Forall_cons in *. split_and!; try apply W3; [apply u32_word|done].
  - split; [by rewrite length_insert|by apply Forall_insert].
Qed.

Lemma fwrite_allocate_end n i need first ino : need < i -> fwrite_allocate (D := D) (S n) i need first ino = ret ino.
Proof. intros Hi. cbn [fwrite_allocate]. by rewrite (proj2 (Z.leb_gt _ _) Hi). Qed.
Lemma fwrite_allocate_step n i need first ino : i <= need ->
  fwrite_allocate (D := D) (S n) i need first ino =
    let! free_index := allocate_block in
    do! clear_block_index free_index;
    let! tab := lift (wr (i_direct_table ino) (u32 (first + i)) free_index) in
    let ino := ino <| i_indirect_block_1_ptr := free_index |>
                   <| i_fsize := u32 (i_fsize ino + BLOCK_SIZE) |> <| i_direct_table := tab |> in
    do! sync_to_disk_inode ino;
    fwrite_allocate n (i + 1) need first ino.
Proof. intros Hi. cbn [fwrite_allocate]. by rewrite (proj2 (Z.leb_le _ _) Hi). Qed.

Lemma runs_allocate_first i b t g Q :
  fs_wf t -> inode_wf (inode_in g i) -> i_num (inode_in g i) = i -> is_inum i -> first_free (blockbmp_buffer t) BLOCK_BITMAP_SIZE b ->
  DATA_BLOCK_INDEX <= b ->
  Q (with_first (inode_in g i) b) (with_block t b) (put_inode (upd g b (zeros BLOCK_SIZE)) (with_first (inode_in g i) b)) ->
  runs (D := D) (fwrite_allocate 13 0 0 0 (inode_in g i)) t g Q.
Proof.
  intros Hw Hi En Hn Hf Hb HQ. assert (DATA_BLOCK_INDEX <= b < BLOCK_NUM) as Hb'.
  { destruct Hf as (Hf & _). unfold BLOCK_BITMAP_SIZE, BLOCK_NUM in *. lia. }
  destruct (file_block_index b Hb') as [Hbw Hbd]. pose proof Hi as [_ _ _ [Hl _] _].
  rewrite fwrite_allocate_step by done. runs_step. apply runs_allocate_block with (j := b); [done|done|].
  runs_step. apply runs_clear_block_index; [done|]. runs_step. change (u32 (0 + 0)) with 0.
  eapply runs_lift; [apply wr_in_range; lia|]. cbv zeta. change (Z.to_nat 0) with 0%nat.
  match goal with |- runs (bind (sync_to_disk_inode ?x) _) _ _ _ => change x with (with_first (inode_in g i) b) end.
  runs_step. apply runs_sync_to_disk_inode; [by cbn; rewrite En|by apply with_first_wf|].
  rewrite fwrite_allocate_end by done. runs_step. exact HQ.
Qed.

(** The first write of a file. *)
Lemma runs_do_fwrite_first fd i b d bytes rest t g Q :
  fs_wf t -> 0 <= fd -> file_descriptor_table t !! Z.to_nat fd = Some d -> fd_inum d = i -> is_inum i ->
  inode_wf (inode_in g i) -> i_num (inode_in g i) = i -> fd_w_offset d = 0 ->
  first_free (blockbmp_buffer t) BLOCK_BITMAP_SIZE b -> DATA_BLOCK_INDEX <= b -> Forall is_byte bytes -> len bytes < BLOCK_SIZE ->
  (forall l, Q (len bytes) (wrote (with_block t b) fd d (len bytes) l)
     (upd (put_inode (upd g b (zeros BLOCK_SIZE)) (with_first (inode_in g i) b)) b (file_block bytes))) ->
  runs (D := D) (do_fwrite fd (bytes ++ rest) (len bytes)) t g Q.
Proof.
  intros Hw H1 H2 H3 H3' H4 En Hw0 Hf Hb Hby Hl HQ. assert (DATA_BLOCK_INDEX <= b < BLOCK_NUM) as Hb'.
  { destruct Hf as (Hf & _). unfold BLOCK_BITMAP_SIZE, BLOCK_NUM in *. lia. }
  destruct (file_block_index b Hb') as [Hbw Hbd].
  destruct (first_offsets 0 (len bytes) ltac:(lia) ltac:(lia) ltac:(lia)) as (E1 & E2 & E3 & E4 & E5).
  unfold do_fwrite. runs_auto. eapply runs_get_fd; [done|done|]. rewrite Hw0, E1, E2. cbv zeta. change (u32 (0 - 0)) with 0.
  runs_step. rewrite H3. apply runs_sync_from_disk_inode; [done|]. change (0 =? 0) with true. cbv iota. runs_step.
  apply (runs_allocate_first i b); [by apply (fs_wf_ext t)|done|done|done|done|done|].
  apply (runs_fwrite_transfer fd 0 d bytes rest (with_first (inode_in g i) b) b (with_block t b)); try done.
  - by apply with_first_wf.
  - rewrite Hw0. lia.
  - rewrite Hw0. lia.
  - intros l. rewrite Hw0. specialize (HQ l). rewrite put_inode_data; [|by cbn; rewrite En|done].
    assert (upd g b (zeros BLOCK_SIZE) b = zeros BLOCK_SIZE) as -> by (unfold upd; by rewrite Z.eqb_refl). exact HQ.
Qed.
(** A later write. *)
Lemma runs_do_fwrite_more fd i b d bytes rest t g Q :
  file_at t g fd i b d -> 0 < fd_w_offset d -> fd_w_offset d + len bytes < BLOCK_SIZE -> Forall is_byte bytes ->
  (forall l, Q (len bytes) (wrote t fd d (len bytes) l) (upd g b (overlay (g b) (fd_w_offset d) bytes))) ->
  runs (D := D) (do_fwrite fd (bytes ++ rest) (len bytes)) t g Q.
Proof.
  intros [H1 H2 [H3 H3'] H4 H5 H6] Hw0 Hl Hby HQ.
  destruct (first_offsets (fd_w_offset d) (len bytes) ltac:(lia) ltac:(lia) ltac:(lia)) as (E1 & E2 & E3 & E4 & E5).
  unfold do_fwrite. runs_auto. eapply runs_get_fd; [done|done|]. rewrite E1, E2. cbv zeta. change (u32 (0 - 0)) with 0.
  runs_step. rewrite H3. apply runs_sync_from_disk_inode; [done|].
  rewrite (proj2 (Z.eqb_neq _ _)) by lia. change (negb (0 =? 0)) with false. cbv iota. do 2 runs_step.
  apply (runs_fwrite_transfer fd (fd_w_offset d) d bytes rest (inode_in g i) b t); try done. lia.
Qed.

(** ** Appending to a file *)

(** An open file with contents [c]: nothing written yet, or [c] at the start of its block. *)
Definition fd_at t g (fd i : Z) (d : file_descriptor_t) : Prop :=
  0 <= fd /\ file_descriptor_table t !! Z.to_nat fd = Some d /\ fd_inum d = i /\ is_inum i
  /\ inode_wf (inode_in g i) /\ i_num (inode_in g i) = i.
Definition contains t g (fd i b : Z) (d : file_descriptor_t) (c : mem) : Prop :=
  fd_at t g fd i d /\ first_block (inode_in g i) = b /\ DATA_BLOCK_INDEX <= b < BLOCK_NUM /\ g b = file_block c
  /\ fd_w_offset d = len c /\ Forall is_byte c.

Fixpoint fwrite_all (fd : Z) (chunks : list mem) : M (fs D) unit :=
  match chunks with
  | [] => ret tt
  | c :: r => do! do_fwrite fd c (len c); fwrite_all fd r
  end.

Lemma with_fd_lookup t fd d d' :
  0 <= fd -> file_descriptor_table t !! Z.to_nat fd = Some d ->
  file_descriptor_table (with_fd t fd d') !! Z.to_nat fd = Some d'.
Proof. intros Hf Hd. cbn. apply list_lookup_insert_eq. by eapply lookup_lt_Some. Qed.

Lemma contains_first fd i b d bytes l t g :
  blocks_ok g -> fd_at t g fd i d -> DATA_BLOCK_INDEX <= b < BLOCK_NUM -> Forall is_byte bytes -> fd_w_offset d = 0 ->
  contains (wrote (with_block t b) fd d (len bytes) l)
    (upd (put_inode (upd g b (zeros BLOCK_SIZE)) (with_first (inode_in g i) b)) b (file_block bytes)) fd i b
    (d <| fd_w_offset := fd_w_offset d + len bytes |>) bytes.
Proof.
  intros Hg (F1 & F2 & F3 & F4 & F5 & F6) Hb Hby Hw0. destruct (file_block_index b Hb) as [Hbw Hbd].
  assert (inode_in (upd (put_inode (upd g b (zeros BLOCK_SIZE)) (with_first (inode_in g i) b)) b (file_block bytes)) i
    = with_first (inode_in g i) b) as Ei.
  { rewrite inode_in_upd by (done || apply Hb). rewrite inode_in_put.
    - cbn. by rewrite F6, Z.eqb_refl.
    - by apply with_first_wf.
    - cbn. by rewrite F6.
    - done.
    - cbn. rewrite F6. apply upd_blocks; [done|apply zeros_block|]. by apply table_dev. }
  split_and!.
  - split_and!; rewrite ?Ei; try done; [by apply (with_fd_lookup (with_block t b) fd d)|by apply with_first_wf].
  - rewrite Ei. unfold first_block. cbn. apply list_lookup_total_insert_eq. destruct F5 as [_ _ _ [-> _] _]. lia.
  - apply Hb.
  - apply Hb.
  - unfold upd at 1. by rewrite Z.eqb_refl.
  - cbn. lia.
  - done.
Qed.
Lemma contains_more fd i b d c bytes l t g :
  contains t g fd i b d c -> Forall is_byte bytes -> len c + len bytes < BLOCK_SIZE ->
  contains (wrote t fd d (len bytes) l) (upd g b (overlay (g b) (fd_w_offset d) bytes)) fd i b
    (d <| fd_w_offset := fd_w_offset d + len bytes |>) (c ++ bytes).
Proof.
  intros ((F1 & F2 & F3 & F4 & F5 & F6) & Ef & Hb & Eg & Ew & Hby') Hby Hl.
  assert (inode_in (upd g b (overlay (g b) (fd_w_offset d) bytes)) i = inode_in g i) as Ei by (apply inode_in_upd; [done|apply Hb]).
  split_and!; rewrite ?Ei; try done.
  - split_and!; rewrite ?Ei; try done. by apply (with_fd_lookup t fd d).
  - apply Hb.
  - apply Hb.
  - unfold upd. rewrite Z.eqb_refl, Eg, Ew. apply file_block_append. lia.
  - cbn. rewrite Ew, length_app. lia.
  - by apply Forall_app.
Qed.

Lemma runs_fwrite_all chunks fd i b d c t g Q :
  contains t g fd i b d c -> c <> [] -> Forall (Forall is_byte) chunks -> len c + len (concat chunks) < BLOCK_SIZE ->
  (forall t' g' d', contains t' g' fd i b d' (c ++ concat chunks) -> fd_r_offset d' = fd_r_offset d -> Q tt t' g') ->
  runs (fwrite_all fd chunks) t g Q.
Proof.
  revert d c t g Q. induction chunks as [|x r IH]; intros d c t g Q Hc Hne Hby Hl HQ; cbn [fwrite_all concat] in *.
  - runs_step. apply (HQ t g d); [by rewrite app_nil_r|done].
  - apply Forall_cons in Hby as [Hx Hr]. rewrite length_app in Hl. pose proof Hc as ((F1 & F2 & F3 & F4 & F5 & F6) & Ef & Hb & _ & Ew & _).
    assert (0 < len c) by (destruct c; [done|cbn; lia]). runs_step. rewrite <-(app_nil_r x) at 1.
    apply (runs_do_fwrite_more fd i b d); [by split|lia|lia|done|]. intros l.
    eapply IH; [apply contains_more; [exact Hc|done|lia]|by destruct c|done|rewrite length_app; lia|].
    intros t' g' d' Hc' Er. rewrite <-app_assoc in Hc'. by eapply HQ.
Qed.

(** What was appended is read back. *)
Lemma runs_fread_all fd i b d c t g Q :
  contains t g fd i b d c -> fd_r_offset d = 0 -> len c < BLOCK_SIZE -> (forall t', Q c t' g) ->
  runs (D := D) (do_fread fd (len c)) t g Q.
Proof.
  intros ((F1 & F2 & F3 & F4 & F5 & F6) & Ef & Hb & Eg & Ew & _) Er Hl HQ.
  apply (runs_do_fread fd i b d); [by split|lia|lia|lia|]. intros l. rewrite Er, Eg, Nat2Z.id. change (Z.to_nat 0) with 0%nat.
  rewrite drop_0. unfold file_block. rewrite overlay_prefix. apply HQ.
Qed.
End file.
