(* ===== verification/FsProps.v ===== *)
(** The promises of the file system: what formatting, mounting, creating files
    and directories and looking names up do to the disk, as a refinement of an
    abstract directory. *)

From S2P Require Import Prelude Wp CString Bitmap Sd FsData FsOps FsCalls FsLemmas FsState FsInode FsDir FsPath FsCreate FsTouch FsMount FsFile.

#[local] Opaque inode_bytes inode_of_bytes zeros dentry_bytes new_superblock new_superblock' put_word word_in.

(** ** The abstract file system *)

(** What a user of the current directory sees: its names, the inodes, which
    inodes and blocks are in use, and the data blocks other than its own. *)
Record vfs := mk_vfs {
  v_cwd : Z;
  v_block : Z;
  v_names : mem -> option Z;
  v_inode : Z -> inode_t;
  v_used : Z -> bool;
  v_alloc : Z -> bool;
  v_data : Z -> mem
}.

#[export] Instance vfs_equiv : Equiv vfs := fun v w =>
  v_cwd v = v_cwd w /\ v_block v = v_block w
  /\ (forall name, name <> [] -> v_names v name = v_names w name)
  /\ (forall i, is_inum i -> v_inode v i = v_inode w i)
  /\ (forall i, 0 <= i -> v_used v i = v_used w i)
  /\ (forall k, 0 <= k -> v_alloc v k = v_alloc w k)
  /\ (forall k, DATA_BLOCK_INDEX <= k < DEV_BLOCKS -> k <> v_block v -> v_data v k = v_data w k).

#[export] Instance vfs_equivalence : Equivalence (≡@{vfs}).
Proof.
  split.
  - intros v. by repeat split.
  - intros v w (E1 & E2 & E3 & E4 & E5 & E6 & E7). repeat split; intros; symmetry; auto.
    apply E7; [done|]. by rewrite E2.
  - intros u v w (E1 & E2 & E3 & E4 & E5 & E6 & E7) (F1 & F2 & F3 & F4 & F5 & F6 & F7).
    split_and!; intros; [congruence|congruence|rewrite E3 by done|rewrite E4 by done|rewrite E5 by done|
      rewrite E6 by done|rewrite E7 by done; rewrite E2 in *]; auto.
Qed.

(** A new entry for a new inode in the current directory, and for a directory
    also its block. *)
Definition v_create (name : mem) (i : Z) (ino : inode_t) (v : vfs) : vfs :=
  mk_vfs (v_cwd v) (v_block v)
    (fun m => if decide (m = name) then Some i else v_names v m)
    (fun k => if k =? v_cwd v then more_entries (v_inode v (v_cwd v)) else if k =? i then ino else v_inode v k)
    (fun k => (k =? i) || v_used v k) (v_alloc v) (v_data v).
Definition v_fill (b : Z) (contents : mem) (v : vfs) : vfs :=
  mk_vfs (v_cwd v) (v_block v) (v_names v) (v_inode v) (v_used v)
    (fun k => (k =? b) || v_alloc v k) (upd (v_data v) b contents).

#[export] Instance v_create_proper name i ino : Proper ((≡) ==> (≡)) (v_create name i ino).
Proof.
  intros v w (E1 & E2 & E3 & E4 & E5 & E6 & E7). repeat split; intros; cbn; try auto.
  - case_decide; auto.
  - rewrite E1. destruct (Z.eqb_spec i0 (v_cwd w)) as [->|]; [|destruct (_ =? _); auto].
    f_equal. by apply E4.
  - by rewrite E5.
Qed.
#[export] Instance v_fill_proper b l : Proper ((≡) ==> (≡)) (v_fill b l).
Proof.
  intros v w (E1 & E2 & E3 & E4 & E5 & E6 & E7). repeat split; intros; cbn in *; try auto.
  - by rewrite E6.
  - unfold upd. destruct (_ =? _); auto.
Qed.

Section props.
Context {D : Type} `{BlockDevice D}.
Implicit Types s t : fs D.
Implicit Types g : Z -> mem.

(** The invariant between calls. *)
Record fs_ok s : Prop := {
  ok_wf : fs_wf s;
  ok_synced : synced s;
  ok_cwd : cwd_ok s (dblock s);
  ok_ticks : is_word (ticks s)
}.

(** The view of a state. *)
Definition view t g : vfs :=
  mk_vfs (i_num (current_dir t)) (first_block (current_dir t)) (dir_lookup (g (first_block (current_dir t))))
    (inode_in g) (bit_at (inodebmp_block_buffer t)) (bit_at (blockbmp_buffer t)) g.
Definition abs s : vfs := view s (dblock s).

Lemma inode_in_ext g g' i :
  (forall k, 10 <= k < DEV_BLOCKS -> g k = g' k) -> is_inum i -> inode_in g i = inode_in g' i.
Proof. intros E Hi. unfold inode_in. by rewrite (E _ (table_dev i Hi)). Qed.

Lemma cwd_ok_st t g s : st t g s -> cwd_ok t g -> cwd_ok s (dblock s).
Proof.
  intros Hs [[H1 H2 H3 H4 H5 H6] [B1 B2] C1 C2].
  assert (forall k, 10 <= k < DEV_BLOCKS -> dblock s k = g k) as E by (intros k; by apply (st_data t)).
  pose proof (st_get current_dir _ _ _ (fun _ _ => eq_refl) Hs) as Ec.
  pose proof (inode_in_ext _ _ _ E H1) as Ei.
  assert (forall ino, dir_inode ino g -> dir_inode ino (dblock s)) as Hdir.
  { intros ino Hi. pose proof (dir_inode_word _ _ Hi) as [_ Hk]. destruct Hi as (X1 & X2 & X3).
    split; [done|]. split; [done|]. by rewrite (E _ Hk). }
  pose proof (dir_inode_word _ _ H4) as [_ Hk].
  split; rewrite ?Ec.
  - split; rewrite ?Ei; auto; rewrite ?(E _ Hk); done.
  - rewrite Ei. auto.
  - by rewrite (st_get inodebmp_block_buffer _ _ _ (fun _ _ => eq_refl) Hs).
  - by rewrite (st_get blockbmp_buffer _ _ _ (fun _ _ => eq_refl) Hs).
Qed.

Lemma fs_ok_st t g s : st t g s -> fs_wf t -> cwd_ok t g -> is_word (ticks t) -> fs_ok s.
Proof.
  intros Hs Hw Hc Ht. split; [by eapply to_wf|by eapply st_synced|by eapply cwd_ok_st|].
  by rewrite (st_get ticks _ _ _ (fun _ _ => eq_refl) Hs).
Qed.

Lemma abs_st t g s : st t g s -> cwd_ok t g -> abs s ≡ view t g.
Proof.
  intros Hs Hc. assert (forall k, 10 <= k < DEV_BLOCKS -> dblock s k = g k) as E by (intros k; by apply (st_data t)).
  destruct Hc as [_ [B1 _] _ _]. pose proof (dir_inode_word _ _ B1) as [_ Hk].
  unfold abs, view. rewrite (st_get current_dir _ _ _ (fun _ _ => eq_refl) Hs),
    (st_get inodebmp_block_buffer _ _ _ (fun _ _ => eq_refl) Hs), (st_get blockbmp_buffer _ _ _ (fun _ _ => eq_refl) Hs).
  repeat split; intros; cbn; [by rewrite (E _ Hk)|by apply inode_in_ext|].
  apply E. unfold DATA_BLOCK_INDEX in *. lia.
Qed.

Lemma ok_st s : fs_ok s -> st s (dblock s) s /\ blocks_ok (dblock s).
Proof.
  intros [[Hd _ _ _ _ _ _] Hs _ _]. split; [by apply st_self|]. intros k Hk. apply dblock_ok. done.
Qed.

(** ** A new file system *)

(** A root directory with nothing in it, over data blocks [g]. *)
Definition v_root (now : Z) g : vfs :=
  mk_vfs 0 DATA_BLOCK_INDEX
    (fun m => if decide (m = [char_dot] \/ m = [char_dot; char_dot]) then Some 0 else None)
    (fun i => if i =? 0 then root_of now else inode_in g i) (fun i => i =? 0) (fun k => k <=? DATA_BLOCK_INDEX) g.

Transparent zeros.
Lemma dots_lookup a b m :
  is_word a -> is_word b -> m <> [] -> dir_lookup (dots a b) m =
    if decide (m = [char_dot]) then Some a else if decide (m = [char_dot; char_dot]) then Some b else None.
Proof.
  intros Ha Hb Hm. destruct (dots_dir a b Ha Hb) as (_ & E1 & E2 & _).
  case_decide as N1; [by subst|]. case_decide as N2; [by subst|].
  unfold dir_lookup. enough (dir_find (dots a b) m = None) as -> by done.
  unfold dir_find. apply list_find_None. rewrite dots_dents.
  assert (forall v, ename (le_bytes 4 v ++ [char_dot] ++ zeros 123) = [char_dot]
    /\ ename (le_bytes 4 v ++ [char_dot; char_dot] ++ zeros 122) = [char_dot; char_dot]) as En.
  { intros v. destruct (le_bytes_4 v) as (x & y & z & w & ->). by vm_compute. }
  apply Forall_cons_2; [rewrite (proj1 (En a)); congruence|].
  apply Forall_cons_2; [rewrite (proj2 (En b)); congruence|].
  apply Forall_replicate. change (ename (zeros 128)) with (@nil Z). congruence.
Qed.
Opaque zeros.

Lemma root_fields now : i_num (root_of now) = 0 /\ i_fnum (root_of now) = 0 /\ first_block (root_of now) = DATA_BLOCK_INDEX
  /\ length (i_direct_table (root_of now)) = 12%nat.
Proof. by split_and!. Qed.

Lemma root_data_inode now g i :
  is_word now -> blocks_ok g -> is_inum i -> inode_in (root_data now g) i = if i =? 0 then root_of now else inode_in g i.
Proof.
  intros Hn Hg Hi. unfold root_data. rewrite inode_in_upd by done.
  rewrite inode_in_put; [done|by apply root_wf|done|done|]. apply Hg. by apply (table_dev 0).
Qed.
Lemma root_data_block now g : root_data now g DATA_BLOCK_INDEX = dots 0 0.
Proof. done. Qed.

(** A directory in memory that is the root on disk. *)
Lemma root_cwd t g now :
  is_word now -> blocks_ok g -> inode_in g 0 = root_of now -> g DATA_BLOCK_INDEX = dots 0 0 -> current_dir t = root_of now ->
  bit_at (inodebmp_block_buffer t) 0 = true -> bit_at (blockbmp_buffer t) DATA_BLOCK_INDEX = true -> cwd_ok t g.
Proof.
  intros Hn Hg Ei Eb Ec B1 B2. destruct (root_fields now) as (R1 & R2 & R3 & R4).
  destruct (dots_dir 0 0 ltac:(done) ltac:(done)) as (D1 & D2 & D3 & D4).
  assert (dir_inode (root_of now) g) as Hdir.
  { split; [done|]. rewrite R3, Eb. done. }
  split; rewrite Ec, ?R1, ?R3, ?Ei; auto. split; rewrite ?Ei, ?R3, ?Eb, ?R2; auto using root_wf; done.
Qed.

Lemma formatted_ok s s' :
  fs_wf s -> is_word (ticks s) -> formatted s s' -> fs_ok s' /\ abs s' ≡ v_root (ticks s) (dblock s)
  /\ superblock_buffer s' = new_superblock'.
Proof.
  intros Hw Hn (bb & ib & c & Lb & Bb & Hib & B1 & B2 & Hs).
  set (t := fresh_fs s new_superblock' bb ib c) in *. set (g := root_data (ticks s) (dblock s)) in *.
  assert (blocks_ok (dblock s)) as Hg by (intros k Hk; apply dblock_ok; by destruct Hw).
  assert (blocks_ok g) as Hg' by (apply upd_blocks; [apply put_inode_blocks; [done|by apply root_wf|done]|apply dots_block]).
  assert (inode_in g 0 = root_of (ticks s)) as Ei by (unfold g; by rewrite root_data_inode).
  assert (cwd_ok t g) as Hc.
  { apply (root_cwd _ _ (ticks s)); [done|done|done|done|done|by apply B2|by apply B1]. }
  assert (fs_wf t) as Hwt.
  { destruct Hw as [W1 W2 W3 W4 W5 W6 W7]. split; [done|apply new_superblock_block|done|done|done|done|done]. }
  split; [by apply (fs_ok_st t g)|]. split; [|exact (st_get superblock_buffer _ _ _ (fun _ _ => eq_refl) Hs)].
  rewrite (abs_st t g) by done. split_and!; [done|done| | |done|done|].
  - intros m Hm. transitivity (dir_lookup (dots 0 0) m); [reflexivity|]. rewrite dots_lookup by done.
    cbn. destruct (decide (m = [char_dot])), (decide (m = [char_dot; char_dot])).
    1,2,3: rewrite decide_True by auto; done.
    rewrite decide_False; [done|]. by intros [].
  - intros i Hi. by apply root_data_inode.
  - intros k Hk Hne. change (g k = dblock s k). unfold g, root_data, upd. rewrite (proj2 (Z.eqb_neq _ _)) by exact Hne.
    apply put_inode_data; [done|apply Hk].
Qed.

(** ** Creating entries *)

(** The conditions under which the current directory takes a new name. *)
Record can_create s (name : mem) : Prop := {
  cc_ok : fs_ok s;
  cc_name : name_ok name /\ no_slash name /\ name <> [];
  cc_new : v_names (abs s) name = None;
  cc_room : i_fnum (v_inode (abs s) (v_cwd (abs s))) + 2 < DENTRY_NUM_PER_BLOCK
}.

Lemma lookup_find b name : dir_lookup b name = None -> dir_find b name = None.
Proof. unfold dir_lookup. by destruct (dir_find b name). Qed.

Lemma can_create_facts s name : can_create s name ->
  dir_find (dblock s (first_block (cwd_inode s (dblock s)))) name = None /\ name <> [char_dot].
Proof.
  intros [[_ _ Hc _] _ Hnew _]. unfold cwd_inode. rewrite <-(proj2 (cw_block _ _ Hc)). split; [by apply lookup_find|].
  intros ->. pose proof (da_dot _ _ (cw_dir _ _ Hc)) as Hd. rewrite <-(proj2 (cw_block _ _ Hc)) in Hd.
  cbn in Hnew. congruence.
Qed.

(** The pair after a creation is a good state, and its view is the abstract one. *)
Lemma created_view t t' g name ino :
  fs_wf t -> cwd_ok t g -> blocks_ok g -> name_ok name -> name <> [] -> name <> [char_dot] ->
  i_fnum (cwd_inode t g) + 2 < DENTRY_NUM_PER_BLOCK -> dir_find (g (first_block (cwd_inode t g))) name = None ->
  inode_wf ino -> is_inum (i_num ino) -> i_num ino <> i_num (current_dir t) ->
  current_dir t' = current_dir t ->
  (forall i, 0 <= i -> bit_at (inodebmp_block_buffer t') i = (i =? i_num ino) || bit_at (inodebmp_block_buffer t) i) ->
  (forall k, 0 <= k -> bit_at (blockbmp_buffer t') k = bit_at (blockbmp_buffer t) k) ->
  cwd_ok t' (created t g name ino) /\ view t' (created t g name ino) ≡ v_create name (i_num ino) ino (view t g).
Proof.
  intros Hw Hc Hg Hn Hne Hdot Hroom Hnew Hino Hnum Hother Ec Bi Bb.
  assert (first_block (cwd_inode t g) = first_block (current_dir t)) as Ef by by destruct Hc as [_ [_ ?] _ _].
  destruct (created_dir t g name ino Hw Hc Hg Hn Hne Hroom Hnew Hino Hnum Hother) as (_ & C2 & _).
  pose proof (created_facts t g Hc) as (F1 & _ & _ & F4 & _). split.
  - apply created_cwd; try done.
    + rewrite Bi by apply F1. rewrite (cw_used _ _ Hc). apply orb_true_r.
    + rewrite Bb; [apply (cw_alloc _ _ Hc)|]. rewrite <-Ef. unfold DATA_BLOCK_INDEX in F4. lia.
  - split_and!; cbn; rewrite ?Ec; [done|done| | |done|done|].
    + intros m Hm. rewrite <-Ef. by apply C2.
    + intros i Hi. by apply created_inode.
    + intros k Hk Hkb. apply created_other; [done|done|apply Hk|]. by rewrite Ef.
Qed.

Lemma free_inode s j :
  fs_ok s -> first_free (inodebmp_block_buffer s) INODE_BITMAP_SIZE j ->
  is_inum j /\ j <> i_num (current_dir s) /\ in_map (inodebmp_block_buffer s) j.
Proof.
  intros [[_ _ _ [Hl _] _ _ _] _ Hc _] (Hj & Hf & _). unfold is_inum, in_map, INODE_BITMAP_SIZE, INODE_NUM, BLOCK_SIZE in *.
  split_and!; try lia. intros ->. pose proof (cw_used _ _ Hc). congruence.
Qed.

Lemma rebuffered_facts t t' : rebuffered t t' -> fs_wf t -> fs_wf t' /\ current_dir t' = current_dir t /\ ticks t' = ticks t
  /\ inodebmp_block_buffer t' = inodebmp_block_buffer t /\ blockbmp_buffer t' = blockbmp_buffer t.
Proof. intros (p1 & p2 & p3 & b & ->) Hw. split; [by apply (fs_wf_ext t)|done]. Qed.

Lemma touch_lemma name mode j s :
  can_create s name -> first_free (inodebmp_block_buffer s) INODE_BITMAP_SIZE j ->
  exists s', do_touch name mode s = Ok (0, s') /\ fs_ok s' /\ abs s' ≡ v_create name j (touched s mode j) (abs s).
Proof.
  intros Hcc Hj. pose proof (can_create_facts _ _ Hcc) as [Hnew Hdot].
  destruct Hcc as [Hok (Hn & Hsl & Hne) _ Hroom]. pose proof (ok_st _ Hok) as [Hs Hg].
  destruct (free_inode s j Hok Hj) as (Hin & Hjc & Hmap). pose proof Hok as [Hw _ Hc Ht].
  assert (inode_wf (touched s mode j)) as Htw by (apply fresh_inode_wf; [apply u16_mode|done..|by apply inum_word]).
  destruct (runs_do_touch name mode j s (dblock s)
    (fun r t' g' => r = 0 /\ rebuffered (with_inode s j) t' /\ g' = created s (dblock s) name (touched s mode j))
    Hw Hc Hg Hn Hsl Ht Hroom Hnew Hj ltac:(done) s Hs) as (r & s' & E & t' & g' & Hs' & -> & Hr & ->).
  destruct (rebuffered_facts _ _ Hr (with_inode_wf s j Hw Hmap)) as (Hw' & Ec & Et & Ei & Eb).
  destruct (created_view s t' (dblock s) name (touched s mode j)) as [Hc' Hv]; try done.
  - intros i Hi. rewrite Ei. by apply (bset_spec _ _ Hmap).
  - intros k Hk. by rewrite Eb.
  - exists s'. split; [done|]. split; [apply (fs_ok_st t' (created s (dblock s) name (touched s mode j))); [done..|]|].
    + by rewrite Et.
    + rewrite (abs_st _ _ _ Hs' Hc'). exact Hv.
Qed.

Lemma fill_view s b l :
  cwd_ok s (dblock s) -> in_map (blockbmp_buffer s) b -> DATA_BLOCK_INDEX <= b -> b <> first_block (current_dir s) ->
  view (with_block s b) (upd (dblock s) b l) ≡ v_fill b l (abs s).
Proof.
  intros Hc Hm Hb Hne. split_and!; [done|done| | |done| |done]; cbn.
  - intros m _. unfold upd. by rewrite (proj2 (Z.eqb_neq _ b)) by congruence.
  - intros i Hi. by apply inode_in_upd.
  - intros k Hk. by apply (bset_spec _ _ Hm).
Qed.

Lemma mkdir_lemma name mode j b s :
  can_create s name -> first_free (inodebmp_block_buffer s) INODE_BITMAP_SIZE j ->
  first_free (blockbmp_buffer s) BLOCK_BITMAP_SIZE b -> DATA_BLOCK_INDEX <= b ->
  exists s', do_mkdir ([char_dot; char_slash] ++ name) mode s = Ok (0, s') /\ fs_ok s'
    /\ abs s' ≡ v_create name j (made_dir s mode b j) (v_fill b (dots j (v_cwd (abs s))) (abs s)).
Proof.
  intros Hcc Hj Hb Hdata. pose proof (can_create_facts _ _ Hcc) as [Hnew Hdot].
  destruct Hcc as [Hok (Hn & Hsl & Hne) _ Hroom]. pose proof (ok_st _ Hok) as [Hs Hg].
  destruct (free_inode s j Hok Hj) as (Hin & Hjc & Hmap). pose proof Hok as [Hw _ Hc Ht].
  set (dt := dots j (i_num (current_dir s))) in *.
  assert (in_map (blockbmp_buffer s) b /\ b < BLOCK_NUM) as [Hbm Hbn].
  { destruct Hb as (Hb & _). destruct Hw as [_ _ [Hl _] _ _ _ _]. unfold in_map, BLOCK_BITMAP_SIZE, BLOCK_NUM in *. lia. }
  assert (b <> first_block (current_dir s)) as Hbne.
  { intros ->. destruct Hb as (_ & Hb & _). pose proof (cw_alloc _ _ Hc). congruence. }
  assert (inode_wf (made_dir s mode b j)) as Htw by by apply made_dir_wf.
  destruct (runs_do_mkdir name mode j b s (dblock s) (fun r t' g' => r = 0 /\ rebuffered (with_block (with_inode s j) b) t'
    /\ g' = created s (upd (dblock s) b dt) name (made_dir s mode b j))
    Hw Hc Hg Hn Hsl Ht Hroom Hnew Hj Hb Hdata ltac:(done) s Hs) as (r & s' & E & t' & g' & Hs' & -> & Hr & ->).
  destruct (rebuffered_facts _ _ Hr) as (Hw' & Ec & Et & Ei & Eb).
  { apply with_block_wf; [by apply with_inode_wf|done]. }
  destruct (cwd_ok_change s (with_block s b) (dblock s) b dt Hc) as [Hc1 Ecwd]; [done|done| |done|done|].
  { intros i Hi0 Hi. cbn. rewrite (proj2 (proj2 (proj2 (bset_spec _ _ Hbm)))) by done. rewrite Hi. apply orb_true_r. }
  assert (blocks_ok (upd (dblock s) b dt)) as Hg1 by (apply upd_blocks; [done|apply dots_block]).
  destruct (created_view (with_block s b) t' (upd (dblock s) b dt) name (made_dir s mode b j)) as [Hc' Hv]; try done.
  - by apply with_block_wf.
  - by rewrite Ecwd.
  - rewrite Ecwd. unfold upd, cwd_inode. rewrite <-(proj2 (cw_block _ _ Hc)), (proj2 (Z.eqb_neq _ b)) by congruence.
    rewrite (proj2 (cw_block _ _ Hc)). exact Hnew.
  - intros i Hi. rewrite Ei. by apply (bset_spec _ _ Hmap).
  - intros k Hk. by rewrite Eb.
  - exists s'. split; [done|]. split.
    + eapply fs_ok_st; [exact Hs'|done|exact Hc'|]. by rewrite Et.
    + rewrite (abs_st _ _ _ Hs' Hc'). etrans; [exact Hv|]. cbn [i_num made_dir fresh_inode].
      apply v_create_proper, fill_view; done.
Qed.

(** ** Mounting *)

Lemma to_read_block k t u f (Q : mem -> fs D -> Prop) :
  to t u f -> 0 <= k < DEV_BLOCKS -> (forall v, to t v f -> Q (f k) v) -> wp (read_block k) u Q.
Proof.
  intros Ht Hk HQ. eapply wp_mono; [apply read_block_ev; by destruct Ht|]. intros l v [-> Hv].
  rewrite (to_dblock _ _ _ _ Ht Hk). apply HQ. eapply to_ext; [eapply to_trans; [exact Ht|exact Hv]|].
  intros j Hj. by apply (to_dblock t).
Qed.

(** The block map is read piece by piece. *)
Lemma overlay_pieces (bb l : mem) i :
  0 <= i < 8 -> len bb = 32768 -> len l = 32768 ->
  overlay (take (Z.to_nat (4096 * i)) bb ++ drop (Z.to_nat (4096 * i)) l) (4096 * i) (piece bb i)
  = take (Z.to_nat (4096 * (i + 1))) bb ++ drop (Z.to_nat (4096 * (i + 1))) l.
Proof.
  intros Hi Hb Hl. replace (Z.to_nat (4096 * (i + 1))) with (Z.to_nat (4096 * i) + 4096)%nat by lia.
  unfold overlay, piece. rewrite length_take, length_drop.
  replace (4096 `min` (length bb - Z.to_nat (4096 * i)))%nat with 4096%nat by lia.
  rewrite take_app_le by (rewrite length_take; lia). rewrite firstn_all2 by (rewrite length_take; lia).
  rewrite drop_app_ge by (rewrite length_take; lia). rewrite drop_drop, length_take.
  rewrite (app_assoc (take _ bb)), take_take_drop. do 2 f_equal. lia.
Qed.

Lemma wp_load_block_bmp bb t u f (Q : unit -> fs D -> Prop) :
  to t u f -> len bb = BLOCK_BITMAP_SIZE -> len (blockbmp_buffer t) = BLOCK_BITMAP_SIZE ->
  (forall k, 1 <= k < 9 -> f k = piece bb (k - 1)) ->
  (forall u', to (t <| blockbmp_buffer := bb |>) u' f -> Q tt u') -> wp sync_from_disk_block_bmp u Q.
Proof.
  intros Ht Lb Lt Hf HQ. unfold BLOCK_BITMAP_SIZE in *. unfold sync_from_disk_block_bmp.
  set (mix i := take (Z.to_nat (4096 * i)) bb ++ drop (Z.to_nat (4096 * i)) (blockbmp_buffer t)).
  apply (wp_for_range (fun i v => to (t <| blockbmp_buffer := mix i |>) v f)).
  - destruct Ht as [H1 H2 H3]. split; [done|done|]. exact H3.
  - intros i v Hi Hv. wp_step. apply (to_read_block _ _ _ _ _ Hv); [unfold BLOCK_BMP_BLOCK_INDEX, DEV_BLOCKS; lia|].
    intros v' Hv'. unfold assign_to. wp_auto. rewrite (to_field blockbmp_buffer _ _ _ (fun _ _ => eq_refl) Hv').
    change (blockbmp_buffer (t <| blockbmp_buffer := mix i |>)) with (mix i).
    rewrite Hf by (unfold BLOCK_BMP_BLOCK_INDEX; lia). unfold BLOCK_BMP_BLOCK_INDEX.
    replace (1 + i - 1) with i by lia. unfold BLOCK_SIZE.
    assert (len (mix i) = 32768) as Lm by (unfold mix; rewrite length_app, length_take, length_drop; lia).
    eapply wp_lift; [apply splice_overlay; [lia|]|].
    { rewrite Lm. unfold piece. rewrite length_take, length_drop. lia. }
    wp_auto. assert (overlay (mix i) (4096 * i) (piece bb i) = mix (i + 1)) as -> by (apply overlay_pieces; lia).
    by apply (to_modify (fun w => w <| blockbmp_buffer := mix (i + 1) |>)) in Hv'.
  - intros v Hv. apply HQ. unfold mix in Hv.
    rewrite firstn_all2 in Hv by lia. rewrite drop_ge in Hv by lia. by rewrite app_nil_r in Hv.
Qed.

Lemma runs_print_superblock t g (Q : unit -> fs D -> (Z -> mem) -> Prop) :
  block_ok (superblock_buffer t) -> (forall c, Q tt (t <| console := c |>) g) -> runs (D := D) print_superblock t g Q.
Proof.
  intros Hb HQ. unfold print_superblock. runs_step. apply runs_read_fields; [exact Hb| |].
  - apply (bool_decide_unpack _). vm_compute. exact I.
  - unfold print. runs_auto. apply HQ.
Qed.

(** The memory after mounting a disk whose metadata is that of [s]. *)
Definition mounted s r (c : list message) : fs D :=
  r <| superblock_buffer := superblock_buffer s |> <| blockbmp_buffer := blockbmp_buffer s |>
    <| inodebmp_block_buffer := inodebmp_block_buffer s |> <| root_inode := inode_in (dblock s) 0 |>
    <| current_dir := inode_in (dblock s) 0 |> <| console := c |>.

Lemma wp_init_fs s r :
  fs_ok s -> word_in (superblock_buffer s) s_magic = FS_MAGIC_NUMBER -> fs_wf r ->
  (forall k, 0 <= k < DEV_BLOCKS -> dblock r k = dblock s k) ->
  wp init_fs r (fun _ s' => exists c, st (mounted s r c) (dblock s) s').
Proof.
  intros [Hw Hsy Hc Ht] Hmagic Hwr Hd. pose proof Hw as [_ Wsb [Wl Wb] Wib _ _ _]. unfold synced in Hsy.
  assert (to r r (dblock s)) as H0 by (split; [by destruct Hwr|done|done]).
  assert (forall k, 1 <= k < 9 -> dblock s k = piece (blockbmp_buffer s) (k - 1)) as Hbb.
  { intros k Hk. rewrite Hsy by lia. unfold meta. by rewrite !(proj2 (Z.eqb_neq k _)) by lia. }
  unfold init_fs. wp_step. unfold sync_from_disk_superblock. wp_step.
  apply (to_read_block _ _ _ _ _ H0); [done|]. intros u1 H1. wp_auto.
  change (dblock s SUPERBLOCK_BLOCK_INDEX) with (dblock s 0). rewrite (Hsy 0) by lia. change (meta s 0) with (superblock_buffer s).
  apply (to_modify (fun w => w <| superblock_buffer := superblock_buffer s |>)) in H1; [|done|done].
  unfold get_sb. wp_auto. destruct Wsb as [Lsb Bsb]. eapply wp_lift.
  { apply get_word_in; [done|]. cbn [superblock_buffer put]. rewrite Lsb. done. }
  cbn [superblock_buffer put]. rewrite Hmagic. change (FS_MAGIC_NUMBER =? FS_MAGIC_NUMBER) with true. cbv iota. wp_step.
  apply (wp_load_block_bmp (blockbmp_buffer s) _ _ _ _ H1); [done|apply Hwr|done|]. intros u2 H2. wp_step.
  unfold sync_from_disk_inode_bmp. wp_step. apply (to_read_block _ _ _ _ _ H2); [done|]. intros u3 H3.
  repeat (lazymatch goal with |- wp (bind (sync_from_disk_inode 0) _) _ _ => fail | _ => wp_step end).
  change (dblock s INODE_BMP_BLOCK_INDEX) with (dblock s 9). rewrite (Hsy 9) by lia. change (meta s 9) with (inodebmp_block_buffer s).
  apply (to_modify (fun w => w <| inodebmp_block_buffer := inodebmp_block_buffer s |>)) in H3; [|done|done].
  set (t3 := r <| superblock_buffer := _ |> <| blockbmp_buffer := _ |> <| inodebmp_block_buffer := _ |>) in H3.
  assert (st t3 (dblock s) (u3 <| inodebmp_block_buffer := inodebmp_block_buffer s |>)) as S3.
  { eapply to_ext; [exact H3|]. intros k Hk. unfold disk_of. destruct (Z.ltb_spec k 10); [apply Hsy; lia|done]. }
  assert (runs (D := D) (let! root := sync_from_disk_inode 0 in
    do! assign root_inode root; do! assign current_dir root; print_superblock) t3 (dblock s)
    (fun _ t' g' => exists c, t' = mounted s r c /\ g' = dblock s)) as Hr.
  { runs_step. apply runs_sync_from_disk_inode; [done|]. runs_auto. apply runs_print_superblock; [done|].
    intros c. by exists c. }
  eapply wp_mono; [exact (Hr _ S3)|]. intros [] s' (t' & g' & Hs' & c & -> & ->). by exists c.
Qed.

(** ** Many files *)

Fixpoint touch_all (names : list mem) (mode : Z) : M (fs D) unit :=
  match names with
  | [] => ret tt
  | n :: r => do! do_touch n mode; touch_all r mode
  end.

(** The inodes in use are the first [m]. *)
Definition used_below s (m : Z) : Prop := forall i, 0 <= i -> v_used (abs s) i = (i <? m).
Definition entries s : Z := i_fnum (v_inode (abs s) (v_cwd (abs s))).

Lemma used_below_free s m : 0 <= m < INODE_NUM -> used_below s m -> first_free (inodebmp_block_buffer s) INODE_BITMAP_SIZE m.
Proof.
  intros Hm Hu. unfold used_below, abs in Hu. cbn in Hu. unfold INODE_NUM, INODE_BITMAP_SIZE in *. split_and!; [lia|lia| |].
  - rewrite Hu by lia. apply Z.ltb_irrefl.
  - intros i Hi. rewrite Hu by lia. apply Z.ltb_lt. lia.
Qed.

Lemma touched_step s name mode m :
  can_create s name -> 0 <= m < INODE_NUM -> used_below s m ->
  exists s', do_touch name mode s = Ok (0, s') /\ fs_ok s' /\ used_below s' (m + 1)
    /\ entries s' = entries s + 1
    /\ (forall x, x <> [] -> v_names (abs s') x = if decide (x = name) then Some m else v_names (abs s) x).
Proof.
  intros Hcc Hm Hu. pose proof (used_below_free s m Hm Hu) as Hf.
  destruct (touch_lemma name mode m s Hcc Hf) as (s' & E & Hok & Ea).
  exists s'. split; [done|]. split; [done|]. destruct Ea as (E1 & E2 & E3 & E4 & E5 & E6 & E7).
  destruct Hcc as [[_ _ Hc _] _ _ Hroom]. pose proof (cw_dir _ _ Hc) as Hd. pose proof (da_num _ _ Hd) as Hnum.
  pose proof (fnum_word _ _ Hc) as Hfw.
  split_and!.
  - intros i Hi. rewrite E5 by done. cbn. unfold used_below in Hu. cbn in Hu. rewrite Hu by done.
    destruct (Z.eqb_spec i m), (Z.ltb_spec i m), (Z.ltb_spec i (m + 1)); lia || done.
  - unfold entries. rewrite E1, E4 by exact Hnum. cbn. rewrite Z.eqb_refl. cbn. apply u32_id.
    unfold is_word, cwd_inode, DENTRY_NUM_PER_BLOCK in *. cbn in Hroom. lia.
  - intros x Hx. by rewrite E3.
Qed.

Lemma touch_all_lemma names mode s m :
  fs_ok s -> used_below s m -> 0 <= m -> entries s + 2 + len names <= DENTRY_NUM_PER_BLOCK -> m + len names <= INODE_NUM ->
  NoDup names -> Forall (fun n => name_ok n /\ no_slash n /\ n <> [] /\ v_names (abs s) n = None) names ->
  exists s', touch_all names mode s = Ok (tt, s') /\ fs_ok s' /\ used_below s' (m + len names)
    /\ (forall i n, names !! i = Some n -> v_names (abs s') n = Some (m + Z.of_nat i))
    /\ (forall x, x <> [] -> x ∉ names -> v_names (abs s') x = v_names (abs s) x).
Proof.
  revert s m. induction names as [|n r IH]; intros s m Hok Hu Hm He Hi Hnd Hall; cbn [touch_all].
  - exists s. split_and!; [done|done|by rewrite Z.add_0_r|done|done].
  - apply NoDup_cons in Hnd as [Hn Hnd]. apply Forall_cons in Hall as [(N1 & N2 & N3 & N4) Hall]. cbn [length] in *.
    destruct (touched_step s n mode m) as (s1 & E1 & Hok1 & Hu1 & He1 & Hv1); [|lia|done|].
    { split; [done|done|done|]. unfold entries in He. lia. }
    destruct (IH s1 (m + 1)) as (s2 & E2 & Hok2 & Hu2 & Hf2 & Hv2); [done|done|lia|lia|lia|done| |].
    { apply Forall_forall. intros x Hx. rewrite Forall_forall in Hall. destruct (Hall x Hx) as (X1 & X2 & X3 & X4).
      split_and!; try done. rewrite Hv1 by done. rewrite decide_False; [done|]. by intros ->. }
    exists s2. split_and!; [by rewrite (bind_Ok _ _ _ _ _ E1)|done|by replace (m + Z.of_nat (S (length r))) with (m + 1 + len r) by lia| |].
    + intros [|i] x Hx; cbn in Hx.
      * injection Hx as <-. rewrite Hv2 by done. rewrite Hv1 by done. rewrite decide_True by done. f_equal. lia.
      * rewrite (Hf2 i x Hx). f_equal. lia.
    + intros x Hx Hnot. apply not_elem_of_cons in Hnot as [Hx1 Hx2]. rewrite Hv2, Hv1 by done. by rewrite decide_False.
Qed.

Lemma mount_lemma s r :
  fs_ok s -> word_in (superblock_buffer s) s_magic = FS_MAGIC_NUMBER -> dir_at (dblock s) 0 ->
  v_used (abs s) 0 = true -> v_alloc (abs s) (first_block (v_inode (abs s) 0)) = true ->
  fs_wf r -> is_word (ticks r) -> (forall k, 0 <= k < DEV_BLOCKS -> dblock r k = dblock s k) ->
  exists s', init_fs r = Ok (tt, s') /\ fs_ok s' /\ (forall k, 0 <= k < DEV_BLOCKS -> dblock s' k = dblock s k)
    /\ abs s' ≡ mk_vfs 0 (first_block (v_inode (abs s) 0)) (dir_lookup (dblock s (first_block (v_inode (abs s) 0))))
        (v_inode (abs s)) (v_used (abs s)) (v_alloc (abs s)) (v_data (abs s)).
Proof.
  intros Hok Hm Hd Hu Ha Hw Ht E. destruct (wp_init_fs s r Hok Hm Hw E) as ([] & s' & Ei & c & Hs).
  destruct Hok as [Hws Hsy Hc _]. pose proof (da_self _ _ Hd) as En.
  assert (cwd_ok (mounted s r c) (dblock s)) as Hc'.
  { split; cbn [current_dir mounted inodebmp_block_buffer blockbmp_buffer put]; rewrite ?En; [done| |done|done].
    split; [apply (da_dir _ _ Hd)|done]. }
  assert (fs_wf (mounted s r c)) as Hw'.
  { destruct Hw as [W1 W2 W3 W4 W5 W6 W7], Hws as [V1 V2 V3 V4 V5 V6 V7]. by split. }
  exists s'. split_and!; [done|by apply (fs_ok_st (mounted s r c) (dblock s))| |].
  - intros k Hk. rewrite (to_dblock _ _ _ _ Hs Hk). unfold disk_of. destruct (Z.ltb_spec k 10); [|done].
    rewrite Hsy by lia. done.
  - rewrite (abs_st _ _ _ Hs Hc'). unfold view. cbn [current_dir mounted inodebmp_block_buffer blockbmp_buffer put]. rewrite En.
    reflexivity.
Qed.

Lemma mount_blank_lemma r :
  fs_wf r -> is_word (ticks r) -> word_in (dblock r 0) s_magic <> FS_MAGIC_NUMBER ->
  exists s', init_fs r = Ok (tt, s') /\ fs_ok s' /\ abs s' ≡ v_root (ticks r) (dblock r).
Proof.
  intros Hw Ht Hm. pose proof Hw as [Hd _ _ _ _ _ _].
  assert (to r r (dblock r)) as H0 by by split.
  enough (wp init_fs r (fun _ s' => fs_ok s' /\ abs s' ≡ v_root (ticks r) (dblock r))) as ([] & s' & E & Hs); [by exists s'|].
  unfold init_fs, sync_from_disk_superblock. do 2 wp_step. apply (to_read_block _ _ _ _ _ H0); [done|]. intros u1 H1.
  change (dblock r SUPERBLOCK_BLOCK_INDEX) with (dblock r 0).
  apply (to_modify (fun w => w <| superblock_buffer := dblock r 0 |>)) in H1; [|done|done].
  unfold get_sb. wp_auto. destruct (dblock_ok r 0 Hd) as [Lb Bb]. eapply wp_lift.
  { apply get_word_in; [done|]. cbn [superblock_buffer put]. rewrite Lb. done. }
  cbn [superblock_buffer put]. rewrite (proj2 (Z.eqb_neq _ _)) by done. set (u := u1 <| superblock_buffer := _ |>) in *.
  assert (fs_wf u) as Hu.
  { eapply to_wf; [exact H1|]. destruct Hw as [W1 W2 W3 W4 W5 W6 W7]. split; try done. }
  assert (ticks u = ticks r) as Et by exact (to_field ticks _ _ _ (fun _ _ => eq_refl) H1).
  eapply wp_mono; [apply (wp_do_mkfs u Hu); by rewrite Et|]. intros [] s' Hf.
  destruct (formatted_ok u s' Hu ltac:(by rewrite Et) Hf) as (Hok & Ea & _). split; [done|]. rewrite Ea, Et.
  assert (forall k, 0 <= k < DEV_BLOCKS -> dblock u k = dblock r k) as Eb by (intros k Hk; by apply (to_dblock _ _ _ _ H1)).
  split_and!; try done; cbn.
  - intros i Hi. destruct (_ =? _); [done|]. apply inode_in_ext; [|done]. intros k Hk. apply Eb. lia.
  - intros k Hk _. apply Eb. unfold DATA_BLOCK_INDEX in Hk. lia.
Qed.

(** What can be done in a new file system. *)
Lemma fresh_room s now g :
  fs_ok s -> abs s ≡ v_root now g -> used_below s 1 /\ entries s = 0
  /\ first_free (inodebmp_block_buffer s) INODE_BITMAP_SIZE 1
  /\ first_free (blockbmp_buffer s) BLOCK_BITMAP_SIZE (DATA_BLOCK_INDEX + 1)
  /\ (forall name, name_ok name -> no_slash name -> name <> [] -> name <> [char_dot] -> name <> [char_dot; char_dot] ->
       can_create s name).
Proof.
  intros Hok (E1 & E2 & E3 & E4 & E5 & E6 & E7).
  assert (entries s = 0) as Ee by (unfold entries; rewrite E1, E4 by done; reflexivity).
  assert (used_below s 1) as Hu.
  { intros i Hi. rewrite E5 by done. cbn. destruct (Z.eqb_spec i 0), (Z.ltb_spec i 1); lia || done. }
  split_and!; [done|done|by apply used_below_free| |].
  - unfold abs in E6. cbn in E6. unfold DATA_BLOCK_INDEX in *. split_and!; [lia|done|by rewrite E6|].
    intros i Hi. rewrite E6 by lia. apply Z.leb_le. lia.
  - intros name H1 H2 H3 H4 H5. split; [done|done| |unfold entries in Ee; rewrite Ee; done].
    rewrite E3 by done. cbn. rewrite decide_False; naive_solver.
Qed.
Lemma fresh_mountable s now g :
  fs_ok s -> abs s ≡ v_root now g -> superblock_buffer s = new_superblock' ->
  word_in (superblock_buffer s) s_magic = FS_MAGIC_NUMBER /\ dir_at (dblock s) 0
  /\ v_used (abs s) 0 = true /\ v_alloc (abs s) (first_block (v_inode (abs s) 0)) = true
  /\ dir_lookup (dblock s (first_block (v_inode (abs s) 0))) [char_dot; char_dot] = Some 0.
Proof.
  intros [Hw _ Hc _] (E1 & E2 & E3 & E4 & E5 & E6 & E7) ->.
  pose proof (cw_block _ _ Hc) as [_ Ef]. pose proof (cw_dir _ _ Hc) as Hd. cbn in E1, E2. rewrite E1 in *. rewrite E2 in Ef.
  assert (v_inode (abs s) 0 = root_of now) as Er by by rewrite (E4 0).
  split_and!; [by vm_compute|exact Hd|by rewrite E5|rewrite Er, E6; done|].
  rewrite Er. change (first_block (root_of now)) with DATA_BLOCK_INDEX.
  pose proof (E3 [char_dot; char_dot] ltac:(discriminate)) as Hn. cbn in Hn. rewrite E2 in Hn. exact Hn.
Qed.

(** ** Reading back what was written *)

Lemma first_free_ext l l' n j : (forall k, 0 <= k -> bit_at l k = bit_at l' k) -> first_free l n j -> first_free l' n j.
Proof.
  intros E (H1 & H2 & H3). split_and!; [lia|lia|rewrite <-E by lia; done|]. intros i Hi. rewrite <-E by lia. by apply H3.
Qed.

Lemma with_fd_ok s fd d : fs_ok s -> fs_ok (with_fd s fd d).
Proof.
  intros [[W1 W2 W3 W4 W5 W6 W7] Hs [C1 C2 C3 C4] Ht]. split; [|done|by split|done].
  split; try done. cbn. by rewrite length_insert.
Qed.

Lemma file_lemma first chunks fd i b d s :
  fs_wf s -> synced s -> fd_at s (dblock s) fd i d -> fd_w_offset d = 0 -> fd_r_offset d = 0 ->
  first_free (blockbmp_buffer s) BLOCK_BITMAP_SIZE b -> DATA_BLOCK_INDEX <= b ->
  first <> [] -> Forall (Forall is_byte) (first :: chunks) -> len (concat (first :: chunks)) < BLOCK_SIZE ->
  exists s1 s2, fwrite_all fd (first :: chunks) s = Ok (tt, s1)
    /\ do_fread fd (len (concat (first :: chunks))) s1 = Ok (concat (first :: chunks), s2).
Proof.
  intros Hw Hsy Hfd Hw0 Hr0 Hf Hb Hne [Hby Hbys]%Forall_cons Hl. pose proof Hw as [Hd _ _ _ _ _ _].
  assert (st s (dblock s) s) as Hs by by apply st_self.
  assert (blocks_ok (dblock s)) as Hg by (intros k Hk; by apply dblock_ok).
  assert (DATA_BLOCK_INDEX <= b < BLOCK_NUM) as Hb' by (destruct Hf as (? & _); unfold BLOCK_BITMAP_SIZE, BLOCK_NUM in *; lia).
  assert (runs (fwrite_all fd (first :: chunks)) s (dblock s) (fun _ t g => exists d', fd_r_offset d' = 0
    /\ contains t g fd i b d' (concat (first :: chunks)))) as Hwr.
  { cbn [fwrite_all concat] in *. rewrite length_app in Hl. runs_step. rewrite <-(app_nil_r first) at 1.
    pose proof Hfd as (F1 & F2 & F3 & F4 & F5 & F6).
    apply (runs_do_fwrite_first fd i b d first []); try done; [lia|]. intros l.
    eapply runs_fwrite_all; [by apply contains_first|done|done|lia|]. intros t' g' d' Hc Er. exists d'. split; [by rewrite Er|done]. }
  destruct (Hwr s Hs) as ([] & s1 & E1 & t1 & g1 & Hs1 & d1 & Er & Hc1). exists s1.
  assert (runs (D := D) (do_fread fd (len (concat (first :: chunks)))) t1 g1 (fun r _ _ => r = concat (first :: chunks))) as Hrd.
  { by eapply runs_fread_all. }
  destruct (Hrd s1 Hs1) as (r & s2 & E2 & _ & _ & _ & ->). by exists s2.
Qed.
End props.
