(* ===== verification/FsTheorems.v ===== *)
(** The theorems on the file system, each with an instance on the card model of [Sd]. *)

From S2P Require Import Prelude Wp CString Bitmap Sd FsData FsOps FsCalls FsLemmas FsState FsInode FsDir FsPath FsCreate FsTouch FsMount FsFile FsProps.

(** ** A concrete file system *)

(** The state after a call that returns. *)
Definition final {S A} (r : outcome (A * S)) (s : S) : S := match r with Ok (_, s') => s' | Fault _ => s end.
Definition card : Type := sd sector_map.
Definition blank : fs card := boot_fs blank_card zero_dentry 5.
Definition new_fs : fs card := final (do_mkfs blank) blank.
Definition file_a : mem := [97].
Definition file_b : mem := [98].
Definition with_a : fs card := final (do_touch file_a 420 new_fs) new_fs.
(** [file_a] opened as descriptor 0. *)
Definition opened_a : fs card := with_fd with_a 0 (mk_fd 1 2 0 0).

Lemma boot_wf {D} `{BlockDevice D} (d : D) now : dev_wf d -> fs_wf (boot_fs d zero_dentry now).
Proof.
  intros Hd. split; [exact Hd|..]; try by vm_compute.
  all: split; [by vm_compute|]; apply Forall_replicate; unfold is_byte; lia.
Qed.
Lemma boot_dblock {D} `{BlockDevice D} (s : fs D) junk now k : dblock (boot_fs (disk s) junk now) k = dblock s k.
Proof. reflexivity. Qed.
Lemma boot_ticks {D} (d : D) junk now : is_word now -> is_word (ticks (boot_fs d junk now)).
Proof. exact id. Qed.
Lemma blank_wf : fs_wf blank /\ is_word (ticks blank).
Proof. split; [apply boot_wf, blank_card_wf|by vm_compute]. Qed.

#[local] Opaque new_fs with_a inode_bytes inode_of_bytes zeros dentry_bytes new_superblock new_superblock' put_word word_in do_mkfs do_touch.

Lemma new_fs_facts : fs_ok new_fs /\ abs new_fs ≡ v_root 5 (dblock blank) /\ superblock_buffer new_fs = new_superblock'.
Proof.
  destruct blank_wf as [Hw Ht]. destruct (wp_do_mkfs blank Hw Ht) as ([] & s & E & Hf).
  Transparent new_fs. unfold new_fs. rewrite E. Opaque new_fs. exact (formatted_ok blank s Hw Ht Hf).
Qed.

Lemma file_a_ok : name_ok file_a /\ no_slash file_a /\ file_a <> [] /\ file_a <> [char_dot] /\ file_a <> [char_dot; char_dot].
Proof. split_and!; [split; [done|]|..]; try done; repeat constructor; done. Qed.
Lemma file_b_ok : name_ok file_b /\ no_slash file_b /\ file_b <> [] /\ file_b <> [char_dot] /\ file_b <> [char_dot; char_dot].
Proof. split_and!; [split; [done|]|..]; try done; repeat constructor; done. Qed.

Lemma new_fs_room :
  can_create new_fs file_a /\ used_below new_fs 1 /\ entries new_fs = 0
  /\ first_free (inodebmp_block_buffer new_fs) INODE_BITMAP_SIZE 1
  /\ first_free (blockbmp_buffer new_fs) BLOCK_BITMAP_SIZE 267.
Proof.
  destruct new_fs_facts as (Hok & Ea & _). destruct (fresh_room _ _ _ Hok Ea) as (R1 & R2 & R3 & R4 & R5).
  split_and!; [apply R5; apply file_a_ok|exact R1|exact R2|exact R3|exact R4].
Qed.

Lemma with_a_facts : fs_ok with_a /\ abs with_a ≡ v_create file_a 1 (touched new_fs 420 1) (abs new_fs).
Proof.
  destruct new_fs_room as (Hcc & _ & _ & Hf & _).
  destruct (touch_lemma file_a 420 1 new_fs Hcc Hf) as (s & E & Hok & Ea).
  Transparent with_a. unfold with_a. rewrite E. Opaque with_a. exact (conj Hok Ea).
Qed.

(** ** Formatting and mounting *)

(** C18: [do_mkfs] returns on every memory and disk, and leaves a well-formed file
    system whose buffers agree with the disk: the super block carries the magic
    number, exactly the metadata and the root's block are marked as used, exactly
    inode 0 is in use, the root is the current directory and lists exactly "."
    and "..", both as inode 0, and no other inode or data block is changed. *)
Theorem mkfs_correct {D} `{BlockDevice D} (s : fs D) :
  fs_wf s -> is_word (ticks s) ->
  exists s', do_mkfs s = Ok (tt, s') /\ fs_ok s' /\ abs s' ≡ v_root (ticks s) (dblock s)
    /\ word_in (dblock s' 0) s_magic = FS_MAGIC_NUMBER.
Proof.
  intros Hw Ht. destruct (wp_do_mkfs s Hw Ht) as ([] & s' & E & Hf).
  destruct (formatted_ok s s' Hw Ht Hf) as (Hok & Ea & Es). exists s'. split_and!; [done|done|done|].
  rewrite (ok_synced _ Hok) by lia. change (meta s' 0) with (superblock_buffer s'). rewrite Es. by vm_compute.
Qed.
Lemma mkfs_correct_witness :
  exists s', do_mkfs blank = Ok (tt, s') /\ fs_ok s' /\ v_names (abs s') [char_dot] = Some 0 /\ v_names (abs s') file_a = None.
Proof.
  destruct (mkfs_correct blank) as (s' & E & Hok & (_ & _ & E3 & _) & _).
  - exact (proj1 blank_wf).
  - exact (proj2 blank_wf).
  - exists s'. split_and!; [exact E|exact Hok|rewrite E3 by discriminate; reflexivity|rewrite E3 by discriminate; reflexivity].
Defined.

(** A disk without the magic number is formatted at boot: [init_fs] returns
    with a well-formed file system that has an empty root directory. *)
Theorem mount_blank_correct {D} `{BlockDevice D} (r : fs D) :
  fs_wf r -> is_word (ticks r) -> word_in (dblock r 0) s_magic <> FS_MAGIC_NUMBER ->
  exists s', init_fs r = Ok (tt, s') /\ fs_ok s' /\ abs s' ≡ v_root (ticks r) (dblock r).
Proof. apply mount_blank_lemma. Qed.
Lemma mount_blank_correct_witness :
  exists s', init_fs blank = Ok (tt, s') /\ fs_ok s' /\ v_used (abs s') 0 = true.
Proof.
  destruct (mount_blank_correct blank) as (s' & E & Hok & (_ & _ & _ & _ & E5 & _)).
  - exact (proj1 blank_wf).
  - exact (proj2 blank_wf).
  - by vm_compute.
  - exists s'. split_and!; [exact E|exact Hok|rewrite E5 by done; reflexivity].
Defined.

(** C19: Everything survives a reboot: from any memory [r] over the same disk,
    [init_fs] returns without changing a block, the root directory is the current
    one, and every inode, every allocation mark, every data block and every name
    of the root is as it was when the machine stopped. *)
Theorem mount_correct {D} `{BlockDevice D} (s r : fs D) :
  fs_ok s -> word_in (superblock_buffer s) s_magic = FS_MAGIC_NUMBER -> dir_at (dblock s) 0 ->
  v_used (abs s) 0 = true -> v_alloc (abs s) (first_block (v_inode (abs s) 0)) = true ->
  fs_wf r -> is_word (ticks r) -> (forall k, 0 <= k < DEV_BLOCKS -> dblock r k = dblock s k) ->
  exists s', init_fs r = Ok (tt, s') /\ fs_ok s' /\ (forall k, 0 <= k < DEV_BLOCKS -> dblock s' k = dblock s k)
    /\ abs s' ≡ mk_vfs 0 (first_block (v_inode (abs s) 0)) (dir_lookup (dblock s (first_block (v_inode (abs s) 0))))
        (v_inode (abs s)) (v_used (abs s)) (v_alloc (abs s)) (v_data (abs s)).
Proof. apply mount_lemma. Qed.
Lemma mount_correct_witness :
  let r := boot_fs (disk new_fs) zero_dentry 9 in
  exists s', init_fs r = Ok (tt, s') /\ fs_ok s' /\ v_names (abs s') [char_dot; char_dot] = Some 0.
Proof.
  destruct new_fs_facts as (Hok & Ea & Es). destruct (fresh_mountable _ _ _ Hok Ea Es) as (M1 & M2 & M3 & M4 & M5).
  destruct (mount_correct new_fs (boot_fs (disk new_fs) zero_dentry 9)) as (s' & E & Hs' & _ & (_ & _ & F3 & _)).
  - exact Hok.
  - exact M1.
  - exact M2.
  - exact M3.
  - exact M4.
  - exact (boot_wf _ _ (wf_dev _ (ok_wf _ Hok))).
  - apply boot_ticks. clear. unfold is_word. lia.
  - intros k Hk. apply boot_dblock.
  - exists s'. split; [exact E|]. split; [exact Hs'|]. rewrite F3 by discriminate. exact M5.
Defined.

(** ** Creating files and directories *)

(** [do_touch] refines the creation of an entry: for a new name in a
    directory with room it returns 0 and keeps the invariant; the first free
    inode is marked as used, holds the new file and is what the name leads to; the
    directory counts one entry more; every other name, inode, mark and data block
    is unchanged. *)
Theorem touch_correct {D} `{BlockDevice D} name mode j (s : fs D) :
  can_create s name -> first_free (inodebmp_block_buffer s) INODE_BITMAP_SIZE j ->
  exists s', do_touch name mode s = Ok (0, s') /\ fs_ok s' /\ abs s' ≡ v_create name j (touched s mode j) (abs s).
Proof. apply touch_lemma. Qed.
Lemma touch_correct_witness : exists s', do_touch file_a 420 new_fs = Ok (0, s') /\ v_names (abs s') file_a = Some 1.
Proof.
  destruct new_fs_room as (Hcc & _ & _ & Hf & _).
  destruct (touch_correct file_a 420 1 new_fs Hcc Hf) as (s' & E & _ & (_ & _ & E3 & _)).
  exists s'. split; [exact E|]. rewrite E3 by discriminate. reflexivity.
Defined.



(** C20: Any number of files that fits in the directory's block: touching a list
    of distinct new names, when the inodes in use are the first [m], returns with
    the invariant kept, every name of the list leading to its own inode, numbered
    in order from [m], and every name outside the list as before. *)
Theorem touch_all_correct {D} `{BlockDevice D} names mode (s : fs D) m :
  fs_ok s -> used_below s m -> 0 <= m -> entries s + 2 + len names <= DENTRY_NUM_PER_BLOCK -> m + len names <= INODE_NUM ->
  NoDup names -> Forall (fun n => name_ok n /\ no_slash n /\ n <> [] /\ v_names (abs s) n = None) names ->
  exists s', touch_all names mode s = Ok (tt, s') /\ fs_ok s' /\ used_below s' (m + len names)
    /\ (forall i n, names !! i = Some n -> v_names (abs s') n = Some (m + Z.of_nat i))
    /\ (forall x, x <> [] -> x ∉ names -> v_names (abs s') x = v_names (abs s) x).
Proof. apply touch_all_lemma. Qed.
Lemma touch_all_correct_witness :
  exists s', touch_all [file_a; file_b] 420 new_fs = Ok (tt, s') /\ v_names (abs s') file_b = Some 2.
Proof.
  destruct new_fs_facts as (Hok & (_ & _ & E3 & _) & _). destruct new_fs_room as (_ & Hu & He & _ & _).
  destruct (touch_all_correct [file_a; file_b] 420 new_fs 1) as (s' & E & _ & _ & Hf & _).
  - exact Hok.
  - exact Hu.
  - clear. lia.
  - rewrite He. clear. unfold DENTRY_NUM_PER_BLOCK. cbn. lia.
  - clear. unfold INODE_NUM. cbn. lia.
  - clear. apply NoDup_cons. split; [|apply NoDup_singleton]. intros Hin. apply list_elem_of_singleton in Hin. discriminate Hin.
  - destruct file_a_ok as (A1 & A2 & A3 & _), file_b_ok as (B1 & B2 & B3 & _).
    apply Forall_cons. split; [|apply Forall_cons; split; [|apply Forall_nil_2]].
    + split; [exact A1|]. split; [exact A2|]. split; [exact A3|]. rewrite E3 by exact A3. reflexivity.
    + split; [exact B1|]. split; [exact B2|]. split; [exact B3|]. rewrite E3 by exact B3. reflexivity.
  - exists s'. split; [exact E|]. rewrite (Hf 1%nat file_b eq_refl). reflexivity.
Defined.


(** ** Files *)

(** C24: What is written to a file is read back: for an open, still empty file,
    writing any sequence of chunks (the first not empty, less than a block in
    all) with [do_fwrite], one call after the other, and then reading as many
    bytes with [do_fread] gives the concatenation of the chunks. *)
Theorem file_roundtrip {D} `{BlockDevice D} first chunks fd i b d (s : fs D) :
  fs_wf s -> synced s -> fd_at s (dblock s) fd i d -> fd_w_offset d = 0 -> fd_r_offset d = 0 ->
  first_free (blockbmp_buffer s) BLOCK_BITMAP_SIZE b -> DATA_BLOCK_INDEX <= b ->
  first <> [] -> Forall (Forall is_byte) (first :: chunks) -> len (concat (first :: chunks)) < BLOCK_SIZE ->
  exists s1 s2, fwrite_all fd (first :: chunks) s = Ok (tt, s1)
    /\ do_fread fd (len (concat (first :: chunks))) s1 = Ok (concat (first :: chunks), s2).
Proof. apply file_lemma. Qed.

Lemma open_facts {D} `{BlockDevice D} (s w : fs D) name ino fd d i b :
  fs_ok w -> abs w ≡ v_create name i ino (abs s) -> is_inum i -> i <> v_cwd (abs s) -> inode_wf ino -> i_num ino = i ->
  0 <= fd < MAX_FILE_DESCRIPTOR_NUM -> fd_inum d = i -> first_free (blockbmp_buffer s) BLOCK_BITMAP_SIZE b ->
  fs_ok (with_fd w fd d) /\ fd_at (with_fd w fd d) (dblock (with_fd w fd d)) fd i d
  /\ first_free (blockbmp_buffer (with_fd w fd d)) BLOCK_BITMAP_SIZE b.
Proof.
  intros Hok (_ & _ & _ & E4 & _ & E6 & _) Hi Hne Hino En Hfd Hd Hf. pose proof (ok_wf _ Hok) as [_ _ _ _ Hl _ _].
  assert (inode_in (dblock w) i = ino) as Ei.
  { pose proof (E4 i Hi) as E. cbn in E. by rewrite (proj2 (Z.eqb_neq i _)), Z.eqb_refl in E. }
  split_and!; [by apply with_fd_ok| |].
  - unfold fd_at. change (dblock (with_fd w fd d)) with (dblock w). rewrite Ei. split_and!; try done; try lia.
    apply list_lookup_insert_eq. unfold MAX_FILE_DESCRIPTOR_NUM in *. lia.
  - apply (first_free_ext (blockbmp_buffer s)); [|exact Hf]. intros k Hk. symmetry. exact (E6 k Hk).
Qed.
Lemma opened_a_facts :
  fs_ok opened_a /\ fd_at opened_a (dblock opened_a) 0 1 (mk_fd 1 2 0 0)
  /\ first_free (blockbmp_buffer opened_a) BLOCK_BITMAP_SIZE 267.
Proof.
  destruct with_a_facts as [Hok Ea]. destruct new_fs_facts as (Hn & (N1 & _) & _).
  destruct new_fs_room as (_ & _ & _ & _ & Hf). pose proof (ok_ticks _ Hn) as Ht.
  refine (open_facts new_fs with_a file_a (touched new_fs 420 1) 0 (mk_fd 1 2 0 0) 1 267 Hok Ea _ _ _ eq_refl _ eq_refl Hf).
  - clear. unfold is_inum, INODE_NUM. lia.
  - rewrite N1. discriminate.
  - apply fresh_inode_wf; [apply u16_mode|clear; unfold is_word; lia|exact Ht|clear; unfold is_word; lia|clear; unfold is_word; lia].
  - clear. unfold MAX_FILE_DESCRIPTOR_NUM. lia.
Qed.
Lemma file_roundtrip_witness :
  exists s1 s2, fwrite_all 0 [[104; 105]; [33]] opened_a = Ok (tt, s1) /\ do_fread 0 3 s1 = Ok ([104; 105; 33], s2).
Proof.
  destruct opened_a_facts as ([Hw Hsy _ _] & Hfd & Hf).
  refine (file_roundtrip [104; 105] [[33]] 0 1 267 (mk_fd 1 2 0 0) opened_a Hw Hsy Hfd eq_refl eq_refl Hf _ _ _ _).
  - clear. unfold DATA_BLOCK_INDEX. lia.
  - discriminate.
  - clear. repeat (apply Forall_cons; split); try apply Forall_nil_2; unfold is_byte; lia.
  - clear. unfold BLOCK_SIZE. cbn. lia.
Defined.

(** An inode written with [sync_to_disk_inode] is read back by
    [sync_from_disk_inode] field by field, and the other inodes on the disk keep
    theirs. *)
Theorem inode_roundtrip {D} `{BlockDevice D} ino i (s : fs D) :
  fs_ok s -> inode_wf ino -> is_inum (i_num ino) -> is_inum i ->
  exists s1 s2, sync_to_disk_inode ino s = Ok (tt, s1)
    /\ sync_from_disk_inode i s1 = Ok (if i =? i_num ino then ino else v_inode (abs s) i, s2).
Proof.
  intros Hok Hw Hn Hi. pose proof (ok_st _ Hok) as [Hs Hg].
  destruct (runs_sync_to_disk_inode ino s (dblock s) (fun _ t g => t = s /\ g = put_inode (dblock s) ino) Hn Hw (conj eq_refl eq_refl) s Hs)
    as ([] & s1 & E1 & t & g & Hs1 & -> & ->).
  destruct (runs_sync_from_disk_inode i s (put_inode (dblock s) ino) (fun r _ _ => r = inode_in (put_inode (dblock s) ino) i)
    Hi eq_refl s1 Hs1) as (r & s2 & E2 & _ & _ & _ & ->).
  exists s1, s2. split; [done|]. rewrite E2. do 2 f_equal. apply inode_in_put; [done|done|done|].
  apply Hg. by apply table_dev.
Qed.
Lemma inode_roundtrip_witness :
  exists s1 s2, sync_to_disk_inode (made_dir new_fs 493 300 7) new_fs = Ok (tt, s1)
    /\ sync_from_disk_inode 7 s1 = Ok (made_dir new_fs 493 300 7, s2).
Proof.
  destruct new_fs_facts as (Hok & _).
  refine (inode_roundtrip (made_dir new_fs 493 300 7) 7 new_fs Hok _ _ _).
  - apply made_dir_wf; [exact (ok_ticks _ Hok)|clear; unfold is_inum, INODE_NUM; lia|clear; unfold DATA_BLOCK_INDEX; lia|clear; unfold BLOCK_NUM; lia].
  - clear. unfold is_inum, INODE_NUM. cbn. lia.
  - clear. unfold is_inum, INODE_NUM. lia.
Defined.

(** [find_free_inode] and [find_free_block] return the least index whose bit
    is clear and change nothing; when every bit of the map is set they print and
    return the error code. *)
Theorem find_free_correct {D} `{BlockDevice D} (s : fs D) :
  fs_wf s ->
  (forall j, first_free (inodebmp_block_buffer s) INODE_BITMAP_SIZE j -> find_free_inode s = Ok (j, s))
  /\ (forall j, first_free (blockbmp_buffer s) BLOCK_BITMAP_SIZE j -> find_free_block s = Ok (j, s))
  /\ ((forall j, 0 <= j < 8 * INODE_BITMAP_SIZE -> bit_at (inodebmp_block_buffer s) j = true) ->
      find_free_inode s = Ok (ERROR_NO_FREE_INODE, s <| console := console s ++ [FS_ERROR ERROR_NO_FREE_INODE] |>))
  /\ ((forall j, 0 <= j < 8 * BLOCK_BITMAP_SIZE -> bit_at (blockbmp_buffer s) j = true) ->
      find_free_block s = Ok (ERROR_NO_FREE_BLOCK, s <| console := console s ++ [FS_ERROR ERROR_NO_FREE_BLOCK] |>)).
Proof.
  intros Hw. split_and!; [by intros j; apply find_free_inode_spec|by intros j; apply find_free_block_spec|..]; intros Hall;
    destruct Hw as [_ _ [Lb Bb] [Li Bi] _ _ _].
  - unfold find_free_inode, INODE_BITMAP_SIZE, BLOCK_SIZE in *.
    erewrite bind_Ok; [|apply (wp_find_free_none inodebmp_block_buffer _ _ (Z.to_nat 1024) 0)]; try done; lia.
  - unfold find_free_block, BLOCK_BITMAP_SIZE in *.
    erewrite bind_Ok; [|apply (wp_find_free_none blockbmp_buffer _ _ (Z.to_nat 32768) 0)]; try done; lia.
Qed.
Lemma find_free_correct_witness : find_free_inode new_fs = Ok (1, new_fs) /\ find_free_block new_fs = Ok (267, new_fs).
Proof.
  destruct new_fs_facts as (Hok & _). destruct new_fs_room as (_ & _ & _ & Hi & Hb).
  destruct (find_free_correct new_fs (ok_wf _ Hok)) as (F1 & F2 & _ & _).
  split; [apply F1; exact Hi|apply F2; exact Hb].
Defined.

(** [separate_path] splits a path at its last '/': "dir/name" becomes "dir"
    and "name", and "/name" becomes "/" and "name". *)
Theorem separate_path_correct dir name parent_buf name_buf :
  nonzero dir -> nonzero name -> no_slash name ->
  len dir + len name + 2 <= len parent_buf -> len name + 1 <= len name_buf ->
  exists parent' name', separate_path (dir ++ char_slash :: name) parent_buf name_buf = Ok (parent', name')
    /\ cstr parent' 0 (if decide (dir = []) then [char_slash] else dir) /\ cstr name' 0 name
    /\ length parent' = length parent_buf /\ length name' = length name_buf.
Proof.
  intros Hd Hn Hs Hp Hl. destruct (path_split dir name Hs) as [E1 E2].
  destruct (separate_path_spec (dir ++ char_slash :: name) parent_buf name_buf) as (p & n & E & C1 & C2 & L1 & L2).
  - by destruct dir.
  - apply Forall_app. split; [done|]. by apply Forall_cons.
  - rewrite length_app. cbn. lia.
  - by rewrite E2.
  - rewrite E1 in C1. rewrite E2 in C2. eauto 9.
Qed.
Lemma separate_path_correct_witness :
  exists p n, separate_path ([47; 97] ++ char_slash :: [98]) (zeros 8) (zeros 4) = Ok (p, n) /\ cstr p 0 [47; 97] /\ cstr n 0 [98].
Proof.
  destruct (separate_path_correct [47; 97] [98] (zeros 8) (zeros 4)) as (p & n & E & C1 & C2 & _).
  - repeat (apply Forall_cons; split); try apply Forall_nil_2; discriminate.
  - repeat (apply Forall_cons; split); try apply Forall_nil_2; discriminate.
  - repeat (apply Forall_cons; split); try apply Forall_nil_2; discriminate.
  - rewrite zeros_len by lia. cbn. lia.
  - rewrite zeros_len by lia. cbn. lia.
  - exists p, n. split; [exact E|]. split; [exact C1|exact C2].
Defined.

(** A path without '/' is not taken as a name: [separate_path] makes its
    first character the parent and the rest of it the name. *)
Theorem separate_path_bare path parent_buf name_buf :
  path <> [] -> nonzero path -> no_slash path -> len path + 1 <= len parent_buf -> len path <= len name_buf ->
  exists parent' name', separate_path path parent_buf name_buf = Ok (parent', name')
    /\ cstr parent' 0 (take 1 path) /\ cstr name' 0 (drop 1 path).
Proof.
  intros Hne Hnz Hs Hp Hl. destruct (path_unsplit path Hs Hne) as [E1 E2].
  destruct (separate_path_spec path parent_buf name_buf) as (p & n & E & C1 & C2 & _ & _); [done|done|done| |].
  - rewrite E2, length_drop. destruct path; [done|]. cbn in *. lia.
  - rewrite E1 in C1. rewrite E2 in C2. eauto 6.
Qed.
Lemma separate_path_bare_witness :
  exists p n, separate_path [97; 98] (zeros 8) (zeros 4) = Ok (p, n) /\ cstr p 0 [97] /\ cstr n 0 [98].
Proof.
  refine (separate_path_bare [97; 98] (zeros 8) (zeros 4) _ _ _ _ _).
  - discriminate.
  - repeat (apply Forall_cons; split); try apply Forall_nil_2; discriminate.
  - repeat (apply Forall_cons; split); try apply Forall_nil_2; discriminate.
  - rewrite zeros_len by lia. cbn. lia.
  - rewrite zeros_len by lia. cbn. lia.
Defined.

(** Storing a block index behind the double-indirect block goes out of
    bounds: after that case the code goes on with the triple-indirect one, whose
    [idx - THIRD_POINTER] wraps around, and reads far behind the pointer buffer. *)
Theorem double_indirect_out_of_bounds :
  write_block_index_in_inode (zero_inode <| i_indirect_block_2_ptr := 300 |> <| i_indirect_block_3_ptr := 301 |>)
    SECOND_POINTER 302 blank = Fault OutOfBounds.
Proof. by vm_compute. Qed.
