(* ===== verification/Mm.v ===== *)
(** Virtual memory: memory.c.

    The page frames, the software page table, the TLB of the processor with the
    coprocessor registers that access it, and the handler of TLB exceptions.
    The kernel's memory from [PAGE_FRAME_START] on is a function from addresses to
    words; the TLB instructions act as the MIPS32 architecture defines them. *)

From S2P Require Import Prelude.

(** ** Constants of mm.h *)

Definition PAGE_SIZE : Z := 0x1000.
Definition PAGE_TABLE_PAGES : Z := 512.
Definition PTE_G : Z := 1.
Definition PTE_V : Z := 2.
Definition PTE_D : Z := 4.
Definition PTE_C : Z := 16.
Definition FRAME_PAGES : Z := 2048.
Definition SD_SWAP_UNIT_NUM : Z := 1.
Definition PAGEABLE_PAGES : Z := 2049.  (* FRAME_PAGES + SD_SWAP_UNIT_NUM *)
Definition PAGE_FRAME_START : Z := 0xa1000000.
Definition TLB_ENTRIES_NUM : Z := 32.

(** ** Structures *)

Record page_map_entry_t := mk_page {
  p_paddr : Z;
  p_vaddr : Z;
  p_VPN : Z;
  p_PFN : Z;
  p_pid : Z;
  p_index : Z;
  p_avail : bool;
  p_dirty : bool;
  p_pinned : bool;
  p_swaped : bool;
  p_swap_index : Z;
  p_R : bool
}.
#[export] Instance page_struct : Struct page_map_entry_t := fun p =>
  mk_page (p_paddr p) (p_vaddr p) (p_VPN p) (p_PFN p) (p_pid p) (p_index p) (p_avail p) (p_dirty p)
    (p_pinned p) (p_swaped p) (p_swap_index p) (p_R p).

Record tlb_entry_t := mk_tlb { t_index : Z; t_empty : bool; t_VPN2 : Z; t_PFN0 : Z; t_PFN1 : Z; t_pid : Z }.
#[export] Instance tlb_struct : Struct tlb_entry_t := fun e =>
  mk_tlb (t_index e) (t_empty e) (t_VPN2 e) (t_PFN0 e) (t_PFN1 e) (t_pid e).

(** An entry of the processor's TLB, as EntryHi and the two EntryLo fill it. *)
Record hw_entry := mk_hw { h_hi : Z; h_lo0 : Z; h_lo1 : Z; h_mask : Z }.

(** The coprocessor registers used here. *)
Record cp0_t := mk_cp0 {
  cp0_entryhi : Z;
  cp0_entrylo0 : Z;
  cp0_entrylo1 : Z;
  cp0_pagemask : Z;
  cp0_index : Z;
  cp0_badvaddr : Z
}.
#[export] Instance cp0_struct : Struct cp0_t := fun c =>
  mk_cp0 (cp0_entryhi c) (cp0_entrylo0 c) (cp0_entrylo1 c) (cp0_pagemask c) (cp0_index c) (cp0_badvaddr c).

(** The globals of memory.c, with the static [clock_ptr] of [page_alloc], the
    processor, the kernel memory, [PID] and the pid of the running task. *)
Record mm := mk_mm {
  page_map : list page_map_entry_t;
  page_table_base_ptr : Z;
  free_page_frame_num : Z;
  tlb_table : list tlb_entry_t;
  tlb_entry_index_ptr : Z;
  page_alloc_ptr : Z;
  swap_page_alloc_ptr : Z;
  clock_ptr : Z;
  wrong_pid : Z;
  tlb_refill_count : Z;
  tlb_invalid_count : Z;
  ram : Z -> Z;
  cp0 : cp0_t;
  hw_tlb : list hw_entry;
  current_pid : Z;
  last_pid : Z;
  log : list (list Z)
}.
#[export] Instance mm_struct : Struct mm := fun s =>
  mk_mm (page_map s) (page_table_base_ptr s) (free_page_frame_num s) (tlb_table s) (tlb_entry_index_ptr s)
    (page_alloc_ptr s) (swap_page_alloc_ptr s) (clock_ptr s) (wrong_pid s) (tlb_refill_count s) (tlb_invalid_count s)
    (ram s) (cp0 s) (hw_tlb s) (current_pid s) (last_pid s) (log s).

Definition zero_page : page_map_entry_t := mk_page 0 0 0 0 0 0 false false false false 0 false.
Definition zero_tlb : tlb_entry_t := mk_tlb 0 false 0 0 0 0.
(** Memory, processor and registers are arbitrary at power-on. *)
Definition boot_mm (memory : Z -> Z) (tlb : list hw_entry) (regs : cp0_t) : mm :=
  mk_mm (replicate (Z.to_nat PAGEABLE_PAGES) zero_page) 0 FRAME_PAGES (replicate 32 zero_tlb) 0 0 0 0 0 0 0
    memory regs tlb 0 0 [].

Abbreviation Mm := (M mm).

Definition setm {T} (f : mm -> T) `{!Field f} (v : T) : Mm unit := modify (put (proj := f) (fun _ => v)).
Definition printk (l : list Z) : Mm unit := modify (fun s => s <| log := log s ++ [l] |>).

(** ** The processor *)

Definition get_cp0 (f : cp0_t -> Z) : Mm Z := gets (fun s => f (cp0 s)).
Definition set_cp0 (f : cp0_t -> Z) `{!Field f} (v : Z) : Mm unit :=
  modify (fun s => s <| cp0 := put (proj := f) (fun _ => v) (cp0 s) |>).

(** Whether an entry matches EntryHi: the same pair of pages, and the same
    address space or a global entry. *)
Definition vpn2_of (hi : Z) : Z := Z.shiftr (Z.land hi 0xffffe000) 13.
Definition asid_of (hi : Z) : Z := Z.land hi 0xff.
Definition hw_match (hi : Z) (e : hw_entry) : bool :=
  (vpn2_of (h_hi e) =? vpn2_of hi)
  && ((asid_of (h_hi e) =? asid_of hi) || Z.testbit (h_lo0 e) 0 && Z.testbit (h_lo1 e) 0).

(** How the processor looks an address up. When several entries match, the
    architecture does not say which of them answers. *)
Class Lookup := {
  probe : list hw_entry -> Z -> option nat;
  probe_hit tlb hi i : probe tlb hi = Some i -> exists e, tlb !! i = Some e /\ hw_match hi e = true;
  probe_miss tlb hi : probe tlb hi = None -> Forall (fun e => hw_match hi e = false) tlb
}.

(** [tlbp]: Index becomes a matching entry, or its highest bit is set. *)
Definition tlbp `{!Lookup} : Mm unit :=
  let! tlb := gets hw_tlb in
  let! hi := get_cp0 cp0_entryhi in
  match probe tlb hi with
  | Some i => set_cp0 cp0_index (Z.of_nat i)
  | None => set_cp0 cp0_index 0x80000000
  end.
(** [tlbwi]: the registers go to the entry that Index selects. *)
Definition tlbwi : Mm unit :=
  let! c := gets cp0 in
  let! tlb := gets hw_tlb in
  let! tlb := lift (wr tlb (cp0_index c) (mk_hw (cp0_entryhi c) (cp0_entrylo0 c) (cp0_entrylo1 c) (cp0_pagemask c))) in
  setm hw_tlb tlb.

Definition tlb_flush_no_check : Mm unit :=
  do! set_cp0 cp0_entryhi 0;
  do! set_cp0 cp0_entrylo0 0;
  do! set_cp0 cp0_entrylo1 0;
  do! set_cp0 cp0_pagemask 0;
  tlbwi.

(** The address space in EntryHi: [do_spawn] calls this with the pid of the new
    task; no task switch does. *)
Definition set_entryhi_asid (asid : Z) : Mm unit :=
  let! hi := get_cp0 cp0_entryhi in
  set_cp0 cp0_entryhi (Z.lor (Z.land hi 0xffffff00) asid).

(** ** Frames *)

Definition va_2_pa (va : Z) : Z := u32 (va - 0xa0000000).
Definition pa_2_va (pa : Z) : Z := u32 (pa + 0xa0000000).
Definition page_frame_vaddr (index : Z) : Z := u32 (PAGE_FRAME_START + index * PAGE_SIZE).
Definition page_frame_paddr (index : Z) : Z := va_2_pa (page_frame_vaddr index).
(** [(x & 0xfffff000) >> 12]. *)
Definition page_number (x : Z) : Z := Z.shiftr (Z.land x 0xfffff000) 12.

Definition get_page (i : Z) : Mm page_map_entry_t := let! l := gets page_map in lift (rd l i).
(** [page_map[i]...] assigned. *)
Definition set_page (i : Z) (f : page_map_entry_t -> page_map_entry_t) : Mm unit :=
  let! p := get_page i in
  let! l := gets page_map in
  let! l := lift (wr l i (f p)) in
  setm page_map l.

(** The loop turns over the [SD_SWAP_UNIT_NUM] units: when it has seen each of
    them in use it never ends. *)
Fixpoint swap_search (fuel : nat) (i : Z) : Mm Z :=
  match fuel with
  | O => throw Diverges
  | S fuel' =>
      if i <? SD_SWAP_UNIT_NUM then
        let! p := get_page (i + FRAME_PAGES) in
        if p_avail p then ret i else swap_search fuel' ((i + 1) mod SD_SWAP_UNIT_NUM)
      else ret i
  end.
Definition get_swap_free_index : Mm Z :=
  let! i := gets swap_page_alloc_ptr in
  let! i := swap_search (S (Z.to_nat SD_SWAP_UNIT_NUM)) i in
  do! setm swap_page_alloc_ptr i;
  ret i.
(** No value is returned in the other branch. *)
Definition get_swap_in_index (swapin_valid : bool) : Mm Z :=
  if negb swapin_valid then get_swap_free_index else throw NoReturnValue.
Definition do_page_swap (swap_out_index swap_in_index : Z) : Mm unit := ret tt.

(** The first available frame from [i] on, of [n]. *)
Fixpoint find_free_page (n : nat) (i : Z) : Mm (option Z) :=
  match n with
  | O => ret None
  | S n' =>
      let! p := get_page i in
      if p_avail p then
        let! a := gets page_alloc_ptr in
        do! setm page_alloc_ptr ((a + 1) mod FRAME_PAGES);
        ret (Some i)
      else find_free_page n' (i + 1)
  end.

(** The clock: in its second turn every [R] is clear, so a frame that is not
    pinned is found within two turns and one step, or never. *)
Fixpoint clock_loop (fuel : nat) : Mm unit :=
  match fuel with
  | O => throw Diverges
  | S fuel' =>
      let! c := gets clock_ptr in
      let! p := get_page c in
      if p_pinned p || p_R p then
        do! (if p_R p then set_page c (fun p => p <| p_R := false |>) else ret tt);
        do! setm clock_ptr ((c + 1) mod FRAME_PAGES);
        clock_loop fuel'
      else ret tt
  end.

(** The page that goes out and the entry that comes in. *)
Definition swap_pages (pinned : bool) (swap_out_index swap_in_index : Z) : Mm unit :=
  do! set_page swap_out_index (fun p => p <| p_swaped := true |> <| p_swap_index := swap_in_index |>);
  let! badvaddr := get_cp0 cp0_badvaddr in
  let! c := gets clock_ptr in
  let! pid := gets current_pid in
  do! set_page swap_in_index (fun p =>
    p <| p_pinned := pinned |> <| p_vaddr := badvaddr |> <| p_VPN := page_number badvaddr |>
      <| p_index := c |> <| p_paddr := page_frame_paddr c |> <| p_PFN := page_number (page_frame_paddr c) |>
      <| p_pid := pid |> <| p_avail := false |> <| p_R := true |> <| p_swaped := false |>);
  ret tt.

(** [bzero] of a page. *)
Definition zero_range (va : Z) (memory : Z -> Z) : Z -> Z :=
  fun a => if (va <=? a) && (a <? va + PAGE_SIZE) then 0 else memory a.

(** [None]: the end of the function is reached without a value. *)
Definition page_alloc (pinned swapin_valid tlb_invalid : bool) : Mm (option Z) :=
  let! first := gets page_alloc_ptr in
  let! found := find_free_page (Z.to_nat (FRAME_PAGES - first)) first in
  match found with
  | None =>
      do! clock_loop (Z.to_nat (2 * FRAME_PAGES + 1));
      let! swap_out_index := gets clock_ptr in
      let! i := get_swap_in_index swapin_valid in
      let swap_in_index := i + FRAME_PAGES in
      do! (if negb swapin_valid then swap_pages pinned swap_out_index swap_in_index else ret tt);
      do! do_page_swap swap_out_index swap_in_index;
      do! set_page swap_out_index (fun p => p <| p_swaped := true |>);
      do! set_page swap_in_index (fun p => p <| p_swaped := false |>);
      ret None
  | Some free_index =>
      let! p := get_page free_index in
      let! memory := gets ram in
      do! setm ram (zero_range (pa_2_va (p_paddr p)) memory);
      let! base := gets page_table_base_ptr in
      do! (if base =? 0 then
             let! PID := gets last_pid in
             set_page free_index (fun p =>
               p <| p_avail := false |> <| p_pinned := pinned |> <| p_R := true |> <| p_pid := PID |>)
           else
             let! badvaddr := get_cp0 cp0_badvaddr in
             let! pid := gets current_pid in
             set_page free_index (fun p =>
               p <| p_vaddr := badvaddr |> <| p_VPN := page_number badvaddr |> <| p_pid := pid |>
                 <| p_avail := false |> <| p_pinned := pinned |> <| p_R := true |>));
      let! n := gets free_page_frame_num in
      do! (if 0 <? n then setm free_page_frame_num (n - 1) else ret tt);
      ret (Some free_index)
  end.

Definition set_up_page_table : Mm unit :=
  for_range (Z.to_nat PAGE_TABLE_PAGES) 0 (fun _ => do! page_alloc true false false; ret tt).

Definition set_tlb (i : Z) (f : tlb_entry_t -> tlb_entry_t) : Mm unit :=
  let! l := gets tlb_table in
  let! e := lift (rd l i) in
  let! l := lift (wr l i (f e)) in
  setm tlb_table l.

(** The [VPN2] that is in no address: an invalid entry everywhere. *)
Definition NO_VPN2 : Z := 0xffff7.
Definition fill_tlb : Mm unit :=
  for_range (Z.to_nat TLB_ENTRIES_NUM) 0 (fun i =>
    do! set_tlb i (fun e => e <| t_empty := true |> <| t_index := i |> <| t_VPN2 := NO_VPN2 |>
                              <| t_PFN0 := 0 |> <| t_PFN1 := 0 |> <| t_pid := 0 |>);
    do! set_cp0 cp0_entryhi (u32 (Z.shiftl NO_VPN2 13));
    do! set_cp0 cp0_pagemask 0;
    do! set_cp0 cp0_entrylo0 0;
    do! set_cp0 cp0_entrylo1 0;
    do! set_cp0 cp0_index i;
    tlbwi).

(** An entry of [page_map] after the two loops of [init_memory]. *)
Definition frame_entry (i : Z) : page_map_entry_t :=
  mk_page (page_frame_paddr i) 0 0 (page_number (page_frame_paddr i)) 0 i true true false false (-1) false.
Definition swap_entry (i : Z) : page_map_entry_t :=
  mk_page 0 0 0 0 0 i true true false true (i - FRAME_PAGES) false.
Definition init_memory : Mm unit :=
  do! for_range (Z.to_nat FRAME_PAGES) 0 (fun i => set_page i (fun _ => frame_entry i));
  do! for_range (Z.to_nat (PAGEABLE_PAGES - FRAME_PAGES)) FRAME_PAGES (fun i => set_page i (fun _ => swap_entry i));
  do! set_up_page_table;
  do! setm page_table_base_ptr PAGE_FRAME_START;
  fill_tlb.

(** ** The exception handler *)

(** The scan of [tlb_table] for the pair of pages in EntryHi. *)
Definition check_tlb_wrong_access : Mm bool :=
  let! hi := get_cp0 cp0_entryhi in
  let! pid := gets current_pid in
  let! l := gets tlb_table in
  match list_find (fun e => t_VPN2 e = vpn2_of hi /\ t_pid e <> pid) l with
  | Some (_, e) => do! setm wrong_pid (t_pid e); ret true
  | None => ret false
  end.
Definition get_tlb_invalid_index : Mm Z :=
  let! hi := get_cp0 cp0_entryhi in
  let! pid := gets current_pid in
  let! l := gets tlb_table in
  match list_find (fun e => t_VPN2 e = vpn2_of hi /\ t_pid e = pid) l with
  | Some (i, _) => ret (Z.of_nat i)
  | None => throw NoReturnValue
  end.

(** [page_table[i]]. *)
Definition pte_addr (base i : Z) : Z := base + 4 * i.
Definition get_pte (i : Z) : Mm Z := gets (fun s => ram s (pte_addr (page_table_base_ptr s) i)).
Definition set_pte (i v : Z) : Mm unit :=
  modify (fun s => s <| ram := fun a => if a =? pte_addr (page_table_base_ptr s) i then v else ram s a |>).

Definition entrylo (PFN : Z) : Z := Z.lor (Z.lor (Z.lor (u32 (Z.shiftl PFN 6)) PTE_C) PTE_D) PTE_V.
Definition pte (PFN : Z) : Z := Z.lor (Z.lor (Z.lor (u32 (Z.shiftl PFN 12)) PTE_C) PTE_D) PTE_V.
Definition lo_PFN (lo : Z) : Z := Z.shiftr (Z.land lo 0xffffffc0) 6.

(** The copy of what was written, in [tlb_table[i]]. *)
Definition record_tlb (i : Z) (odd : bool) : Mm unit :=
  let! pid := gets current_pid in
  let! lo0 := get_cp0 cp0_entrylo0 in
  let! lo1 := get_cp0 cp0_entrylo1 in
  let! hi := get_cp0 cp0_entryhi in
  set_tlb i (fun e =>
    let e := e <| t_pid := pid |> <| t_empty := false |> <| t_index := i |> in
    let e := if odd then e <| t_PFN1 := lo_PFN lo1 |> else e <| t_PFN0 := lo_PFN lo0 |> in
    e <| t_VPN2 := vpn2_of hi |>).

(** The next entry of the TLB gets one page of the pair. *)
Definition refill_tlb (EntryHi : Z) (odd : bool) (PFN : Z) : Mm unit :=
  let! k := gets tlb_entry_index_ptr in
  let k := (k + 1) mod TLB_ENTRIES_NUM in
  do! setm tlb_entry_index_ptr k;
  do! set_cp0 cp0_index k;
  do! tlb_flush_no_check;
  do! (if odd then set_cp0 cp0_entrylo1 (entrylo PFN) else set_cp0 cp0_entrylo0 (entrylo PFN));
  do! set_cp0 cp0_pagemask 0;
  let! pid := gets current_pid in
  do! set_cp0 cp0_entryhi (Z.lor (Z.land EntryHi 0xffffe000) pid);
  do! tlbwi;
  record_tlb k odd.

(** A new frame for an empty entry of the page table. *)
Definition alloc_pte (badvpn : Z) (tlb_invalid : bool) : Mm Z :=
  let! r := page_alloc false false tlb_invalid in
  match r with
  | None => throw NoReturnValue
  | Some index =>
      let! p := get_page index in
      let PFN := page_number (p_paddr p) in
      do! set_pte badvpn (pte PFN);
      let! a := gets page_alloc_ptr in
      let! q := get_page a in
      do! printk [a; p_paddr q; p_PFN q; index; PFN];
      ret PFN
  end.

(** The missing page of a pair whose other page is in the TLB. *)
Definition complete_tlb (EntryHi : Z) (odd : bool) (PFN : Z) : Mm unit :=
  let! k := get_tlb_invalid_index in
  do! set_cp0 cp0_index k;
  let! l := gets tlb_table in
  let! e := lift (rd l k) in
  do! set_cp0 cp0_entrylo0 (if odd then entrylo (t_PFN0 e) else entrylo PFN);
  do! set_cp0 cp0_entrylo1 (if odd then entrylo PFN else entrylo (t_PFN1 e));
  do! set_cp0 cp0_pagemask 0;
  let! pid := gets current_pid in
  do! set_cp0 cp0_entryhi (Z.lor (Z.land EntryHi 0xffffe000) pid);
  do! tlbwi;
  record_tlb k odd.

Definition tlb_refill (EntryHi badvpn : Z) (odd : bool) : Mm unit :=
  do! printk [111];
  let! n := gets tlb_refill_count in
  do! setm tlb_refill_count (i32 (n + 1));
  let! wrong := check_tlb_wrong_access in
  if wrong then
    let! pid := gets current_pid in
    let! w := gets wrong_pid in
    printk [pid; w]
  else
    let! e := get_pte badvpn in
    if negb (e =? 0) && (Z.land e PTE_V =? PTE_V) then
      do! printk [222];
      refill_tlb EntryHi odd (page_number e)
    else if negb (e =? 0) && (Z.land e PTE_V =? 0) then printk [333]
    else if e =? 0 then
      do! printk [444];
      let! free := gets free_page_frame_num in
      if negb (free =? 0) then
        let! PFN := alloc_pte badvpn false in
        refill_tlb EntryHi odd PFN
      else ret tt
    else ret tt.

(** Both branches on [free_page_frame_num] have the same statements. *)
Definition tlb_invalid (EntryHi badvpn : Z) (odd : bool) : Mm unit :=
  do! printk [555];
  let! n := gets tlb_invalid_count in
  do! setm tlb_invalid_count (i32 (n + 1));
  let! e := get_pte badvpn in
  if e =? 0 then
    do! printk [666];
    let! PFN := alloc_pte badvpn true in
    complete_tlb EntryHi odd PFN
  else if negb (e =? 0) && (Z.land e PTE_V =? 0) then printk [777]
  else ret tt.

Definition handle_tlb_exception_helper `{!Lookup} : Mm unit :=
  let! e0 := get_pte 0 in
  let! e1 := get_pte 1 in
  do! printk [e0; e1];
  let! a := gets page_alloc_ptr in
  let! p := get_page a in
  do! printk [a; p_paddr p; p_PFN p];
  let! p0 := get_page 0 in
  do! printk [0; p_paddr p0; p_PFN p0];
  let! EntryHi := get_cp0 cp0_entryhi in
  let! badvaddr := get_cp0 cp0_badvaddr in
  let odd := Z.shiftr (Z.land badvaddr 0x1000) 12 =? 1 in
  let badvpn := page_number badvaddr in
  do! tlbp;
  let! index := get_cp0 cp0_index in
  if Z.shiftr (Z.land index 0x80000000) 31 =? 1 then tlb_refill EntryHi badvpn odd
  else tlb_invalid EntryHi badvpn odd.

(** ** What the processor does *)

(** The frame to which an entry maps an address, when it is valid. *)
Definition hw_frame (e : hw_entry) (va : Z) : option Z :=
  let lo := if Z.testbit va 12 then h_lo1 e else h_lo0 e in
  if Z.testbit lo 1 then Some (lo_PFN lo) else None.
(** Translation of an address in an address space. *)
Definition translate `{!Lookup} (tlb : list hw_entry) (va asid : Z) : option Z :=
  match probe tlb (Z.lor (Z.land va 0xffffe000) asid) with
  | Some i => match tlb !! i with Some e => hw_frame e va | None => None end
  | None => None
  end.
(** What the processor reaches at an address: the address space is the one in
    EntryHi, whichever task runs. *)
Definition reached `{!Lookup} (s : mm) (va : Z) : option Z := translate (hw_tlb s) va (asid_of (cp0_entryhi (cp0 s))).
(** A TLB exception while task [pid] runs: the processor sets BadVAddr and the
    pair of pages in EntryHi, whose address space stays as it is. *)
Definition tlb_exception (va pid : Z) (s : mm) : mm :=
  s <| cp0 := (cp0 s) <| cp0_badvaddr := va |>
         <| cp0_entryhi := Z.lor (Z.land va 0xffffe000) (asid_of (cp0_entryhi (cp0 s))) |> |>
    <| current_pid := pid |>.
(** An access of task [pid]: what is reached, after the exception if there is one. *)
Definition access `{!Lookup} (va pid : Z) : Mm (option Z) :=
  let! r := gets (fun s => reached s va) in
  match r with
  | Some f => ret (Some f)
  | None =>
      do! modify (tlb_exception va pid);
      do! handle_tlb_exception_helper;
      gets (fun s => reached s va)
  end.
