(* ===== verification/MmProps.v ===== *)
(** The frames, the page table and the TLB stay consistent: no two virtual
    pages share a frame, and no task reaches the kernel's frames. *)

From S2P Require Import Prelude Wp Mm.

(** ** Bits *)

Lemma land_high x n : 0 <= n -> 0 <= x < 2 ^ 32 -> n <= 32 -> Z.land x (2 ^ 32 - 2 ^ n) = x / 2 ^ n * 2 ^ n.
Proof.
  intros Hn Hx Hn'. assert (2 ^ 32 - 2 ^ n = Z.shiftl (Z.ones (32 - n)) n) as ->.
  { rewrite Z.shiftl_mul_pow2, Z.ones_equiv by lia. rewrite <-Z.sub_1_r, Z.mul_sub_distr_r, <-Z.pow_add_r by lia.
    f_equal; [f_equal; lia|lia]. }
  rewrite <-Z.shiftr_div_pow2, <-Z.shiftl_mul_pow2 by lia. apply Z.bits_inj'. intros i Hi.
  rewrite Z.land_spec. destruct (Z.ltb_spec i n) as [Hlt|Hge].
  - by rewrite !Z.shiftl_spec_low, andb_false_r by lia.
  - rewrite !Z.shiftl_spec, Z.shiftr_spec by lia. replace (i - n + n) with i by lia.
    destruct (Z.ltb_spec i 32).
    + rewrite Z.ones_spec_low by lia. apply andb_true_r.
    + rewrite Z.ones_spec_high, andb_false_r by lia. symmetry. apply Z.testbit_false; [lia|].
      rewrite Z.div_small; [done|]. split; [lia|]. assert (2 ^ 32 <= 2 ^ i) by (apply Z.pow_le_mono_r; lia). lia.
Qed.
Lemma lor_low x n y : 0 <= n -> 0 <= y < 2 ^ n -> Z.lor (x * 2 ^ n) y = x * 2 ^ n + y.
Proof.
  intros Hn Hy. assert (Z.land (x * 2 ^ n) y = 0) as E.
  { apply Z.bits_inj'. intros i Hi. rewrite Z.land_spec, Z.bits_0. destruct (Z.ltb_spec i n) as [Hlt|Hge].
    - by rewrite Z.mul_pow2_bits_low.
    - destruct (decide (y = 0)) as [->|Hne]; [by rewrite Z.bits_0, andb_false_r|].
      rewrite (Z.bits_above_log2 y i), andb_false_r; [done|lia|]. apply Z.log2_lt_pow2; [lia|].
      assert (2 ^ n <= 2 ^ i) by (apply Z.pow_le_mono_r; lia). lia. }
  rewrite Z.add_nocarry_lxor by done. by rewrite Z.lxor_lor.
Qed.

Lemma div_add_low x n y : 0 <= y < n -> (x * n + y) / n = x.
Proof. intros Hy. rewrite Z.add_comm, Z.div_add by lia. rewrite Z.div_small; lia. Qed.
Lemma mod_add_low x n y : 0 <= y < n -> (x * n + y) mod n = y.
Proof. intros Hy. rewrite Z.add_comm, Z.mod_add by lia. apply Z.mod_small. lia. Qed.

Lemma page_number_div x : is_word x -> page_number x = x / 4096.
Proof.
  intros Hx. unfold page_number. change 0xfffff000 with (2 ^ 32 - 2 ^ 12). rewrite land_high by (done || lia).
  rewrite Z.shiftr_div_pow2 by lia. change (2 ^ 12) with 4096. by rewrite Z.div_mul by lia.
Qed.
Lemma vpn2_of_div x : is_word x -> vpn2_of x = x / 8192.
Proof.
  intros Hx. unfold vpn2_of. change 0xffffe000 with (2 ^ 32 - 2 ^ 13). rewrite land_high by (done || lia).
  rewrite Z.shiftr_div_pow2 by lia. change (2 ^ 13) with 8192. by rewrite Z.div_mul by lia.
Qed.
Lemma lo_PFN_div x : is_word x -> lo_PFN x = x / 64.
Proof.
  intros Hx. unfold lo_PFN. change 0xffffffc0 with (2 ^ 32 - 2 ^ 6). rewrite land_high by (done || lia).
  rewrite Z.shiftr_div_pow2 by lia. change (2 ^ 6) with 64. by rewrite Z.div_mul by lia.
Qed.

(** The formats of a page table entry and of EntryLo. *)
Lemma pte_value f : 0 <= f < 2 ^ 20 -> pte f = f * 2 ^ 12 + 22.
Proof.
  intros Hf. unfold pte. rewrite Z.shiftl_mul_pow2, u32_id by (unfold is_word; lia). rewrite <-!Z.lor_assoc.
  apply (lor_low f 12 22); lia.
Qed.
Lemma entrylo_value f : 0 <= f < 2 ^ 26 -> entrylo f = f * 2 ^ 6 + 22.
Proof.
  intros Hf. unfold entrylo. rewrite Z.shiftl_mul_pow2, u32_id by (unfold is_word; lia). rewrite <-!Z.lor_assoc.
  apply (lor_low f 6 22); lia.
Qed.
Lemma low_bit x n y i : 0 <= i < n -> Z.testbit (x * 2 ^ n + y) i = Z.testbit y i.
Proof.
  intros Hi. rewrite <-(Z.mod_pow2_bits_low (x * 2 ^ n + y) n i) by lia.
  rewrite Z.add_comm, Z.mod_add by lia. apply Z.mod_pow2_bits_low. lia.
Qed.
Lemma pte_facts f : 0 <= f < 2 ^ 20 ->
  pte f <> 0 /\ page_number (pte f) = f /\ (Z.land (pte f) PTE_V =? PTE_V) = true /\ is_word (pte f).
Proof.
  intros Hf. rewrite pte_value by done. assert (is_word (f * 2 ^ 12 + 22)) as Hw by (unfold is_word; lia).
  split_and!; [lia| | |done].
  - rewrite page_number_div by done. apply div_add_low. lia.
  - apply Z.eqb_eq, Z.bits_inj'. intros i Hi. rewrite Z.land_spec. unfold PTE_V. destruct (decide (i = 1)) as [->|Hne].
    + by rewrite low_bit by lia.
    + assert (Z.testbit 2 i = false) as ->; [|apply andb_false_r]. change 2 with (2 ^ 1).
      rewrite Z.pow2_bits_eqb by lia. by apply Z.eqb_neq.
Qed.
Lemma entrylo_facts f : 0 <= f < 2 ^ 26 ->
  lo_PFN (entrylo f) = f /\ Z.testbit (entrylo f) 1 = true /\ Z.testbit (entrylo f) 0 = false.
Proof.
  intros Hf. rewrite entrylo_value by done. assert (is_word (f * 2 ^ 6 + 22)) as Hw by (unfold is_word; lia).
  split_and!; [|by rewrite low_bit by lia|by rewrite low_bit by lia]. rewrite lo_PFN_div by done. apply div_add_low. lia.
Qed.

(** ** Addresses *)

(** A user address and an address space. *)
Definition user_va (va : Z) : Prop := 0 <= va < 2 ^ 31.
Definition is_asid (a : Z) : Prop := 0 <= a < 256.
Definition vpn (va : Z) : Z := va / 4096.

Lemma hi_value va asid : user_va va -> is_asid asid ->
  Z.lor (Z.land va 0xffffe000) asid = va / 8192 * 2 ^ 13 + asid.
Proof.
  unfold user_va, is_asid. intros Hv Ha. change 0xffffe000 with (2 ^ 32 - 2 ^ 13). rewrite land_high by lia.
  apply lor_low; lia.
Qed.
Lemma hi_facts v asid : 0 <= v < 2 ^ 19 -> is_asid asid ->
  vpn2_of (v * 2 ^ 13 + asid) = v /\ asid_of (v * 2 ^ 13 + asid) = asid.
Proof.
  unfold is_asid. intros Hv Ha. split.
  - rewrite vpn2_of_div by (unfold is_word; lia). apply div_add_low. lia.
  - unfold asid_of. change 0xff with (Z.ones 8). rewrite Z.land_ones by lia.
    replace (v * 2 ^ 13 + asid) with ((v * 2 ^ 5) * 2 ^ 8 + asid) by lia. apply mod_add_low. lia.
Qed.
Lemma asid_range hi : is_asid (asid_of hi).
Proof. unfold is_asid, asid_of. change 0xff with (Z.ones 8). rewrite Z.land_ones by lia. apply Z.mod_pos_bound. lia. Qed.
(** Which page of the pair. *)
Lemma odd_page va : user_va va ->
  (Z.shiftr (Z.land va 0x1000) 12 =? 1) = Z.testbit va 12 /\ vpn va = 2 * (va / 8192) + (if Z.testbit va 12 then 1 else 0).
Proof.
  unfold user_va, vpn. intros Hv.
  assert (Z.testbit va 12 = Z.odd (va / 4096)) as Eb.
  { rewrite <-(Z.add_0_l 12). rewrite <-Z.shiftr_spec, Z.shiftr_div_pow2, Z.bit0_odd by lia. done. }
  split.
  - rewrite Z.shiftr_land. change (Z.shiftr 0x1000 12) with (Z.ones 1). rewrite Z.land_ones, Z.shiftr_div_pow2 by lia.
    change (2 ^ 1) with 2. change (2 ^ 12) with 4096. rewrite Eb, Zmod_odd. by destruct (Z.odd _).
  - replace (va / 8192) with (va / 4096 / 2) by (rewrite Z.div_div by lia; f_equal; lia). rewrite Eb.
    pose proof (Z.div_mod (va / 4096) 2 ltac:(lia)) as E. rewrite Zmod_odd in E. lia.
Qed.

Lemma frame_addr i : 0 <= i < FRAME_PAGES ->
  page_frame_paddr i = 0x1000000 + i * 4096 /\ page_number (page_frame_paddr i) = 4096 + i
  /\ pa_2_va (page_frame_paddr i) = PAGE_FRAME_START + i * 4096.
Proof.
  unfold FRAME_PAGES. intros Hi. assert (page_frame_paddr i = 0x1000000 + i * 4096) as E.
  { unfold page_frame_paddr, page_frame_vaddr, va_2_pa, PAGE_FRAME_START, PAGE_SIZE.
    rewrite (u32_id (_ + _)) by (unfold is_word; lia). rewrite u32_id by (unfold is_word; lia). lia. }
  rewrite E. split; [done|]. split.
  - rewrite page_number_div by (unfold is_word; lia). replace (0x1000000 + i * 4096) with ((4096 + i) * 4096 + 0) by lia.
    apply div_add_low. lia.
  - unfold pa_2_va, PAGE_FRAME_START. rewrite u32_id by (unfold is_word; lia). lia.
Qed.

(** ** The invariant *)

Definition pt (s : mm) (v : Z) : Z := ram s (PAGE_FRAME_START + 4 * v).

(** A half of a TLB entry: invalid, or the frame that the page table has and
    that the table of the kernel remembers. *)
Definition half_ok (e_pt lo pfn : Z) : Prop := lo = 0 \/ 0 <= pfn < 2 ^ 20 /\ lo = entrylo pfn /\ e_pt = pte pfn.
(** An entry of the kernel's table and the entry of the processor: unused, or the same pair of pages. *)
Definition slot_ok (ptab : Z -> Z) (e : tlb_entry_t) (h : hw_entry) : Prop :=
  (t_VPN2 e = NO_VPN2 /\ h_hi h = 0x7fff7 * 2 ^ 13 /\ h_lo0 h = 0 /\ h_lo1 h = 0)
  \/ (0 <= t_VPN2 e < 2 ^ 18 /\ is_asid (t_pid e) /\ h_hi h = t_VPN2 e * 2 ^ 13 + t_pid e
      /\ half_ok (ptab (2 * t_VPN2 e)) (h_lo0 h) (t_PFN0 e) /\ half_ok (ptab (2 * t_VPN2 e + 1)) (h_lo1 h) (t_PFN1 e)
      /\ (h_lo0 h <> 0 \/ h_lo1 h <> 0)).

(** The first [k] frames are in use. *)
Definition pages_ok (k : Z) (l : list page_map_entry_t) : Prop :=
  len l = PAGEABLE_PAGES /\ forall i, 0 <= i < FRAME_PAGES ->
    exists p, l !! Z.to_nat i = Some p /\ p_paddr p = page_frame_paddr i /\ p_avail p = (k <=? i).
Definition table_ok (k : Z) (ptab : Z -> Z) : Prop :=
  (forall v, 0 <= v < 2 ^ 19 -> ptab v = 0 \/ exists f, PAGE_TABLE_PAGES <= f < k /\ ptab v = pte (4096 + f))
  /\ (forall v w, 0 <= v < 2 ^ 19 -> 0 <= w < 2 ^ 19 -> ptab v <> 0 -> ptab v = ptab w -> v = w).
Record mm_ok (k : Z) (s : mm) : Prop := {
  ok_k : PAGE_TABLE_PAGES <= k <= FRAME_PAGES;
  ok_pages : pages_ok k (page_map s);
  ok_base : page_table_base_ptr s = PAGE_FRAME_START;
  ok_alloc : page_alloc_ptr s = k mod FRAME_PAGES;
  ok_free : free_page_frame_num s = FRAME_PAGES - k;
  ok_slots : Forall2 (slot_ok (pt s)) (tlb_table s) (hw_tlb s) /\ len (hw_tlb s) = TLB_ENTRIES_NUM;
  ok_ptr : 0 <= tlb_entry_index_ptr s < TLB_ENTRIES_NUM;
  ok_table : table_ok k (pt s)
}.

(** ** Symbolic execution *)

Lemma wp_setm {T} (f : mm -> T) `{!Field f} v s (Q : unit -> mm -> Prop) :
  Q tt (put (proj := f) (fun _ => v) s) -> wp (setm f v) s Q.
Proof. apply wp_modify. Qed.
Lemma wp_set_cp0 (f : cp0_t -> Z) `{!Field f} v s (Q : unit -> mm -> Prop) :
  Q tt (s <| cp0 := put (proj := f) (fun _ => v) (cp0 s) |>) -> wp (set_cp0 f v) s Q.
Proof. intros HQ. unfold set_cp0. apply wp_modify. exact HQ. Qed.
Lemma wp_get_cp0 (f : cp0_t -> Z) s (Q : Z -> mm -> Prop) : Q (f (cp0 s)) s -> wp (get_cp0 f) s Q.
Proof. intros HQ. unfold get_cp0. apply wp_gets. exact HQ. Qed.
Lemma wp_printk l s (Q : unit -> mm -> Prop) : Q tt (s <| log := log s ++ [l] |>) -> wp (printk l) s Q.
Proof. intros HQ. unfold printk. apply wp_modify. exact HQ. Qed.

Ltac mm_step :=
  lazymatch goal with
  | |- wp (setm _ _) _ _ => apply wp_setm; cbn [put]
  | |- wp (set_cp0 _ _) _ _ => apply wp_set_cp0; cbn [put]
  | |- wp (get_cp0 _) _ _ => apply wp_get_cp0; cbn [put]
  | |- wp (printk _) _ _ => apply wp_printk; cbn [put]
  | |- _ => wp_basic; cbn [put]
  end; cbv beta zeta.
Ltac mm_auto := repeat mm_step.

Lemma wp_get_page i p s (Q : page_map_entry_t -> mm -> Prop) :
  0 <= i -> page_map s !! Z.to_nat i = Some p -> Q p s -> wp (get_page i) s Q.
Proof. intros Hi Hp HQ. unfold get_page. mm_auto. eapply wp_lift; [by apply rd_lookup|done]. Qed.
Lemma wp_set_page i f p s (Q : unit -> mm -> Prop) :
  0 <= i -> page_map s !! Z.to_nat i = Some p ->
  Q tt (s <| page_map := <[Z.to_nat i := f p]> (page_map s) |>) -> wp (set_page i f) s Q.
Proof.
  intros Hi Hp HQ. pose proof (lookup_lt_Some _ _ _ Hp). unfold set_page. mm_auto. eapply wp_get_page; [done|done|].
  mm_auto. eapply wp_lift; [apply wr_in_range; lia|]. mm_auto. exact HQ.
Qed.
Lemma wp_set_tlb i f e s (Q : unit -> mm -> Prop) :
  0 <= i -> tlb_table s !! Z.to_nat i = Some e ->
  Q tt (s <| tlb_table := <[Z.to_nat i := f e]> (tlb_table s) |>) -> wp (set_tlb i f) s Q.
Proof.
  intros Hi He HQ. pose proof (lookup_lt_Some _ _ _ He). unfold set_tlb. mm_auto.
  eapply wp_lift; [by apply rd_lookup|]. mm_auto. eapply wp_lift; [apply wr_in_range; lia|]. mm_auto. exact HQ.
Qed.
Definition regs_entry (c : cp0_t) : hw_entry :=
  mk_hw (cp0_entryhi c) (cp0_entrylo0 c) (cp0_entrylo1 c) (cp0_pagemask c).
Lemma wp_tlbwi s (Q : unit -> mm -> Prop) :
  0 <= cp0_index (cp0 s) < len (hw_tlb s) ->
  Q tt (s <| hw_tlb := <[Z.to_nat (cp0_index (cp0 s)) := regs_entry (cp0 s)]> (hw_tlb s) |>) -> wp tlbwi s Q.
Proof.
  intros Hi HQ. unfold tlbwi. mm_auto. eapply wp_lift; [apply wr_in_range; lia|]. mm_auto. exact HQ.
Qed.

(** ** Frames *)

Lemma find_free_first k n s (Q : option Z -> mm -> Prop) :
  pages_ok k (page_map s) -> 0 <= k < FRAME_PAGES -> (0 < n)%nat ->
  Q (Some k) (s <| page_alloc_ptr := (page_alloc_ptr s + 1) mod FRAME_PAGES |>) -> wp (find_free_page n k) s Q.
Proof.
  intros [_ Hp] Hk Hn HQ. destruct n as [|n]; [lia|]. cbn [find_free_page]. destruct (Hp k Hk) as (p & E & _ & Ea).
  mm_step. eapply wp_get_page; [lia|exact E|]. rewrite Ea, Z.leb_refl. mm_auto. exact HQ.
Qed.

Lemma pages_ok_use k l f :
  pages_ok k l -> 0 <= k < FRAME_PAGES -> (forall p, p_paddr (f p) = p_paddr p /\ p_avail (f p) = false) ->
  forall p, l !! Z.to_nat k = Some p -> pages_ok (k + 1) (<[Z.to_nat k := f p]> l).
Proof.
  intros [Hl Hp] Hk Hf p E. split; [by rewrite length_insert|]. intros i Hi. destruct (decide (i = k)) as [->|Hne].
  - exists (f p). pose proof (lookup_lt_Some _ _ _ E). rewrite list_lookup_insert_eq by done. destruct (Hf p) as [E1 E2].
    destruct (Hp k Hk) as (q & Eq & Ep & _). replace q with p in * by congruence. split_and!; [done|congruence|].
    rewrite E2. symmetry. apply Z.leb_gt. lia.
  - destruct (Hp i Hi) as (q & Eq & Ep & Ea). exists q. rewrite list_lookup_insert_ne by lia. split_and!; [done|done|].
    rewrite Ea. destruct (Z.leb_spec k i), (Z.leb_spec (k + 1) i); lia || done.
Qed.

(** The frame that [page_alloc] returns is the next one, cleared. *)
Lemma wp_page_alloc k pinned tlb_inv s (Q : option Z -> mm -> Prop) :
  pages_ok k (page_map s) -> 0 <= k < FRAME_PAGES -> page_alloc_ptr s = k -> free_page_frame_num s = FRAME_PAGES - k ->
  (forall l, pages_ok (k + 1) l ->
     Q (Some k) (s <| page_alloc_ptr := (k + 1) mod FRAME_PAGES |> <| ram := zero_range (PAGE_FRAME_START + k * 4096) (ram s) |>
       <| page_map := l |> <| free_page_frame_num := FRAME_PAGES - (k + 1) |>)) ->
  wp (page_alloc pinned false tlb_inv) s Q.
Proof.
  intros Hp Hk Ea Ef HQ. unfold page_alloc. mm_auto. rewrite Ea. apply (find_free_first k); [done|done|lia|].
  rewrite Ea. pose proof Hp as [_ Hp']. destruct (Hp' k Hk) as (p & E & Epa & _).
  mm_auto. eapply wp_get_page; [lia|exact E|]. destruct (frame_addr k Hk) as (_ & _ & Eva). rewrite Epa, Eva.
  mm_auto.
  assert (forall (g : page_map_entry_t -> page_map_entry_t) t,
    page_map t = page_map s -> (forall p, p_paddr (g p) = p_paddr p /\ p_avail (g p) = false) ->
    wp (set_page k g) t (fun _ t' => exists l, pages_ok (k + 1) l /\ t' = t <| page_map := l |>)) as Hset.
  { intros g t Et Hg. eapply wp_set_page; [lia|by rewrite Et|]. eexists. split; [|reflexivity]. rewrite Et.
    by apply pages_ok_use. }
  eapply wp_mono.
  - instantiate (1 := fun _ t' => exists l, pages_ok (k + 1) l /\ t' = s <| page_alloc_ptr := (k + 1) mod FRAME_PAGES |>
      <| ram := zero_range (PAGE_FRAME_START + k * 4096) (ram s) |> <| page_map := l |>).
    destruct (_ =? 0); mm_auto; apply Hset; done.
  - intros [] t (l & Hl & ->). mm_auto. cbn. rewrite Ef. rewrite (proj2 (Z.ltb_lt _ _)) by lia. mm_auto.
    replace (FRAME_PAGES - k - 1) with (FRAME_PAGES - (k + 1)) by lia. by apply (HQ l).
Qed.

(** ** The TLB and the page table *)

Lemma pfn_26 f : 0 <= f < 2 ^ 20 -> 0 <= f < 2 ^ 26.
Proof. lia. Qed.
Lemma half_global e_pt lo pfn : half_ok e_pt lo pfn -> Z.testbit lo 0 = false.
Proof. intros [->|(Hf & -> & _)]; [done|]. by apply entrylo_facts, pfn_26. Qed.
Lemma half_mono e_pt e_pt' lo pfn : half_ok e_pt lo pfn -> (e_pt <> 0 -> e_pt' = e_pt) -> half_ok e_pt' lo pfn.
Proof.
  intros [->|(Hf & -> & E)] He; [by left|]. right. split_and!; try done; try lia. rewrite He; [done|].
  rewrite E. by apply pte_facts.
Qed.
(** New entries of the page table do not disturb the TLB. *)
Lemma slot_mono ptab ptab' e h :
  slot_ok ptab e h -> (forall v, 0 <= v < 2 ^ 19 -> ptab v <> 0 -> ptab' v = ptab v) -> slot_ok ptab' e h.
Proof.
  intros [Ha|(H1 & H2 & H3 & H4 & H5 & H6)] Hp; [by left|]. right. split_and!; try done; try lia.
  - eapply half_mono; [exact H4|]. apply Hp. lia.
  - eapply half_mono; [exact H5|]. apply Hp. lia.
Qed.
Lemma slots_mono ptab ptab' l l' :
  Forall2 (slot_ok ptab) l l' -> (forall v, 0 <= v < 2 ^ 19 -> ptab v <> 0 -> ptab' v = ptab v) ->
  Forall2 (slot_ok ptab') l l'.
Proof. intros Hl Hp. eapply Forall2_impl; [exact Hl|]. intros e h He. by eapply slot_mono. Qed.

(** The kernel's table finds what the processor finds. *)
Lemma slot_match ptab e h v asid :
  slot_ok ptab e h -> 0 <= v < 2 ^ 18 -> is_asid asid ->
  (t_VPN2 e = v /\ t_pid e = asid <-> hw_match (v * 2 ^ 13 + asid) h = true).
Proof.
  intros Hs Hv Ha. unfold hw_match. destruct (hi_facts v asid ltac:(lia) Ha) as [-> ->].
  destruct Hs as [(E1 & E2 & E3 & E4)|(H1 & H2 & H3 & H4 & H5 & _)].
  - rewrite E1, E2. assert (vpn2_of (0x7fff7 * 2 ^ 13) = 0x7fff7) as -> by done. unfold NO_VPN2.
    split; [lia|]. rewrite (proj2 (Z.eqb_neq _ v)) by lia. done.
  - rewrite H3. destruct (hi_facts (t_VPN2 e) (t_pid e) ltac:(lia) H2) as [-> ->].
    rewrite (half_global _ _ _ H4). cbn [andb]. rewrite orb_false_r, andb_true_iff, !Z.eqb_eq. done.
Qed.

Lemma user_pair va : user_va va -> 0 <= va / 8192 < 2 ^ 18 /\ 0 <= vpn va < 2 ^ 19.
Proof. unfold user_va, vpn. intros Hv. split; split; try (apply Z.div_pos; lia); apply Z.div_lt_upper_bound; lia. Qed.

Definition pair_hi (va asid : Z) : Z := va / 8192 * 2 ^ 13 + asid.

(** What an entry maps is what the page table maps. *)
Lemma slot_frame ptab e h va f :
  slot_ok ptab e h -> t_VPN2 e = va / 8192 -> user_va va -> hw_frame h va = Some f -> 0 <= f < 2 ^ 20 /\ ptab (vpn va) = pte f.
Proof.
  intros Hs Ev Hva Hf. destruct (user_pair va Hva) as [Hv _]. destruct (odd_page va Hva) as [_ ->].
  destruct Hs as [(E1 & _)|(_ & _ & _ & H4 & H5 & _)]; [unfold NO_VPN2 in E1; lia|]. rewrite Ev in *. unfold hw_frame in Hf.
  assert (forall p lo pfn, half_ok (ptab p) lo pfn -> (if Z.testbit lo 1 then Some (lo_PFN lo) else None) = Some f ->
    0 <= f < 2 ^ 20 /\ ptab p = pte f) as Hhalf.
  { intros p lo pfn [->|(Hr & -> & E)] Hl; [done|]. destruct (entrylo_facts pfn (pfn_26 _ Hr)) as (F1 & F2 & _).
    rewrite F2, F1 in Hl. by injection Hl as <-. }
  destruct (Z.testbit va 12); [by eapply Hhalf|]. rewrite Z.add_0_r. by eapply Hhalf.
Qed.

(** The pair of pages of an address, in the table of the kernel. *)
Definition same_pair (va pid : Z) (e : tlb_entry_t) : Prop := t_VPN2 e = va / 8192 /\ t_pid e = pid.
#[export] Instance same_pair_dec va pid e : Decision (same_pair va pid e).
Proof. unfold same_pair. apply _. Defined.

(** An entry that answers has its counterpart in the table of the kernel. *)
Lemma slot_found `{!Lookup} ptab l l' va asid i :
  Forall2 (slot_ok ptab) l l' -> user_va va -> is_asid asid -> probe l' (pair_hi va asid) = Some i ->
  exists e h, l !! i = Some e /\ l' !! i = Some h /\ slot_ok ptab e h /\ same_pair va asid e.
Proof.
  intros Hl Hva Ha Hp. destruct (user_pair va Hva) as [Hv _]. destruct (probe_hit _ _ _ Hp) as (h & Eh & Hm).
  destruct (Forall2_lookup_r _ _ _ _ _ Hl Eh) as (e & Ee & Hs). exists e, h. split_and!; try done; by eapply slot_match.
Qed.
(** An entry of the table of the kernel makes the processor find one. *)
Lemma slot_answers `{!Lookup} ptab l l' va asid e :
  Forall2 (slot_ok ptab) l l' -> user_va va -> is_asid asid -> e ∈ l -> same_pair va asid e -> probe l' (pair_hi va asid) <> None.
Proof.
  intros Hl Hva Ha He Hp Hno. destruct (user_pair va Hva) as [Hv _]. apply list_elem_of_lookup in He as [i He].
  destruct (Forall2_lookup_l _ _ _ _ _ Hl He) as (h & Eh & Hs). apply probe_miss in Hno.
  rewrite Forall_lookup in Hno. specialize (Hno i h Eh). cbv beta in Hno.
  apply (slot_match ptab e h (va / 8192) asid Hs Hv Ha) in Hp. unfold pair_hi in Hno. congruence.
Qed.
(** The only entry of a pair is the one that answers. *)
Lemma slot_only `{!Lookup} ptab l l' va asid i h :
  Forall2 (slot_ok ptab) l l' -> user_va va -> is_asid asid -> (i < length l')%nat -> hw_match (pair_hi va asid) h = true ->
  (forall j e, l !! j = Some e -> t_VPN2 e = va / 8192 -> j = i) -> probe (<[i := h]> l') (pair_hi va asid) = Some i.
Proof.
  intros Hl Hva Ha Hi Hm Honly. destruct (user_pair va Hva) as [Hv _].
  destruct (probe (<[i := h]> l') (pair_hi va asid)) as [j|] eqn:Ep.
  - destruct (probe_hit _ _ _ Ep) as (h' & Eh & Hm'). destruct (decide (j = i)) as [->|Hne]; [done|].
    rewrite list_lookup_insert_ne in Eh by done. destruct (Forall2_lookup_r _ _ _ _ _ Hl Eh) as (e & Ee & Hs).
    apply (slot_match ptab e h' (va / 8192) asid Hs Hv Ha) in Hm' as [Ev _]. by rewrite (Honly j e Ee Ev).
  - apply probe_miss in Ep. rewrite Forall_lookup in Ep. specialize (Ep i h). cbv beta in Ep.
    rewrite list_lookup_insert_eq in Ep by done. by rewrite Ep in Hm.
Qed.

(** ** Filling the TLB *)

Lemma pair_hi_mask va a asid : user_va va -> is_asid a -> is_asid asid ->
  Z.lor (Z.land (pair_hi va a) 0xffffe000) asid = pair_hi va asid.
Proof.
  intros Hva Ha Ha'. destruct (user_pair va Hva) as [Hv _]. unfold is_asid in *. unfold pair_hi.
  change 0xffffe000 with (2 ^ 32 - 2 ^ 13). rewrite land_high by lia. rewrite div_add_low by lia. apply lor_low; lia.
Qed.

(** What is remembered about an entry. *)
Definition remember (i : Z) (odd : bool) (pid lo0 lo1 hi : Z) (e : tlb_entry_t) : tlb_entry_t :=
  let e := e <| t_pid := pid |> <| t_empty := false |> <| t_index := i |> in
  (if odd then e <| t_PFN1 := lo_PFN lo1 |> else e <| t_PFN0 := lo_PFN lo0 |>) <| t_VPN2 := vpn2_of hi |>.

(** Replacing slot [i] on both sides. *)
Lemma mm_ok_slot k s i e h c p :
  mm_ok k s -> slot_ok (pt s) e h -> 0 <= p < TLB_ENTRIES_NUM ->
  mm_ok k (s <| tlb_entry_index_ptr := p |> <| cp0 := c |> <| hw_tlb := <[i := h]> (hw_tlb s) |>
             <| tlb_table := <[i := e]> (tlb_table s) |>).
Proof.
  intros [H1 H2 H3 H4 H5 [H6 H6'] H7 H8] Hs Hp. split; cbn; try done. split; [|by rewrite length_insert].
  by apply Forall2_insert.
Qed.

Lemma new_slot ptab e va asid f i (odd : bool) :
  user_va va -> is_asid asid -> 0 <= f < 2 ^ 20 -> ptab (2 * (va / 8192) + (if odd then 1 else 0)) = pte f ->
  slot_ok ptab
    (remember i odd asid (if odd then 0 else entrylo f) (if odd then entrylo f else 0) (pair_hi va asid) e)
    (mk_hw (pair_hi va asid) (if odd then 0 else entrylo f) (if odd then entrylo f else 0) 0).
Proof.
  intros Hva Ha Hf Hp. destruct (user_pair va Hva) as [Hv _]. destruct (entrylo_facts f (pfn_26 _ Hf)) as (F1 & F2 & _).
  destruct (hi_facts (va / 8192) asid ltac:(lia) Ha) as [Ev _].
  assert (entrylo f <> 0) as Hne by (intros E; rewrite E in F2; done).
  right. unfold remember, pair_hi. destruct odd; cbn; rewrite Ev, F1.
  - split_and!; try done; try lia; first [by left|by right|right; split_and!; done || lia].
  - rewrite Z.add_0_r in Hp. split_and!; try done; try lia; first [by left|by right|right; split_and!; done || lia].
Qed.
Lemma self_match va asid lo0 lo1 m : hw_match (pair_hi va asid) (mk_hw (pair_hi va asid) lo0 lo1 m) = true.
Proof. unfold hw_match. cbn. by rewrite !Z.eqb_refl. Qed.

Lemma wp_record_tlb i odd e s (Q : unit -> mm -> Prop) :
  0 <= i -> tlb_table s !! Z.to_nat i = Some e ->
  Q tt (s <| tlb_table := <[Z.to_nat i := remember i odd (current_pid s) (cp0_entrylo0 (cp0 s)) (cp0_entrylo1 (cp0 s))
                              (cp0_entryhi (cp0 s)) e]> (tlb_table s) |>) -> wp (record_tlb i odd) s Q.
Proof.
  intros Hi He HQ. unfold record_tlb. mm_auto. eapply wp_set_tlb; [done|done|]. exact HQ.
Qed.

(** A state with a new slot [i] that maps [va] to [f]; the address space in
    EntryHi is that of the task. *)
Definition mapped (k : Z) (s s' : mm) (va pid f : Z) (i : nat) : Prop :=
  mm_ok k s' /\ pt s' = pt s /\ asid_of (cp0_entryhi (cp0 s')) = pid
  /\ exists e h, tlb_table s' = <[i := e]> (tlb_table s) /\ hw_tlb s' = <[i := h]> (hw_tlb s) /\ (i < length (hw_tlb s))%nat
       /\ same_pair va pid e /\ hw_match (pair_hi va pid) h = true /\ hw_frame h va = Some f.

Lemma new_frame h va f :
  0 <= f < 2 ^ 20 -> (if Z.testbit va 12 then h_lo1 h else h_lo0 h) = entrylo f -> hw_frame h va = Some f.
Proof. intros Hf Hlo. unfold hw_frame. rewrite Hlo. destruct (entrylo_facts f (pfn_26 _ Hf)) as (F1 & F2 & _). by rewrite F2, F1. Qed.
Lemma remember_pair i odd va pid lo0 lo1 e :
  user_va va -> is_asid pid -> same_pair va pid (remember i odd pid lo0 lo1 (pair_hi va pid) e).
Proof.
  intros Hva Ha. destruct (user_pair va Hva) as [Hv _]. destruct (hi_facts (va / 8192) pid ltac:(lia) Ha) as [Ev _].
  fold (pair_hi va pid) in Ev. unfold same_pair, remember. by destruct odd; cbn; rewrite Ev.
Qed.
Lemma pair_hi_asid va asid : user_va va -> is_asid asid -> vpn2_of (pair_hi va asid) = va / 8192 /\ asid_of (pair_hi va asid) = asid.
Proof. intros Hva Ha. destruct (user_pair va Hva) as [Hv _]. apply (hi_facts (va / 8192) asid ltac:(lia) Ha). Qed.

Lemma wp_refill_tlb k s va a asid f (Q : unit -> mm -> Prop) :
  mm_ok k s -> user_va va -> is_asid a -> is_asid asid -> current_pid s = asid -> 0 <= f < 2 ^ 20 -> pt s (vpn va) = pte f ->
  (forall s' i, mapped k s s' va asid f i -> Q tt s') ->
  wp (refill_tlb (pair_hi va a) (Z.testbit va 12) f) s Q.
Proof.
  intros Hok Hva Ha' Ha Hpid Hf Hpt HQ. destruct (odd_page va Hva) as [_ Eodd]. rewrite Eodd in Hpt.
  pose proof Hok as [_ _ _ _ _ [Hsl Hlen] Hptr _]. pose proof (Forall2_length _ _ _ Hsl) as Hl2. unfold TLB_ENTRIES_NUM in *.
  unfold refill_tlb, TLB_ENTRIES_NUM. mm_auto. set (i := (tlb_entry_index_ptr s + 1) mod 32).
  assert (0 <= i < 32) as Hi by (apply Z.mod_pos_bound; lia).
  destruct (lookup_lt_is_Some_2 (tlb_table s) (Z.to_nat i)) as [e He]; [lia|].
  unfold tlb_flush_no_check. mm_auto. apply wp_tlbwi; [cbn [cp0 cp0_index hw_tlb put]; lia|]. mm_auto.
  set (lo0 := if Z.testbit va 12 then 0 else entrylo f). set (lo1 := if Z.testbit va 12 then entrylo f else 0).
  eapply wp_mono.
  { instantiate (1 := fun _ t => t = s <| tlb_entry_index_ptr := i |> <| hw_tlb := <[Z.to_nat i := mk_hw 0 0 0 0]> (hw_tlb s) |>
      <| cp0 := (cp0 s) <| cp0_index := i |> <| cp0_entryhi := 0 |> <| cp0_pagemask := 0 |> <| cp0_entrylo0 := lo0 |> <| cp0_entrylo1 := lo1 |> |>).
    unfold lo0, lo1. by destruct (Z.testbit va 12); mm_auto. }
  intros [] t ->. mm_auto. cbn [current_pid put]. rewrite Hpid, pair_hi_mask by done.
  apply wp_tlbwi; [cbn [cp0 cp0_index hw_tlb put]; rewrite length_insert; lia|]. eapply wp_record_tlb; [lia|exact He|]. apply (HQ _ (Z.to_nat i)).
  cbn [tlb_table hw_tlb put cp0 cp0_index cp0_entryhi cp0_entrylo0 cp0_entrylo1 cp0_pagemask current_pid regs_entry].
  rewrite Hpid, list_insert_insert_eq. split_and!; [|done|by apply pair_hi_asid|].
  - exact (mm_ok_slot k s (Z.to_nat i) (remember i (Z.testbit va 12) asid lo0 lo1 (pair_hi va asid) e)
      (mk_hw (pair_hi va asid) lo0 lo1 0) (mk_cp0 (pair_hi va asid) lo0 lo1 0 i (cp0_badvaddr (cp0 s))) i
      Hok (new_slot (pt s) e va asid f i (Z.testbit va 12) Hva Ha Hf Hpt) Hi).
  - eexists _, _. split; [reflexivity|]. split; [reflexivity|]. split_and!; [lia|by apply remember_pair|apply self_match|].
    apply new_frame; [done|]. unfold lo0, lo1. by destruct (Z.testbit va 12).
Qed.

(** A new frame in the page table, the TLB and the registers as before. *)
Definition grown (k : Z) (s s' : mm) (va : Z) : Prop :=
  mm_ok (k + 1) s' /\ pt s' (vpn va) = pte (4096 + k)
  /\ (forall v, 0 <= v < 2 ^ 19 -> v <> vpn va -> pt s' v = pt s v)
  /\ hw_tlb s' = hw_tlb s /\ tlb_table s' = tlb_table s /\ cp0 s' = cp0 s /\ current_pid s' = current_pid s.

Lemma table_ok_add k ptab ptab' w :
  table_ok k ptab -> PAGE_TABLE_PAGES <= k < FRAME_PAGES -> 0 <= w < 2 ^ 19 -> ptab w = 0 -> ptab' w = pte (4096 + k) ->
  (forall v, 0 <= v < 2 ^ 19 -> v <> w -> ptab' v = ptab v) -> table_ok (k + 1) ptab'.
Proof.
  unfold PAGE_TABLE_PAGES, FRAME_PAGES. intros [H1 H2] Hk Hw H0 Hnew Hold.
  assert (forall v, 0 <= v < 2 ^ 19 -> v <> w -> ptab' v <> pte (4096 + k)) as Hfresh.
  { intros v Hv Hne E. rewrite Hold in E by done. unfold PAGE_TABLE_PAGES in H1.
    destruct (H1 v Hv) as [Ev|(f & Hf & Ev)]; rewrite Ev in E.
    - by destruct (pte_facts (4096 + k) ltac:(lia)) as [? _].
    - rewrite !pte_value in E by lia. lia. }
  split.
  - intros v Hv. destruct (decide (v = w)) as [->|Hne].
    + right. exists k. unfold PAGE_TABLE_PAGES. split; [lia|done].
    + rewrite Hold by done. destruct (H1 v Hv) as [?|(f & Hf & Ev)]; [by left|]. right. exists f. split; [lia|done].
  - intros v v' Hv Hv' Hne E. destruct (decide (v = w)) as [->|N], (decide (v' = w)) as [->|N']; [done|..].
    + rewrite Hnew in E. by destruct (Hfresh v' Hv' N').
    + rewrite Hnew in E. by destruct (Hfresh v Hv N).
    + rewrite !Hold in * by done. by apply H2.
Qed.

Lemma wp_alloc_pte k s va tlb_inv (Q : Z -> mm -> Prop) :
  mm_ok k s -> k < FRAME_PAGES -> user_va va -> pt s (vpn va) = 0 ->
  (forall s', grown k s s' va -> Q (4096 + k) s') -> wp (alloc_pte (vpn va) tlb_inv) s Q.
Proof.
  intros Hok Hk Hva Hpt HQ. destruct (user_pair va Hva) as [_ Hv].
  pose proof Hok as [H1 H2 H3 H4 H5 [H6 H6'] H7 H8]. rewrite Z.mod_small in H4 by (unfold PAGE_TABLE_PAGES, FRAME_PAGES in *; lia).
  unfold alloc_pte. mm_step. apply (wp_page_alloc k); [done|unfold PAGE_TABLE_PAGES in *; lia|done|done|]. intros l Hl.
  unfold PAGE_TABLE_PAGES, FRAME_PAGES in *.
  pose proof Hl as [_ Hl']. destruct (Hl' k ltac:(unfold FRAME_PAGES; lia)) as (p & Ep & Epa & _).
  destruct (frame_addr k ltac:(unfold FRAME_PAGES; lia)) as (_ & Ef & _).
  mm_step. eapply wp_get_page; [lia|exact Ep|]. rewrite Epa, Ef. unfold set_pte. mm_auto.
  destruct (Hl' ((k + 1) mod 2048) ltac:(unfold FRAME_PAGES; apply Z.mod_pos_bound; lia)) as (q & Eq & _).
  eapply wp_get_page; [apply Z.mod_pos_bound; lia|exact Eq|]. mm_auto. apply HQ.
  set (s' := _ <| log := _ |>).
  assert (forall v, 0 <= v < 2 ^ 19 -> pt s' v = if v =? vpn va then pte (4096 + k) else pt s v) as Hpt'.
  { intros v Hv'. unfold pt, s'. cbn [ram put page_table_base_ptr]. rewrite H3. unfold pte_addr, zero_range, PAGE_SIZE.
    destruct (Z.eqb_spec v (vpn va)) as [->|Hne]; [by rewrite Z.eqb_refl|].
    rewrite (proj2 (Z.eqb_neq _ _)) by lia. rewrite (proj2 (Z.leb_gt _ _)) by lia. done. }
  assert (table_ok (k + 1) (pt s')) as Ht.
  { apply (table_ok_add k (pt s) _ (vpn va)); [done|unfold PAGE_TABLE_PAGES, FRAME_PAGES; lia|done|done| |].
    - rewrite Hpt' by done. by rewrite Z.eqb_refl.
    - intros v Hv' Hne. rewrite Hpt' by done. by rewrite (proj2 (Z.eqb_neq _ _)). }
  split_and!; try done.
  - split; try done.
    + unfold PAGE_TABLE_PAGES, FRAME_PAGES. lia.
    + split; [|exact H6']. apply (slots_mono (pt s)); [done|]. intros v Hv' Hne. rewrite Hpt' by done.
      destruct (Z.eqb_spec v (vpn va)) as [->|]; congruence.
  - rewrite Hpt' by done. by rewrite Z.eqb_refl.
  - intros v Hv' Hne. rewrite Hpt' by done. by rewrite (proj2 (Z.eqb_neq _ _)).
Qed.

(** The entry after its second page was added. *)
Lemma full_slot ptab e h va asid f i :
  slot_ok ptab e h -> same_pair va asid e -> user_va va -> is_asid asid -> 0 <= f < 2 ^ 20 ->
  ptab (vpn va) = pte f -> hw_frame h va = None ->
  let odd := Z.testbit va 12 in
  let lo0 := if odd then entrylo (t_PFN0 e) else entrylo f in
  let lo1 := if odd then entrylo f else entrylo (t_PFN1 e) in
  slot_ok ptab (remember i odd asid lo0 lo1 (pair_hi va asid) e) (mk_hw (pair_hi va asid) lo0 lo1 0).
Proof.
  intros Hs [Ev Ep] Hva Ha Hf Hpt Hnone. destruct (user_pair va Hva) as [Hv _].
  destruct (entrylo_facts f (pfn_26 _ Hf)) as (F1 & F2 & _).
  destruct (hi_facts (va / 8192) asid ltac:(lia) Ha) as [Eh _]. destruct (odd_page va Hva) as [_ Eo]. rewrite Eo in Hpt.
  destruct Hs as [(E1 & _)|(_ & _ & _ & H4 & H5 & H6)]; [unfold NO_VPN2 in E1; lia|]. rewrite Ev in *.
  assert (entrylo f <> 0) as Hne by (intros E; rewrite E in F2; done).
  assert (forall p lo pfn, half_ok (ptab p) lo pfn -> (if Z.testbit lo 1 then Some (lo_PFN lo) else None) = None -> lo = 0) as Hzero.
  { intros p lo pfn [->|(Hr & -> & _)] E; [done|]. destruct (entrylo_facts pfn (pfn_26 _ Hr)) as (_ & G & _). by rewrite G in E. }
  unfold hw_frame in Hnone. cbv zeta. right. unfold remember, pair_hi. destruct (Z.testbit va 12); cbn; rewrite Eh, F1.
  - pose proof (Hzero _ _ _ H5 Hnone) as Z1. destruct H4 as [Z0|(Hr & E0 & P0)]; [tauto|].
    split_and!; try done; try lia; first [by right|right; split_and!; done || lia].
  - pose proof (Hzero _ _ _ H4 Hnone) as Z0. destruct H5 as [Z1|(Hr & E1 & P1)]; [tauto|]. rewrite Z.add_0_r in Hpt.
    split_and!; try done; try lia; first [by left|right; split_and!; done || lia].
Qed.

Lemma wp_complete_tlb k s va asid f i e (Q : unit -> mm -> Prop) :
  mm_ok k s -> user_va va -> is_asid asid -> current_pid s = asid -> cp0_entryhi (cp0 s) = pair_hi va asid ->
  0 <= f < 2 ^ 20 -> pt s (vpn va) = pte f -> list_find (same_pair va asid) (tlb_table s) = Some (i, e) ->
  (forall h, hw_tlb s !! i = Some h -> hw_frame h va = None) -> (forall s', mapped k s s' va asid f i -> Q tt s') ->
  wp (complete_tlb (pair_hi va asid) (Z.testbit va 12) f) s Q.
Proof.
  intros Hok Hva Ha Hpid Hhi Hf Hpt He Hnone HQ. destruct (pair_hi_asid va asid Hva Ha) as [Eh Ea].
  pose proof (proj1 (list_find_Some _ _ _ _) He) as (Le & Pe & _). pose proof (lookup_lt_Some _ _ _ Le) as Hi.
  pose proof Hok as [_ _ _ _ _ [Hsl Hlen] Hptr _]. pose proof (Forall2_length _ _ _ Hsl) as Hl2.
  destruct (Forall2_lookup_l _ _ _ _ _ Hsl Le) as (h & Lh & Hs).
  unfold complete_tlb, get_tlb_invalid_index. mm_auto. rewrite Hhi, Eh, Hpid.
  change (list_find (fun e => t_VPN2 e = va / 8192 /\ t_pid e = asid) (tlb_table s)) with (list_find (same_pair va asid) (tlb_table s)).
  rewrite He. mm_auto.
  eapply wp_lift; [apply rd_lookup; [lia|]; by rewrite Nat2Z.id|]. mm_auto. cbn [current_pid put]. rewrite Hpid, pair_hi_mask by done.
  apply wp_tlbwi; [cbn [cp0 cp0_index hw_tlb put]; lia|]. eapply wp_record_tlb; [lia|cbn [tlb_table put]; by rewrite Nat2Z.id|]. apply HQ.
  cbn [tlb_table hw_tlb put cp0 cp0_index cp0_entryhi cp0_entrylo0 cp0_entrylo1 cp0_pagemask current_pid regs_entry].
  rewrite Hpid, Nat2Z.id. set (odd := Z.testbit va 12).
  set (lo0 := if odd then entrylo (t_PFN0 e) else entrylo f). set (lo1 := if odd then entrylo f else entrylo (t_PFN1 e)).
  split_and!; [|done|done|].
  - exact (mm_ok_slot k s i (remember (Z.of_nat i) odd asid lo0 lo1 (pair_hi va asid) e) (mk_hw (pair_hi va asid) lo0 lo1 0)
      (mk_cp0 (pair_hi va asid) lo0 lo1 0 (Z.of_nat i) (cp0_badvaddr (cp0 s))) (tlb_entry_index_ptr s)
      Hok (full_slot (pt s) e h va asid f (Z.of_nat i) Hs Pe Hva Ha Hf Hpt (Hnone h Lh)) Hptr).
  - eexists _, _. split; [reflexivity|]. split; [reflexivity|]. split_and!; [lia|by apply remember_pair|apply self_match|].
    apply new_frame; [done|]. unfold lo0, lo1, odd. by destruct (Z.testbit va 12).
Qed.

(** The address space in EntryHi. *)
Definition space (s : mm) : Z := asid_of (cp0_entryhi (cp0 s)).
(** An entry of the pair that answers in the address space of EntryHi is one of task [pid]. *)
Definition not_stale (s : mm) (va pid : Z) : Prop :=
  forall e, e ∈ tlb_table s -> t_VPN2 e = va / 8192 -> t_pid e = space s -> space s = pid.
(** The TLB has no entry of the pair, or one, of task [pid], whose address space is the one in EntryHi. *)
Definition usable (s : mm) (va pid : Z) : Prop :=
  (forall i e, tlb_table s !! i = Some e -> t_VPN2 e = va / 8192 -> t_pid e = pid /\ space s = pid)
  /\ (forall i j e e', tlb_table s !! i = Some e -> tlb_table s !! j = Some e' ->
        t_VPN2 e = va / 8192 -> t_VPN2 e' = va / 8192 -> i = j).

(** What an exception can do: at most one new frame, at most one new slot, for
    the pair and the task; and an untouched page of a usable pair is mapped. *)
Definition handled `{!Lookup} (k : Z) (s s' : mm) (va pid : Z) : Prop :=
  exists k', k <= k' <= k + 1 /\ mm_ok k' s'
    /\ (forall v, 0 <= v < 2 ^ 19 -> pt s v <> 0 -> pt s' v = pt s v)
    /\ (tlb_table s' = tlb_table s \/ exists i e, tlb_table s' = <[i := e]> (tlb_table s) /\ same_pair va pid e)
    /\ (usable s va pid -> pt s (vpn va) = 0 ->
          exists f, reached s' va = Some f /\ space s' = pid /\ pt s' (vpn va) = pte f).

(** The part of the state that the invariant is about. *)
Definition core (s : mm) :=
  (page_map s, page_table_base_ptr s, page_alloc_ptr s, free_page_frame_num s, tlb_table s, hw_tlb s, tlb_entry_index_ptr s, ram s).
Lemma mm_ok_core k s s' : core s' = core s -> mm_ok k s -> mm_ok k s'.
Proof.
  unfold core. intros E [H1 H2 H3 H4 H5 H6 H7 H8]. injection E as E1 E2 E3 E4 E5 E6 E7 E8.
  assert (pt s' = pt s) as Ep by (unfold pt; by rewrite E8).
  split; rewrite ?E1, ?E2, ?E3, ?E4, ?E5, ?E6, ?E7, ?Ep; done.
Qed.
Lemma core_pt s s' : core s' = core s -> pt s' = pt s.
Proof. unfold core, pt. intros E. injection E as E1 E2 E3 E4 E5 E6 E7 E8. by rewrite E8. Qed.

Lemma wp_get_pte k s v (Q : Z -> mm -> Prop) : mm_ok k s -> Q (pt s v) s -> wp (get_pte v) s Q.
Proof. intros Hok HQ. unfold get_pte. mm_auto. by rewrite (ok_base _ _ Hok). Qed.

Section handler.
Context `{!Lookup}.

(** The new slot of a usable pair is the one that answers. *)
Lemma mapped_reached k s s' va pid f i :
  mapped k s s' va pid f i -> Forall2 (slot_ok (pt s)) (tlb_table s) (hw_tlb s) -> user_va va -> is_asid pid ->
  (forall j e, tlb_table s !! j = Some e -> t_VPN2 e = va / 8192 -> j = i) -> reached s' va = Some f.
Proof using Type.
  intros (M1 & M2 & M3 & e & h & M4 & M5 & M6 & M7 & M8 & M9) Hsl Hva Ha Honly.
  unfold reached, translate. rewrite M3, hi_value by done. fold (pair_hi va pid).
  rewrite M5, (slot_only (pt s) (tlb_table s)) by done. by rewrite list_lookup_insert_eq.
Qed.
(** A new slot after a new frame or without one. *)
Lemma mapped_handled k k' s t s' va pid f i :
  mapped k' t s' va pid f i -> k <= k' <= k + 1 -> user_va va -> is_asid pid ->
  tlb_table t = tlb_table s -> hw_tlb t = hw_tlb s -> pt t (vpn va) = pte f -> mm_ok k' t ->
  (forall v, 0 <= v < 2 ^ 19 -> pt s v <> 0 -> pt t v = pt s v) ->
  (usable s va pid -> forall j e, tlb_table s !! j = Some e -> t_VPN2 e = va / 8192 -> j = i) -> handled k s s' va pid.
Proof using Type.
  intros Hm Hk Hva Ha Et Eh Ep Hok Hkeep Honly. pose proof Hm as (M1 & M2 & M3 & e & h & M4 & M5 & M6 & M7 & M8 & M9).
  exists k'. split_and!; [lia|lia|done|by rewrite M2|right; exists i, e; by rewrite M4, Et|].
  intros Hu _. exists f. split_and!; [|done|by rewrite M2]. apply (mapped_reached k' t s' va pid f i); [done|apply (ok_slots _ _ Hok)|done|done|].
  rewrite Et. by apply Honly.
Qed.
(** Nothing but counting and printing. *)
Lemma same_handled k s s' va pid :
  mm_ok k s -> core s' = core s -> ~ (usable s va pid /\ pt s (vpn va) = 0) -> handled k s s' va pid.
Proof using Type.
  intros Hok E Hno. exists k. split_and!; [lia|lia|by apply (mm_ok_core _ s)|by rewrite (core_pt s s')| |].
  - left. unfold core in E. congruence.
  - intros Hu H0. by destruct Hno.
Qed.

Lemma grown_keeps k s s' va : pt s (vpn va) = 0 -> grown k s s' va -> forall v, 0 <= v < 2 ^ 19 -> pt s v <> 0 -> pt s' v = pt s v.
Proof using Type. intros H0 (G1 & G2 & G3 & _) v Hv Hne. apply G3; [done|]. intros ->. done. Qed.

(** The part of the state that an exception reads. *)
Lemma wp_tlb_refill k s va pid :
  mm_ok k s -> k < FRAME_PAGES -> user_va va -> is_asid pid -> current_pid s = pid ->
  cp0_entryhi (cp0 s) = pair_hi va (space s) -> probe (hw_tlb s) (pair_hi va (space s)) = None ->
  wp (tlb_refill (pair_hi va (space s)) (vpn va) (Z.testbit va 12)) s (fun _ s' => handled k s s' va pid).
Proof using Type.
  intros Hok Hk Hva Ha Hpid Hhi Hnone. destruct (user_pair va Hva) as [Hv Hvp].
  pose proof (asid_range (cp0_entryhi (cp0 s))) as Has. fold (space s) in Has.
  destruct (pair_hi_asid va (space s) Hva Has) as [Eh _].
  assert (usable s va pid -> forall j e, tlb_table s !! j = Some e -> t_VPN2 e <> va / 8192) as Hfresh.
  { intros [Hu _] j e He Ev. destruct (Hu j e He Ev) as [E1 E2].
    eapply (slot_answers (pt s) _ _ va (space s)); [apply (ok_slots _ _ Hok)|done|done|by eapply list_elem_of_lookup_2| |done].
    split; congruence. }
  unfold tlb_refill. mm_auto. unfold check_tlb_wrong_access. mm_auto. cbn [cp0 current_pid tlb_table put]. rewrite Hhi, Eh, Hpid.
  set (s1 := s <| log := _ |> <| tlb_refill_count := _ |>). assert (core s1 = core s) as E1 by done.
  match goal with |- context [list_find ?P (tlb_table s)] => destruct (list_find P (tlb_table s)) as [[i e]|] eqn:Ew end.
  - mm_auto. cbv iota. mm_auto. apply same_handled; [done|done|]. intros [Hu _].
    apply list_find_Some in Ew as (Hl & [Ev _] & _). by apply (Hfresh Hu i e).
  - mm_auto. cbv iota. mm_auto. apply (wp_get_pte k); [by apply (mm_ok_core _ s)|]. rewrite (core_pt s s1) by done.
    pose proof Hok as [Hkr _ _ _ Hfree _ _ [Ht _]]. destruct (Ht _ Hvp) as [E0|(f & Hf & Ef)].
    + rewrite E0. cbn [Z.eqb negb andb]. mm_auto. cbn [free_page_frame_num put].
      assert (free_page_frame_num s1 = FRAME_PAGES - k) as -> by exact Hfree.
      rewrite (proj2 (Z.eqb_neq _ 0)) by lia. cbn [negb]. mm_auto.
      set (s2 := s1 <| log := _ |>). assert (core s2 = core s) as E2 by done.
      apply (wp_alloc_pte k s2); [by apply (mm_ok_core _ s)|done|done|by rewrite (core_pt s)|].
      intros s3 G. pose proof G as (G1 & G2 & G3 & G4 & G5 & G6 & G7).
      apply (wp_refill_tlb (k + 1) s3 va (space s) pid (4096 + k)); [done|done|done|done|by rewrite G7| |done|].
      { unfold PAGE_TABLE_PAGES, FRAME_PAGES in *. lia. }
      intros s' i Hm. apply (mapped_handled k (k + 1) s s3 s' va pid (4096 + k) i); try done; [lia| |].
      * apply (grown_keeps k s2 s3 va); [by rewrite (core_pt s)|done].
      * intros Hu j e He Ev. by destruct (Hfresh Hu j e).
    + unfold PAGE_TABLE_PAGES, FRAME_PAGES in *. destruct (pte_facts (4096 + f) ltac:(lia)) as (P1 & P2 & P3 & _).
      rewrite Ef, P3, (proj2 (Z.eqb_neq _ 0)) by done. cbn [negb andb]. mm_auto. rewrite P2.
      set (s2 := s1 <| log := _ |>). assert (core s2 = core s) as E2 by done.
      apply (wp_refill_tlb k s2 va (space s) pid (4096 + f)); [by apply (mm_ok_core _ s)|done|done|done|done|lia|by rewrite (core_pt s)|].
      intros s' i Hm. apply (mapped_handled k k s s2 s' va pid (4096 + f) i); try done; [lia|by apply (mm_ok_core _ s)|].
      intros Hu j e He Ev. by destruct (Hfresh Hu j e).
Qed.

Lemma wp_tlb_invalid k s va pid j :
  mm_ok k s -> k < FRAME_PAGES -> user_va va -> is_asid pid -> current_pid s = pid -> space s = pid ->
  cp0_entryhi (cp0 s) = pair_hi va pid -> probe (hw_tlb s) (pair_hi va pid) = Some j ->
  wp (tlb_invalid (pair_hi va pid) (vpn va) (Z.testbit va 12)) s (fun _ s' => handled k s s' va pid).
Proof using Type.
  intros Hok Hk Hva Ha Hpid Hsp Hhi Hh. destruct (user_pair va Hva) as [Hv Hvp].
  pose proof Hok as [Hkr _ _ _ Hfree [Hsl _] _ [Ht _]].
  destruct (slot_found (pt s) (tlb_table s) (hw_tlb s) va pid j) as (e0 & h0 & Ee0 & Eh0 & Hs0 & Hp0); [done..|].
  destruct (list_find (same_pair va pid) (tlb_table s)) as [[i e]|] eqn:Ee.
  2: { apply list_find_None in Ee. rewrite Forall_lookup in Ee. by destruct (Ee j e0). }
  pose proof (proj1 (list_find_Some _ _ _ _) Ee) as (Le & Pe & _).
  unfold tlb_invalid. mm_auto.
  set (s1 := s <| log := _ |> <| tlb_invalid_count := _ |>). assert (core s1 = core s) as E1 by done.
  apply (wp_get_pte k); [by apply (mm_ok_core _ s)|]. rewrite (core_pt s s1) by done.
  destruct (Ht _ Hvp) as [E0|(f & Hf & Ef)].
  - rewrite E0. cbn [Z.eqb]. mm_auto.
    set (s2 := s1 <| log := _ |>). assert (core s2 = core s) as E2 by done.
    apply (wp_alloc_pte k s2); [by apply (mm_ok_core _ s)|done|done|by rewrite (core_pt s)|].
    intros s3 G. pose proof G as (G1 & G2 & G3 & G4 & G5 & G6 & G7).
    apply (wp_complete_tlb (k + 1) s3 va pid (4096 + k) i e); [done|done|done|by rewrite G7|by rewrite G6| |done|by rewrite G5| |].
    { unfold PAGE_TABLE_PAGES, FRAME_PAGES in *. lia. }
    { rewrite G4. intros h Lh. pose proof (Forall2_lookup_lr _ _ _ _ _ _ Hsl Le Lh) as Hs.
      destruct (hw_frame h va) as [f|] eqn:Ef; [|done]. destruct (slot_frame (pt s) e h va f Hs (proj1 Pe) Hva Ef) as [Hf Ep].
      rewrite E0 in Ep. by destruct (pte_facts f Hf) as [Hne _]. }
    intros s' Hm. apply (mapped_handled k (k + 1) s s3 s' va pid (4096 + k) i); try done; [lia| |].
    + apply (grown_keeps k s2 s3 va); [by rewrite (core_pt s)|done].
    + intros [_ Hu] j' e' He' Ev. by apply (Hu j' i e' e); [| |..|apply Pe].
  - unfold PAGE_TABLE_PAGES, FRAME_PAGES in *. destruct (pte_facts (4096 + f) ltac:(lia)) as (P1 & _ & P3 & _).
    rewrite Ef, (proj2 (Z.eqb_neq _ 0)) by done. cbn [negb andb].
    assert ((Z.land (pte (4096 + f)) PTE_V =? 0) = false) as -> by (apply Z.eqb_eq in P3; by rewrite P3).
    mm_auto. apply same_handled; [done|done|]. intros [_ H0]. by rewrite Ef in H0.
Qed.

Lemma exception_hi va pid s : user_va va ->
  cp0_entryhi (cp0 (tlb_exception va pid s)) = pair_hi va (space s) /\ space (tlb_exception va pid s) = space s.
Proof using Type.
  intros Hva. pose proof (asid_range (cp0_entryhi (cp0 s))) as Ha. unfold space, tlb_exception. cbn [cp0 put cp0_entryhi].
  rewrite hi_value by done. fold (pair_hi va (asid_of (cp0_entryhi (cp0 s)))). split; [done|]. by apply pair_hi_asid.
Qed.

Lemma wp_handler k s va pid :
  mm_ok k s -> k < FRAME_PAGES -> user_va va -> is_asid pid -> not_stale s va pid ->
  wp handle_tlb_exception_helper (tlb_exception va pid s) (fun _ s' => handled k s s' va pid).
Proof using Type.
  intros Hok Hk Hva Ha Hns. destruct (user_pair va Hva) as [Hv Hvp]. pose proof Hok as [_ [_ Hp] _ Hal _ [Hsl Hlen] _ _].
  assert (0 <= page_alloc_ptr s < FRAME_PAGES) as Hal' by (rewrite Hal; apply Z.mod_pos_bound; unfold FRAME_PAGES; lia).
  destruct (exception_hi va pid s Hva) as [Ehi Esp]. set (s1 := tlb_exception va pid s) in *.
  assert (core s1 = core s) as E1 by done. assert (mm_ok k s1) as Hok1 by by apply (mm_ok_core _ s).
  unfold handle_tlb_exception_helper. mm_auto. apply (wp_get_pte k); [done|]. mm_auto. apply (wp_get_pte k); [done|]. mm_auto.
  destruct (Hp _ Hal') as (p & Ep & _). eapply wp_get_page; [apply Hal'|exact Ep|]. mm_auto.
  destruct (Hp 0 ltac:(unfold FRAME_PAGES; lia)) as (p0 & Ep0 & _). eapply wp_get_page; [done|exact Ep0|]. mm_auto.
  cbn [cp0 put]. rewrite Ehi. assert (cp0_badvaddr (cp0 s1) = va) as -> by done.
  rewrite page_number_div by (unfold user_va, is_word in *; lia). fold (vpn va). rewrite (proj1 (odd_page va Hva)).
  unfold tlbp. mm_auto. cbn [cp0 put hw_tlb]. rewrite Ehi. change (hw_tlb s1) with (hw_tlb s).
  destruct (probe (hw_tlb s) (pair_hi va (space s))) as [j|] eqn:Eh.
  - destruct (slot_found (pt s) (tlb_table s) (hw_tlb s) va (space s) j) as (e & h & Ee & Lh & Hs & Ev & Epid); [done|done|apply asid_range|done|].
    pose proof (lookup_lt_Some _ _ _ Lh) as Hj. unfold TLB_ENTRIES_NUM in Hlen. mm_auto. cbn [cp0 cp0_index put].
    assert ((Z.shiftr (Z.land (Z.of_nat j) 0x80000000) 31 =? 1) = false) as ->.
    { rewrite Z.shiftr_land, Z.shiftr_div_pow2, Z.div_small by lia. done. }
    assert (space s = pid) as Hsp by (apply (Hns e); [by eapply list_elem_of_lookup_2|done|done]). rewrite Hsp in *.
    match goal with |- wp _ ?t _ => set (s2 := t) end.
    eapply wp_mono; [apply (wp_tlb_invalid k s2 va pid j); try done; by apply (mm_ok_core _ s)|].
    intros [] s' Hh. unfold handled, usable in *. change (space s2) with (space s1) in Hh. rewrite Esp, <-Hsp in Hh. rewrite <-Hsp. exact Hh.
  - mm_auto. cbn [cp0 cp0_index put]. change (Z.shiftr (Z.land 0x80000000 0x80000000) 31 =? 1) with true. cbv iota.
    match goal with |- wp _ ?t _ => set (s2 := t) end. assert (space s2 = space s) as Es2 by exact Esp.
    rewrite <-Es2. eapply wp_mono; [apply (wp_tlb_refill k s2 va pid); try done; rewrite ?Es2; try done; by apply (mm_ok_core _ s)|].
    intros [] s' Hh. unfold handled, usable in *. rewrite Es2 in Hh. exact Hh.
Qed.

(** What is reached is what the page table has. *)
Lemma reached_table k s va f : mm_ok k s -> user_va va -> reached s va = Some f -> 0 <= f < 2 ^ 20 /\ pt s (vpn va) = pte f.
Proof using Type.
  intros Hok Hva. pose proof (asid_range (cp0_entryhi (cp0 s))) as Ha. unfold reached, translate. rewrite hi_value by done.
  fold (pair_hi va (asid_of (cp0_entryhi (cp0 s)))). destruct (probe _ _) as [i|] eqn:Ei; [|done].
  destruct (slot_found (pt s) (tlb_table s) (hw_tlb s) va _ i (proj1 (ok_slots _ _ Hok)) Hva Ha Ei) as (e & h & _ & -> & Hs & Ev & _).
  by apply slot_frame with (e := e).
Qed.

Lemma wp_access k s va pid :
  mm_ok k s -> k < FRAME_PAGES -> user_va va -> is_asid pid -> not_stale s va pid ->
  wp (access va pid) s (fun r s' => r = reached s' va /\ handled k s s' va pid).
Proof using Type.
  intros Hok Hk Hva Ha Hns. unfold access. mm_auto. destruct (reached s va) as [f|] eqn:Et.
  - mm_auto. split; [done|]. apply same_handled; [done|done|]. intros [_ H0].
    destruct (reached_table k s va f Hok Hva Et) as [Hf Ep]. rewrite H0 in Ep. by destruct (pte_facts f Hf) as [Hne _].
  - mm_auto. eapply wp_mono; [by apply (wp_handler k)|]. intros [] s' Hh. mm_auto. split; [done|exact Hh].
Qed.
End handler.

(** ** Initialisation *)

Lemma wp_fill_pages (n : nat) i (f : Z -> page_map_entry_t) s (Q : unit -> mm -> Prop) :
  0 <= i -> i + Z.of_nat n <= len (page_map s) ->
  (forall l, length l = length (page_map s) ->
     (forall j, 0 <= j < len l -> l !! Z.to_nat j = if (i <=? j) && (j <? i + Z.of_nat n) then Some (f j) else page_map s !! Z.to_nat j) ->
     Q tt (s <| page_map := l |>)) ->
  wp (for_range n i (fun j => set_page j (fun _ => f j))) s Q.
Proof.
  intros Hi Hn HQ.
  apply (wp_for_range (fun j t => exists l, t = s <| page_map := l |> /\ length l = length (page_map s)
    /\ forall x, 0 <= x < len l -> l !! Z.to_nat x = if (i <=? x) && (x <? j) then Some (f x) else page_map s !! Z.to_nat x)).
  - exists (page_map s). split_and!; [by destruct s|done|]. intros x Hx.
    destruct (Z.leb_spec i x), (Z.ltb_spec x i); try lia; done.
  - intros j t Hj (l & -> & Hl & Hx). destruct (lookup_lt_is_Some_2 l (Z.to_nat j)) as [p Hp]; [lia|].
    eapply wp_set_page; [lia|exact Hp|]. cbn [page_map put]. exists (<[Z.to_nat j := f j]> l).
    split_and!; [done|by rewrite length_insert|]. rewrite length_insert. intros x Hx'. destruct (decide (x = j)) as [->|Hne].
    + rewrite list_lookup_insert_eq by lia. destruct (Z.leb_spec i j), (Z.ltb_spec j (j + 1)); try lia; done.
    + rewrite list_lookup_insert_ne, Hx by lia. destruct (Z.leb_spec i x), (Z.ltb_spec x j), (Z.ltb_spec x (j + 1)); try lia; done.
  - intros t (l & -> & Hl & Hx). by apply HQ.
Qed.

(** The fields that [page_alloc] does not touch. *)
Lemma wp_set_up_page_table s (Q : unit -> mm -> Prop) :
  pages_ok 0 (page_map s) -> page_alloc_ptr s = 0 -> free_page_frame_num s = FRAME_PAGES ->
  (forall l r, pages_ok PAGE_TABLE_PAGES l -> (forall v, 0 <= v < 2 ^ 19 -> r (PAGE_FRAME_START + 4 * v) = 0) ->
     Q tt (s <| page_alloc_ptr := PAGE_TABLE_PAGES |> <| ram := r |> <| page_map := l |>
             <| free_page_frame_num := FRAME_PAGES - PAGE_TABLE_PAGES |>)) ->
  wp set_up_page_table s Q.
Proof.
  intros Hp Ha Hf HQ. unfold set_up_page_table.
  apply (wp_for_range (fun j t => exists l r, pages_ok j l
    /\ (forall a, PAGE_FRAME_START <= a < PAGE_FRAME_START + j * 4096 -> r a = 0)
    /\ t = s <| page_alloc_ptr := j |> <| ram := r |> <| page_map := l |> <| free_page_frame_num := FRAME_PAGES - j |>)).
  - exists (page_map s), (ram s). split_and!; [done|intros; lia|]. destruct s; cbn in *. rewrite Ha, Hf. done.
  - unfold PAGE_TABLE_PAGES, FRAME_PAGES. intros j t Hj (l & r & Hl & Hr & ->). mm_step.
    apply (wp_page_alloc j); [done|unfold FRAME_PAGES; lia|done|done|]. intros l' Hl'. mm_auto.
    exists l', (zero_range (PAGE_FRAME_START + j * 4096) r). split_and!; [done| |].
    + intros a Hra. unfold zero_range, PAGE_SIZE. destruct (Z.leb_spec (PAGE_FRAME_START + j * 4096) a); [|apply Hr; lia].
      by rewrite (proj2 (Z.ltb_lt _ _)) by lia.
    + unfold FRAME_PAGES. by rewrite Z.mod_small by lia.
  - intros t (l & r & Hl & Hr & ->). apply (HQ l r); [exact Hl|]. intros v Hv. apply Hr. unfold PAGE_TABLE_PAGES. lia.
Qed.

(** Every entry of the TLB is unused. *)
Lemma wp_fill_tlb s (Q : unit -> mm -> Prop) :
  len (tlb_table s) = TLB_ENTRIES_NUM -> len (hw_tlb s) = TLB_ENTRIES_NUM ->
  (forall c tt' hh, length hh = length (hw_tlb s) -> (forall ptab, Forall2 (slot_ok ptab) tt' hh) ->
     Q tt (s <| tlb_table := tt' |> <| cp0 := c |> <| hw_tlb := hh |>)) -> wp fill_tlb s Q.
Proof.
  unfold TLB_ENTRIES_NUM. intros Ht Hh HQ. unfold fill_tlb.
  apply (wp_for_range (fun i t => exists c tt' hh, t = s <| tlb_table := tt' |> <| cp0 := c |> <| hw_tlb := hh |>
    /\ length tt' = length (tlb_table s) /\ length hh = length (hw_tlb s)
    /\ forall j e h, 0 <= j < i -> tt' !! Z.to_nat j = Some e -> hh !! Z.to_nat j = Some h -> forall ptab, slot_ok ptab e h)).
  - exists (cp0 s), (tlb_table s), (hw_tlb s). split_and!; [by destruct s|done|done|intros; lia].
  - unfold TLB_ENTRIES_NUM. intros i t Hi (c & tt' & hh & -> & Lt & Lh & Hj).
    destruct (lookup_lt_is_Some_2 tt' (Z.to_nat i)) as [e He]; [lia|]. mm_step. eapply wp_set_tlb; [lia|exact He|]. mm_auto.
    apply wp_tlbwi; [cbn [cp0 cp0_index hw_tlb put]; lia|]. cbn [cp0 put cp0_index hw_tlb tlb_table].
    eexists _, (<[Z.to_nat i := _]> tt'), (<[Z.to_nat i := _]> hh).
    split; [reflexivity|]. split_and!; [by rewrite length_insert|by rewrite length_insert|].
    intros j e' h' Hj' He' Hh' ptab. destruct (decide (j = i)) as [->|Hne].
    + rewrite list_lookup_insert_eq in He' by lia. rewrite list_lookup_insert_eq in Hh' by lia.
      injection He' as <-. injection Hh' as <-. left. by split_and!.
    + rewrite list_lookup_insert_ne in He' by lia. rewrite list_lookup_insert_ne in Hh' by lia. apply (Hj j); [lia|done|done].
  - intros t (c & tt' & hh & -> & Lt & Lh & Hj). apply HQ; [done|]. intros ptab. apply Forall2_same_length_lookup_2; [lia|].
    intros i e h He Hh'. apply (Hj (Z.of_nat i)); [|by rewrite Nat2Z.id|by rewrite Nat2Z.id].
    pose proof (lookup_lt_Some _ _ _ He). unfold TLB_ENTRIES_NUM. lia.
Qed.

Lemma wp_init_memory memory tlb regs :
  len tlb = TLB_ENTRIES_NUM ->
  wp init_memory (boot_mm memory tlb regs) (fun _ s' => mm_ok PAGE_TABLE_PAGES s' /\ forall v, 0 <= v < 2 ^ 19 -> pt s' v = 0).
Proof.
  intros Ht. unfold init_memory. mm_step. apply wp_fill_pages; [done|done|]. intros l1 L1 H1. mm_step.
  apply wp_fill_pages; [done|cbn [page_map put]; rewrite L1; done|]. intros l2 L2 H2. cbn [page_map put] in L2, H2.
  assert (len l2 = PAGEABLE_PAGES) as Ll by (rewrite L2, L1; done). unfold PAGEABLE_PAGES, FRAME_PAGES in *.
  mm_step. apply wp_set_up_page_table; [|done|done|].
  - split; [done|]. unfold FRAME_PAGES. intros i Hi. exists (frame_entry i). cbn [page_map put]. split_and!; [|done|].
    + rewrite H2, H1 by lia. destruct (Z.leb_spec 2048 i), (Z.leb_spec 0 i), (Z.ltb_spec i (0 + Z.of_nat (Z.to_nat 2048))); try lia; done.
    + symmetry. apply Z.leb_le. lia.
  - intros l3 r Hl3 Hr. mm_auto. apply wp_fill_tlb; [done|done|]. intros c tt' hh Lh Hs. split; [|exact Hr].
    split; try done.
    + split; [apply Hs|]. cbn. by rewrite Lh.
    + split; [intros v Hv; left; by apply Hr|]. intros v w Hv Hw Hne. by destruct Hne; apply Hr.
Qed.

(** ** The theorems *)

(** What happens to the memory: a task accesses an address, or a task is
    created and its pid goes to EntryHi. Nothing else changes EntryHi. *)
Inductive memory_event := Access (va pid : Z) | Spawn (asid : Z).
Definition happens `{!Lookup} (e : memory_event) : Mm unit :=
  match e with
  | Access va pid => do! access va pid; ret tt
  | Spawn asid => set_entryhi_asid asid
  end.
Fixpoint events `{!Lookup} (l : list memory_event) : Mm unit :=
  match l with
  | [] => ret tt
  | e :: r => do! happens e; events r
  end.
(** Each pair of pages is used by one task, its owner. *)
Definition proper_event (owner : Z -> Z) (e : memory_event) : Prop :=
  match e with
  | Access va pid => user_va va /\ is_asid pid /\ owner (va / 8192) = pid
  | Spawn _ => True
  end.
(** The table of the kernel has the entries of the owners. *)
Definition owned (owner : Z -> Z) (s : mm) : Prop :=
  forall e, e ∈ tlb_table s -> t_VPN2 e <> NO_VPN2 -> t_pid e = owner (t_VPN2 e).

Lemma owned_not_stale owner s va pid : owned owner s -> user_va va -> owner (va / 8192) = pid -> not_stale s va pid.
Proof.
  intros Ho Hva Hp e He Ev Es. destruct (user_pair va Hva) as [Hv _]. rewrite <-Es, (Ho e He), Ev; [done|].
  unfold NO_VPN2. lia.
Qed.
Lemma handled_owned `{!Lookup} owner k s s' va pid :
  owned owner s -> owner (va / 8192) = pid -> handled k s s' va pid -> owned owner s'.
Proof.
  intros Ho Hp (k' & _ & _ & _ & Htab & _) e' He' Hne. destruct Htab as [E|(i & e & E & Ev & Ep)]; rewrite E in He'; [by apply Ho|].
  apply list_elem_of_lookup in He' as [j He']. apply list_lookup_insert_Some in He' as [(-> & -> & _)|(_ & He')].
  - by rewrite Ep, Ev.
  - apply Ho; [by eapply list_elem_of_lookup_2|done].
Qed.
(** Without a page table entry there is no entry in the TLB. *)
Lemma empty_tlb k s e : mm_ok k s -> (forall v, 0 <= v < 2 ^ 19 -> pt s v = 0) -> e ∈ tlb_table s -> t_VPN2 e = NO_VPN2.
Proof.
  intros Hok Hz He. apply list_elem_of_lookup in He as [i He].
  destruct (Forall2_lookup_l _ _ _ _ _ (proj1 (ok_slots _ _ Hok)) He) as (h & _ & [(E & _)|(H1 & _ & _ & H4 & H5 & H6)]); [done|].
  exfalso. assert (forall v lo pfn, 0 <= v < 2 ^ 19 -> half_ok (pt s v) lo pfn -> lo = 0) as Hh.
  { intros v lo pfn Hv [?|(Hf & _ & E)]; [done|]. rewrite Hz in E by done. by destruct (pte_facts pfn Hf) as [Hne _]. }
  apply Hh in H4; [|lia]. apply Hh in H5; [|lia]. by destruct H6.
Qed.

Lemma wp_events `{!Lookup} owner l k s :
  mm_ok k s -> owned owner s -> Forall (proper_event owner) l -> k + len l <= FRAME_PAGES ->
  wp (events l) s (fun _ s' => exists k', mm_ok k' s' /\ owned owner s').
Proof.
  revert k s. induction l as [|[va pid|asid] l IH]; intros k s Hok Ho Hl Hk; cbn [events happens].
  - mm_step. by exists k.
  - apply Forall_cons in Hl as [(Hva & Ha & Hp) Hl]. cbn [length] in *. mm_auto.
    eapply wp_mono; [apply (wp_access k s va pid); [done|lia|done|done|by eapply owned_not_stale]|]. intros r s' [_ Hh]. mm_auto.
    pose proof Hh as (k' & Hk' & Hok' & _). apply (IH k'); [done|by eapply handled_owned|done|lia].
  - apply Forall_cons in Hl as [_ Hl]. cbn [length] in *. unfold set_entryhi_asid. mm_auto.
    apply (IH k); [by apply (mm_ok_core _ s)|done|done|lia].
Qed.

(** A valid entry of the processor: its frame is behind the page table, is the
    one that the page table has, and its address space is that of the owner. *)
Lemma entry_frame owner k s va h f :
  mm_ok k s -> owned owner s -> user_va va -> h ∈ hw_tlb s -> vpn2_of (h_hi h) = va / 8192 -> hw_frame h va = Some f ->
  4096 + PAGE_TABLE_PAGES <= f < 4096 + FRAME_PAGES /\ pt s (vpn va) = pte f /\ asid_of (h_hi h) = owner (va / 8192).
Proof.
  intros Hok Ho Hva Hh Ev Hf. destruct (user_pair va Hva) as [Hv Hvp]. apply list_elem_of_lookup in Hh as [i Hh].
  destruct (Forall2_lookup_r _ _ _ _ _ (proj1 (ok_slots _ _ Hok)) Hh) as (e & He & Hs).
  assert (t_VPN2 e = va / 8192 /\ asid_of (h_hi h) = t_pid e) as [Ee Ea].
  { destruct Hs as [(_ & E2 & _)|(H1 & H2 & H3 & _)].
    - rewrite E2 in Ev. assert (vpn2_of (0x7fff7 * 2 ^ 13) = 0x7fff7) as E by done. rewrite E in Ev. lia.
    - rewrite H3 in Ev |- *. destruct (hi_facts (t_VPN2 e) (t_pid e) ltac:(lia) H2) as [E1 E2]. by rewrite E1 in Ev. }
  destruct (slot_frame (pt s) e h va f Hs Ee Hva Hf) as [Hr E]. split_and!; [| |done|].
  1, 2: pose proof Hok as [Hk _ _ _ _ _ _ [H1 _]]; destruct (pte_facts f Hr) as (P1 & _); unfold PAGE_TABLE_PAGES, FRAME_PAGES in *;
    destruct (H1 _ Hvp) as [E0|(g & Hg & Eg)]; [congruence|]; rewrite E, !pte_value in Eg by (unfold PAGE_TABLE_PAGES in *; lia);
    unfold PAGE_TABLE_PAGES in Hg; lia.
  rewrite Ea, <-Ee. apply Ho; [by eapply list_elem_of_lookup_2|]. unfold NO_VPN2. lia.
Qed.

(** C25: Isolation of memory: from any power-on state, [init_memory] followed by
    accesses of tasks with pids below 256 to addresses below 2^31 and creations of
    tasks, in any order
    (no more of them than there are frames behind the page table), where no two
    tasks use the same pair of pages, returns. After it every valid entry of the
    TLB leads to a frame behind the page table and is in the address space of the
    task that uses its pair, and two entries for addresses of different virtual
    pages never lead to the same frame. The address space in EntryHi is the one
    that the last creation or the last refill left, whichever task runs, and when
    several entries match any of them may answer. [_start] does not call
    [init_memory]: the call is commented out. *)
Theorem memory_isolation `{!Lookup} memory tlb regs owner l :
  len tlb = TLB_ENTRIES_NUM -> Forall (proper_event owner) l -> len l <= FRAME_PAGES - PAGE_TABLE_PAGES ->
  exists s', (do! init_memory; events l) (boot_mm memory tlb regs) = Ok (tt, s')
    /\ (forall va h f, user_va va -> h ∈ hw_tlb s' -> vpn2_of (h_hi h) = va / 8192 -> hw_frame h va = Some f ->
          4096 + PAGE_TABLE_PAGES <= f < 4096 + FRAME_PAGES /\ asid_of (h_hi h) = owner (va / 8192))
    /\ (forall va va' h h' f, user_va va -> user_va va' -> h ∈ hw_tlb s' -> h' ∈ hw_tlb s' ->
          vpn2_of (h_hi h) = va / 8192 -> vpn2_of (h_hi h') = va' / 8192 ->
          hw_frame h va = Some f -> hw_frame h' va' = Some f -> vpn va = vpn va').
Proof.
  intros Ht Hl Hn.
  assert (wp (do! init_memory; events l) (boot_mm memory tlb regs) (fun _ s' => exists k, mm_ok k s' /\ owned owner s')) as Hwp.
  { mm_step. eapply wp_mono; [by apply wp_init_memory|]. intros [] s [Hok Hz]. eapply wp_events; [done| |done|lia].
    intros e He Hne. by destruct Hne; eapply empty_tlb. }
  destruct Hwp as ([] & s' & E & k & Hok & Ho). exists s'. split; [exact E|]. clear E. split.
  - intros va h f Hva Hh Ev Hf. destruct (entry_frame owner k s' va h f) as (R1 & _ & R3); done.
  - intros va va' h h' f Hva Hva' Hh Hh' Ev Ev' Hf Hf'. destruct (entry_frame owner k s' va h f) as (Hr & E1 & _); [done..|].
    destruct (entry_frame owner k s' va' h' f) as (_ & E2 & _); [done..|]. destruct (ok_table _ _ Hok) as [_ Hinj].
    apply Hinj; [by apply user_pair|by apply user_pair| |congruence]. rewrite E1.
    apply pte_facts. unfold PAGE_TABLE_PAGES, FRAME_PAGES in Hr. lia.
Qed.
(** A processor in which the first matching entry answers. *)
#[export, refine] Instance first_match : Lookup := {| probe tlb hi := fst <$> list_find (fun e => hw_match hi e = true) tlb |}.
Proof.
  - intros tlb hi i E. apply fmap_Some in E as ([j e] & E & ->). apply list_find_Some in E as (E1 & E2 & _). by exists e.
  - intros tlb hi E. apply fmap_None in E. apply list_find_None in E. eapply Forall_impl; [exact E|]. intros e He.
    by apply not_true_is_false.
Defined.
Definition power_on : mm := boot_mm (fun a => a mod 7) (replicate 32 (mk_hw 77 3 3 3)) (mk_cp0 1 2 3 4 5 6).
(** Task 2 is created and uses two pages, task 3 is created and uses another
    one, and task 2 goes on. *)
Definition two_tasks : list memory_event :=
  [Spawn 2; Access 0x10004 2; Access 0x11000 2; Spawn 3; Access 0x400000 3; Access 0x10008 2].
Lemma memory_isolation_witness :
  exists s', (do! init_memory; events two_tasks) power_on = Ok (tt, s')
    /\ forall va h f, user_va va -> h ∈ hw_tlb s' -> vpn2_of (h_hi h) = va / 8192 -> hw_frame h va = Some f ->
         4096 + PAGE_TABLE_PAGES <= f < 4096 + FRAME_PAGES /\ asid_of (h_hi h) = (if va / 8192 =? 8 then 2 else 3).
Proof.
  destruct (memory_isolation (fun a => a mod 7) (replicate 32 (mk_hw 77 3 3 3)) (mk_cp0 1 2 3 4 5 6)
    (fun v => if v =? 8 then 2 else 3) two_tasks) as (s' & E & H1 & _).
  - reflexivity.
  - repeat (apply Forall_cons; split); try apply Forall_nil_2; unfold proper_event, user_va, is_asid; try exact I;
      (split; [lia|split; [lia|reflexivity]]).
  - unfold FRAME_PAGES, PAGE_TABLE_PAGES. cbn. lia.
  - exists s'. split; [exact E|exact H1].
Defined.

(** [init_memory] pins the first frames for the page table, clears it, leaves
    the other frames free and the TLB without an entry for a user address, whatever the memory,
    the TLB and the registers held before. *)
Theorem init_memory_correct memory tlb regs :
  len tlb = TLB_ENTRIES_NUM ->
  exists s', init_memory (boot_mm memory tlb regs) = Ok (tt, s') /\ mm_ok PAGE_TABLE_PAGES s'
    /\ (forall v, 0 <= v < 2 ^ 19 -> pt s' v = 0)
    /\ (forall va h, user_va va -> h ∈ hw_tlb s' -> vpn2_of (h_hi h) <> va / 8192).
Proof.
  intros Ht. destruct (wp_init_memory memory tlb regs Ht) as ([] & s' & E & Hok & Hz). exists s'. split_and!; [exact E|exact Hok|exact Hz|]. clear E.
  intros va h Hva Hh Ev. destruct (user_pair va Hva) as [Hv _]. apply list_elem_of_lookup in Hh as [i Hh].
  destruct (Forall2_lookup_r _ _ _ _ _ (proj1 (ok_slots _ _ Hok)) Hh) as (e & He & Hs).
  pose proof (empty_tlb _ _ e Hok Hz ltac:(by eapply list_elem_of_lookup_2)) as E.
  destruct Hs as [(_ & E2 & _)|(H1 & _)]; [|unfold NO_VPN2 in E; lia].
  rewrite E2 in Ev. assert (vpn2_of (0x7fff7 * 2 ^ 13) = 0x7fff7) as E3 by done. rewrite E3 in Ev. lia.
Qed.
Lemma init_memory_correct_witness : exists s', init_memory power_on = Ok (tt, s') /\ mm_ok PAGE_TABLE_PAGES s'.
Proof.
  destruct (init_memory_correct (fun a => a mod 7) (replicate 32 (mk_hw 77 3 3 3)) (mk_cp0 1 2 3 4 5 6) eq_refl) as (s' & E & H & _).
  exists s'. split; [exact E|exact H].
Defined.

(** C26: The TLB handler gives a task its page: while a frame is free, an access
    of a task with a pid below 256 to a page below 2^31 that the page table does not
    have returns with the page mapped to
    the frame that the page table now has and the task's address space in EntryHi,
    when the TLB has no entry of the pair of pages, or one, which belongs to this
    task while EntryHi holds this task's address space. The entries of the page
    table that were there are kept, and so is the invariant. *)
Theorem access_correct `{!Lookup} k s va pid :
  mm_ok k s -> k < FRAME_PAGES -> user_va va -> is_asid pid -> pt s (vpn va) = 0 -> usable s va pid ->
  exists f k' s', access va pid s = Ok (Some f, s') /\ mm_ok k' s' /\ k <= k' <= k + 1
    /\ reached s' va = Some f /\ space s' = pid /\ pt s' (vpn va) = pte f
    /\ (forall v, 0 <= v < 2 ^ 19 -> pt s v <> 0 -> pt s' v = pt s v).
Proof.
  intros Hok Hk Hva Ha Hpt Hu. destruct (wp_access k s va pid Hok Hk Hva Ha) as (r & s' & E & -> & k' & Hk' & Hok' & Hkeep & _ & Hmap).
  - intros e He Ev _. apply list_elem_of_lookup in He as [i He]. by apply (proj1 Hu i e).
  - destruct (Hmap Hu Hpt) as (f & R1 & R2 & R3). rewrite R1 in E. exists f, k', s'. split_and!; (assumption || lia).
Qed.
Lemma access_correct_witness :
  exists s f s', init_memory power_on = Ok (tt, s) /\ access 0x10004 2 s = Ok (Some f, s') /\ pt s' 16 = pte f /\ space s' = 2.
Proof.
  destruct (wp_init_memory (fun a => a mod 7) (replicate 32 (mk_hw 77 3 3 3)) (mk_cp0 1 2 3 4 5 6) eq_refl) as ([] & s & E & Hok & Hz).
  assert (forall i e, tlb_table s !! i = Some e -> t_VPN2 e <> 8) as Hno.
  { intros i e He Ev. assert (t_VPN2 e = NO_VPN2) as En by (apply (empty_tlb _ s e Hok Hz); eapply list_elem_of_lookup_2; exact He).
    rewrite En in Ev. discriminate Ev. }
  destruct (access_correct PAGE_TABLE_PAGES s 0x10004 2) as (f & k' & s' & Ea & _ & _ & _ & Es & Ep & _).
  - exact Hok.
  - reflexivity.
  - unfold user_va. lia.
  - unfold is_asid. lia.
  - apply Hz. change (vpn 0x10004) with 16. lia.
  - split; [intros i e He Ev|intros i j e e' He _ Ev _]; destruct (Hno i e He Ev).
  - exists s, f, s'. split; [exact E|]. split; [exact Ea|]. split; [exact Ep|exact Es].
Defined.

(** Accesses of 32 other pairs of pages. *)
Definition evict (pid : Z) : list memory_event := (fun i => Access (0x400000 + 0x2000 * i) pid) <$> seqZ 0 32.

(** Case analysis on the run that a hypothesis is about. *)
Ltac run_ok H s :=
  match type of H with match ?m with Ok _ => _ | Fault _ => _ end => destruct m as [[? s]|] eqn:?; [|destruct H] end.

(** Two pages of a pair that both have a frame cannot be used again after
    their TLB entry was replaced: the refill maps only the page that was touched,
    and the exception for the other one finds its entry of the page table in
    place and does nothing, however often it is repeated. *)
Theorem mapped_page_stays_invalid :
  exists s, (do! init_memory; events ([Access 0x10000 2; Access 0x11000 2] ++ evict 2 ++ [Access 0x10000 2])) power_on = Ok (tt, s)
    /\ pt s 17 <> 0 /\ reached s 0x10000 = Some 4608
    /\ exists s', events (replicate 3 (Access 0x11000 2)) s = Ok (tt, s') /\ reached s' 0x11000 = None.
Proof.
  assert (match (do! init_memory; events ([Access 0x10000 2; Access 0x11000 2] ++ evict 2 ++ [Access 0x10000 2])) power_on with
    | Ok (_, s) => bool_decide (pt s 17 = 0) = false /\ reached s 0x10000 = Some 4608
        /\ match events (replicate 3 (Access 0x11000 2)) s with
           | Ok (_, s') => reached s' 0x11000 = None | Fault _ => False end
    | Fault _ => False end) as H by (vm_compute; repeat split; reflexivity).
  run_ok H s. destruct H as (H1 & H2 & H3). run_ok H3 s'. apply bool_decide_eq_false in H1. destruct u, u0.
  exists s. split; [reflexivity|]. split; [exact H1|]. split; [exact H2|]. exists s'. split; [assumption|exact H3].
Qed.

(** The check that a page belongs to the task looks only at the TLB: once the
    entry of task 2 has been replaced, task 3 reads the same virtual page in the
    frame of task 2. *)
Theorem evicted_page_is_shared :
  exists s s', (do! init_memory; events [Access 0x10000 2]) power_on = Ok (tt, s)
    /\ reached s 0x10000 = Some 4608
    /\ events (evict 2) s = Ok (tt, s') /\ exists s'', access 0x10000 3 s' = Ok (Some 4608, s'').
Proof.
  assert (match (do! init_memory; events [Access 0x10000 2]) power_on with
    | Ok (_, s) => reached s 0x10000 = Some 4608
        /\ match events (evict 2) s with
           | Ok (_, s') => match access 0x10000 3 s' with Ok (r, _) => r = Some 4608 | Fault _ => False end
           | Fault _ => False end
    | Fault _ => False end) as H by (vm_compute; repeat split; reflexivity).
  run_ok H s. destruct H as (H1 & H2). run_ok H2 s'. run_ok H2 s''. destruct u, u0. subst.
  exists s, s'. split; [reflexivity|]. split; [exact H1|]. split; [assumption|]. exists s''. assumption.
Qed.

(** No task switch changes the address space in EntryHi. After task 2 has got a
    page, task 3 reaches the frame of task 2 at the same address without an
    exception; and at the other page of the pair the handler, called for task 3,
    leaves [get_tlb_invalid_index] without a value. When task 3 has used another
    pair, its address space is in EntryHi, and an access of task 2 to its own page
    puts a second entry for the same pair and the same task into the TLB. *)
Theorem stale_address_space :
  exists s, (do! init_memory; events [Access 0x10000 2]) power_on = Ok (tt, s)
    /\ access 0x10000 3 s = Ok (Some 4608, s) /\ access 0x11000 3 s = Fault NoReturnValue
    /\ exists s', events [Access 0x400000 3; Access 0x10000 2] s = Ok (tt, s')
         /\ length (filter (fun h => hw_match (pair_hi 0x10000 2) h = true) (hw_tlb s')) = 2%nat.
Proof.
  assert (match (do! init_memory; events [Access 0x10000 2]) power_on with
    | Ok (_, s) => reached s 0x10000 = Some 4608
        /\ match access 0x11000 3 s with Ok _ => False | Fault e => e = NoReturnValue end
        /\ match events [Access 0x400000 3; Access 0x10000 2] s with
           | Ok (_, s') => length (filter (fun h => hw_match (pair_hi 0x10000 2) h = true) (hw_tlb s')) = 2%nat
           | Fault _ => False end
    | Fault _ => False end) as H by (vm_compute; repeat split; reflexivity).
  run_ok H s. destruct H as (H1 & H2 & H3). run_ok H3 s'. destruct (access 0x11000 3 s) as [|e] eqn:E2; [destruct H2|].
  destruct u, u0. exists s. split; [reflexivity|]. split; [unfold access, gets, bind; rewrite H1; reflexivity|]. split; [congruence|].
  exists s'. split; [assumption|exact H3].
Qed.
