(* ===== verification/Printk.v ===== *)
(** Formatted output: printk.c, and the serial port it writes to.

    A format and its string arguments are in a memory region (see CString.v); an
    argument list is the list of its words.  The buffers on the stack have
    arbitrary contents before they are written.  The routines of the monitor ROM
    that send to the serial port are an interface, [Pmon]. *)

From S2P Require Import Prelude CString.

(** ** The serial port *)

(** [printch] and [printstr] of the monitor: a string is sent character by
    character. *)
Class Pmon (port : Type) := {
  printch : Z -> port -> port;
  printstr : list Z -> port -> port;
  printstr_chars s p : printstr s p = foldl (fun p c => printch c p) p s
}.

(** A port that records what was sent. *)
Definition transcript := list Z.
#[export] Program Instance transcript_pmon : Pmon transcript :=
  {| printch c p := p ++ [c]; printstr s p := p ++ s |}.
Next Obligation.
  intros s. induction s as [|c s IH]; intros p; cbn; [by rewrite app_nil_r|]. by rewrite <-IH, <-app_assoc.
Qed.

Definition port_write_ch {port} `{Pmon port} (ch : Z) : M port unit := modify (printch ch).
(** The bytes of [buff] up to its end mark. *)
Definition port_write {port} `{Pmon port} (buff : list Z) : M port unit :=
  let! n := lift (strlen buff 0) in
  modify (printstr (take (Z.to_nat n) buff)).

(** ** Numbers *)

Definition char_A : Z := 65.      (* 'A' *)
Definition char_minus : Z := 45.  (* '-' *)

Definition mini_strlen (m : mem) (s : Z) : outcome Z := strlen_loop (S (length m)) m s 0.

Definition digit_char (uppercase : bool) (digit : Z) : Z :=
  if digit <? 10 then digit_0 + digit else (if uppercase then char_A else char_a) + digit - 10.

(** The loop that writes the digits back to front: [value] is an [int], the
    division is one of unsigned numbers.  A word has at most 32 digits. *)
Fixpoint itoa_loop (fuel : nat) (radix : Z) (uppercase : bool) (buffer : list Z) (value pbuffer : Z)
    : outcome (list Z * Z) :=
  match fuel with
  | O => Fault Diverges
  | S fuel' =>
      let digit := u32 value mod radix in
      try! buffer := wr buffer pbuffer (digit_char uppercase digit) in
      let value := i32 (u32 value / radix) in
      if value >? 0 then itoa_loop fuel' radix uppercase buffer value (pbuffer + 1)
      else Ok (buffer, pbuffer + 1)
  end.
Fixpoint swap_loop (n : nat) (buffer : list Z) (i len : Z) : outcome (list Z) :=
  match n with
  | O => Ok buffer
  | S n' =>
      try! j := rd buffer i in
      try! k := rd buffer (len - i - 1) in
      try! buffer := wr buffer i k in
      try! buffer := wr buffer (len - i - 1) j in
      swap_loop n' buffer (i + 1) len
  end.
(** The result is the length and the buffer; [radix] is 10 or 16 in every call. *)
Definition mini_itoa (value radix : Z) (uppercase unsig : bool) (buffer : list Z) (zero_pad : Z)
    : outcome (Z * list Z) :=
  if 16 <? radix then Ok (0, buffer)
  else
    let negative := (value <? 0) && negb unsig in
    let value := if negative then i32 (- value) else value in
    try! r := itoa_loop 32 radix uppercase buffer value 0 in
    let n := Z.to_nat (zero_pad - snd r) in
    try! buffer := memset (fst r) (snd r) digit_0 n in
    let pbuffer := snd r + Z.of_nat n in
    try! r := (if negative then try! buffer := wr buffer pbuffer char_minus in Ok (buffer, pbuffer + 1)
               else Ok (buffer, pbuffer)) in
    try! buffer := wr (fst r) (snd r) 0 in
    try! buffer := swap_loop (Z.to_nat (snd r / 2)) buffer 0 (snd r) in
    Ok (snd r, buffer).

(** ** The output buffer *)

Record mini_buff := mk_buff { buffer : list Z; pbuffer : Z; buffer_len : Z }.

Definition _putc (ch : Z) (b : mini_buff) : outcome (Z * mini_buff) :=
  if buffer_len b <=? u32 (pbuffer b + 1) then Ok (0, b)
  else
    try! l := wr (buffer b) (pbuffer b) ch in
    try! l := wr l (pbuffer b + 1) 0 in
    Ok (1, mk_buff l (pbuffer b + 1) (buffer_len b)).

Fixpoint puts_loop (n : nat) (m : mem) (s : Z) (l : list Z) (p : Z) : outcome (list Z) :=
  match n with
  | O => Ok l
  | S n' =>
      try! c := rd m s in
      try! l := wr l p c in
      puts_loop n' m (s + 1) l (p + 1)
  end.
Definition _puts (m : mem) (s : Z) (len : Z) (b : mini_buff) : outcome (Z * mini_buff) :=
  let room := u32 (buffer_len b - pbuffer b - 1) in
  let len := if room <? len then room else len in
  try! l := puts_loop (Z.to_nat len) m s (buffer b) (pbuffer b) in
  try! l := wr l (pbuffer b + len) 0 in
  Ok (len, mk_buff l (pbuffer b + len) (buffer_len b)).

(** ** The format *)

Definition char_percent : Z := 37.
Definition char_u : Z := 117.
Definition char_d : Z := 100.
Definition char_x : Z := 120.
Definition char_X : Z := 88.
Definition char_c : Z := 99.
Definition char_s : Z := 115.

(** [va_arg]: the next word; behind the last argument there is none. *)
Definition va_arg (va : list Z) : outcome (Z * list Z) :=
  match va with [] => Fault OutOfBounds | v :: va' => Ok (v, va') end.

(** The [switch] on the conversion character. *)
Definition convert (m : mem) (ch zero_pad : Z) (va bf : list Z) (b : mini_buff)
    : outcome (list Z * list Z * mini_buff) :=
  if (ch =? char_u) || (ch =? char_d) then
    try! v := va_arg va in
    try! r := mini_itoa (i32 (fst v)) 10 false (ch =? char_u) bf zero_pad in
    try! p := _puts (snd r) 0 (fst r) b in
    Ok (snd v, snd r, snd p)
  else if (ch =? char_x) || (ch =? char_X) then
    try! v := va_arg va in
    try! r := mini_itoa (i32 (fst v)) 16 (ch =? char_X) true bf zero_pad in
    try! p := _puts (snd r) 0 (fst r) b in
    Ok (snd v, snd r, snd p)
  else if ch =? char_c then
    try! v := va_arg va in
    try! p := _putc (u8 (fst v)) b in
    Ok (snd v, bf, snd p)
  else if ch =? char_s then
    try! v := va_arg va in
    try! n := mini_strlen m (fst v) in
    try! p := _puts m (fst v) n b in
    Ok (snd v, bf, snd p)
  else
    try! p := _putc ch b in
    Ok (va, bf, snd p).

(** What follows a percent sign: the padding, the conversion character and the
    rest of the format; [None] is the jump to the end. *)
Definition read_spec (m : mem) (fmt : Z) : outcome (option (Z * Z * Z)) :=
  try! ch := rd m fmt in
  if ch =? digit_0 then
    try! ch := rd m (fmt + 1) in
    if ch =? 0 then Ok None
    else
      let zero_pad := if is_dec ch then ch - digit_0 else 0 in
      try! ch := rd m (fmt + 2) in
      Ok (Some (zero_pad, ch, fmt + 3))
  else Ok (Some (0, ch, fmt + 1)).

Fixpoint vsnprintf_loop (fuel : nat) (m : mem) (fmt : Z) (va bf : list Z) (b : mini_buff) : outcome mini_buff :=
  match fuel with
  | O => Fault Diverges
  | S fuel' =>
      try! ch := rd m fmt in
      if ch =? 0 then Ok b
      else if buffer_len b <=? u32 (pbuffer b + 1) then Ok b
      else if negb (ch =? char_percent) then
        try! p := _putc ch b in
        vsnprintf_loop fuel' m (fmt + 1) va bf (snd p)
      else
        try! d := read_spec m (fmt + 1) in
        match d with
        | None => Ok b
        | Some (zero_pad, ch, fmt) =>
            if ch =? 0 then Ok b
            else
              try! r := convert m ch zero_pad va bf b in
              vsnprintf_loop fuel' m fmt (fst (fst r)) (snd (fst r)) (snd r)
        end
  end.
(** The result is the number of characters and the buffer; [bf] is the local
    array of 24 characters. *)
Definition mini_vsnprintf (bf l : list Z) (buffer_len : Z) (m : mem) (fmt : Z) (va : list Z) : outcome (Z * list Z) :=
  try! b := vsnprintf_loop (S (length m)) m fmt va bf (mk_buff l 0 buffer_len) in
  Ok (pbuffer b, buffer b).

(** [buff] and [bf] are the arrays on the stack, of 256 and 24 characters. *)
Definition printk {port} `{Pmon port} (buff bf : list Z) (m : mem) (fmt : Z) (va : list Z) : M port Z :=
  let! r := lift (mini_vsnprintf bf buff 256 m fmt va) in
  let! buff := lift (wr (snd r) (fst r) 0) in
  do! port_write buff;
  ret (fst r).

(** ** What a format means *)

Inductive arg := AInt (z : Z) | AStr (s : list Z).

(** The words of an argument list stand for arguments. *)
Definition arg_ok (m : mem) (v : Z) (a : arg) : Prop :=
  match a with AInt z => v = z | AStr s => cstr m v s end.

Definition numeral (radix : Z) (uppercase : bool) (n : Z) : list Z :=
  map (digit_char uppercase) (rev (digits 32 radix n)).
Definition padded (width : Z) (s : list Z) : list Z := replicate (Z.to_nat (width - len s)) digit_0 ++ s.
Definition signed_text (width z : Z) : list Z :=
  if i32 z <? 0 then char_minus :: padded width (numeral 10 false (- i32 z)) else padded width (numeral 10 false (i32 z)).
Definition unsigned_text (width radix : Z) (uppercase : bool) (z : Z) : list Z :=
  padded width (numeral radix uppercase (u32 z)).

(** The text of one conversion and the arguments behind it. *)
Definition conversion (ch width : Z) (args : list arg) : option (list Z * list arg) :=
  let with_int f := match args with AInt z :: r => Some (f z, r) | _ => None end in
  if ch =? char_u then with_int (unsigned_text width 10 false)
  else if ch =? char_d then with_int (signed_text width)
  else if ch =? char_x then with_int (unsigned_text width 16 false)
  else if ch =? char_X then with_int (unsigned_text width 16 true)
  else if ch =? char_c then with_int (fun z => [u8 z])
  else if ch =? char_s then match args with AStr s :: r => Some (s, r) | _ => None end
  else Some ([ch], args).

(** The text of a format, when the arguments fit it.  A conversion that the end
    of the format cuts short ends the text. *)
Fixpoint format (fmt : list Z) (args : list arg) : option (list Z) :=
  match fmt with
  | [] => Some []
  | c :: fmt =>
      let one ch width rest :=
        match conversion ch width args with
        | Some (t, args) => match format rest args with Some t' => Some (t ++ t') | None => None end
        | None => None
        end in
      if negb (c =? char_percent) then
        match format fmt args with Some t => Some (c :: t) | None => None end
      else
        match fmt with
        | [] => Some []
        | d :: fmt =>
            if d =? digit_0 then
              match fmt with
              | w :: ch :: rest => one ch (if is_dec w then w - digit_0 else 0) rest
              | _ => Some []
              end
            else one d 0 fmt
        end
  end.

(** A string is printed up to its first zero byte. *)
Fixpoint until_nul (s : list Z) : list Z :=
  match s with [] => [] | c :: s => if c =? 0 then [] else c :: until_nul s end.

(** ** Numbers are printed in full *)

Lemma digits_length fuel base : forall n (k : nat),
  1 < base -> 0 <= n < base ^ Z.of_nat k -> (0 < k)%nat -> (length (digits fuel base n) <= k)%nat.
Proof.
  induction fuel as [|fuel IH]; intros n k Hb Hn Hk; cbn [digits length]; [lia|].
  rewrite Z.gtb_ltb. destruct (Z.ltb_spec 0 (n / base)) as [Hq|Hq]; [|cbn; lia].
  destruct k as [|k]; [lia|]. rewrite Nat2Z.inj_succ, Z.pow_succ_r in Hn by lia.
  assert (n / base < base ^ Z.of_nat k) by (apply Z.div_lt_upper_bound; lia).
  apply le_n_S, IH; [done|lia|]. destruct k; [cbn in *; lia|lia].
Qed.

Lemma u32_range z : 0 <= u32 z < 2 ^ 32.
Proof. apply Z.mod_pos_bound. lia. Qed.

(** On machine words the loop is the one of [itoa]. *)
Lemma itoa_loop_digits fuel radix up : forall l v p,
  1 < radix -> itoa_loop fuel radix up l v p = digits_loop fuel radix (digit_char up) l (u32 v) 0 p.
Proof.
  induction fuel as [|fuel IH]; intros l v p Hr; cbn [itoa_loop digits_loop]; [done|].
  destruct (wr _ _ _); [|done]. cbn [obind]. pose proof (u32_range v) as Hv.
  assert (0 <= u32 v / radix < 2 ^ 31).
  { split; [apply Z.div_pos; lia|]. apply Z.div_lt_upper_bound; lia. }
  rewrite i32_small by lia. destruct (_ >? 0); [|done]. rewrite IH by done. unfold u32 at 1. by rewrite Z.mod_small by lia.
Qed.

Lemma swap_loop_spec n : forall mid pre post i l,
  (length mid / 2 = n)%nat -> i = len pre -> l = 2 * i + len mid ->
  swap_loop n (pre ++ mid ++ post) i l = Ok (pre ++ rev mid ++ post).
Proof.
  induction n as [|n IH]; intros mid pre post i l Hn Hi Hl.
  - destruct mid as [|x [|y mid]]; [done..|]. exfalso. cbn [length] in Hn.
    replace (S (S (length mid))) with (1 * 2 + length mid)%nat in Hn by lia. rewrite Nat.div_add_l in Hn by lia. lia.
  - destruct mid as [|x mid]; [done|]. destruct (exists_last (l := mid)) as (inner & y & ->); [by intros ->|].
    rewrite length_cons, length_app in Hn, Hl. cbn [length] in Hn, Hl.
    replace (S (length inner + 1)) with (1 * 2 + length inner)%nat in Hn by lia. rewrite Nat.div_add_l in Hn by lia.
    replace (pre ++ (x :: inner ++ [y]) ++ post) with (pre ++ x :: inner ++ y :: post)
      by (rewrite <-app_comm_cons, <-app_assoc; done).
    cbn [swap_loop]. rewrite rd_at by lia. cbn [obind].
    replace (pre ++ x :: inner ++ y :: post) with ((pre ++ x :: inner) ++ y :: post) by by rewrite <-app_assoc.
    rewrite rd_at by (rewrite length_app; cbn; lia). cbn [obind].
    rewrite <-app_assoc, <-app_comm_cons. rewrite wr_at by lia. cbn [obind].
    replace (pre ++ y :: inner ++ y :: post) with ((pre ++ y :: inner) ++ y :: post) by by rewrite <-app_assoc.
    rewrite wr_at by (rewrite length_app; cbn; lia). cbn [obind].
    replace ((pre ++ y :: inner) ++ x :: post) with ((pre ++ [y]) ++ inner ++ (x :: post)) by by rewrite <-!app_assoc.
    rewrite IH; [|lia|rewrite len_snoc; lia|lia]. f_equal. cbn. rewrite rev_app_distr. cbn. by rewrite <-!app_assoc.
Qed.

(** A buffer that starts with a text. *)
Definition starts (s l : list Z) : Prop := take (length s) l = s.

Lemma starts_split s l : starts s l <-> exists r, l = s ++ r.
Proof.
  unfold starts. split; [|intros [r ->]; apply take_app_length].
  intros H. exists (drop (length s) l). by rewrite <-H at 1; rewrite take_drop.
Qed.

(** The end mark and the reversal. *)
Lemma finish_itoa s b post :
  (try! l := wr (s ++ b :: post) (len s) 0 in
   try! l := swap_loop (Z.to_nat (len s / 2)) l 0 (len s) in
   Ok (len s, l)) = Ok (len s, rev s ++ 0 :: post).
Proof.
  rewrite wr_at by done. cbn [obind]. rewrite (swap_loop_spec _ s [] (0 :: post)); [done| |done|lia].
  rewrite Z2Nat.inj_div, Nat2Z.id by lia. done.
Qed.

(** The text, its sign apart, of the number that [mini_itoa] writes. *)
Definition itoa_text (v radix : Z) (up unsig : bool) (w : Z) : list Z :=
  let neg := (v <? 0) && negb unsig in
  (if neg then [char_minus] else []) ++ padded w (numeral radix up (if neg then - v else u32 v)).

Lemma rev_replicate {A} n (x : A) : rev (replicate n x) = replicate n x.
Proof. rewrite rev_alt. apply reverse_replicate. Qed.
Lemma itoa_text_rev radix up n w (neg : bool) :
  rev (map (digit_char up) (digits 32 radix n) ++ replicate (Z.to_nat (w - len (digits 32 radix n))) digit_0
       ++ (if neg then [char_minus] else []))
  = (if neg then [char_minus] else []) ++ padded w (numeral radix up n).
Proof.
  unfold padded, numeral. rewrite !rev_app_distr, length_map, length_rev, map_rev, rev_replicate, <-app_assoc. by destruct neg.
Qed.

Lemma mini_itoa_spec v radix up unsig l w (k : nat) :
  1 < radix <= 16 -> - 2 ^ 31 <= v < 2 ^ 31 -> 2 ^ 32 <= radix ^ Z.of_nat k -> (0 < k)%nat ->
  Z.max (Z.of_nat k) w + 2 <= len l ->
  exists l', mini_itoa v radix up unsig l w = Ok (len (itoa_text v radix up unsig w), l')
    /\ length l' = length l /\ starts (itoa_text v radix up unsig w) l'.
Proof.
  intros Hr Hv Hk Hk0 Hl. unfold itoa_text, mini_itoa. set (neg := (v <? 0) && negb unsig). set (n := if neg then - v else u32 v).
  assert (0 <= n < 2 ^ 32) as Hn by (subst n neg; pose proof (u32_range v); destruct (Z.ltb_spec v 0), unsig; cbn; lia).
  assert (u32 (if neg then i32 (- v) else v) = n) as Hu.
  { subst n. destruct neg eqn:En; [|done]. subst neg. apply andb_true_iff in En as [En%Z.ltb_lt _].
    rewrite u32_i32. apply Z.mod_small. lia. }
  assert (length (digits 32 radix n) <= k)%nat as Hds by (apply digits_length; lia).
  assert (2 ^ 32 <= radix ^ Z.of_nat 32) by (apply (Z.pow_le_mono_l 2 radix); lia).
  destruct (Z.ltb_spec 16 radix); [lia|]. rewrite itoa_loop_digits, Hu, <-itoa_text_rev by lia.
  set (ds := digits 32 radix n) in *. set (q := Z.to_nat (w - len ds)).
  assert (exists old o2 o3 post, l = old ++ o2 ++ o3 ++ post /\ length old = length ds /\ length o2 = q
    /\ length o3 = (if neg then 2 else 1)%nat) as (old & o2 & o3 & post & -> & H1 & H2 & H3).
  { exists (take (length ds) l), (take q (drop (length ds) l)), (take (if neg then 2 else 1) (drop q (drop (length ds) l))),
      (drop (if neg then 2 else 1) (drop q (drop (length ds) l))).
    rewrite !take_drop, !length_take, !length_drop. subst q. split_and!; [done|lia| |destruct neg]; lia. }
  pose proof (digits_loop_spec 32 radix (digit_char up) n [] old (o2 ++ o3 ++ post) 0 0) as Hd. cbn [app] in Hd.
  rewrite Hd; [|lia..|done|done]. fold ds. cbn [obind fst snd]. rewrite (Z.add_0_l (len old)), H1. fold q.
  pose proof (memset_spec q (map (digit_char up) ds) o2 (o3 ++ post) digit_0 H2) as Hms. rewrite length_map in Hms.
  rewrite Hms. cbn [obind]. change (u8 digit_0) with digit_0. rewrite length_rev.
  set (s := map (digit_char up) ds ++ replicate q digit_0 ++ (if neg then [char_minus] else [])).
  assert (exists b, (if neg
    then try! buffer := wr (map (digit_char up) ds ++ replicate q digit_0 ++ o3 ++ post) (len ds + Z.of_nat q) char_minus
         in Ok (buffer, len ds + Z.of_nat q + 1)
    else Ok (map (digit_char up) ds ++ replicate q digit_0 ++ o3 ++ post, len ds + Z.of_nat q)) = Ok (s ++ b :: post, len s)) as [b ->].
  { subst s. rewrite !length_app, length_map, length_replicate. destruct neg.
    - destruct o3 as [|a [|b [|]]]; try done. exists b. cbn [app].
      rewrite app_assoc, wr_at by (rewrite length_app, length_map, length_replicate; lia). cbn [obind].
      rewrite <-!app_assoc. repeat f_equal. cbn. lia.
    - destruct o3 as [|b [|]]; try done. exists b. rewrite <-!app_assoc. repeat f_equal. cbn. lia. }
  cbn [obind fst snd]. rewrite finish_itoa. eexists. split; [done|]. split.
  - rewrite length_app, length_rev. subst s. rewrite !length_app, length_map, length_replicate. rewrite H1, H2, H3. cbn [length]. destruct neg; cbn; lia.
  - apply starts_split. by eexists.
Qed.

Lemma signed_itoa z w : itoa_text (i32 z) 10 false false w = signed_text w z.
Proof.
  unfold itoa_text, signed_text. pose proof (i32_range z). destruct (Z.ltb_spec (i32 z) 0); cbn [andb negb app]; [done|].
  unfold u32. by rewrite Z.mod_small by lia.
Qed.
Lemma unsigned_itoa z radix up w : itoa_text (i32 z) radix up true w = unsigned_text w radix up z.
Proof. unfold itoa_text, unsigned_text. by rewrite andb_false_r, u32_i32. Qed.

(** ** The buffer never overflows *)

(** A buffer of [n] characters that holds the text [out]. *)
Definition holds (n : nat) (out : list Z) (b : mini_buff) : Prop :=
  length (buffer b) = n /\ buffer_len b = Z.of_nat n /\ starts out (buffer b) /\ pbuffer b = len out /\ (length out < n)%nat.
(** The part of a text for which there is room, the end mark included. *)
Definition fit (n : nat) (s : list Z) : list Z := take (n - 1) s.

Lemma fit_fit n s t : fit n (fit n s ++ t) = fit n (s ++ t).
Proof.
  unfold fit. destruct (decide (length s <= n - 1)%nat) as [H|H]; [by rewrite (take_ge s) by done|].
  rewrite take_app_le by (rewrite length_take; lia). rewrite take_take, Nat.min_id. by rewrite take_app_le by lia.
Qed.
Lemma fit_full n s t : (length s = n - 1)%nat -> fit n (s ++ t) = s.
Proof. intros H. unfold fit. rewrite <-H. apply take_app_length. Qed.
Lemma fit_room n s : (length s < n)%nat -> fit n s = s.
Proof. intros H. apply take_ge. lia. Qed.

Lemma holds_split n out b : holds n out b ->
  exists rest, buffer b = out ++ rest /\ length rest = (n - length out)%nat /\ (length out < n)%nat
    /\ pbuffer b = len out /\ buffer_len b = Z.of_nat n.
Proof.
  intros (Hl & Hb & [rest Hs]%starts_split & Hp & Hlt). exists rest. rewrite Hs, length_app in Hl. split_and!; try done. lia.
Qed.
Lemma holds_join n out rest bl : (length out < n)%nat -> length rest = (n - length out)%nat -> bl = Z.of_nat n ->
  holds n out (mk_buff (out ++ rest) (len out) bl).
Proof.
  intros H1 H2 ->. split_and!; cbn; [rewrite length_app; lia|done| |done|done]. apply starts_split. by eexists.
Qed.

Lemma putc_spec n out b ch : Z.of_nat n < 2 ^ 32 -> holds n out b ->
  exists r b', _putc ch b = Ok (r, b') /\ holds n (fit n (out ++ [ch])) b'.
Proof.
  intros Hn Hh. destruct (holds_split _ _ _ Hh) as (rest & Hs & Hr & Hlt & Hp & Hb). unfold _putc.
  rewrite Hp, Hb, Hs. replace (u32 (len out + 1)) with (len out + 1) by (symmetry; apply Z.mod_small; lia).
  destruct (Z.leb_spec (Z.of_nat n) (len out + 1)).
  - exists 0, b. split; [done|]. by rewrite fit_full by lia.
  - destruct rest as [|x [|y rest]]; cbn [length] in Hr; try lia. rewrite wr_at by done. cbn [obind].
    replace (out ++ ch :: y :: rest) with ((out ++ [ch]) ++ y :: rest) by by rewrite <-app_assoc.
    rewrite wr_at by (rewrite len_snoc; lia). cbn [obind]. eexists _, _. split; [done|].
    rewrite fit_room by (rewrite length_app; cbn; lia). replace (len out + 1) with (len (out ++ [ch])) by (rewrite len_snoc; lia).
    apply holds_join; [rewrite length_app; cbn; lia|cbn; rewrite length_app; cbn; lia|done].
Qed.

Lemma slice_inv {A} (l r : list A) i n :
  slice l i n = Ok r -> 0 <= i /\ 0 <= n /\ i + n <= len l /\ r = take (Z.to_nat n) (drop (Z.to_nat i) l).
Proof.
  unfold slice. destruct (Z.leb_spec 0 i), (Z.leb_spec 0 n), (Z.leb_spec (i + n) (len l)); cbn; try done. by intros [= <-].
Qed.

Lemma puts_loop_spec s : forall m p out old rest,
  slice m p (len s) = Ok s -> length old = length s ->
  puts_loop (length s) m p (out ++ old ++ rest) (len out) = Ok (out ++ s ++ rest).
Proof.
  induction s as [|c s IH]; intros m p out old rest Hm Ho; destruct old as [|x old]; try done. cbn [length puts_loop].
  apply slice_inv in Hm as (Hp & _ & Hle & Hm). rewrite Nat2Z.id in Hm. cbn [length take] in Hm, Hle. symmetry in Hm. destruct (drop (Z.to_nat p) m) as [|c' m'] eqn:Ed; [done|]. injection Hm as -> Hm.
  assert (m !! Z.to_nat p = Some c) as Hc by (rewrite <-(Nat.add_0_r (Z.to_nat p)), <-lookup_drop, Ed; done).
  rewrite (rd_lookup m p c) by (lia || done). cbn [obind app]. rewrite wr_at by done. cbn [obind].
  replace (len out + 1) with (len (out ++ [c])) by (rewrite len_snoc; lia).
  replace (out ++ c :: old ++ rest) with ((out ++ [c]) ++ old ++ rest) by by rewrite <-app_assoc.
  rewrite IH; [by rewrite <-app_assoc| |cbn in Ho; lia].
  rewrite slice_ok by lia. f_equal. rewrite Nat2Z.id. replace (Z.to_nat (p + 1)) with (Z.to_nat p + 1)%nat by lia.
  rewrite <-drop_drop, Ed. cbn. by rewrite drop_0.
Qed.

Lemma slice_prefix (m s : list Z) p k : slice m p (len s) = Ok s -> slice m p (len (take k s)) = Ok (take k s).
Proof.
  intros (Hp & _ & Hle & Hs)%slice_inv. rewrite Nat2Z.id in Hs. rewrite slice_ok by (rewrite ?length_take; lia).
  f_equal. rewrite Nat2Z.id, length_take. rewrite Hs at 2. by rewrite take_take, Nat.min_comm.
Qed.

Lemma puts_spec n out b m p s : Z.of_nat n < 2 ^ 32 -> slice m p (len s) = Ok s -> holds n out b ->
  exists r b', _puts m p (len s) b = Ok (r, b') /\ holds n (fit n (out ++ s)) b'.
Proof.
  intros Hn Hm Hh. destruct (holds_split _ _ _ Hh) as (rest & Hs & Hr & Hlt & Hp & Hb). unfold _puts. rewrite Hp, Hb, Hs.
  replace (u32 (Z.of_nat n - len out - 1)) with (Z.of_nat (n - length out - 1)) by (unfold u32; rewrite Z.mod_small; lia).
  set (t := take (n - length out - 1) s).
  assert ((if Z.of_nat (n - length out - 1) <? len s then Z.of_nat (n - length out - 1) else len s) = len t) as ->.
  { subst t. rewrite length_take. destruct (Z.ltb_spec (Z.of_nat (n - length out - 1)) (len s)); lia. }
  assert (length t < n - length out)%nat as Ht by (subst t; rewrite length_take; lia).
  rewrite Nat2Z.id. rewrite <-(take_drop (length t) rest).
  rewrite (puts_loop_spec t); [|by apply slice_prefix|rewrite length_take; lia]. cbn [obind].
  destruct (drop (length t) rest) as [|x rest'] eqn:Ed; [apply (f_equal length) in Ed; rewrite length_drop in Ed; cbn in Ed; lia|].
  rewrite app_assoc, wr_at by (rewrite length_app; lia). cbn [obind]. eexists _, _. split; [done|].
  replace (fit n (out ++ s)) with (out ++ t); [replace (len out + len t) with (len (out ++ t)) by (rewrite length_app; lia)|].
  - apply holds_join; [rewrite length_app; lia| |done]. apply (f_equal length) in Ed. rewrite length_drop in Ed.
    rewrite length_app. cbn in *. lia.
  - unfold fit. rewrite take_app_ge by lia. subst t. do 2 f_equal. lia.
Qed.

(** ** The loop over the format *)

Lemma starts_slice s l : starts s l -> slice l 0 (len s) = Ok s.
Proof.
  intros [r ->]%starts_split. rewrite slice_ok by (rewrite ?length_app; lia). cbn. by rewrite Nat2Z.id, drop_0, take_app_length.
Qed.
Lemma cstr_text m p s : cstr m p s -> slice m p (len s) = Ok s.
Proof.
  intros (pre & post & -> & -> & _). rewrite slice_ok by (rewrite ?length_app; cbn; lia).
  by rewrite !Nat2Z.id, drop_app_length, take_app_length.
Qed.

Lemma convert_number n out b v (va bf : list Z) w radix up unsig (k : nat) :
  Z.of_nat n < 2 ^ 32 -> holds n out b -> length bf = 24%nat -> 0 <= w <= 9 ->
  1 < radix <= 16 -> 2 ^ 32 <= radix ^ Z.of_nat k -> (0 < k <= 12)%nat ->
  exists bf' b', (try! r := mini_itoa (i32 v) radix up unsig bf w in
                  try! p := _puts (snd r) 0 (fst r) b in Ok (va, snd r, snd p)) = Ok (va, bf', b')
    /\ length bf' = 24%nat /\ holds n (fit n (out ++ itoa_text (i32 v) radix up unsig w)) b'.
Proof.
  intros Hn Hh Hbf Hw Hr Hk Hk12.
  destruct (mini_itoa_spec (i32 v) radix up unsig bf w k) as (bf' & E & El & Hs); [done|apply i32_range|done|lia..|].
  rewrite E. cbn [obind fst snd].
  destruct (puts_spec n out b bf' 0 _ Hn (starts_slice _ _ Hs) Hh) as (r & b' & -> & Hb'). cbn [obind fst snd].
  eexists _, _. split; [done|]. split; [congruence|done].
Qed.

Lemma convert_spec n out b m ch w va bf args t args' :
  Z.of_nat n < 2 ^ 32 -> holds n out b -> length bf = 24%nat -> 0 <= w <= 9 ->
  Forall2 (arg_ok m) va args -> conversion ch w args = Some (t, args') ->
  exists va' bf' b', convert m ch w va bf b = Ok (va', bf', b') /\ Forall2 (arg_ok m) va' args'
    /\ length bf' = 24%nat /\ holds n (fit n (out ++ t)) b'.
Proof.
  intros Hn Hh Hbf Hw Ha. unfold conversion, convert.
  destruct (ch =? char_u) eqn:Eu; [|destruct (ch =? char_d) eqn:Ed; [|destruct (ch =? char_x) eqn:Ex;
    [|destruct (ch =? char_X) eqn:EX; [|destruct (ch =? char_c) eqn:Ec; [|destruct (ch =? char_s) eqn:Es]]]]]; cbn [orb].
  1-5: destruct Ha as [|v [z|s] va args Hv Ha]; intros [= <- <-]; cbn [arg_ok] in Hv; subst z; cbn [va_arg obind fst snd].
  - destruct (convert_number n out b v va bf w 10 false true 10) as (bf' & b' & E & H); [done..|lia|].
    rewrite unsigned_itoa in H. exists va, bf', b'. split_and!; [exact E|done|by apply H..].
  - destruct (convert_number n out b v va bf w 10 false false 10) as (bf' & b' & E & H); [done..|lia|].
    rewrite signed_itoa in H. exists va, bf', b'. split_and!; [exact E|done|by apply H..].
  - assert ((ch =? char_X) = false) as EX by (apply Z.eqb_eq in Ex as ->; done). rewrite EX.
    destruct (convert_number n out b v va bf w 16 false true 8) as (bf' & b' & E & H); [done..|lia|].
    rewrite unsigned_itoa in H. exists va, bf', b'. split_and!; [exact E|done|by apply H..].
  - destruct (convert_number n out b v va bf w 16 true true 8) as (bf' & b' & E & H); [done..|lia|].
    rewrite unsigned_itoa in H. exists va, bf', b'. split_and!; [exact E|done|by apply H..].
  - destruct (putc_spec n out b (u8 v) Hn Hh) as (r & b' & E & H). rewrite E. cbn [obind snd]. eauto 8.
  - destruct Ha as [|v [z|s] va args Hv Ha]; intros [= <- <-]. cbn [arg_ok] in Hv. cbn [va_arg obind fst snd].
    change (mini_strlen m v) with (strlen m v). rewrite (strlen_spec _ _ _ Hv). cbn [obind].
    destruct (puts_spec n out b m v s Hn (cstr_text _ _ _ Hv) Hh) as (r & b' & E & H). rewrite E. cbn [obind snd]. eauto 8.
  - intros [= <- <-]. destruct (putc_spec n out b ch Hn Hh) as (r & b' & E & H). rewrite E. cbn [obind snd]. eauto 8.
Qed.

Lemma cstr_tl m p c s : cstr m p (c :: s) -> cstr m (p + 1) s.
Proof. intros H. apply (cstr_drop _ _ _ 1) in H; [done|cbn; lia]. Qed.
Lemma cstr_hd_ne m p c s : cstr m p (c :: s) -> (c =? 0) = false.
Proof. intros (? & ? & _ & _ & Hf). exact (cstr_byte_ne _ _ Hf). Qed.

(** What is read behind a percent sign, from the string itself. *)
Lemma read_spec_spec m p s : cstr m p s ->
  read_spec m p = Ok match s with
  | [] => Some (0, 0, p + 1)
  | d :: s' =>
      if d =? digit_0 then
        match s' with
        | [] => None
        | w :: s'' => Some (if is_dec w then w - digit_0 else 0, hd 0 s'', p + 3)
        end
      else Some (0, d, p + 1)
  end.
Proof.
  intros Hc. unfold read_spec. rewrite (cstr_head _ _ _ Hc). destruct s as [|d s]; [done|]. cbn [hd obind].
  destruct (d =? digit_0); [|done].
  pose proof (cstr_tl _ _ _ _ Hc) as Hc1.
  rewrite (cstr_head _ _ _ Hc1). destruct s as [|w s]; [done|]. cbn [hd obind].
  assert ((w =? 0) = false) as -> by exact (cstr_hd_ne _ _ _ _ Hc1).
  pose proof (cstr_tl _ _ _ _ Hc1) as Hc2. replace (p + 2) with (p + 1 + 1) by lia.
  by rewrite (cstr_head _ _ _ Hc2).
Qed.

Lemma is_dec_width w : 0 <= (if is_dec w then w - digit_0 else 0) <= 9.
Proof. unfold is_dec, digit_0, digit_9. destruct (Z.leb_spec 48 w), (Z.leb_spec w 57); cbn; lia. Qed.

Section loop.
Context (m : mem) (n : nat) (Hn : Z.of_nat n < 2 ^ 32).

(** One round of the loop has been done by [IH] for every shorter format. *)
Definition prints (fuel : nat) : Prop := forall s p va args bf b out text,
  (length s < fuel)%nat -> cstr m p s -> Forall2 (arg_ok m) va args -> format s args = Some text ->
  length bf = 24%nat -> holds n out b ->
  exists b', vsnprintf_loop fuel m p va bf b = Ok b' /\ holds n (fit n (out ++ text)) b'.

Lemma prints_conversion fuel ch w s p va args bf b out text :
  prints fuel -> (length s < fuel)%nat -> cstr m p s -> Forall2 (arg_ok m) va args ->
  match conversion ch w args with
  | Some (t, args) => match format s args with Some t' => Some (t ++ t') | None => None end
  | None => None
  end = Some text ->
  0 <= w <= 9 -> length bf = 24%nat -> holds n out b ->
  exists b', (try! r := convert m ch w va bf b in vsnprintf_loop fuel m p (fst (fst r)) (snd (fst r)) (snd r)) = Ok b'
    /\ holds n (fit n (out ++ text)) b'.
Proof using Hn.
  intros IH Hl Hc Ha Hf Hw Hbf Hh. destruct (conversion ch w args) as [[t args']|] eqn:Ec; [|done].
  destruct (format s args') as [t'|] eqn:Ef; [|done]. injection Hf as <-.
  destruct (convert_spec n out b m ch w va bf args t args') as (va' & bf' & b' & E & Ha' & Hbf' & Hh'); [done..|].
  rewrite E. cbn [obind fst snd].
  destruct (IH s p va' args' bf' b' _ t' Hl Hc Ha' Ef Hbf' Hh') as (b'' & E' & H''). exists b''. split; [done|].
  by rewrite fit_fit, <-app_assoc in H''.
Qed.

Lemma vsnprintf_loop_spec fuel : prints fuel.
Proof using Hn.
  induction fuel as [|fuel IH]; intros s p va args bf b out text Hl Hc Ha Hf Hbf Hh; [lia|]. cbn [vsnprintf_loop].
  rewrite (cstr_head _ _ _ Hc). destruct s as [|c s]; cbn [hd obind]; cbn [format length] in Hf, Hl.
  { injection Hf as <-. exists b. split; [done|]. rewrite app_nil_r, fit_room; [done|apply Hh]. }
  assert ((c =? 0) = false) as -> by exact (cstr_hd_ne _ _ _ _ Hc).
  pose proof (cstr_tl _ _ _ _ Hc) as Hc1.
  destruct (holds_split _ _ _ Hh) as (_ & _ & _ & Hlt & Hp & Hb). rewrite Hp, Hb.
  replace (u32 (len out + 1)) with (len out + 1) by (symmetry; apply Z.mod_small; lia).
  destruct (Z.leb_spec (Z.of_nat n) (len out + 1)).
  { exists b. split; [done|]. by rewrite fit_full by lia. }
  destruct (negb (c =? char_percent)) eqn:Epc; cbn in Hf.
  { destruct (format s args) as [t|] eqn:Ef; [|done]. injection Hf as <-.
    destruct (putc_spec n out b c Hn Hh) as (r & b' & -> & Hh'). cbn [obind snd].
    destruct (IH s (p + 1) va args bf b' (fit n (out ++ [c])) t) as (b'' & E & H''); [lia|done..|]. exists b''. split; [done|].
    by rewrite fit_fit, <-app_assoc in H''. }
  rewrite (read_spec_spec _ _ _ Hc1).
  assert (forall t, Some [] = Some t -> fit n (out ++ t) = out) as Hend.
  { intros t [= <-]. rewrite app_nil_r. by apply fit_room. }
  destruct s as [|d s]; cbn [obind]; [exists b; split; [done|by rewrite Hend]|].
  pose proof (cstr_tl _ _ _ _ Hc1) as Hc2.
  destruct (d =? digit_0); cbn [obind].
  - destruct s as [|w s]; [exists b; split; [done|by rewrite Hend]|]. cbn [obind].
    destruct s as [|ch s]; [exists b; split; [done|by rewrite Hend]|]. cbn [hd].
    pose proof (cstr_tl _ _ _ _ Hc2) as Hc3.
    assert ((ch =? 0) = false) as -> by exact (cstr_hd_ne _ _ _ _ Hc3).
    pose proof (cstr_tl _ _ _ _ Hc3) as Hc4.
    replace (p + 1 + 3) with (p + 1 + 1 + 1 + 1) by lia. cbn [length] in Hl.
    eapply (prints_conversion fuel _ _ s); [done|lia|done|done|exact Hf|apply is_dec_width|done|done].
  - assert ((d =? 0) = false) as -> by exact (cstr_hd_ne _ _ _ _ Hc1).
    cbn [length] in Hl.
    eapply (prints_conversion fuel _ _ s); [done|lia|done|done|exact Hf|lia|done|done].
Qed.
End loop.

Lemma vsnprintf_spec m p s va args text bf l :
  0 < len l < 2 ^ 32 -> length bf = 24%nat -> cstr m p s -> Forall2 (arg_ok m) va args -> format s args = Some text ->
  exists l', mini_vsnprintf bf l (len l) m p va = Ok (Z.min (len text) (len l - 1), l')
    /\ length l' = length l /\ starts (fit (length l) text) l'.
Proof.
  intros Hl Hbf Hc Ha Hf. unfold mini_vsnprintf.
  destruct (vsnprintf_loop_spec m (length l) ltac:(lia) (S (length m)) s p va args bf (mk_buff l 0 (len l)) [] text)
    as (b' & E & Hh); [by apply (cstr_fuel _ p)|done|done|done|done|split_and!; cbn; (done || lia)|].
  rewrite E. cbn [obind]. destruct Hh as (Hlb & _ & Hs & Hp & _). exists (buffer b'). split; [|done].
  rewrite Hp. unfold fit. rewrite length_take, app_nil_l. repeat f_equal. lia.
Qed.

Lemma until_nul_split s t : exists r, until_nul s ++ 0 :: r = s ++ 0 :: t /\ Forall (fun b => b <> 0) (until_nul s).
Proof.
  induction s as [|c s (r & E & Hf)]; cbn; [by exists t|]. destruct (Z.eqb_spec c 0) as [->|Hc]; cbn.
  - eexists. split; [done|constructor].
  - exists r. rewrite E. split; [done|by constructor].
Qed.

Lemma printk_spec {port} `{Pmon port} buff bf m fmt s va args text (serial : port) :
  length buff = 256%nat -> length bf = 24%nat -> cstr m fmt s -> Forall2 (arg_ok m) va args -> format s args = Some text ->
  printk buff bf m fmt va serial = Ok (Z.min (len text) 255, printstr (until_nul (take 255 text)) serial).
Proof.
  intros Hl Hbf Hc Ha Hf. unfold printk, port_write.
  destruct (vsnprintf_spec m fmt s va args text bf buff) as (l & E & Hll & Hs); [lia|done..|].
  rewrite Hl in E, Hs, Hll. change (Z.of_nat 256) with 256 in E. change (256 - 1) with 255 in E. unfold fit in Hs. change (256 - 1)%nat with 255%nat in Hs.
  unfold bind, lift, modify, ret. rewrite E. cbn [fst snd]. apply starts_split in Hs as [r ->].
  assert (Z.min (len text) 255 = len (take 255 text)) as Hm by (rewrite length_take; lia). rewrite Hm.
  destruct r as [|x r]; [rewrite app_nil_r, length_take in Hll; lia|]. rewrite wr_at by done.
  destruct (until_nul_split (take 255 text) r) as (r' & Er & Hnz). rewrite <-Er.
  rewrite (strlen_spec _ 0 (until_nul (take 255 text))) by by exists [], r'. cbn [fst snd]. by rewrite Nat2Z.id, take_app_length.
Qed.

(** ** Theorems *)

(** C27: [printk] writes the text of its format, for every mix of conversions and
    arguments that fit: it returns within its buffers on the stack (no matter
    how long the text is or what the buffers held), sends the text cut off after
    255 characters (and at a zero byte), and returns its length.  The port may
    be any that sends a string character by character. *)
Theorem printk_correct {port} `{Pmon port} buff bf m fmt s va args text (serial : port) :
  length buff = 256%nat -> length bf = 24%nat -> cstr m fmt s -> Forall2 (arg_ok m) va args -> format s args = Some text ->
  printk buff bf m fmt va serial
  = Ok (Z.min (len text) 255, foldl (fun p c => printch c p) serial (until_nul (take 255 text))).
Proof. intros Hl Hbf Hc Ha Hf. by rewrite (printk_spec _ _ _ _ s _ args text), printstr_chars. Qed.

(** [printk("%d:%04x %s", -7, 255, "ok")] on a port that records its input. *)
Lemma printk_correct_witness :
  let m := [37; 100; 58; 37; 48; 52; 120; 32; 37; 115; 0; 111; 107; 0] in
  printk (replicate 256 1) (replicate 24 2) m 0 [-7; 255; 11] []
  = Ok (10, [45; 55; 58; 48; 48; 102; 102; 32; 111; 107] : transcript).
Proof.
  intros m. refine (printk_correct (port := transcript) (replicate 256 1) (replicate 24 2) m 0 [37; 100; 58; 37; 48; 52; 120; 32; 37; 115]
    [-7; 255; 11] [AInt (-7); AInt 255; AStr [111; 107]] [45; 55; 58; 48; 48; 102; 102; 32; 111; 107] [] _ _ _ _ _).
  - reflexivity.
  - reflexivity.
  - exists [], [111; 107; 0]. split_and!; [reflexivity..|]. repeat constructor; lia.
  - repeat constructor. exists [37; 100; 58; 37; 48; 52; 120; 32; 37; 115; 0], []. split_and!; [reflexivity..|]. repeat constructor; lia.
  - vm_compute. reflexivity.
Defined.
