(* ===== verification/Screen.v ===== *)
(** The screen: drivers/screen.c (the variant of project 3, which is the one
    compiled), and [printf] of printk.c.

    The kernel keeps what the screen should show ([new_screen]) and what it last
    sent to the terminal ([old_screen]); a refresh sends the difference, each
    character behind a sequence that moves the cursor of the terminal. *)

From S2P Require Import Prelude Wp CString Printk.

Definition SCREEN_WIDTH : Z := 80.
Definition SCREEN_HEIGHT : Z := 60.

(** ** State and operations *)

Record screen (port : Type) := mk_screen {
  screen_cursor_x : Z;
  screen_cursor_y : Z;
  new_screen : list Z;
  old_screen : list Z;
  serial : port
}.
Arguments mk_screen {port}.
Arguments screen_cursor_x {port}.
Arguments screen_cursor_y {port}.
Arguments new_screen {port}.
Arguments old_screen {port}.
Arguments serial {port}.

Section screen.
Context {port : Type} `{Pmon port}.
(** What the buffers of [printk] on the stack hold before the call. *)
Context (buff bf : list Z).

Definition Scr := M (screen port).
Definition set_cursor_x (x : Z) : Scr unit := modify (fun s => mk_screen x (screen_cursor_y s) (new_screen s) (old_screen s) (serial s)).
Definition set_cursor_y (y : Z) : Scr unit := modify (fun s => mk_screen (screen_cursor_x s) y (new_screen s) (old_screen s) (serial s)).
Definition get_new (k : Z) : Scr Z := let! l := gets new_screen in lift (rd l k).
Definition get_old (k : Z) : Scr Z := let! l := gets old_screen in lift (rd l k).
Definition set_new (k v : Z) : Scr unit :=
  let! l := gets new_screen in
  let! l := lift (wr l k v) in
  modify (fun s => mk_screen (screen_cursor_x s) (screen_cursor_y s) l (old_screen s) (serial s)).
Definition set_old (k v : Z) : Scr unit :=
  let! l := gets old_screen in
  let! l := lift (wr l k v) in
  modify (fun s => mk_screen (screen_cursor_x s) (screen_cursor_y s) (new_screen s) l (serial s)).
(** A computation on the serial port. *)
Definition on_port {A} (m : M port A) : Scr A := fun s =>
  match m (serial s) with
  | Ok (a, p) => Ok (a, mk_screen (screen_cursor_x s) (screen_cursor_y s) (new_screen s) (old_screen s) p)
  | Fault f => Fault f
  end.

(** The format strings, with their end marks. *)
Definition move_format : list Z := [37; 99; 91; 37; 100; 59; 37; 100; 72; 0].  (* %c[%d;%dH *)
Definition clear_format : list Z := [37; 99; 91; 50; 74; 0].                   (* %c[2J *)
Definition hide_format : list Z := [37; 99; 91; 63; 50; 53; 108; 0].           (* %c[?25l *)

Definition vt100_move_cursor (x y : Z) : Scr unit := do! on_port (printk buff bf move_format 0 [27; y; x]); ret tt.
Definition vt100_clear : Scr unit := do! on_port (printk buff bf clear_format 0 [27]); ret tt.
Definition vt100_hidden_cursor : Scr unit := do! on_port (printk buff bf hide_format 0 [27]); ret tt.

(** [for (i = line1; i <= line2; i++) for (j = 0; j < SCREEN_WIDTH; j++)]. *)
Definition for_cells (line1 line2 : Z) (body : Z -> Z -> Scr unit) : Scr unit :=
  for_range (Z.to_nat (line2 + 1 - line1)) line1 (fun i =>
    for_range (Z.to_nat SCREEN_WIDTH) 0 (fun j => body i j)).

Definition screen_scroll (line1 line2 : Z) : Scr unit :=
  do! for_cells line1 line2 (fun i j => set_old (i * SCREEN_WIDTH + j) 0);
  for_cells line1 line2 (fun i j =>
    if i =? line2 then set_new (i * SCREEN_WIDTH + j) 32
    else
      let! c := get_new ((i + 1) * SCREEN_WIDTH + j) in
      set_new (i * SCREEN_WIDTH + j) c).

(** The character itself, and then the limits of the cursor. *)
Definition put_char (ch : Z) : Scr unit :=
  let! x := gets screen_cursor_x in
  let! y := gets screen_cursor_y in
  if ch =? 10 then
    do! set_cursor_x 0;
    set_cursor_y (i32 (y + 1))
  else if ch =? 8 then
    if x >? 0 then
      do! set_cursor_x (x - 1);
      set_new (y * SCREEN_WIDTH + (x - 1)) 32
    else ret tt
  else if ch =? 13 then
    do! set_cursor_x 0;
    set_cursor_y (i32 (y + 1))
  else
    do! set_new (y * SCREEN_WIDTH + x) ch;
    set_cursor_x (i32 (x + 1)).
Definition limit_row : Scr unit :=
  let! y := gets screen_cursor_y in
  do! (if y <? 0 then set_cursor_y 0 else ret tt);
  let! y := gets screen_cursor_y in
  if y >=? SCREEN_HEIGHT then
    do! screen_scroll (SCREEN_HEIGHT / 2 + 1) (SCREEN_HEIGHT - 1);
    do! set_cursor_x 0;
    set_cursor_y (SCREEN_HEIGHT - 1)
  else ret tt.
Definition limit_cursor : Scr unit :=
  let! x := gets screen_cursor_x in
  do! (if x <? 0 then set_cursor_x 0 else ret tt);
  let! x := gets screen_cursor_x in
  let! y := gets screen_cursor_y in
  do! (if x >=? SCREEN_WIDTH then do! set_cursor_y (i32 (y + 1)); set_cursor_x 0 else ret tt);
  limit_row.
Definition screen_write_ch (ch : Z) : Scr unit := do! put_char ch; limit_cursor.

Definition screen_reflush : Scr unit :=
  do! for_cells 0 (SCREEN_HEIGHT - 1) (fun i j =>
    let k := i * SCREEN_WIDTH + j in
    let! c := get_new k in
    let! d := get_old k in
    if negb (c =? d) then
      do! vt100_move_cursor (j + 1) (i + 1);
      do! on_port (port_write_ch c);
      set_old k c
    else ret tt);
  let! x := gets screen_cursor_x in
  let! y := gets screen_cursor_y in
  vt100_move_cursor x y.

(** The two parameters are not used. *)
Definition screen_clear (line1 line2 : Z) : Scr unit :=
  do! for_cells 0 (SCREEN_HEIGHT - 1) (fun i j =>
    do! set_new (i * SCREEN_WIDTH + j) 32;
    set_old (i * SCREEN_WIDTH + j) 0);
  do! set_cursor_x 0;
  do! set_cursor_y 0;
  screen_reflush.

Definition init_screen : Scr unit :=
  do! vt100_hidden_cursor;
  do! vt100_clear;
  screen_clear 0 (SCREEN_HEIGHT - 1).

Definition screen_move_cursor (x y : Z) : Scr unit := do! set_cursor_x x; set_cursor_y y.
Definition screen_cursor_add (dx dy : Z) : Scr unit :=
  let! x := gets screen_cursor_x in
  let! y := gets screen_cursor_y in
  do! set_cursor_x (i32 (x + dx));
  set_cursor_y (i32 (y + dy)).

Definition screen_write (m : mem) (b : Z) : Scr unit :=
  let! l := lift (strlen m b) in
  for_range (Z.to_nat l) 0 (fun i => let! c := lift (rd m (b + i)) in screen_write_ch c).
Definition do_write (m : mem) (b : Z) : Scr unit := do! screen_write m b; screen_reflush.

(** [sys_write] is the system call whose handler is [do_write]. *)
Definition printf (m : mem) (fmt : Z) (va : list Z) : Scr Z :=
  let! r := lift (mini_vsnprintf bf buff 256 m fmt va) in
  let! l := lift (wr (snd r) (fst r) 0) in
  do! do_write l 0;
  ret (fst r).
End screen.

(** ** The terminal *)

Definition sends {port} `{Pmon port} (s : list Z) (p : port) : port := foldl (fun p c => printch c p) p s.

(** The control sequences: cursor position, erase, hide the cursor. *)
Definition move_text (x y : Z) : list Z := 27 :: 91 :: numeral 10 false y ++ 59 :: numeral 10 false x ++ [72].
Definition clear_text : list Z := [27; 91; 50; 74].
Definition hide_text : list Z := [27; 91; 63; 50; 53; 108].
Definition printable (c : Z) : Prop := 32 <= c < 127.
Definition on_screen (i j : Z) : Prop := 0 <= i < SCREEN_HEIGHT /\ 0 <= j < SCREEN_WIDTH.

(** What the code relies on of a VT100 terminal: [ready] outside of a control
    sequence, the column and line of its cursor (from 1), and its characters by
    line and column (from 0).  A parameter of 0 stands for 1. *)
Class Vt100 (port : Type) `{Pmon port} := {
  ready : port -> Prop;
  cursor : port -> Z * Z;
  cell : port -> Z -> Z -> Z;
  vt100_move x y p : ready p -> 0 <= x <= SCREEN_WIDTH -> 0 <= y <= SCREEN_HEIGHT ->
    ready (sends (move_text x y) p) /\ cursor (sends (move_text x y) p) = (Z.max 1 x, Z.max 1 y)
    /\ forall i j, cell (sends (move_text x y) p) i j = cell p i j;
  vt100_print c p i j : ready p -> printable c -> on_screen i j -> cursor p = (j + 1, i + 1) ->
    ready (printch c p) /\ cell (printch c p) i j = c
    /\ forall i' j', on_screen i' j' -> (i', j') <> (i, j) -> cell (printch c p) i' j' = cell p i' j';
  vt100_erase p : ready p -> ready (sends clear_text p);
  vt100_hide p : ready p -> ready (sends hide_text p)
}.

(** *** A terminal that follows these rules *)

Inductive vt_mode := Text | Escape | Control (args : list Z) (n : Z).
Record vt := mk_vt { vt_cells : list Z; vt_x : Z; vt_y : Z; vt_mode_of : vt_mode }.

Definition vt_control (c : Z) (args : list Z) (n : Z) (t : vt) : vt :=
  if is_dec c then mk_vt (vt_cells t) (vt_x t) (vt_y t) (Control args (n * 10 + (c - digit_0)))
  else if c =? 59 then mk_vt (vt_cells t) (vt_x t) (vt_y t) (Control (args ++ [n]) 0)
  else if c =? 63 then t
  else if c =? 72 then
    mk_vt (vt_cells t) (Z.max 1 n) (Z.max 1 (hd 1 args)) Text
  else if c =? 74 then
    mk_vt (if n =? 2 then replicate (length (vt_cells t)) 32 else vt_cells t) (vt_x t) (vt_y t) Text
  else mk_vt (vt_cells t) (vt_x t) (vt_y t) Text.
Definition vt_char (c : Z) (t : vt) : vt :=
  match vt_mode_of t with
  | Text =>
      if c =? 27 then mk_vt (vt_cells t) (vt_x t) (vt_y t) Escape
      else mk_vt (<[Z.to_nat ((vt_y t - 1) * SCREEN_WIDTH + (vt_x t - 1)) := c]> (vt_cells t))
             (Z.min SCREEN_WIDTH (vt_x t + 1)) (vt_y t) Text
  | Escape => mk_vt (vt_cells t) (vt_x t) (vt_y t) (if c =? 91 then Control [] 0 else Text)
  | Control args n => vt_control c args n t
  end.
#[export] Instance vt_pmon : Pmon vt :=
  {| printch := vt_char; printstr s p := foldl (fun p c => vt_char c p) p s; printstr_chars s p := eq_refl |}.

Definition vt_cell (t : vt) (i j : Z) : Z := default 0 (vt_cells t !! Z.to_nat (i * SCREEN_WIDTH + j)).
Definition vt_ready (t : vt) : Prop := vt_mode_of t = Text /\ len (vt_cells t) = SCREEN_HEIGHT * SCREEN_WIDTH.

Lemma vt_digits l cells x y args n : Forall (fun d => 0 <= d < 10) l ->
  sends (map (digit_char false) l) (mk_vt cells x y (Control args n))
  = mk_vt cells x y (Control args (foldl (fun n d => n * 10 + d) n l)).
Proof.
  revert n. induction l as [|d l IH]; intros n Hl; [done|]. apply Forall_cons in Hl as [Hd Hl]. cbn [map].
  unfold sends. cbn [foldl printch vt_pmon vt_char vt_mode_of vt_control].
  unfold digit_char. destruct (Z.ltb_spec d 10); [|lia].
  unfold vt_char. cbn [vt_mode_of]. unfold vt_control.
  assert (is_dec (digit_0 + d) = true) as -> by (unfold is_dec, digit_0, digit_9; lia). cbn [vt_cells vt_x vt_y].
  replace (n * 10 + (digit_0 + d - digit_0)) with (n * 10 + d) by lia. by apply IH.
Qed.
Lemma vt_numeral cells x y args z : 0 <= z < 2 ^ 32 ->
  sends (numeral 10 false z) (mk_vt cells x y (Control args 0)) = mk_vt cells x y (Control args z).
Proof.
  intros Hz. unfold numeral. rewrite vt_digits by (apply Forall_rev, digits_range; lia).
  change (foldl _ 0 (rev (digits 32 10 z))) with (value 10 (rev (digits 32 10 z))).
  rewrite value_digits; [done|lia|]. assert (2 ^ 32 <= 10 ^ Z.of_nat 32) by (cbn; lia). lia.
Qed.

Lemma sends_app {port} `{Pmon port} s t p : sends (s ++ t) p = sends t (sends s p).
Proof. unfold sends. apply foldl_app. Qed.

Lemma vt_intro s cells x y : sends (27 :: 91 :: s) (mk_vt cells x y Text) = sends s (mk_vt cells x y (Control [] 0)).
Proof. done. Qed.
Lemma vt_next s cells x y n : sends (59 :: s) (mk_vt cells x y (Control [] n)) = sends s (mk_vt cells x y (Control [n] 0)).
Proof. done. Qed.
Lemma vt_move x y p : vt_mode_of p = Text -> 0 <= x <= SCREEN_WIDTH -> 0 <= y <= SCREEN_HEIGHT ->
  sends (move_text x y) p = mk_vt (vt_cells p) (Z.max 1 x) (Z.max 1 y) Text.
Proof.
  destruct p as [cells px py md]. cbn [vt_mode_of vt_cells]. intros -> Hx Hy. unfold SCREEN_WIDTH, SCREEN_HEIGHT in *.
  unfold move_text. by rewrite vt_intro, sends_app, vt_numeral, vt_next, sends_app, vt_numeral by lia.
Qed.

#[export] Program Instance vt_vt100 : Vt100 vt :=
  {| ready := vt_ready; cursor t := (vt_x t, vt_y t); cell := vt_cell |}.
Next Obligation.
  intros x y p [Hm Hl] Hx Hy. rewrite vt_move by done. cbn. split_and!; done.
Qed.
Next Obligation.
  intros c [cells x y md] i j [Hm Hl] Hc [Hi Hj] [= -> ->]. cbn in Hm, Hl |- *. subst md. unfold vt_char. cbn [vt_mode_of].
  unfold printable in Hc. destruct (Z.eqb_spec c 27); [lia|]. unfold vt_ready, vt_cell. cbn [vt_cells vt_mode_of vt_x vt_y].
  replace ((i + 1 - 1) * SCREEN_WIDTH + (j + 1 - 1)) with (i * SCREEN_WIDTH + j) by lia.
  unfold SCREEN_WIDTH, SCREEN_HEIGHT in *. split_and!; [done|by rewrite length_insert| |].
  - rewrite list_lookup_insert_eq by lia. done.
  - intros i' j' [Hi' Hj'] Hne. rewrite list_lookup_insert_ne; [done|].
    intros Hk. apply Hne. unfold SCREEN_WIDTH, SCREEN_HEIGHT in *. assert (i' = i) as -> by lia. f_equal. lia.
Qed.
Next Obligation. intros [cells x y md] [Hm Hl]. cbn in Hm, Hl. subst md. split; [done|]. change (len (replicate (length cells) 32) = SCREEN_HEIGHT * SCREEN_WIDTH). by rewrite length_replicate. Qed.
Next Obligation. intros [cells x y md] [Hm Hl]. cbn in Hm, Hl. by subst md. Qed.

(** ** The console *)

(** The console that a writer has in mind: lines of characters and the position
    of the next one; the lower half scrolls. *)
Record console := mk_console { rows : list (list Z); col : Z; row : Z }.

Definition blank_row : list Z := replicate (Z.to_nat SCREEN_WIDTH) 32.
Definition put_at (i j : Z) (c : Z) (l : list (list Z)) : list (list Z) :=
  alter (fun r => <[Z.to_nat j := c]> r) (Z.to_nat i) l.
Definition scroll_rows (l : list (list Z)) : list (list Z) :=
  take (Z.to_nat (SCREEN_HEIGHT / 2 + 1)) l ++ drop (Z.to_nat (SCREEN_HEIGHT / 2 + 2)) l ++ [blank_row].
(** The position behind a character: the next line, and the last one after a
    scroll. *)
Definition settle (k : console) : console :=
  let k := if SCREEN_WIDTH <=? col k then mk_console (rows k) 0 (row k + 1) else k in
  if SCREEN_HEIGHT <=? row k then mk_console (scroll_rows (rows k)) 0 (SCREEN_HEIGHT - 1) else k.
Definition console_char (k : console) (c : Z) : console :=
  settle
    (if (c =? 10) || (c =? 13) then mk_console (rows k) 0 (row k + 1)
     else if c =? 8 then
       if 0 <? col k then mk_console (put_at (row k) (col k - 1) 32 (rows k)) (col k - 1) (row k) else k
     else mk_console (put_at (row k) (col k) c (rows k)) (col k + 1) (row k)).
Definition console_write (k : console) (s : list Z) : console := foldl console_char k s.

Definition console_wf (k : console) : Prop :=
  len (rows k) = SCREEN_HEIGHT /\ Forall (fun r => len r = SCREEN_WIDTH) (rows k) /\ Forall (Forall printable) (rows k)
  /\ 0 <= col k < SCREEN_WIDTH /\ 0 <= row k < SCREEN_HEIGHT.
(** Characters that a console can write. *)
Definition writable (c : Z) : Prop := printable c \/ c = 10 \/ c = 8 \/ c = 13.

(** *** The lines in one array *)

Section flat.
Context (w : nat).

Lemma concat_length (l : list (list Z)) : Forall (fun r => length r = w) l -> length (concat l) = (length l * w)%nat.
Proof. induction 1 as [|r l Hr _ IH]; [done|]. cbn. rewrite length_app, Hr, IH. done. Qed.
Lemma concat_take n (l : list (list Z)) : Forall (fun r => length r = w) l -> concat (take n l) = take (n * w) (concat l).
Proof.
  intros Hl. revert n. induction Hl as [|r l Hr _ IH]; intros [|n]; cbn; try done; [by rewrite take_nil|].
  rewrite IH. rewrite take_app_ge by lia. do 2 f_equal. lia.
Qed.
Lemma concat_drop n (l : list (list Z)) : Forall (fun r => length r = w) l -> concat (drop n l) = drop (n * w) (concat l).
Proof.
  intros Hl. revert n. induction Hl as [|r l Hr _ IH]; intros [|n]; cbn; try done; [by rewrite drop_nil|].
  rewrite IH. rewrite drop_app_ge by lia. f_equal. lia.
Qed.
Lemma concat_alter i j c (l : list (list Z)) : Forall (fun r => length r = w) l -> (i < length l)%nat -> (j < w)%nat ->
  concat (alter (fun r => <[j := c]> r) i l) = <[(i * w + j)%nat := c]> (concat l).
Proof.
  intros Hl Hi Hj. revert i Hi. induction Hl as [|r l Hr _ IH]; intros [|i] Hi; cbn in *; try lia.
  - by rewrite insert_app_l by lia.
  - rewrite IH by lia. rewrite insert_app_r_alt by lia. do 2 f_equal. lia.
Qed.
End flat.

Definition lines_ok (l : list (list Z)) : Prop := Forall (fun r => length r = Z.to_nat SCREEN_WIDTH) l.
Lemma wf_lines k : console_wf k -> lines_ok (rows k).
Proof. intros (_ & Hr & _). eapply Forall_impl; [exact Hr|]. unfold SCREEN_WIDTH. intros r. cbv beta. lia. Qed.

Lemma flat_put i j c l : lines_ok l -> len l = SCREEN_HEIGHT -> on_screen i j ->
  <[Z.to_nat (i * SCREEN_WIDTH + j) := c]> (concat l) = concat (put_at i j c l).
Proof.
  intros Hl Hn Hij. unfold put_at. unfold on_screen, SCREEN_HEIGHT, SCREEN_WIDTH in *.
  rewrite (concat_alter 80) by (done || lia). f_equal. lia.
Qed.

(** The last [n] lines move up by one, and a blank one comes in. *)
Definition scroll_flat (l : list Z) : list Z := take 2480 l ++ drop 2560 l ++ replicate 80 32.
Lemma flat_scroll l : lines_ok l -> scroll_flat (concat l) = concat (scroll_rows l).
Proof.
  intros Hl. unfold scroll_flat, scroll_rows. rewrite !concat_app, (concat_take 80), (concat_drop 80) by done.
  cbn [concat]. by rewrite app_nil_r.
Qed.

Lemma put_wf i j c l : on_screen i j -> printable c -> len l = SCREEN_HEIGHT ->
  Forall (fun r => len r = SCREEN_WIDTH) l -> Forall (Forall printable) l ->
  len (put_at i j c l) = SCREEN_HEIGHT /\ Forall (fun r => len r = SCREEN_WIDTH) (put_at i j c l)
  /\ Forall (Forall printable) (put_at i j c l).
Proof.
  intros Hij Hc Hl Hw Hp. unfold put_at. split_and!; [by rewrite length_alter| |].
  - apply Forall_alter; [done|]. intros r _ Hr. cbv beta in *. by rewrite length_insert.
  - apply Forall_alter; [done|]. intros r _ Hr. by apply Forall_insert.
Qed.
Lemma scroll_wf l : len l = SCREEN_HEIGHT -> Forall (fun r => len r = SCREEN_WIDTH) l -> Forall (Forall printable) l ->
  len (scroll_rows l) = SCREEN_HEIGHT /\ Forall (fun r => len r = SCREEN_WIDTH) (scroll_rows l)
  /\ Forall (Forall printable) (scroll_rows l).
Proof.
  intros Hl Hw Hp. unfold scroll_rows. change (Z.to_nat (SCREEN_HEIGHT / 2 + 1)) with 31%nat.
  change (Z.to_nat (SCREEN_HEIGHT / 2 + 2)) with 32%nat. unfold SCREEN_HEIGHT in *. split_and!.
  - rewrite !length_app, length_take, length_drop. cbn [length]. lia.
  - rewrite !Forall_app. split_and!; [by apply Forall_take|by apply Forall_drop|]. repeat constructor.
  - rewrite !Forall_app. split_and!; [by apply Forall_take|by apply Forall_drop|]. constructor; [|done].
    apply Forall_replicate. unfold printable. lia.
Qed.

Lemma settle_wf k : len (rows k) = SCREEN_HEIGHT -> Forall (fun r => len r = SCREEN_WIDTH) (rows k) -> Forall (Forall printable) (rows k) ->
  0 <= col k <= SCREEN_WIDTH -> 0 <= row k -> console_wf (settle k).
Proof.
  intros Hl Hw Hp Hc Hr. unfold settle. destruct (Z.leb_spec SCREEN_WIDTH (col k)); cbn [rows col row].
  - destruct (Z.leb_spec SCREEN_HEIGHT (row k + 1)); split_and!; cbn [rows col row]; try (by apply scroll_wf); try done;
      unfold SCREEN_HEIGHT, SCREEN_WIDTH in *; lia.
  - destruct (Z.leb_spec SCREEN_HEIGHT (row k)); split_and!; cbn [rows col row]; try (by apply scroll_wf); try done;
      unfold SCREEN_HEIGHT, SCREEN_WIDTH in *; lia.
Qed.
Lemma console_char_wf k c : console_wf k -> writable c -> console_wf (console_char k c).
Proof.
  intros (Hl & Hw & Hp & Hc & Hr) Hwr. unfold console_char.
  destruct ((c =? 10) || (c =? 13)) eqn:E1; [apply settle_wf; cbn; done || lia|].
  destruct (Z.eqb_spec c 8) as [->|Hc8].
  - destruct (Z.ltb_spec 0 (col k)); [|apply settle_wf; done || lia].
    destruct (put_wf (row k) (col k - 1) 32 (rows k)) as (? & ? & ?); [split; lia|unfold printable; lia|done..|].
    apply settle_wf; cbn; done || lia.
  - destruct (put_wf (row k) (col k) c (rows k)) as (? & ? & ?); [by split| |done..|].
    { destruct Hwr as [?|Hx]; [done|]. lia. }
    apply settle_wf; cbn; done || lia.
Qed.

Lemma concat_printable l : Forall (Forall printable) l -> Forall printable (concat l).
Proof. induction 1; cbn; [done|]. by apply Forall_app. Qed.

Lemma concat_lookup l i j : lines_ok l -> on_screen i j ->
  concat l !! Z.to_nat (i * SCREEN_WIDTH + j) = (r ← l !! Z.to_nat i; r !! Z.to_nat j).
Proof.
  intros Hl [Hi Hj]. unfold SCREEN_WIDTH in *. replace (Z.to_nat (i * 80 + j)) with (Z.to_nat i * 80 + Z.to_nat j)%nat by lia.
  assert (Z.to_nat j < 80)%nat as Hj' by lia. revert Hj'. generalize (Z.to_nat j) as b. generalize (Z.to_nat i) as a. clear Hi Hj.
  induction Hl as [|r l Hr _ IH]; intros a b Hb; [done|]. change (length r = 80%nat) in Hr. destruct a as [|a]; cbn [concat Nat.mul lookup].
  - cbn. by rewrite lookup_app_l by lia.
  - rewrite lookup_app_r by lia. rewrite Hr. replace (80 + a * 80 + b - 80)%nat with (a * 80 + b)%nat by lia. by apply IH.
Qed.

Definition blank_console : console := mk_console (replicate (Z.to_nat SCREEN_HEIGHT) blank_row) 0 0.

Lemma blank_console_wf : console_wf blank_console.
Proof.
  split_and!; cbn [rows col row blank_console]; try (unfold SCREEN_WIDTH, SCREEN_HEIGHT; lia).
  - by rewrite length_replicate.
  - by apply Forall_replicate.
  - apply Forall_replicate, Forall_replicate. unfold printable. lia.
Qed.

(** The array when the characters before [k] have been moved. *)
Definition moved (l : list Z) (k : Z) (n : nat) : option Z :=
  if decide (2480 <= Z.of_nat n < k) then (if decide (Z.of_nat n < 4720) then l !! (n + 80)%nat else Some 32) else l !! n.
Lemma moved_step l l' k c : 2480 <= k < 4800 -> len l' = 4800 -> (forall n, l' !! n = moved l k n) ->
  (if decide (k < 4720) then l !! Z.to_nat (k + 80) else Some 32) = Some c ->
  forall n, <[Z.to_nat k := c]> l' !! n = moved l (k + 1) n.
Proof.
  intros Hk Hl' Hm Hc n. destruct (decide (n = Z.to_nat k)) as [->|Hne].
  - rewrite list_lookup_insert_eq by lia. unfold moved. rewrite decide_True by lia. rewrite <-Hc.
    destruct (decide (k < 4720)); [rewrite decide_True by lia; f_equal; lia|by rewrite decide_False by lia].
  - rewrite list_lookup_insert_ne by done. rewrite Hm. unfold moved.
    destruct (decide (2480 <= Z.of_nat n < k)); [by rewrite (decide_True (P := 2480 <= Z.of_nat n < k + 1)) by lia|
      by rewrite (decide_False (P := 2480 <= Z.of_nat n < k + 1)) by lia].
Qed.
Lemma moved_all l l' : len l = 4800 -> (forall n, l' !! n = moved l 4800 n) -> l' = scroll_flat l.
Proof.
  intros Hl Hm. apply list_eq. intros n. rewrite Hm. unfold moved, scroll_flat. destruct (decide (n < 2480)%nat).
  { rewrite decide_False by lia. rewrite lookup_app_l by (rewrite length_take; lia). by rewrite lookup_take_lt by lia. }
  rewrite lookup_app_r by (rewrite length_take; lia). rewrite length_take, Nat.min_l by lia. destruct (decide (n < 4720)%nat).
  { rewrite !decide_True by lia. rewrite lookup_app_l by (rewrite length_drop; lia). rewrite lookup_drop. f_equal. lia. }
  rewrite lookup_app_r by (rewrite length_drop; lia). rewrite length_drop. destruct (decide (n < 4800)%nat).
  - rewrite decide_True, decide_False by lia. by rewrite lookup_replicate_2 by lia.
  - rewrite decide_False by lia. rewrite lookup_ge_None_2 by lia. rewrite lookup_ge_None_2; [done|]. rewrite length_replicate. lia.
Qed.

(** ** Loops over the cells *)

Definition CELLS : Z := SCREEN_HEIGHT * SCREEN_WIDTH.

Section proofs.
Context {port : Type} {HP : Pmon port} {HV : Vt100 port}.
Context (buff bf : list Z) (Hbuff : length buff = 256%nat) (Hbf : length bf = 24%nat).

Lemma wp_for_cells (I : Z -> screen port -> Prop) line1 line2 body s (Q : unit -> screen port -> Prop) :
  line1 <= line2 + 1 -> I (line1 * SCREEN_WIDTH) s ->
  (forall i j t, line1 <= i <= line2 -> 0 <= j < SCREEN_WIDTH -> I (i * SCREEN_WIDTH + j) t ->
     wp (body i j) t (fun _ t' => I (i * SCREEN_WIDTH + j + 1) t')) ->
  (forall t, I ((line2 + 1) * SCREEN_WIDTH) t -> Q tt t) -> wp (for_cells line1 line2 body) s Q.
Proof.
  intros Hle H0 Hb HQ. unfold for_cells. apply (wp_for_range (fun i t => I (i * SCREEN_WIDTH) t)); [done| |].
  - intros i t Hi Ht. apply (wp_for_range (fun j u => I (i * SCREEN_WIDTH + j) u)).
    + by rewrite Z.add_0_r.
    + intros j u Hj Hu. replace (i * SCREEN_WIDTH + (j + 1)) with (i * SCREEN_WIDTH + j + 1) by lia. apply Hb; [lia..|done].
    + intros u Hu. unfold SCREEN_WIDTH in *. by replace ((i + 1) * 80) with (i * 80 + (0 + Z.of_nat (Z.to_nat 80))) by lia.
  - intros t Ht. apply HQ. by replace (line1 + Z.of_nat (Z.to_nat (line2 + 1 - line1))) with (line2 + 1) in Ht by lia.
Qed.

Lemma wp_set_new k v (s : screen port) Q : 0 <= k < len (new_screen s) ->
  Q tt (mk_screen (screen_cursor_x s) (screen_cursor_y s) (<[Z.to_nat k := v]> (new_screen s)) (old_screen s) (serial s)) ->
  wp (set_new k v) s Q.
Proof.
  intros Hk HQ. unfold set_new. repeat wp_basic. eapply wp_lift; [by apply wr_in_range|]. repeat wp_basic. done.
Qed.
Lemma wp_set_old k v (s : screen port) Q : 0 <= k < len (old_screen s) ->
  Q tt (mk_screen (screen_cursor_x s) (screen_cursor_y s) (new_screen s) (<[Z.to_nat k := v]> (old_screen s)) (serial s)) ->
  wp (set_old k v) s Q.
Proof.
  intros Hk HQ. unfold set_old. repeat wp_basic. eapply wp_lift; [by apply wr_in_range|]. repeat wp_basic. done.
Qed.
Lemma wp_get_new k (s : screen port) Q : 0 <= k < len (new_screen s) ->
  (forall c, new_screen s !! Z.to_nat k = Some c -> Q c s) -> wp (get_new k) s Q.
Proof.
  intros Hk HQ. destruct (rd_in_range _ _ Hk) as (c & E & Hc). unfold get_new. repeat wp_basic. eapply wp_lift; [done|]. by apply HQ.
Qed.
Lemma wp_get_old k (s : screen port) Q : 0 <= k < len (old_screen s) ->
  (forall c, old_screen s !! Z.to_nat k = Some c -> Q c s) -> wp (get_old k) s Q.
Proof.
  intros Hk HQ. destruct (rd_in_range _ _ Hk) as (c & E & Hc). unfold get_old. repeat wp_basic. eapply wp_lift; [done|]. by apply HQ.
Qed.

(** ** Control sequences *)

Lemma until_nul_id s : Forall (fun c => c <> 0) s -> until_nul s = s.
Proof.
  induction 1 as [|c s Hc _ IH]; [done|]. cbn. destruct (Z.eqb_spec c 0); [done|]. by rewrite IH.
Qed.
Lemma numeral_nonzero n : Forall (fun c => c <> 0) (numeral 10 false n).
Proof.
  apply Forall_map, Forall_rev. eapply Forall_impl; [apply digits_range; lia|]. intros d Hd. cbv beta in *.
  unfold digit_char, digit_0, char_a. destruct (Z.ltb_spec d 10); [lia|]. change (97 + d - 10 <> 0). lia.
Qed.
Lemma numeral_length n : 0 <= n < 2 ^ 32 -> (length (numeral 10 false n) <= 10)%nat.
Proof. intros Hn. unfold numeral. rewrite length_map, length_rev. apply digits_length; [lia|change (10 ^ Z.of_nat 10) with 10000000000; lia|lia]. Qed.
Lemma signed_numeral z : 0 <= z < 2 ^ 31 -> signed_text 0 z = numeral 10 false z.
Proof.
  intros Hz. unfold signed_text. rewrite i32_small by lia. destruct (Z.ltb_spec z 0); [lia|]. unfold padded.
  by replace (Z.to_nat (0 - _)) with 0%nat by lia.
Qed.

Lemma wp_on_port_printk m fmt va args text (s : screen port) Q :
  cstr m 0 fmt -> Forall2 (arg_ok m) va args -> format fmt args = Some text ->
  Forall (fun c => c <> 0) text -> (length text <= 255)%nat ->
  Q tt (mk_screen (screen_cursor_x s) (screen_cursor_y s) (new_screen s) (old_screen s) (sends text (serial s))) ->
  wp (do! on_port (printk buff bf m 0 va); ret tt) s Q.
Proof.
  intros Hc Ha Hf Hnz Hl HQ. exists tt. eexists. split; [|exact HQ]. unfold bind, on_port.
  rewrite (printk_spec _ _ _ _ fmt _ args text) by done. rewrite printstr_chars, take_ge, until_nul_id by done. done.
Qed.

Lemma wp_move_cursor x y (s : screen port) Q :
  0 <= x < 2 ^ 31 -> 0 <= y < 2 ^ 31 ->
  Q tt (mk_screen (screen_cursor_x s) (screen_cursor_y s) (new_screen s) (old_screen s) (sends (move_text x y) (serial s))) ->
  wp (vt100_move_cursor buff bf x y) s Q.
Proof.
  intros Hx Hy. unfold vt100_move_cursor.
  apply (wp_on_port_printk _ [37; 99; 91; 37; 100; 59; 37; 100; 72] _ [AInt 27; AInt y; AInt x]).
  - exists [], []. split_and!; [done..|]. repeat constructor; lia.
  - repeat constructor.
  - unfold move_text. rewrite <-!signed_numeral by done. cbn -[signed_text]. done.
  - unfold move_text. repeat (constructor; [lia|]). apply Forall_app. split; [apply numeral_nonzero|].
    constructor; [lia|]. apply Forall_app. split; [apply numeral_nonzero|]. by repeat constructor.
  - unfold move_text. cbn [length]. rewrite length_app. cbn [length]. rewrite length_app.
    pose proof (numeral_length x ltac:(lia)). pose proof (numeral_length y ltac:(lia)). cbn [length]. lia.
Qed.

(** ** Refreshing *)

(** What was sent is what the terminal shows: a zero in [old_screen] stands for
    a cell of which nothing is known. *)
Definition cell_known (s : screen port) (i j : Z) : Prop :=
  forall c, old_screen s !! Z.to_nat (i * SCREEN_WIDTH + j) = Some c -> c <> 0 -> cell (serial s) i j = c.
Definition synced (s : screen port) : Prop :=
  len (new_screen s) = CELLS /\ len (old_screen s) = CELLS /\ ready (serial s)
  /\ (forall i j, on_screen i j -> cell_known s i j).

Definition same_view (s t : screen port) : Prop :=
  new_screen t = new_screen s /\ screen_cursor_x t = screen_cursor_x s /\ screen_cursor_y t = screen_cursor_y s.

Lemma cell_index i j i' j' : on_screen i j -> on_screen i' j' ->
  i * SCREEN_WIDTH + j = i' * SCREEN_WIDTH + j' -> (i', j') = (i, j).
Proof. unfold on_screen, SCREEN_WIDTH. intros [Hi Hj] [Hi' Hj'] E. assert (i = i') as -> by lia. f_equal. lia. Qed.
Lemma cell_range i j : on_screen i j -> 0 <= i * SCREEN_WIDTH + j < CELLS.
Proof. unfold on_screen, CELLS, SCREEN_WIDTH, SCREEN_HEIGHT. lia. Qed.

(** One cell is brought up to date. *)
Lemma wp_reflush_cell i j (s : screen port) Q :
  synced s -> on_screen i j -> (forall c, new_screen s !! Z.to_nat (i * SCREEN_WIDTH + j) = Some c -> printable c) ->
  (forall t, synced t -> same_view s t ->
     (forall k, old_screen t !! k = if decide (k = Z.to_nat (i * SCREEN_WIDTH + j)) then new_screen s !! k else old_screen s !! k) ->
     Q tt t) ->
  wp (let k := i * SCREEN_WIDTH + j in
      let! c := get_new k in
      let! d := get_old k in
      if negb (c =? d) then
        do! vt100_move_cursor buff bf (j + 1) (i + 1);
        do! on_port (port_write_ch c);
        set_old k c
      else ret tt) s Q.
Proof.
  intros (Hn & Ho & Hr & Hk) Hij Hp HQ. cbv zeta. pose proof (cell_range _ _ Hij) as Hk0.
  apply wp_bind, wp_get_new; [by rewrite Hn|]. intros c Hc. specialize (Hp c Hc).
  apply wp_bind, wp_get_old; [by rewrite Ho|]. intros d Hd. destruct (Z.eqb_spec c d) as [->|Hne]; cbn [negb].
  { apply wp_ret, HQ; [done|done|]. intros k. destruct (decide _) as [->|]; [congruence|done]. }
  assert (0 <= i < 60 /\ 0 <= j < 80) as Hb by exact Hij.
  apply wp_bind, wp_move_cursor; [lia..|]. cbn [screen_cursor_x screen_cursor_y new_screen old_screen serial].
  destruct (vt100_move (j + 1) (i + 1) (serial s) Hr) as (Hr1 & Hc1 & Hsame); [unfold SCREEN_WIDTH, SCREEN_HEIGHT; lia..|].
  rewrite !Z.max_r in Hc1 by lia.
  destruct (vt100_print c _ i j Hr1 Hp Hij Hc1) as (Hr2 & Hcell & Hother).
  apply wp_bind. eexists tt, _. split; [done|]. apply wp_set_old; [cbn; by rewrite Ho|].
  cbn [screen_cursor_x screen_cursor_y new_screen old_screen serial]. apply HQ; [|done|].
  - split_and!; cbn [new_screen old_screen serial]; [done|by rewrite length_insert|done|].
    intros i' j' Hij' e. cbn [old_screen serial]. destruct (decide ((i', j') = (i, j))) as [[= -> ->]|Hd'].
    + rewrite list_lookup_insert_eq by lia. by intros [= <-].
    + rewrite list_lookup_insert_ne; [rewrite Hother, Hsame by done; by apply Hk|].
      intros E. apply Hd'. apply cell_index; [done..|]. pose proof (cell_range _ _ Hij'). lia.
  - intros k. cbn [old_screen]. destruct (decide _) as [->|Hk']; [rewrite list_lookup_insert_eq by lia; congruence|].
    by rewrite list_lookup_insert_ne.
Qed.

(** After a refresh the terminal shows [new_screen]. *)
Definition displayed (s : screen port) : Prop :=
  forall i j c, on_screen i j -> new_screen s !! Z.to_nat (i * SCREEN_WIDTH + j) = Some c -> cell (serial s) i j = c.

Lemma wp_reflush (s : screen port) (Q : unit -> screen port -> Prop) :
  synced s -> Forall printable (new_screen s) ->
  0 <= screen_cursor_x s <= SCREEN_WIDTH -> 0 <= screen_cursor_y s <= SCREEN_HEIGHT ->
  (forall t, synced t -> same_view s t -> displayed t -> old_screen t = new_screen t ->
     cursor (serial t) = (Z.max 1 (screen_cursor_x s), Z.max 1 (screen_cursor_y s)) -> Q tt t) ->
  wp (screen_reflush buff bf) s Q.
Proof.
  intros Hs Hp Hx Hy HQ. unfold screen_reflush. apply wp_bind.
  apply (wp_for_cells (fun k t => synced t /\ same_view s t
    /\ forall k', Z.of_nat k' < k -> old_screen t !! k' = new_screen s !! k')).
  - done.
  - split_and!; [done..|]. intros k'. lia.
  - intros i j t Hi Hj (Ht & Hv & Hk). pose proof Hv as (Hv1 & Hv2 & Hv3).
    apply wp_reflush_cell; [done|unfold on_screen, SCREEN_HEIGHT in *; lia| |].
    + rewrite Hv1. intros c Hc. by eapply Forall_lookup_1.
    + intros u Hu (Hu1 & Hu2 & Hu3) Ho. split; [done|]. split; [split_and!; congruence|].
      intros k' Hk'. rewrite Ho, Hv1. destruct (decide _) as [->|Hne]; [done|]. apply Hk.
      unfold SCREEN_WIDTH in *. lia.
  - intros t (Ht & (Hv1 & Hv2 & Hv3) & Hk).
    assert (old_screen t = new_screen t) as Eo.
    { destruct Ht as (L1 & L2 & _). apply list_eq. intros k'. rewrite Hv1.
      destruct (decide (Z.of_nat k' < CELLS)) as [Hlt|Hge]; [by apply Hk|].
      rewrite <-Hv1. rewrite !lookup_ge_None_2 by lia. done. }
    repeat wp_basic. rewrite Hv2, Hv3. unfold SCREEN_WIDTH, SCREEN_HEIGHT in *. apply wp_move_cursor; [lia..|].
    destruct Ht as (L1 & L2 & Hr & Hkn).
    destruct (vt100_move (screen_cursor_x s) (screen_cursor_y s) (serial t) Hr) as (Hr1 & Hc1 & Hsame); [done..|].
    assert (forall i j, on_screen i j -> cell_known t i j) as Hkn' by done.
    apply HQ; [|done| |done|done].
    + split_and!; cbn; [done..|]. intros i j Hij c. cbn. intros E Hc. rewrite Hsame. by apply Hkn.
    + intros i j c Hij. cbn. intros E. rewrite Hsame. apply Hkn'; [done|by rewrite Eo|].
      rewrite Hv1 in E. eapply Forall_lookup_1 in Hp; [|exact E]. unfold printable in Hp. lia.
Qed.

(** ** Writing: the code refines the console *)

(** The kernel's state shows the console [k]. *)
Definition draws (k : console) (s : screen port) : Prop :=
  synced s /\ new_screen s = concat (rows k) /\ screen_cursor_x s = col k /\ screen_cursor_y s = row k.

(** Positions that a character can leave behind, before they are settled. *)
Definition unsettled (k : console) (s : screen port) : Prop :=
  draws k s /\ lines_ok (rows k) /\ len (rows k) = SCREEN_HEIGHT /\ 0 <= col k <= SCREEN_WIDTH /\ 0 <= row k <= SCREEN_HEIGHT.

Lemma draws_intro k (s : screen port) :
  synced s -> new_screen s = concat (rows k) -> screen_cursor_x s = col k -> screen_cursor_y s = row k -> draws k s.
Proof. intros H1 H2 H3 H4. exact (conj H1 (conj H2 (conj H3 H4))). Qed.
Lemma unsettled_intro k (s : screen port) :
  draws k s -> lines_ok (rows k) -> len (rows k) = SCREEN_HEIGHT -> 0 <= col k <= SCREEN_WIDTH -> 0 <= row k <= SCREEN_HEIGHT ->
  unsettled k s.
Proof. intros H1 H2 H3 H4 H5. exact (conj H1 (conj H2 (conj H3 (conj H4 H5)))). Qed.

Lemma synced_forget (s t : screen port) :
  synced s -> len (new_screen t) = CELLS -> serial t = serial s -> len (old_screen t) = CELLS ->
  (forall k c, old_screen t !! k = Some c -> c <> 0 -> old_screen s !! k = Some c) -> synced t.
Proof.
  intros (_ & _ & Hr & Hk) Hn Es Ho Hsub. split_and!; [done|done|by rewrite Es|].
  intros i j Hij c Hc Hne. rewrite Es. by apply Hk; [|apply Hsub|].
Qed.

Lemma wp_forget_lines (s : screen port) (Q : unit -> screen port -> Prop) :
  synced s -> (forall t, synced t -> same_view s t -> Q tt t) ->
  wp (for_cells 31 59 (fun i j => set_old (i * SCREEN_WIDTH + j) 0)) s Q.
Proof.
  intros Hs HQ. apply (wp_for_cells (fun _ t => synced t /\ same_view s t)); [lia|done| |intros t [? ?]; auto].
  intros i j t Hi Hj (Ht & Hv). pose proof Ht as (L1 & L2 & _). pose proof Hj as Hj'.
  unfold CELLS, SCREEN_WIDTH, SCREEN_HEIGHT in L2, Hj'. apply wp_set_old; [unfold SCREEN_WIDTH; lia|]. split; [|exact Hv].
  apply (synced_forget t); cbn [new_screen old_screen serial]; [done|done|done|by rewrite length_insert|].
  intros k c. destruct (decide (k = Z.to_nat (i * SCREEN_WIDTH + j))) as [->|Hne]; [|by rewrite list_lookup_insert_ne].
  rewrite list_lookup_insert_eq by (unfold SCREEN_WIDTH; lia). by intros [= <-].
Qed.

Lemma wp_scroll (s : screen port) (Q : unit -> screen port -> Prop) :
  synced s ->
  (forall t, synced t -> new_screen t = scroll_flat (new_screen s) ->
     screen_cursor_x t = screen_cursor_x s -> screen_cursor_y t = screen_cursor_y s -> Q tt t) ->
  wp (screen_scroll (SCREEN_HEIGHT / 2 + 1) (SCREEN_HEIGHT - 1)) s Q.
Proof.
  intros Hs HQ. change (SCREEN_HEIGHT / 2 + 1) with 31. change (SCREEN_HEIGHT - 1) with 59. unfold screen_scroll.
  assert (len (new_screen s) = 4800) as L by apply Hs. apply wp_bind, wp_forget_lines; [done|]. intros s1 Hs1 (Hv1 & Hv2 & Hv3).
  apply (wp_for_cells (fun k t => synced t /\ screen_cursor_x t = screen_cursor_x s /\ screen_cursor_y t = screen_cursor_y s
    /\ forall n, new_screen t !! n = moved (new_screen s) k n)); [lia| | |].
  - split_and!; [done..|]. intros n. unfold moved. rewrite decide_False by (unfold SCREEN_WIDTH; lia). by rewrite Hv1.
  - intros i j t Hi Hj (Ht & Hx & Hy & Hn). assert (len (new_screen t) = 4800) as M by apply Ht.
    assert (forall v, synced (mk_screen (screen_cursor_x t) (screen_cursor_y t) (<[Z.to_nat (i * SCREEN_WIDTH + j) := v]> (new_screen t))
      (old_screen t) (serial t))) as Hsy.
    { intros v. pose proof Ht as (? & ? & _). apply (synced_forget t); cbn [new_screen old_screen serial]; try done. by rewrite length_insert. }
    unfold SCREEN_WIDTH in *. destruct (Z.eqb_spec i 59) as [->|Hne].
    + apply wp_set_new; [lia|]. split_and!; [apply Hsy|done|done|]. cbn [new_screen]. apply moved_step; [lia|done|done|].
      by rewrite decide_False by lia.
    + apply wp_bind, wp_get_new; [lia|]. intros c Hc.
      apply wp_set_new; [lia|]. split_and!; [apply Hsy|done|done|]. cbn [new_screen]. apply moved_step; [lia|done|done|].
      rewrite decide_True by lia. rewrite <-Hc, Hn. unfold moved. rewrite decide_False by lia. f_equal. lia.
  - intros t (Ht & Hx & Hy & Hn). apply HQ; [done| |done|done]. apply moved_all; [done|exact Hn].
Qed.

Lemma wp_limit_row k (s : screen port) (Q : unit -> screen port -> Prop) :
  draws k s -> lines_ok (rows k) -> 0 <= row k ->
  (forall t, draws (if SCREEN_HEIGHT <=? row k then mk_console (scroll_rows (rows k)) 0 (SCREEN_HEIGHT - 1) else k) t -> Q tt t) ->
  wp limit_row s Q.
Proof.
  intros (Hs & Hn & Hx & Hy) Hl H0 HQ. unfold limit_row. repeat wp_basic. rewrite Hy. destruct (Z.ltb_spec (row k) 0); [lia|]. repeat wp_basic.
  rewrite Z.geb_leb, Hy. destruct (Z.leb_spec SCREEN_HEIGHT (row k)); [|by apply wp_ret, HQ].
  apply wp_bind, wp_scroll; [done|]. intros t Ht Ht1 Ht2 Ht3. unfold set_cursor_x, set_cursor_y. repeat wp_basic. apply HQ.
  apply draws_intro; [|cbn; rewrite Ht1, Hn; by apply flat_scroll|done|done]. pose proof Ht as (? & ? & _). by apply (synced_forget t).
Qed.
Lemma wp_limit_cursor k (s : screen port) (Q : unit -> screen port -> Prop) :
  unsettled k s -> (forall t, draws (settle k) t -> Q tt t) -> wp limit_cursor s Q.
Proof.
  intros ((Hs & Hn & Hx & Hy) & Hl & Hh & Hc & Hr) HQ. unfold limit_cursor, settle in *. unfold SCREEN_WIDTH, SCREEN_HEIGHT in Hc, Hr.
  repeat wp_basic. rewrite Hx. destruct (Z.ltb_spec (col k) 0); [lia|]. repeat wp_basic.
  rewrite Z.geb_leb, Hx, Hy. destruct (Z.leb_spec SCREEN_WIDTH (col k)).
  - unfold set_cursor_x, set_cursor_y. repeat wp_basic. cbn [screen_cursor_x screen_cursor_y new_screen old_screen serial].
    rewrite i32_small by lia. pose proof Hs as (? & ? & _). apply (wp_limit_row (mk_console (rows k) 0 (row k + 1))); [|done|cbn; lia|done].
    apply draws_intro; [by apply (synced_forget s)|done..].
  - apply wp_ret. apply (wp_limit_row k); [by apply draws_intro|done|lia|done].
Qed.

Lemma draws_len k (s : screen port) : draws k s -> len (new_screen s) = CELLS.
Proof. intros [(? & _) _]. done. Qed.

Lemma wp_put_char k (s : screen port) c (Q : unit -> screen port -> Prop) :
  console_wf k -> draws k s ->
  (forall k' t, unsettled k' t -> settle k' = console_char k c -> Q tt t) -> wp (put_char c) s Q.
Proof.
  intros Hk (Hs & Hn & Hx & Hy) HQ. pose proof (wf_lines _ Hk) as Hl. destruct Hk as (Hh & Hw & Hp & Hc & Hr). unfold console_char in HQ.
  pose proof Hs as (Ln & Lo & _). unfold put_char. unfold set_cursor_x, set_cursor_y. repeat wp_basic. rewrite Hx, Hy.
  assert (forall x y, 0 <= x <= SCREEN_WIDTH -> 0 <= y <= SCREEN_HEIGHT ->
    unsettled (mk_console (rows k) x y) (mk_screen x y (new_screen s) (old_screen s) (serial s))) as Hmove.
  { intros x y ? ?. apply unsettled_intro; [|done..]. apply draws_intro; [by apply (synced_forget s)|done..]. }
  assert (forall i j v x y, on_screen i j -> 0 <= x <= SCREEN_WIDTH -> 0 <= y <= SCREEN_HEIGHT ->
    unsettled (mk_console (put_at i j v (rows k)) x y)
      (mk_screen x y (<[Z.to_nat (i * SCREEN_WIDTH + j) := v]> (new_screen s)) (old_screen s) (serial s))) as Hput.
  { intros i j v x y Hij ? ?. apply unsettled_intro; [apply draws_intro| | |done..]; try done.
    - apply (synced_forget s); cbn [new_screen old_screen serial]; try done. by rewrite length_insert.
    - cbn. rewrite Hn. by apply flat_put.
    - apply Forall_alter; [done|]. intros r _ Hr'. by rewrite length_insert.
    - cbn. unfold put_at. by rewrite length_alter. }
  assert (forall i j, on_screen i j -> 0 <= i * SCREEN_WIDTH + j < len (new_screen s)) as Hin by (intros i j Hij; rewrite Ln; by apply cell_range).
  destruct (Z.eqb_spec c 10) as [->|H10]; cbn [orb] in HQ.
  { repeat wp_basic. rewrite i32_small by (unfold SCREEN_HEIGHT in *; lia). eapply HQ; [|done]. apply Hmove; cbn; unfold SCREEN_WIDTH; lia. }
  destruct (Z.eqb_spec c 8) as [->|H8]; cbn in HQ.
  { rewrite Z.gtb_ltb. destruct (Z.ltb_spec 0 (col k)).
    - repeat wp_basic. assert (on_screen (row k) (col k - 1)) as Hij by (split; lia).
      apply wp_set_new; [by apply Hin|]. cbn. rewrite Hy. eapply HQ; [|done]. apply (Hput (row k) (col k - 1)); [done|lia..].
    - apply wp_ret. eapply (HQ k); [|done]. apply unsettled_intro; [by apply draws_intro|done|done|lia..]. }
  destruct (Z.eqb_spec c 13) as [->|H13].
  { repeat wp_basic. rewrite i32_small by (unfold SCREEN_HEIGHT in *; lia). eapply HQ; [|done]. apply Hmove; cbn; unfold SCREEN_WIDTH; lia. }
  apply wp_bind, wp_set_new; [by apply Hin|]. repeat wp_basic. cbn. rewrite i32_small by (unfold SCREEN_WIDTH in *; lia).
  eapply HQ; [|done]. rewrite Hy. apply (Hput (row k) (col k)); [done|lia..].
Qed.

Lemma wp_write_ch k (s : screen port) c (Q : unit -> screen port -> Prop) :
  console_wf k -> draws k s -> (forall t, draws (console_char k c) t -> Q tt t) -> wp (screen_write_ch c) s Q.
Proof.
  intros Hk Hd HQ. unfold screen_write_ch. apply wp_bind, (wp_put_char k); [done..|]. intros k' t Hu E.
  apply (wp_limit_cursor k'); [done|]. by rewrite E.
Qed.

Lemma wp_screen_write k (s : screen port) m b str (Q : unit -> screen port -> Prop) :
  console_wf k -> draws k s -> cstr m b str -> Forall writable str ->
  (forall t, draws (console_write k str) t -> console_wf (console_write k str) -> Q tt t) -> wp (screen_write m b) s Q.
Proof.
  intros Hk Hd Hc Hw HQ. unfold screen_write. apply wp_bind. eapply wp_lift; [by apply strlen_spec|].
  apply (wp_for_range (fun i t => draws (console_write k (take (Z.to_nat i) str)) t /\ console_wf (console_write k (take (Z.to_nat i) str)))).
  - done.
  - intros j t Hj [Ht Hkj]. destruct (lookup_lt_is_Some_2 str (Z.to_nat j)) as [c Ec]; [lia|].
    apply wp_bind. eapply wp_lift.
    { rewrite <-(Z2Nat.id j) by lia. apply (cstr_rd _ _ _ Hc). by apply lookup_app_l_Some. }
    assert (console_write k (take (Z.to_nat (j + 1)) str) = console_char (console_write k (take (Z.to_nat j) str)) c) as ->.
    { replace (Z.to_nat (j + 1)) with (S (Z.to_nat j)) by lia. rewrite (take_S_r _ _ c) by done. unfold console_write. by rewrite foldl_app. }
    apply (wp_write_ch (console_write k (take (Z.to_nat j) str))); [done..|]. intros u Hu. split; [done|].
    apply console_char_wf; [done|]. by eapply Forall_lookup_1.
  - intros t. rewrite Z.add_0_l, !Nat2Z.id, take_ge by done. intros [? ?]. by apply HQ.
Qed.

(** The terminal shows the console. *)
Definition shown (k : console) (p : port) : Prop :=
  forall i j c, on_screen i j -> (r ← rows k !! Z.to_nat i; r !! Z.to_nat j) = Some c -> cell p i j = c.

Lemma wp_refresh k (s : screen port) (Q : unit -> screen port -> Prop) :
  console_wf k -> draws k s ->
  (forall t, draws k t -> shown k (serial t) -> cursor (serial t) = (Z.max 1 (col k), Z.max 1 (row k)) -> Q tt t) ->
  wp (screen_reflush buff bf) s Q.
Proof.
  intros Hk (Hs & Hn & Hx & Hy) HQ. pose proof (wf_lines _ Hk) as Hl. destruct Hk as (_ & _ & Hp & Hc & Hr).
  apply wp_reflush; [done|rewrite Hn; by apply concat_printable|lia..|].
  intros t Ht (Hv1 & Hv2 & Hv3) Hd _ Hcur. rewrite Hx, Hy in Hcur. apply HQ; [apply draws_intro; congruence| |done].
  intros i j c Hij E. apply Hd; [done|]. by rewrite Hv1, Hn, concat_lookup.
Qed.

(** ** Clearing *)

Lemma wp_screen_clear line1 line2 (s : screen port) (Q : unit -> screen port -> Prop) :
  len (new_screen s) = CELLS -> len (old_screen s) = CELLS -> ready (serial s) ->
  (forall t, draws blank_console t -> shown blank_console (serial t) -> Q tt t) ->
  wp (screen_clear buff bf line1 line2) s Q.
Proof.
  intros Ln Lo Hr HQ. unfold screen_clear. apply wp_bind.
  apply (wp_for_cells (fun k t => len (new_screen t) = CELLS /\ len (old_screen t) = CELLS /\ serial t = serial s
    /\ forall n, Z.of_nat n < k -> new_screen t !! n = Some 32 /\ old_screen t !! n = Some 0)); [done| | |].
  - split_and!; [done..|]. intros n. unfold SCREEN_WIDTH. lia.
  - intros i j t Hi Hj (Mn & Mo & Es & Hk).
    assert (0 <= i * SCREEN_WIDTH + j < CELLS) as Hin by (apply cell_range; split; unfold SCREEN_HEIGHT in *; lia).
    apply wp_bind, wp_set_new; [by rewrite Mn|]. apply wp_set_old; [cbn; by rewrite Mo|]. cbn. rewrite !length_insert.
    split_and!; [done..|]. intros n Hn. destruct (decide (n = Z.to_nat (i * SCREEN_WIDTH + j))) as [->|Hne].
    + rewrite !list_lookup_insert_eq by lia. done.
    + rewrite !list_lookup_insert_ne by done. apply Hk. lia.
  - intros t (Mn & Mo & Es & Hk). unfold set_cursor_x, set_cursor_y. repeat wp_basic. cbn [screen_cursor_y new_screen old_screen serial].
    apply (wp_refresh blank_console); [apply blank_console_wf| |by intros t' ? ? _; apply HQ]. apply draws_intro; [|cbn [new_screen]|done|done].
    + refine (conj Mn (conj Mo (conj _ _))); cbn [new_screen old_screen serial]; [by rewrite Es|].
      intros i j Hij c. cbn [old_screen]. pose proof (cell_range _ _ Hij). destruct (Hk (Z.to_nat (i * SCREEN_WIDTH + j))) as [_ ->].
      { unfold CELLS, SCREEN_HEIGHT in *. lia. }
      by intros [= <-].
    + change (concat (rows blank_console)) with (replicate (Z.to_nat CELLS) 32). apply list_eq. intros n.
      destruct (decide (Z.of_nat n < CELLS)) as [Hn|Hn].
      * destruct (Hk n) as [-> _]; [exact Hn|]. by rewrite lookup_replicate_2 by lia.
      * rewrite !lookup_ge_None_2; [done|rewrite length_replicate; lia|lia].
Qed.

Lemma wp_init_screen (s : screen port) (Q : unit -> screen port -> Prop) :
  len (new_screen s) = CELLS -> len (old_screen s) = CELLS -> ready (serial s) ->
  (forall t, draws blank_console t -> shown blank_console (serial t) -> Q tt t) ->
  wp (init_screen buff bf) s Q.
Proof.
  intros Ln Lo Hr HQ. unfold init_screen.
  assert (forall c, c <> 0 -> Forall (fun c => c <> 0) [c]) as Hone by (intros; by repeat constructor).
  apply wp_bind. unfold vt100_hidden_cursor. apply (wp_on_port_printk _ [37; 99; 91; 63; 50; 53; 108] _ [AInt 27] hide_text).
  { exists [], []. split_and!; [done..|]. repeat constructor; lia. }
  { repeat constructor. } { done. } { repeat constructor; lia. } { cbn; lia. }
  apply wp_bind. unfold vt100_clear. apply (wp_on_port_printk _ [37; 99; 91; 50; 74] _ [AInt 27] clear_text).
  { exists [], []. split_and!; [done..|]. repeat constructor; lia. }
  { repeat constructor. } { done. } { repeat constructor; lia. } { cbn; lia. }
  apply wp_screen_clear; cbn [new_screen old_screen serial]; [done|done| |done]. by apply vt100_erase, vt100_hide.
Qed.

(** ** Theorems *)

(** C28: Writing to the screen refines a console: from a state that shows a
    console, [do_write] of any text of printable characters, line ends and
    backspaces stays within the arrays, returns, and leaves the state and every
    cell of the terminal showing that console after the text (with its line
    wrap, and the scrolling of the lower half); the cursor of the terminal is at
    the column and line of the console counted from 0 where the terminal counts
    from 1.  For every VT100 terminal. *)
Theorem do_write_correct k s m b str :
  console_wf k -> draws k s -> cstr m b str -> Forall writable str ->
  exists t, do_write buff bf m b s = Ok (tt, t)
    /\ draws (console_write k str) t /\ console_wf (console_write k str) /\ shown (console_write k str) (serial t)
    /\ cursor (serial t) = (Z.max 1 (col (console_write k str)), Z.max 1 (row (console_write k str))).
Proof.
  intros Hk Hd Hc Hw.
  destruct (wp_bind (screen_write m b) (fun _ => screen_reflush buff bf) s
    (fun _ t => draws (console_write k str) t /\ console_wf (console_write k str) /\ shown (console_write k str) (serial t)
      /\ cursor (serial t) = (Z.max 1 (col (console_write k str)), Z.max 1 (row (console_write k str))))) as ([] & t & E & H).
  - apply (wp_screen_write k s m b str); [done..|]. intros t Ht Hk'. by apply (wp_refresh (console_write k str)).
  - exists t. split; [exact E|exact H].
Qed.

(** [init_screen] returns from any contents of the two arrays and leaves a
    blank console, in the kernel and on the terminal. *)
Theorem init_screen_correct s :
  len (new_screen s) = CELLS -> len (old_screen s) = CELLS -> ready (serial s) ->
  exists t, init_screen buff bf s = Ok (tt, t) /\ draws blank_console t /\ shown blank_console (serial t).
Proof.
  intros Ln Lo Hr. destruct (wp_init_screen s (fun _ t => draws blank_console t /\ shown blank_console (serial t)) Ln Lo Hr) as ([] & t & E & H); [done|].
  exists t. split; [exact E|exact H].
Qed.

(** [printf] puts the text of its format on the console: for a format and
    arguments whose text has only characters a console can write, it returns the
    length of the text and the screen shows it, cut off after 255 characters. *)
Theorem printf_correct k s m fmt str va args text :
  console_wf k -> draws k s -> cstr m fmt str -> Forall2 (arg_ok m) va args -> format str args = Some text -> Forall writable text ->
  exists t, printf buff bf m fmt va s = Ok (Z.min (len text) 255, t)
    /\ draws (console_write k (take 255 text)) t /\ shown (console_write k (take 255 text)) (serial t).
Proof.
  intros Hk Hd Hc Ha Hf Hw. unfold printf.
  destruct (vsnprintf_spec m fmt str va args text bf buff) as (l & E & Hll & Hs); [lia|done..|].
  rewrite Hbuff in E, Hs, Hll. change (Z.of_nat 256) with 256 in E. change (256 - 1) with 255 in E. unfold fit in Hs.
  change (256 - 1)%nat with 255%nat in Hs. apply starts_split in Hs as [r ->].
  destruct r as [|x r]; [rewrite app_nil_r, length_take in Hll; lia|].
  assert (cstr (take 255 text ++ 0 :: r) 0 (take 255 text)) as Hc'.
  { exists [], r. split_and!; [done..|]. apply Forall_take. eapply Forall_impl; [exact Hw|]. unfold writable, printable. intros c. lia. }
  assert (wp (do_write buff bf (take 255 text ++ 0 :: r) 0) s (fun _ t => draws (console_write k (take 255 text)) t
    /\ shown (console_write k (take 255 text)) (serial t))) as (u & t & Ew & Hd' & Hs').
  { unfold do_write. apply wp_bind, (wp_screen_write k s _ 0 (take 255 text)); [done..|by apply Forall_take|].
    intros t Ht Hk'. by apply (wp_refresh (console_write k (take 255 text))). }
  exists t. split; [|done]. unfold bind, lift, ret. rewrite E. cbn [fst snd].
  replace (Z.min (len text) 255) with (len (take 255 text)) at 1 by (rewrite length_take; lia). rewrite wr_at by done. cbn [fst snd].
  by rewrite Ew.
Qed.
End proofs.

(** *** The theorems at the terminal [vt] *)

Definition demo_buff : list Z := replicate 256 1.
Definition demo_bf : list Z := replicate 24 2.
(** The arrays are zero at the start, and the terminal shows anything. *)
Definition demo_screen : screen vt :=
  mk_screen 0 0 (replicate (Z.to_nat CELLS) 0) (replicate (Z.to_nat CELLS) 0) (mk_vt (replicate (Z.to_nat CELLS) 63) 5 5 Text).

Lemma demo_arrays : len (new_screen demo_screen) = CELLS /\ len (old_screen demo_screen) = CELLS /\ ready (serial demo_screen).
Proof. split_and!; [vm_compute; reflexivity..|]. split; vm_compute; reflexivity. Qed.
Lemma demo_started : exists s, init_screen demo_buff demo_bf demo_screen = Ok (tt, s) /\ draws blank_console s.
Proof.
  destruct (wp_init_screen demo_buff demo_bf eq_refl eq_refl demo_screen (fun _ t => draws blank_console t)) as ([] & s & E & H);
    [apply demo_arrays..|exact (fun t Ht _ => Ht)|]. exists s. exact (conj E H).
Qed.

Lemma do_write_correct_witness : exists s t, init_screen demo_buff demo_bf demo_screen = Ok (tt, s)
  /\ do_write demo_buff demo_bf [72; 105; 10; 33; 0] 0 s = Ok (tt, t) /\ cell (serial t) 0 1 = 105 /\ cell (serial t) 1 0 = 33.
Proof.
  destruct demo_started as (s & E & Hd).
  destruct (do_write_correct demo_buff demo_bf eq_refl eq_refl blank_console s [72; 105; 10; 33; 0] 0 [72; 105; 10; 33])
    as (t & Et & _ & _ & Hs & _).
  - apply blank_console_wf.
  - exact Hd.
  - exists [], []. split_and!; [reflexivity..|]. repeat constructor; lia.
  - repeat constructor; unfold writable, printable; lia.
  - exists s, t. split; [exact E|]. split; [exact Et|]. split; (apply Hs; [unfold on_screen, SCREEN_HEIGHT, SCREEN_WIDTH; lia|vm_compute; reflexivity]).
Defined.

Lemma init_screen_correct_witness : exists t, init_screen demo_buff demo_bf demo_screen = Ok (tt, t) /\ cell (serial t) 59 79 = 32.
Proof.
  destruct (init_screen_correct demo_buff demo_bf eq_refl eq_refl demo_screen) as (t & E & _ & Hs).
  - apply demo_arrays.
  - apply demo_arrays.
  - apply demo_arrays.
  - exists t. split; [exact E|]. apply Hs; [unfold on_screen, SCREEN_HEIGHT, SCREEN_WIDTH; lia|vm_compute; reflexivity].
Defined.

(** [printf("%d\n", 42)]. *)
Lemma printf_correct_witness : exists s t, init_screen demo_buff demo_bf demo_screen = Ok (tt, s)
  /\ printf demo_buff demo_bf [37; 100; 10; 0] 0 [42] s = Ok (3, t) /\ cell (serial t) 0 0 = 52 /\ cell (serial t) 0 1 = 50.
Proof.
  destruct demo_started as (s & E & Hd).
  destruct (printf_correct demo_buff demo_bf eq_refl eq_refl blank_console s [37; 100; 10; 0] 0 [37; 100; 10] [42] [AInt 42] [52; 50; 10])
    as (t & Et & _ & Hs).
  - apply blank_console_wf.
  - exact Hd.
  - exists [], []. split_and!; [reflexivity..|]. repeat constructor; lia.
  - repeat constructor.
  - vm_compute. reflexivity.
  - repeat constructor; unfold writable, printable; lia.
  - exists s, t. split; [exact E|]. split; [exact Et|]. split; (apply Hs; [unfold on_screen, SCREEN_HEIGHT, SCREEN_WIDTH; lia|vm_compute; reflexivity]).
Defined.
