(* ===== verification/Syscall.v ===== *)
(** System calls: the table of kernel/syscall/syscall.c that init/main.c fills,
    the stubs of the user programs, and the way of a call through both.

    A handler is named by its function in the source; a pointer argument is its
    address. *)

From S2P Require Import Prelude Wp Kernel Queue Sched Sync Process.

(** ** Numbers *)

Definition IGNORE : Z := 0.
Definition NUM_SYSCALLS : Z := 64.
Definition SYSCALL_SLEEP : Z := 2.
Definition SYSCALL_BLOCK : Z := 10.
Definition SYSCALL_UNBLOCK_ONE : Z := 11.
Definition SYSCALL_UNBLOCK_ALL : Z := 12.
Definition SYSCALL_WRITE : Z := 20.
Definition SYSCALL_READ : Z := 21.
Definition SYSCALL_CURSOR : Z := 22.
Definition SYSCALL_REFLUSH : Z := 23.
Definition SYSCALL_SCREEN_CLEAR : Z := 24.
Definition SYSCALL_MUTEX_LOCK_INIT : Z := 30.
Definition SYSCALL_MUTEX_LOCK_ACQUIRE : Z := 31.
Definition SYSCALL_MUTEX_LOCK_RELEASE : Z := 32.
Definition SYSCALL_SEMAPHORE_INIT : Z := 33.
Definition SYSCALL_SEMAPHORE_UP : Z := 34.
Definition SYSCALL_SEMAPHORE_DOWN : Z := 35.
Definition SYSCALL_CONDITION_INIT : Z := 36.
Definition SYSCALL_CONDITION_WAIT : Z := 37.
Definition SYSCALL_CONDITION_SIGNAL : Z := 38.
Definition SYSCALL_CONDITION_BROADCAST : Z := 39.
Definition SYSCALL_BARRIER_INIT : Z := 40.
Definition SYSCALL_BARRIER_WAIT : Z := 41.
Definition SYSCALL_EXIT : Z := 42.
Definition SYSCALL_WAITPID : Z := 43.
Definition SYSCALL_GETPID : Z := 44.
Definition SYSCALL_SPAWN : Z := 45.
Definition SYSCALL_KILL : Z := 46.
Definition SYSCALL_PS : Z := 47.
Definition SYSCALL_SCANF : Z := 48.
Definition SYSCALL_NET_RECV : Z := 49.
Definition SYSCALL_WAIT_RECV_PACKAGE : Z := 50.
Definition SYSCALL_INIT_MAC : Z := 51.
Definition SYSCALL_NET_SEND : Z := 52.
Definition SYSCALL_NET_FAST_RECV : Z := 53.
Definition SYSCALL_FS_OPEN : Z := 54.
Definition SYSCALL_FS_WRITE : Z := 55.
Definition SYSCALL_FS_READ : Z := 56.
Definition SYSCALL_FS_CLOSE : Z := 57.
Definition SYSCALL_FS_MKFS : Z := 59.
Definition SYSCALL_FS_STATFS : Z := 60.
Definition SYSCALL_FS_MKDIR : Z := 61.
Definition SYSCALL_FS_RMDIR : Z := 62.
Definition SYSCALL_FS_LS : Z := 63.
Definition SYSCALL_FS_CD : Z := 64.
Definition SYSCALL_FS_TOUCH : Z := 65.
Definition SYSCALL_FS_CAT : Z := 66.
Definition SYSCALL_FS_FIND : Z := 67.
Definition SYSCALL_FS_RENAME : Z := 68.
Definition SYSCALL_FS_LINK : Z := 69.
Definition SYSCALL_FS_SYM_LINK : Z := 70.
Definition SYSCALL_FS_PWD : Z := 71.
Definition SYSCAL_FS_MAN : Z := 72.
Definition SYSCALL_FS_DU : Z := 73.
Definition SYSCALL_FS_DF : Z := 74.
Definition SYSCALL_FS_DIFF : Z := 75.
Definition SYSCALL_FS_WC : Z := 76.
Definition SYSCALL_FS_RM : Z := 77.
Definition SYSCALL_FS_MV : Z := 78.
Definition SYSCALL_FS_CP : Z := 79.
Definition SYSCALL_FS_CHMOD : Z := 80.

(** ** The table *)

#[local] Open Scope string_scope.

Definition invalid_syscall : string := "invalid_syscall".

(** The assignments of [init_syscall], in their order. *)
Definition syscall_entries : list (Z * string) := [
  (SYSCALL_SLEEP, "do_sleep");
  (SYSCALL_BLOCK, "do_block");
  (SYSCALL_UNBLOCK_ONE, "do_unblock_one");
  (SYSCALL_UNBLOCK_ALL, "do_unblock_all");
  (SYSCALL_WRITE, "do_write");
  (SYSCALL_CURSOR, "screen_move_cursor");
  (SYSCALL_REFLUSH, "screen_reflush");
  (SYSCALL_MUTEX_LOCK_INIT, "do_mutex_lock_init");
  (SYSCALL_MUTEX_LOCK_ACQUIRE, "do_mutex_lock_acquire");
  (SYSCALL_MUTEX_LOCK_RELEASE, "do_mutex_lock_release");
  (SYSCALL_SCREEN_CLEAR, "screen_clear");
  (SYSCALL_SEMAPHORE_INIT, "do_semaphore_init");
  (SYSCALL_SEMAPHORE_UP, "do_semaphore_up");
  (SYSCALL_SEMAPHORE_DOWN, "do_semaphore_down");
  (SYSCALL_CONDITION_INIT, "do_condition_init");
  (SYSCALL_CONDITION_WAIT, "do_condition_wait");
  (SYSCALL_CONDITION_SIGNAL, "do_condition_signal");
  (SYSCALL_CONDITION_BROADCAST, "do_condition_broadcast");
  (SYSCALL_BARRIER_INIT, "do_barrier_init");
  (SYSCALL_BARRIER_WAIT, "do_barrier_wait");
  (SYSCALL_EXIT, "do_exit");
  (SYSCALL_WAITPID, "do_waitpid");
  (SYSCALL_GETPID, "do_getpid");
  (SYSCALL_SPAWN, "do_spawn");
  (SYSCALL_KILL, "do_kill");
  (SYSCALL_PS, "do_ps");
  (SYSCALL_SCANF, "do_scanf");
  (SYSCALL_INIT_MAC, "do_init_mac");
  (SYSCALL_NET_SEND, "do_net_send");
  (SYSCALL_NET_RECV, "do_net_recv");
  (SYSCALL_WAIT_RECV_PACKAGE, "do_wait_recv_package");
  (SYSCALL_NET_FAST_RECV, "do_net_fast_recv");
  (SYSCALL_FS_OPEN, "do_fopen");
  (SYSCALL_FS_WRITE, "do_fwrite");
  (SYSCALL_FS_READ, "do_fread");
  (SYSCALL_FS_CLOSE, "do_fclose");
  (SYSCALL_FS_MKFS, "do_mkfs");
  (SYSCALL_FS_STATFS, "do_statfs");
  (SYSCALL_FS_MKDIR, "do_mkdir");
  (SYSCALL_FS_RMDIR, "do_rmdir");
  (SYSCALL_FS_CD, "do_cd");
  (SYSCALL_FS_LS, "do_ls");
  (SYSCALL_FS_TOUCH, "do_touch");
  (SYSCALL_FS_CAT, "do_cat");
  (SYSCALL_FS_FIND, "do_find");
  (SYSCALL_FS_RENAME, "do_rename");
  (SYSCALL_FS_LINK, "do_link");
  (SYSCALL_FS_SYM_LINK, "do_symlink");
  (SYSCALL_FS_PWD, "do_pwd");
  (SYSCAL_FS_MAN, "do_man");
  (SYSCALL_FS_DU, "do_du");
  (SYSCALL_FS_DF, "do_df");
  (SYSCALL_FS_DIFF, "do_diff");
  (SYSCALL_FS_WC, "do_wc");
  (SYSCALL_FS_RM, "do_rm");
  (SYSCALL_FS_MV, "do_mv");
  (SYSCALL_FS_CP, "do_cp");
  (SYSCALL_FS_CHMOD, "do_chmod")].

Fixpoint set_entries (l : list (Z * string)) (table : list string) : outcome (list string) :=
  match l with
  | [] => Ok table
  | (fn, f) :: l => try! table := wr table fn f in set_entries l table
  end.
(** The loop over the [NUM_SYSCALLS] entries, and the assignments.  The argument
    is the memory from the first entry of the array on: the array, which has
    [NUM_SYSCALLS] entries, and the words behind it, into which the assignments to
    the numbers from 64 on go. *)
Fixpoint clear_entries (n : nat) (fn : Z) (table : list string) : outcome (list string) :=
  match n with
  | O => Ok table
  | S n => try! table := wr table fn invalid_syscall in clear_entries n (fn + 1) table
  end.
Definition init_syscall (table : list string) : outcome (list string) :=
  try! table := clear_entries (Z.to_nat NUM_SYSCALLS) 0 table in
  set_entries syscall_entries table.

(** ** The stubs *)

(** The registers in which a call is passed: v0, a0, a1 and a2. *)
Record call_regs := mk_call { c_v0 : Z; c_a0 : Z; c_a1 : Z; c_a2 : Z }.
(** [invoke_syscall(fn, arg1, arg2, arg3)] of syscall.S. *)
Definition invoke_syscall (a0 a1 a2 a3 : Z) : call_regs := mk_call a0 a1 a2 a3.

Inductive user_call :=
| U_sys_sleep (time : Z)
| U_sys_block (queue : Z)
| U_sys_unblock_one (queue : Z)
| U_sys_unblock_all (queue : Z)
| U_sys_write (buff : Z)
| U_sys_reflush
| U_sys_move_cursor (x : Z) (y : Z)
| U_sys_screen_clear
| U_mutex_lock_init (lock : Z)
| U_mutex_lock_acquire (lock : Z)
| U_mutex_lock_release (lock : Z)
| U_semaphore_init (semaphore : Z) (n : Z)
| U_semaphore_up (semaphore : Z)
| U_semaphore_down (semaphore : Z)
| U_condition_init (condition : Z)
| U_condition_wait (lock : Z) (condition : Z)
| U_condition_signal (condition : Z)
| U_condition_broadcast (condition : Z)
| U_barrier_init (barrier : Z) (n : Z)
| U_barrier_wait (barrier : Z)
| U_sys_spawn (task_info : Z)
| U_sys_exit
| U_sys_getpid
| U_sys_waitpid (n : Z)
| U_sys_kill (n : Z)
| U_sys_ps
| U_sys_scanf (mem : Z)
| U_sys_init_mac
| U_sys_net_send (td : Z) (td_phy : Z)
| U_sys_net_recv (rd : Z) (rd_phy : Z) (daddr : Z)
| U_sys_wait_recv_package
| U_sys_net_fast_recv (rd : Z) (rd_phy : Z) (daddr : Z)
| U_sys_fopen (name : Z) (mode : Z)
| U_sys_fwrite (fd : Z) (content : Z) (length : Z)
| U_sys_fread (fd : Z) (buffer : Z) (length : Z)
| U_sys_fclose (fd : Z)
| U_sys_mkfs
| U_sys_statfs
| U_sys_mkdir (name : Z)
| U_sys_rmdir (name : Z)
| U_sys_cd (name : Z)
| U_sys_ls
| U_sys_touch (name : Z)
| U_sys_cat (name : Z)
| U_sys_find (path : Z) (name : Z)
| U_sys_rename (old_name : Z) (new_name : Z)
| U_sys_link (src_path : Z) (new_path : Z)
| U_sys_symlink (src_path : Z) (new_path : Z)
| U_sys_pwd
| U_sys_man (command : Z)
| U_sys_du
| U_sys_df
| U_sys_diff (name_1 : Z) (name_2 : Z)
| U_sys_wc (name : Z)
| U_sys_rm (name : Z)
| U_sys_mv (path_1 : Z) (path_2 : Z)
| U_sys_cp (path_1 : Z) (path_2 : Z)
| U_sys_chmod (name : Z).

Definition sys_sleep (time : Z) : call_regs := invoke_syscall SYSCALL_SLEEP time IGNORE IGNORE.
Definition sys_block (queue : Z) : call_regs := invoke_syscall SYSCALL_BLOCK queue IGNORE IGNORE.
Definition sys_unblock_one (queue : Z) : call_regs := invoke_syscall SYSCALL_UNBLOCK_ONE queue IGNORE IGNORE.
Definition sys_unblock_all (queue : Z) : call_regs := invoke_syscall SYSCALL_UNBLOCK_ALL queue IGNORE IGNORE.
Definition sys_write (buff : Z) : call_regs := invoke_syscall SYSCALL_WRITE buff IGNORE IGNORE.
Definition sys_reflush : call_regs := invoke_syscall SYSCALL_REFLUSH IGNORE IGNORE IGNORE.
Definition sys_move_cursor (x : Z) (y : Z) : call_regs := invoke_syscall SYSCALL_CURSOR x y IGNORE.
Definition sys_screen_clear : call_regs := invoke_syscall SYSCALL_SCREEN_CLEAR IGNORE IGNORE IGNORE.
Definition mutex_lock_init (lock : Z) : call_regs := invoke_syscall SYSCALL_MUTEX_LOCK_INIT lock IGNORE IGNORE.
Definition mutex_lock_acquire (lock : Z) : call_regs := invoke_syscall SYSCALL_MUTEX_LOCK_ACQUIRE lock IGNORE IGNORE.
Definition mutex_lock_release (lock : Z) : call_regs := invoke_syscall SYSCALL_MUTEX_LOCK_RELEASE lock IGNORE IGNORE.
Definition semaphore_init (semaphore : Z) (n : Z) : call_regs := invoke_syscall SYSCALL_SEMAPHORE_INIT semaphore n IGNORE.
Definition semaphore_up (semaphore : Z) : call_regs := invoke_syscall SYSCALL_SEMAPHORE_UP semaphore IGNORE IGNORE.
Definition semaphore_down (semaphore : Z) : call_regs := invoke_syscall SYSCALL_SEMAPHORE_DOWN semaphore IGNORE IGNORE.
Definition condition_init (condition : Z) : call_regs := invoke_syscall SYSCALL_CONDITION_INIT condition IGNORE IGNORE.
Definition condition_wait (lock : Z) (condition : Z) : call_regs := invoke_syscall SYSCALL_CONDITION_WAIT lock condition IGNORE.
Definition condition_signal (condition : Z) : call_regs := invoke_syscall SYSCALL_CONDITION_SIGNAL condition IGNORE IGNORE.
Definition condition_broadcast (condition : Z) : call_regs := invoke_syscall SYSCALL_CONDITION_BROADCAST condition IGNORE IGNORE.
Definition barrier_init (barrier : Z) (n : Z) : call_regs := invoke_syscall SYSCALL_BARRIER_INIT barrier n IGNORE.
Definition barrier_wait (barrier : Z) : call_regs := invoke_syscall SYSCALL_BARRIER_WAIT barrier IGNORE IGNORE.
Definition sys_spawn (task_info : Z) : call_regs := invoke_syscall SYSCALL_SPAWN task_info IGNORE IGNORE.
Definition sys_exit : call_regs := invoke_syscall SYSCALL_EXIT IGNORE IGNORE IGNORE.
Definition sys_getpid : call_regs := invoke_syscall SYSCALL_GETPID IGNORE IGNORE IGNORE.
Definition sys_waitpid (n : Z) : call_regs := invoke_syscall SYSCALL_WAITPID n IGNORE IGNORE.
Definition sys_kill (n : Z) : call_regs := invoke_syscall SYSCALL_KILL n IGNORE IGNORE.
Definition sys_ps : call_regs := invoke_syscall SYSCALL_PS IGNORE IGNORE IGNORE.
Definition sys_scanf (mem : Z) : call_regs := invoke_syscall SYSCALL_SCANF mem IGNORE IGNORE.
Definition sys_init_mac : call_regs := invoke_syscall SYSCALL_INIT_MAC IGNORE IGNORE IGNORE.
Definition sys_net_send (td : Z) (td_phy : Z) : call_regs := invoke_syscall SYSCALL_NET_SEND td td_phy IGNORE.
Definition sys_net_recv (rd : Z) (rd_phy : Z) (daddr : Z) : call_regs := invoke_syscall SYSCALL_NET_RECV rd rd_phy daddr.
Definition sys_wait_recv_package : call_regs := invoke_syscall SYSCALL_WAIT_RECV_PACKAGE IGNORE IGNORE IGNORE.
Definition sys_net_fast_recv (rd : Z) (rd_phy : Z) (daddr : Z) : call_regs := invoke_syscall SYSCALL_NET_FAST_RECV rd rd_phy daddr.
Definition sys_fopen (name : Z) (mode : Z) : call_regs := invoke_syscall SYSCALL_FS_OPEN name mode IGNORE.
Definition sys_fwrite (fd : Z) (content : Z) (length : Z) : call_regs := invoke_syscall SYSCALL_FS_WRITE fd content length.
Definition sys_fread (fd : Z) (buffer : Z) (length : Z) : call_regs := invoke_syscall SYSCALL_FS_READ fd buffer length.
Definition sys_fclose (fd : Z) : call_regs := invoke_syscall SYSCALL_FS_CLOSE fd IGNORE IGNORE.
Definition sys_mkfs : call_regs := invoke_syscall SYSCALL_FS_MKFS IGNORE IGNORE IGNORE.
Definition sys_statfs : call_regs := invoke_syscall SYSCALL_FS_STATFS IGNORE IGNORE IGNORE.
Definition sys_mkdir (name : Z) : call_regs := invoke_syscall SYSCALL_FS_MKDIR name 0 IGNORE.
Definition sys_rmdir (name : Z) : call_regs := invoke_syscall SYSCALL_FS_RMDIR name IGNORE IGNORE.
Definition sys_cd (name : Z) : call_regs := invoke_syscall SYSCALL_FS_CD name IGNORE IGNORE.
Definition sys_ls : call_regs := invoke_syscall SYSCALL_FS_LS IGNORE IGNORE IGNORE.
Definition sys_touch (name : Z) : call_regs := invoke_syscall SYSCALL_FS_TOUCH name 0 IGNORE.
Definition sys_cat (name : Z) : call_regs := invoke_syscall SYSCALL_FS_CAT name IGNORE IGNORE.
Definition sys_find (path : Z) (name : Z) : call_regs := invoke_syscall SYSCALL_FS_FIND path name IGNORE.
Definition sys_rename (old_name : Z) (new_name : Z) : call_regs := invoke_syscall SYSCALL_FS_RENAME old_name new_name IGNORE.
Definition sys_link (src_path : Z) (new_path : Z) : call_regs := invoke_syscall SYSCALL_FS_LINK src_path new_path IGNORE.
Definition sys_symlink (src_path : Z) (new_path : Z) : call_regs := invoke_syscall SYSCALL_FS_SYM_LINK src_path new_path IGNORE.
Definition sys_pwd : call_regs := invoke_syscall SYSCALL_FS_PWD IGNORE IGNORE IGNORE.
Definition sys_man (command : Z) : call_regs := invoke_syscall SYSCAL_FS_MAN command IGNORE IGNORE.
Definition sys_du : call_regs := invoke_syscall SYSCALL_FS_DU IGNORE IGNORE IGNORE.
Definition sys_df : call_regs := invoke_syscall SYSCALL_FS_DF IGNORE IGNORE IGNORE.
Definition sys_diff (name_1 : Z) (name_2 : Z) : call_regs := invoke_syscall SYSCALL_FS_DIFF name_1 name_2 IGNORE.
Definition sys_wc (name : Z) : call_regs := invoke_syscall SYSCALL_FS_WC name IGNORE IGNORE.
Definition sys_rm (name : Z) : call_regs := invoke_syscall SYSCALL_FS_RM name IGNORE IGNORE.
Definition sys_mv (path_1 : Z) (path_2 : Z) : call_regs := invoke_syscall SYSCALL_FS_MV path_1 path_2 IGNORE.
Definition sys_cp (path_1 : Z) (path_2 : Z) : call_regs := invoke_syscall SYSCALL_FS_CP path_1 path_2 IGNORE.
Definition sys_chmod (name : Z) : call_regs := invoke_syscall SYSCALL_FS_CHMOD name IGNORE IGNORE.

Definition user_regs (u : user_call) : call_regs :=
  match u with
  | U_sys_sleep time => sys_sleep time
  | U_sys_block queue => sys_block queue
  | U_sys_unblock_one queue => sys_unblock_one queue
  | U_sys_unblock_all queue => sys_unblock_all queue
  | U_sys_write buff => sys_write buff
  | U_sys_reflush => sys_reflush
  | U_sys_move_cursor x y => sys_move_cursor x y
  | U_sys_screen_clear => sys_screen_clear
  | U_mutex_lock_init lock => mutex_lock_init lock
  | U_mutex_lock_acquire lock => mutex_lock_acquire lock
  | U_mutex_lock_release lock => mutex_lock_release lock
  | U_semaphore_init semaphore n => semaphore_init semaphore n
  | U_semaphore_up semaphore => semaphore_up semaphore
  | U_semaphore_down semaphore => semaphore_down semaphore
  | U_condition_init condition => condition_init condition
  | U_condition_wait lock condition => condition_wait lock condition
  | U_condition_signal condition => condition_signal condition
  | U_condition_broadcast condition => condition_broadcast condition
  | U_barrier_init barrier n => barrier_init barrier n
  | U_barrier_wait barrier => barrier_wait barrier
  | U_sys_spawn task_info => sys_spawn task_info
  | U_sys_exit => sys_exit
  | U_sys_getpid => sys_getpid
  | U_sys_waitpid n => sys_waitpid n
  | U_sys_kill n => sys_kill n
  | U_sys_ps => sys_ps
  | U_sys_scanf mem => sys_scanf mem
  | U_sys_init_mac => sys_init_mac
  | U_sys_net_send td td_phy => sys_net_send td td_phy
  | U_sys_net_recv rd rd_phy daddr => sys_net_recv rd rd_phy daddr
  | U_sys_wait_recv_package => sys_wait_recv_package
  | U_sys_net_fast_recv rd rd_phy daddr => sys_net_fast_recv rd rd_phy daddr
  | U_sys_fopen name mode => sys_fopen name mode
  | U_sys_fwrite fd content length => sys_fwrite fd content length
  | U_sys_fread fd buffer length => sys_fread fd buffer length
  | U_sys_fclose fd => sys_fclose fd
  | U_sys_mkfs => sys_mkfs
  | U_sys_statfs => sys_statfs
  | U_sys_mkdir name => sys_mkdir name
  | U_sys_rmdir name => sys_rmdir name
  | U_sys_cd name => sys_cd name
  | U_sys_ls => sys_ls
  | U_sys_touch name => sys_touch name
  | U_sys_cat name => sys_cat name
  | U_sys_find path name => sys_find path name
  | U_sys_rename old_name new_name => sys_rename old_name new_name
  | U_sys_link src_path new_path => sys_link src_path new_path
  | U_sys_symlink src_path new_path => sys_symlink src_path new_path
  | U_sys_pwd => sys_pwd
  | U_sys_man command => sys_man command
  | U_sys_du => sys_du
  | U_sys_df => sys_df
  | U_sys_diff name_1 name_2 => sys_diff name_1 name_2
  | U_sys_wc name => sys_wc name
  | U_sys_rm name => sys_rm name
  | U_sys_mv path_1 path_2 => sys_mv path_1 path_2
  | U_sys_cp path_1 path_2 => sys_cp path_1 path_2
  | U_sys_chmod name => sys_chmod name
  end.

(** ** Dispatch *)

(** [handle_syscall] passes v0, a0, a1 and a2 on as the four arguments of
    [system_call_helper]; the function it calls, and with which arguments. *)
Definition dispatch (table : list string) (r : call_regs) : outcome (string * list Z) :=
  try! f := rd table (c_v0 r) in Ok (f, [c_a0 r; c_a1 r; c_a2 r]).

(** The whole [system_call_helper], on the functions [call] of the kernel.  The
    caller of a function that switches to another task goes on behind the call
    when it runs again: then the rest is not done here. *)
Definition system_call_helper (call : string -> Z -> Z -> Z -> M kstate Z) (table : list string)
    (fn arg1 arg2 arg3 : Z) : M kstate unit :=
  let! cur := gets current_running in
  do! store cur (fun p => p <| pcb_mode := KERNEL_MODE |>);
  let! f := lift (rd table fn) in
  let! ret_val := call f arg1 arg2 arg3 in
  let! now := gets current_running in
  if decide (now = cur) then
    do! store now (fun p => p <| pcb_mode := USER_MODE |>);
    do! store now (fun p => p <| user_context := (user_context p) <| regs := <[2%nat := u32 ret_val]> (regs (user_context p)) |> |>);
    store now (fun p => p <| user_context := (user_context p) <| cp0_epc := u32 (cp0_epc (user_context p) + 4) |> |>)
  else ret tt.

(** The handlers of process management; [object] finds a lock, semaphore,
    condition or barrier by its address, [task_info] a program; the value of a
    function without one is what [junk] says; [others] are the handlers of the
    other parts of the kernel. *)
Definition process_call (first_entry : Z) (object : Z -> nat) (task_info : Z -> task_info_t) (junk : Z)
    (others : string -> Z -> Z -> Z -> M kstate Z) (f : string) (a1 a2 a3 : Z) : M kstate Z :=
  let void (m : M kstate unit) := do! m; ret junk in
  if decide (f = "do_sleep") then void (do_sleep a1)
  else if decide (f = "do_mutex_lock_init") then void (do_mutex_lock_init (object a1))
  else if decide (f = "do_mutex_lock_acquire") then void (do_mutex_lock_acquire (object a1))
  else if decide (f = "do_mutex_lock_release") then void (do_mutex_lock_release (object a1))
  else if decide (f = "do_semaphore_init") then void (do_semaphore_init (object a1) a2)
  else if decide (f = "do_semaphore_up") then void (do_semaphore_up (object a1))
  else if decide (f = "do_semaphore_down") then void (do_semaphore_down (object a1))
  else if decide (f = "do_condition_init") then void (do_condition_init (object a1))
  else if decide (f = "do_condition_wait") then void (do_condition_wait (object a1) (object a2))
  else if decide (f = "do_condition_signal") then void (do_condition_signal (object a1))
  else if decide (f = "do_condition_broadcast") then void (do_condition_broadcast (object a1))
  else if decide (f = "do_barrier_init") then void (do_barrier_init (object a1) a2)
  else if decide (f = "do_barrier_wait") then void (do_barrier_wait (object a1))
  else if decide (f = "do_exit") then void do_exit
  else if decide (f = "do_waitpid") then void (do_waitpid a1)
  else if decide (f = "do_getpid") then do_getpid
  else if decide (f = "do_spawn") then void (do_spawn first_entry (task_info a1))
  else if decide (f = "do_kill") then void (do_kill a1)
  else others f a1 a2 a3.

(** ** What the stubs are meant to do *)

(** What each stub is for: the function of the kernel and its arguments. *)
Definition meaning (u : user_call) : string * list Z :=
  match u with
  | U_sys_sleep time => ("do_sleep", [time])
  | U_sys_block queue => ("do_block", [queue])
  | U_sys_unblock_one queue => ("do_unblock_one", [queue])
  | U_sys_unblock_all queue => ("do_unblock_all", [queue])
  | U_sys_write buff => ("do_write", [buff])
  | U_sys_reflush => ("screen_reflush", [])
  | U_sys_move_cursor x y => ("screen_move_cursor", [x; y])
  | U_sys_screen_clear => ("screen_clear", [])
  | U_mutex_lock_init lock => ("do_mutex_lock_init", [lock])
  | U_mutex_lock_acquire lock => ("do_mutex_lock_acquire", [lock])
  | U_mutex_lock_release lock => ("do_mutex_lock_release", [lock])
  | U_semaphore_init semaphore n => ("do_semaphore_init", [semaphore; n])
  | U_semaphore_up semaphore => ("do_semaphore_up", [semaphore])
  | U_semaphore_down semaphore => ("do_semaphore_down", [semaphore])
  | U_condition_init condition => ("do_condition_init", [condition])
  | U_condition_wait lock condition => ("do_condition_wait", [lock; condition])
  | U_condition_signal condition => ("do_condition_signal", [condition])
  | U_condition_broadcast condition => ("do_condition_broadcast", [condition])
  | U_barrier_init barrier n => ("do_barrier_init", [barrier; n])
  | U_barrier_wait barrier => ("do_barrier_wait", [barrier])
  | U_sys_spawn task_info => ("do_spawn", [task_info])
  | U_sys_exit => ("do_exit", [])
  | U_sys_getpid => ("do_getpid", [])
  | U_sys_waitpid n => ("do_waitpid", [n])
  | U_sys_kill n => ("do_kill", [n])
  | U_sys_ps => ("do_ps", [])
  | U_sys_scanf mem => ("do_scanf", [mem])
  | U_sys_init_mac => ("do_init_mac", [])
  | U_sys_net_send td td_phy => ("do_net_send", [td; td_phy])
  | U_sys_net_recv rd rd_phy daddr => ("do_net_recv", [rd; rd_phy; daddr])
  | U_sys_wait_recv_package => ("do_wait_recv_package", [])
  | U_sys_net_fast_recv rd rd_phy daddr => ("do_net_fast_recv", [rd; rd_phy; daddr])
  | U_sys_fopen name mode => ("do_fopen", [name; mode])
  | U_sys_fwrite fd content length => ("do_fwrite", [fd; content; length])
  | U_sys_fread fd buffer length => ("do_fread", [fd; buffer; length])
  | U_sys_fclose fd => ("do_fclose", [fd])
  | U_sys_mkfs => ("do_mkfs", [])
  | U_sys_statfs => ("do_statfs", [])
  | U_sys_mkdir name => ("do_mkdir", [name; 0])
  | U_sys_rmdir name => ("do_rmdir", [name])
  | U_sys_cd name => ("do_cd", [name])
  | U_sys_ls => ("do_ls", [])
  | U_sys_touch name => ("do_touch", [name; 0])
  | U_sys_cat name => ("do_cat", [name])
  | U_sys_find path name => ("do_find", [path; name])
  | U_sys_rename old_name new_name => ("do_rename", [old_name; new_name])
  | U_sys_link src_path new_path => ("do_link", [src_path; new_path])
  | U_sys_symlink src_path new_path => ("do_symlink", [src_path; new_path])
  | U_sys_pwd => ("do_pwd", [])
  | U_sys_man command => ("do_man", [command])
  | U_sys_du => ("do_du", [])
  | U_sys_df => ("do_df", [])
  | U_sys_diff name_1 name_2 => ("do_diff", [name_1; name_2])
  | U_sys_wc name => ("do_wc", [name])
  | U_sys_rm name => ("do_rm", [name])
  | U_sys_mv path_1 path_2 => ("do_mv", [path_1; path_2])
  | U_sys_cp path_1 path_2 => ("do_cp", [path_1; path_2])
  | U_sys_chmod name => ("do_chmod", [name])
  end.
#[local] Close Scope string_scope.

(** The number of words that the assignments need. *)
Definition ENTRIES : nat := 81.
(** How many of them are behind the array. *)
Definition OVERRUN : nat := 17.

(** ** The table, whatever was in memory before *)

Lemma clear_entries_spec n : forall pre t, (n <= length t)%nat ->
  clear_entries n (len pre) (pre ++ t) = Ok (pre ++ replicate n invalid_syscall ++ drop n t).
Proof.
  induction n as [|n IH]; intros pre t Hn; cbn [clear_entries]; [by rewrite drop_0|].
  destruct t as [|x t]; cbn in Hn; [lia|]. rewrite wr_in_range by (rewrite length_app; cbn; lia). cbn [obind].
  rewrite Nat2Z.id, insert_app_r_alt, Nat.sub_diag by lia. cbn [list_insert insert].
  replace (len pre + 1) with (len (pre ++ [invalid_syscall])) by (rewrite length_app; cbn; lia).
  replace (pre ++ invalid_syscall :: t) with ((pre ++ [invalid_syscall]) ++ t) by by rewrite <-app_assoc.
  rewrite IH by lia. by rewrite <-app_assoc.
Qed.

(** The table that the code means to make, with room for it. *)
Definition full_table (behind : list string) : outcome (list string) :=
  set_entries syscall_entries (replicate (Z.to_nat NUM_SYSCALLS) invalid_syscall ++ behind).

Lemma init_syscall_spec table : (Z.to_nat NUM_SYSCALLS <= length table)%nat ->
  init_syscall table = full_table (drop (Z.to_nat NUM_SYSCALLS) table).
Proof.
  intros Hl. unfold init_syscall. pose proof (clear_entries_spec _ [] table Hl) as E. cbn [app length] in E. change (Z.of_nat 0) with 0 in E. by rewrite E.
Qed.

(** Assignments within the array succeed, and the last one to a number counts. *)
Lemma set_entries_spec l t : Forall (fun p => 0 <= fst p < len t) l -> NoDup l.*1 ->
  exists t', set_entries l t = Ok t' /\ length t' = length t
    /\ (forall fn f, (fn, f) ∈ l -> rd t' fn = Ok f) /\ (forall fn, fn ∉ l.*1 -> rd t' fn = rd t fn).
Proof.
  revert t. induction l as [|[fn f] l IH]; intros t Hl Hn; [exists t; split_and!; [done|done|set_solver|done]|].
  apply Forall_cons in Hl as [Hfn Hl]. apply NoDup_cons in Hn as [Hnotin Hn]. cbn in Hfn, Hnotin. cbn [set_entries].
  destruct (wr t fn f) as [t1|] eqn:Ew; [|by rewrite wr_in_range in Ew]. cbn [obind].
  assert (length t1 = length t) as L1 by (rewrite wr_in_range in Ew by done; injection Ew as <-; apply length_insert).
  destruct (IH t1) as (t' & E & L & H1 & H2); [by rewrite L1|done|]. exists t'. split_and!; [done|by rewrite L| |].
  - intros fn' f' [[= -> ->]|Hin]%elem_of_cons; [|by apply H1]. rewrite H2 by done. by eapply rd_wr_eq.
  - intros fn' Hne. cbn in Hne. apply not_elem_of_cons in Hne as [Hne1 Hne2]. rewrite H2 by done. by eapply rd_wr_ne.
Qed.

Lemma entries_distinct : NoDup syscall_entries.*1.
Proof. apply (bool_decide_unpack _). vm_compute. exact I. Qed.
Lemma entries_range n : (ENTRIES <= n)%nat -> Forall (fun p => 0 <= fst p < Z.of_nat n) syscall_entries.
Proof.
  intros Hn. assert (Forall (fun p => 0 <= fst p < Z.of_nat ENTRIES) syscall_entries) as H.
  { apply (bool_decide_unpack _). vm_compute. exact I. }
  eapply Forall_impl; [exact H|]. intros p. cbv beta. lia.
Qed.
Lemma meaning_entry u : (c_v0 (user_regs u), fst (meaning u)) ∈ syscall_entries.
Proof. destruct u; apply (bool_decide_unpack _); vm_compute; exact I. Qed.
Lemma meaning_args u : exists r, [c_a0 (user_regs u); c_a1 (user_regs u); c_a2 (user_regs u)] = snd (meaning u) ++ r.
Proof. destruct u; by eexists. Qed.

Lemma full_table_spec table : (ENTRIES <= length table)%nat ->
  exists t, init_syscall table = Ok t /\ length t = length table
    /\ (forall fn f, (fn, f) ∈ syscall_entries -> rd t fn = Ok f)
    /\ (forall fn, 0 <= fn < NUM_SYSCALLS -> fn ∉ syscall_entries.*1 -> rd t fn = Ok invalid_syscall)
    /\ drop ENTRIES t = drop ENTRIES table.
Proof.
  intros Hl. unfold ENTRIES in Hl. assert (Z.to_nat NUM_SYSCALLS = 64%nat) as E64 by done.
  rewrite init_syscall_spec by lia. unfold full_table. rewrite E64.
  assert (length (replicate 64 invalid_syscall ++ drop 64 table) = length table) as L by (rewrite length_app, length_replicate, length_drop; lia).
  destruct (set_entries_spec syscall_entries (replicate 64 invalid_syscall ++ drop 64 table)) as (t & E & Lt & H1 & H2).
  - rewrite L. by apply entries_range.
  - apply entries_distinct.
  - exists t. split_and!; [done|congruence|done| |].
    + intros fn Hfn Hn. rewrite H2 by done. unfold NUM_SYSCALLS in Hfn.
      apply rd_lookup; [lia|]. rewrite lookup_app_l by (rewrite length_replicate; lia). apply lookup_replicate_2. lia.
    + apply list_eq. intros i. rewrite !lookup_drop.
      assert (Z.of_nat (ENTRIES + i) ∉ syscall_entries.*1) as Hn.
      { intros (p & Hp & Hin)%list_elem_of_fmap. pose proof (entries_range ENTRIES (le_n _)) as Hr.
        rewrite Forall_forall in Hr. specialize (Hr p Hin). unfold ENTRIES in *. lia. }
      specialize (H2 _ Hn). unfold rd in H2. rewrite Nat2Z.id in H2. destruct (Z.leb_spec 0 (Z.of_nat (ENTRIES + i))); [|lia].
      rewrite (lookup_app_r (replicate 64 _)), lookup_drop, length_replicate in H2 by (rewrite length_replicate; unfold ENTRIES; lia).
      replace (64 + (ENTRIES + i - 64))%nat with (ENTRIES + i)%nat in H2 by (unfold ENTRIES; lia).
      destruct (t !! _), (table !! _); congruence.
Qed.

(** The same of the array and the words behind it. *)
Lemma table_split declared behind : len declared = NUM_SYSCALLS -> (OVERRUN <= length behind)%nat ->
  exists d b, init_syscall (declared ++ behind) = Ok (d ++ b ++ drop OVERRUN behind) /\ len d = NUM_SYSCALLS /\ length b = OVERRUN
    /\ (forall fn f, (fn, f) ∈ syscall_entries -> fn < NUM_SYSCALLS -> rd d fn = Ok f)
    /\ (forall fn f, (fn, f) ∈ syscall_entries -> NUM_SYSCALLS <= fn -> rd b (fn - NUM_SYSCALLS) = Ok f)
    /\ (forall fn, 0 <= fn < NUM_SYSCALLS -> fn ∉ syscall_entries.*1 -> rd d fn = Ok invalid_syscall).
Proof.
  unfold NUM_SYSCALLS, OVERRUN. intros Hd Hb. destruct (full_table_spec (declared ++ behind)) as (t & E & Lt & H1 & H2 & H3).
  { rewrite length_app. unfold ENTRIES. lia. }
  rewrite length_app in Lt. exists (take 64 t), (take 17 (drop 64 t)).
  assert (drop 17 (drop 64 t) = drop 17 behind) as Eb.
  { rewrite drop_drop. unfold ENTRIES in H3. change (64 + 17)%nat with 81%nat. rewrite H3, drop_app_ge by lia. f_equal. lia. }
  assert (length (take 64 t) = 64%nat) as L64 by (rewrite length_take; lia).
  assert (forall fn x, 0 <= fn < 64 -> rd t fn = Ok x -> rd (take 64 t) fn = Ok x) as Htake.
  { intros fn x Hfn. unfold rd. by rewrite lookup_take_lt by lia. }
  split_and!.
  - rewrite <-Eb, !take_drop. exact E.
  - lia.
  - rewrite length_take, length_drop. lia.
  - intros fn f Hin Hlt. apply Htake; [|by apply H1]. pose proof (entries_range ENTRIES (le_n _)) as Hr.
    rewrite Forall_forall in Hr. specialize (Hr _ Hin). cbn in Hr. lia.
  - intros fn f Hin Hge. pose proof (entries_range ENTRIES (le_n _)) as Hr. rewrite Forall_forall in Hr. specialize (Hr _ Hin).
    cbn [fst] in Hr. unfold ENTRIES in Hr. specialize (H1 _ _ Hin). unfold rd in *.
    destruct (Z.leb_spec 0 fn); [|lia]. destruct (Z.leb_spec 0 (fn - 64)); [|lia].
    rewrite lookup_take_lt, lookup_drop by lia. by replace (64 + Z.to_nat (fn - 64))%nat with (Z.to_nat fn) by lia.
  - intros fn Hfn Hn. apply Htake; [done|]. by apply H2.
Qed.
(** The array alone has no room for the assignments. *)
Lemma table_overflow table : len table = NUM_SYSCALLS -> init_syscall table = Fault OutOfBounds.
Proof.
  intros Hl. unfold NUM_SYSCALLS in Hl. rewrite init_syscall_spec by (change (Z.to_nat NUM_SYSCALLS) with 64%nat; lia).
  rewrite drop_ge by (change (Z.to_nat NUM_SYSCALLS) with 64%nat; lia). vm_compute. reflexivity.
Qed.
(** Reading the memory from the array on. *)
Lemma dispatch_split d b c u : len d = NUM_SYSCALLS -> length b = OVERRUN ->
  (forall fn f, (fn, f) ∈ syscall_entries -> fn < NUM_SYSCALLS -> rd d fn = Ok f) ->
  (forall fn f, (fn, f) ∈ syscall_entries -> NUM_SYSCALLS <= fn -> rd b (fn - NUM_SYSCALLS) = Ok f) ->
  exists r, dispatch (d ++ b ++ c) (user_regs u) = Ok (fst (meaning u), snd (meaning u) ++ r).
Proof.
  unfold NUM_SYSCALLS, OVERRUN. intros Ld Lb H1 H2. destruct (meaning_args u) as [r Hr]. exists r. unfold dispatch. rewrite <-Hr.
  pose proof (meaning_entry u) as Hin. generalize dependent (c_v0 (user_regs u)). intros fn Hin.
  assert (rd (d ++ b ++ c) fn = Ok (fst (meaning u))) as ->; [|done]. pose proof (entries_range ENTRIES (le_n _)) as Hrg.
  rewrite Forall_forall in Hrg. specialize (Hrg _ Hin). cbn [fst] in Hrg. unfold ENTRIES in Hrg.
  destruct (decide (fn < 64)) as [Hlt|Hge].
  - specialize (H1 _ _ Hin Hlt). unfold rd in *. by rewrite lookup_app_l by lia.
  - specialize (H2 _ _ Hin ltac:(lia)). unfold rd in *. destruct (Z.leb_spec 0 fn); [|lia]. destruct (Z.leb_spec 0 (fn - 64)); [|lia].
    rewrite lookup_app_r, lookup_app_l by lia. by replace (Z.to_nat fn - length d)%nat with (Z.to_nat (fn - 64)) by lia.
Qed.

Lemma current_set_pcb t p s : current_running (set_pcb t p s) = current_running s.
Proof. done. Qed.

(** ** Theorems *)

(** C29: the array [syscall] has 64 entries and the numbers of the calls go up to 80.
    On the memory from the array on, [init_syscall] fills the array and then the 17
    words behind it with functions, and leaves the memory after those as it was: each
    number below 64 with a function has it in the array, each other number below 64
    [invalid_syscall], each number from 64 on has its function in the words behind
    the array.  As long as these words are not used for anything else, the number and
    the registers of every stub lead to the function the stub is named after, with
    the arguments of the stub in their order.  Within the array alone the assignments
    are out of bounds. *)
Theorem syscall_dispatch_correct declared behind u :
  len declared = NUM_SYSCALLS -> (OVERRUN <= length behind)%nat ->
  init_syscall declared = Fault OutOfBounds /\
  exists d b r, init_syscall (declared ++ behind) = Ok (d ++ b ++ drop OVERRUN behind)
    /\ len d = NUM_SYSCALLS /\ length b = OVERRUN
    /\ (forall fn, 0 <= fn < NUM_SYSCALLS -> fn ∉ syscall_entries.*1 -> rd d fn = Ok invalid_syscall)
    /\ (c_v0 (user_regs u) < NUM_SYSCALLS -> rd d (c_v0 (user_regs u)) = Ok (fst (meaning u)))
    /\ (NUM_SYSCALLS <= c_v0 (user_regs u) -> rd b (c_v0 (user_regs u) - NUM_SYSCALLS) = Ok (fst (meaning u)))
    /\ dispatch (d ++ b ++ drop OVERRUN behind) (user_regs u) = Ok (fst (meaning u), snd (meaning u) ++ r).
Proof.
  intros Hd Hb. split; [by apply table_overflow|]. destruct (table_split declared behind Hd Hb) as (d & b & E & Ld & Lb & H1 & H2 & H3).
  destruct (dispatch_split d b (drop OVERRUN behind) u Ld Lb H1 H2) as [r Hr].
  exists d, b, r. split_and!; try done; intros Hn; [apply H1|apply H2]; try done; apply meaning_entry.
Qed.
Lemma syscall_dispatch_correct_witness :
  exists t r, init_syscall (replicate 64 EmptyString ++ replicate 20 EmptyString) = Ok t
    /\ dispatch t (sys_fwrite 3 0xa0100000 12) = Ok ("do_fwrite"%string, [3; 0xa0100000; 12] ++ r).
Proof.
  destruct (syscall_dispatch_correct (replicate 64 EmptyString) (replicate 20 EmptyString) (U_sys_fwrite 3 0xa0100000 12))
    as [_ (d & b & r & E & _ & _ & _ & _ & _ & D)]; [reflexivity|apply Nat.leb_le; reflexivity|].
  exists (d ++ b ++ drop OVERRUN (replicate 20 EmptyString)), r. exact (conj E D).
Defined.

(** The table has [NUM_SYSCALLS] entries, and the numbers of the file system
    calls go beyond it: filling it writes outside of the array. *)
Theorem syscall_table_overflow table :
  len table = NUM_SYSCALLS -> init_syscall table = Fault OutOfBounds.
Proof. apply table_overflow. Qed.
Lemma syscall_table_overflow_witness : init_syscall (replicate 64 EmptyString) = Fault OutOfBounds.
Proof. apply (syscall_table_overflow (replicate 64 EmptyString)). reflexivity. Defined.

(** A system call end to end: with the table in place (and the words behind it, see
    above), the call of
    [sys_getpid] by the running task returns to user mode behind the instruction
    with the pid in the register for results, and leaves every other task and
    the rest of the kernel as they were. *)
Theorem sys_getpid_correct table fe object task_info junk others s c :
  (ENTRIES <= length table)%nat -> current_running s = Some c -> length (regs (user_context (pcb s c))) = 32%nat ->
  exists t s', init_syscall table = Ok t
    /\ (let r := user_regs U_sys_getpid in
        system_call_helper (process_call fe object task_info junk others) t (c_v0 r) (c_a0 r) (c_a1 r) (c_a2 r) s = Ok (tt, s'))
    /\ regs (user_context (pcb s' c)) !! 2%nat = Some (u32 (pcb_pid (pcb s c)))
    /\ cp0_epc (user_context (pcb s' c)) = u32 (cp0_epc (user_context (pcb s c)) + 4)
    /\ pcb_mode (pcb s' c) = USER_MODE /\ pcb_status (pcb s' c) = pcb_status (pcb s c)
    /\ (forall u, u <> c -> pcb s' u = pcb s u) /\ queues s' = queues s /\ current_running s' = Some c.
Proof.
  intros Hl Hc Hr. destruct (full_table_spec table Hl) as (t & E & _ & H1 & _). exists t.
  pose proof (H1 _ _ (meaning_entry U_sys_getpid)) as Hd. cbn [meaning fst user_regs] in Hd.
  eexists. split; [exact E|]. cbv zeta. split.
  { unfold system_call_helper, bind, lift, gets. rewrite Hc. cbn [store]. cbn [user_regs]. rewrite Hd.
    unfold process_call. repeat (rewrite decide_False by done). rewrite decide_True by done.
    unfold do_getpid, bind, gets. rewrite !current_set_pcb, Hc. cbn [load]. rewrite pcb_set_eq.
    rewrite !current_set_pcb, Hc, decide_True by done. cbn [store]. reflexivity. }
  autorewrite with kernel. cbn. split_and!; try done.
  - rewrite list_lookup_insert_eq by (rewrite Hr; lia). done.
  - intros u Hu. by rewrite !pcb_set_ne by done.
Qed.
Lemma sys_getpid_correct_witness : exists t s', init_syscall (replicate 100 EmptyString) = Ok t
  /\ system_call_helper (process_call 0 Z.to_nat (fun _ => mk_task_info 0 USER_PROCESS) 0 (fun _ _ _ _ => ret 0)) t (c_v0 sys_getpid) 0 0 0
       (boot_kstate <| current_running := Some 1%nat |>) = Ok (tt, s') /\ pcb_mode (pcb s' 1) = USER_MODE.
Proof.
  destruct (sys_getpid_correct (replicate 100 EmptyString) 0 Z.to_nat (fun _ => mk_task_info 0 USER_PROCESS) 0 (fun _ _ _ _ => ret 0)
    (boot_kstate <| current_running := Some 1%nat |>) 1) as (t & s' & E & C & _ & _ & M & _).
  - rewrite length_replicate. unfold ENTRIES. lia.
  - reflexivity.
  - reflexivity.
  - exists t, s'. exact (conj E (conj C M)).
Defined.
