(* ===== verification/Mailbox.v ===== *)
(** Mailboxes: libs/mailbox.c, a library of user tasks on top of the mutexes and
    semaphores of the kernel.

    A task that sends or receives makes several system calls, and another task
    may run when one of them blocks: a function is the list of its steps, and
    [run] does them until one gives the processor away; what is left is done
    when the task runs again.  The lock of mailbox [i] and its two semaphores are the objects numbered
    [box_lock i], [box_send i] and [box_recv i]. *)

From S2P Require Import Prelude Wp Kernel Queue Sched Sync Process KernelProps CString.

Definition MAX_MBOX_LENGTH : Z := 32.
Definition MAX_MESSAGE_LENGTH : Z := 32.
Definition MBOX_NAME_LENGTH : Z := 32.
Definition MAX_NUM_BOX : Z := 32.

(** ** State *)

(** [mb_msg] is the array of messages, byte by byte. *)
Record mailbox_t := mk_mailbox { mb_name : mem; mb_count : Z; mb_ptr : Z; mb_msg : mem }.
#[export] Instance mailbox_struct : Struct mailbox_t := fun b => mk_mailbox (mb_name b) (mb_count b) (mb_ptr b) (mb_msg b).

(** The kernel, the mailboxes, and the memory of the tasks. *)
Record mstate := mk_mstate { kern : kstate; mboxs : list mailbox_t; user : mem }.
#[export] Instance mstate_struct : Struct mstate := fun s => mk_mstate (kern s) (mboxs s) (user s).
Abbreviation Mb := (M mstate).

(** The lock and the two semaphores of a mailbox. *)
Definition box_lock (i : nat) : nat := i + 2.
Definition box_send (i : nat) : nat := 2 * i.
Definition box_recv (i : nat) : nat := 2 * i + 1.

Definition on_kernel {A} (m : M kstate A) : Mb A := fun s =>
  match m (kern s) with Ok (a, k) => Ok (a, s <| kern := k |>) | Fault f => Fault f end.
Definition get_box (i : nat) : Mb mailbox_t := let! l := gets mboxs in lift (rd l (Z.of_nat i)).
Definition set_box (i : nat) (f : mailbox_t -> mailbox_t) : Mb unit :=
  let! b := get_box i in
  let! l := gets mboxs in
  let! l := lift (wr l (Z.of_nat i) (f b)) in
  modify (fun s => s <| mboxs := l |>).

(** ** Opening and closing *)

Definition mbox_init : Mb unit :=
  for_range (Z.to_nat MAX_NUM_BOX) 0 (fun i =>
    let i := Z.to_nat i in
    let! b := get_box i in
    let! name := lift (wr (mb_name b) 0 0) in
    do! set_box i (fun b => b <| mb_name := name |>);
    do! set_box i (fun b => b <| mb_count := 0 |>);
    on_kernel (do_mutex_lock_init (box_lock i))).

(** [strcmp(name, mboxs[i].name)], on the two strings side by side. *)
Definition name_cmp (name box_name : mem) : outcome Z := strcmp (name ++ 0 :: box_name) 0 (len name + 1).

(** The first mailbox in use under this name, and the first one that is free. *)
Definition match_step (name : mem) (i : nat) : Mb (option nat) :=
  let! b := get_box i in
  let! c := lift (name_cmp name (mb_name b)) in
  if (c =? 0) && (mb_count b >? 0) then
    do! set_box i (fun b => b <| mb_count := i32 (mb_count b + 1) |>);
    ret (Some i)
  else ret None.
Definition find_open (name : mem) : Mb (option nat) :=
  for_until (Z.to_nat MAX_NUM_BOX) 0 (fun i => match_step name (Z.to_nat i)).
Definition claim_step (name : mem) (i : nat) : Mb (option nat) :=
  let! b := get_box i in
  if mb_count b =? 0 then
    do! on_kernel (do_mutex_lock_init (box_lock i));
    let! l := lift (splice (mb_name b) 0 (name ++ [0])) in
    do! set_box i (fun b => b <| mb_name := l |>);
    do! set_box i (fun b => b <| mb_count := i32 (mb_count b + 1) |>);
    do! set_box i (fun b => b <| mb_ptr := 0 |>);
    do! on_kernel (do_semaphore_init (box_send i) MAX_MBOX_LENGTH);
    do! on_kernel (do_semaphore_init (box_recv i) 0);
    ret (Some i)
  else ret None.
Definition open_free (name : mem) : Mb (option nat) :=
  for_until (Z.to_nat MAX_NUM_BOX) 0 (fun i => claim_step name (Z.to_nat i)).
(** Nothing is returned when every mailbox is in use. *)
Definition mbox_open (name : mem) : Mb nat :=
  let! r := find_open name in
  match r with
  | Some i => ret i
  | None =>
      let! r := open_free name in
      match r with Some i => ret i | None => throw NoReturnValue end
  end.

Definition mbox_close (i : nat) : Mb unit := set_box i (fun b => b <| mb_count := i32 (mb_count b - 1) |>).

(** ** Sending and receiving *)

(** The steps of the two functions: a system call, or an access to the mailbox. *)
Inductive instr :=
| I_call (k : call)
| I_next (i : nat)                       (* ptr = (ptr + 1) % MAX_MBOX_LENGTH *)
| I_prev (i : nat)                       (* ptr = (ptr + MAX_MBOX_LENGTH - 1) % MAX_MBOX_LENGTH *)
| I_put (i : nat) (msg : Z) (n : Z)      (* memcpy(&msg[ptr], msg, n) *)
| I_get (i : nat) (msg : Z) (n : Z).     (* memcpy(msg, &msg[ptr], n) *)

Definition mbox_send (i : nat) (msg msg_length : Z) : list instr :=
  [I_call (C_semaphore_down (box_send i)); I_call (C_acquire (box_lock i)); I_next i; I_put i msg msg_length;
   I_call (C_release (box_lock i)); I_call (C_semaphore_up (box_recv i))].
Definition mbox_recv (i : nat) (msg msg_length : Z) : list instr :=
  [I_call (C_semaphore_down (box_recv i)); I_call (C_acquire (box_lock i)); I_get i msg msg_length; I_prev i;
   I_call (C_release (box_lock i)); I_call (C_semaphore_up (box_send i))].

Definition exec_instr (x : instr) : Mb unit :=
  match x with
  | I_call k => on_kernel (exec 0 k)
  | I_next i => set_box i (fun b => b <| mb_ptr := (mb_ptr b + 1) mod MAX_MBOX_LENGTH |>)
  | I_prev i => set_box i (fun b => b <| mb_ptr := (mb_ptr b + MAX_MBOX_LENGTH - 1) mod MAX_MBOX_LENGTH |>)
  | I_put i msg n =>
      let! b := get_box i in
      let! m := gets user in
      let! l := lift (slice m msg n) in
      let! l := lift (splice (mb_msg b) (mb_ptr b * MAX_MESSAGE_LENGTH) l) in
      set_box i (fun b => b <| mb_msg := l |>)
  | I_get i msg n =>
      let! b := get_box i in
      let! m := gets user in
      let! l := lift (slice (mb_msg b) (mb_ptr b * MAX_MESSAGE_LENGTH) n) in
      let! m := lift (splice m msg l) in
      modify (fun s => s <| user := m |>)
  end.

(** The running task does its steps; the result is what it has left to do when
    another task got the processor. *)
Fixpoint run (prog : list instr) : Mb (list instr) :=
  match prog with
  | [] => ret []
  | x :: rest =>
      let! before := gets (fun s => current_running (kern s)) in
      do! exec_instr x;
      let! after := gets (fun s => current_running (kern s)) in
      if decide (after = before) then run rest else ret rest
  end.

(** ** What the kernel promises to the library *)

(** The running task, the tasks that wait for the semaphores, their values and the
    states of the locks. *)
Definition view (c : nat) (W : nat -> list nat) (sem : nat -> Z) (lock : nat -> lock_status_t) (k : kstate) : Prop :=
  exists Q, kernel_inv k Q c /\ (forall i, sem_value k !!! i = sem i) /\ (forall l, lock_status k !!! l = lock l)
    /\ (forall i, Q (semaphore_queue i) = W i).
(** A task in the ready queue. *)
Definition ready (k : kstate) (t : nat) : Prop :=
  (t < NUM_MAX_TASK)%nat /\ (status k t = TASK_READY \/ status k t = TASK_CREATED).

Lemma view_current c W sem lock k : view c W sem lock k -> current_running k = Some c.
Proof. intros (Q & [[[] _] _] & _). done. Qed.

Section view.
Context (c : nat) (W : nat -> list nat).

Lemma view_down sem lock k i : view c W sem lock k -> sem i <> 0 ->
  exists k', do_semaphore_down i k = Ok (tt, k') /\ view c W (<[i := i32 (sem i - 1)]> sem) lock k'.
Proof.
  intros (Q & HK & Hs & Hl & HW) Hi. pose proof (do_semaphore_down_spec k Q c i HK) as Hd.
  rewrite decide_False in Hd by by rewrite Hs. destruct Hd as (k' & E & HK' & _). exists k'. split; [done|].
  unfold do_semaphore_down, bind, gets in E. rewrite Hs in E. destruct (Z.eqb_spec (sem i) 0); [done|].
  cbn in E. injection E as <-. exists Q. split_and!; [done| |done|done]. intros j. cbn. rewrite Hs.
  destruct (decide (i = j)) as [<-|Hne]; [by rewrite lookup_total_insert_eq, fn_lookup_insert|].
  by rewrite lookup_total_insert_ne, fn_lookup_insert_ne.
Qed.

Lemma view_up sem lock k i : view c W sem lock k -> W i = [] ->
  exists k', do_semaphore_up i k = Ok (tt, k') /\ view c W (<[i := i32 (sem i + 1)]> sem) lock k'.
Proof.
  intros (Q & HK & Hs & Hl & HW) Hi. pose proof (do_semaphore_up_spec k Q c i HK) as Hd. rewrite HW, Hi in Hd.
  destruct Hd as (k' & E & HK' & _). exists k'. split; [done|].
  unfold do_semaphore_up, bind in E. rewrite (queue_is_empty_spec k Q) in E by apply HK. rewrite HW, Hi in E.
  cbn in E. injection E as <-. exists Q. split_and!; [done| |done|done]. intros j. cbn. rewrite Hs.
  destruct (decide (i = j)) as [<-|Hne]; [by rewrite lookup_total_insert_eq, fn_lookup_insert|].
  by rewrite lookup_total_insert_ne, fn_lookup_insert_ne.
Qed.

(** A unit is handed to the first task that waits. *)
Lemma view_up_wakes sem lock k i w l : view c W sem lock k -> W i = w :: l ->
  exists k', do_semaphore_up i k = Ok (tt, k') /\ view c (<[i := l]> W) sem lock k' /\ ready k' w.
Proof.
  intros (Q & HK & Hs & Hl & HW) Hi. pose proof (do_semaphore_up_spec k Q c i HK) as Hd. rewrite HW, Hi in Hd.
  destruct Hd as (k' & E & HK' & Es & Hst). exists k'. split; [done|]. split.
  - eexists. split_and!; [exact HK'|intros j; by rewrite Es| |].
    + intros x. by rewrite (sl_status _ _ (locks_do_semaphore_up i _ _ _ E)).
    + intros j. destruct (decide (i = j)) as [<-|Hne]; [rewrite fn_lookup_insert; by qcase|rewrite (fn_lookup_insert_ne W) by done].
      rewrite !fn_lookup_insert_ne by congruence. apply HW.
  - split; [|by left]. apply (inv_members _ _ _ (proj1 (proj1 HK)) (semaphore_queue i)). rewrite HW, Hi. set_solver.
Qed.

(** Without a unit the task waits behind the others. *)
Lemma view_down_waits sem lock k i t : view c W sem lock k -> sem i = 0 -> ready k t ->
  exists k' t', do_semaphore_down i k = Ok (tt, k') /\ t' <> c /\ status k' c = TASK_BLOCKED
    /\ view t' (<[i := W i ++ [c]]> W) sem lock k'.
Proof.
  intros (Q & HK & Hs & Hl & HW) Hz [Ht Hst]. pose proof (do_semaphore_down_spec k Q c i HK) as Hd.
  rewrite decide_True in Hd by by rewrite Hs. apply (inv_status k Q c t (proj1 (proj1 HK)) Ht) in Hst.
  destruct Hd as [(_ & t' & k' & Q' & E & HK' & Hne & _ & HQ & Hb & F)|[Hn _]]; [|by apply (ready_runnable k) in Hst].
  exists k', t'. split_and!; try done. exists Q'. split_and!; [done| | |].
  - intros j. by rewrite (sched_frame_outer sem_value _ _ F).
  - intros l. by rewrite (sched_frame_outer lock_status _ _ F).
  - intros j. rewrite HQ by done. destruct (decide (i = j)) as [<-|Hij].
    + rewrite !fn_lookup_insert. by rewrite HW.
    + rewrite !fn_lookup_insert_ne by congruence. apply HW.
Qed.

Lemma view_acquire sem lock k l : view c W sem lock k -> lock l = UNLOCKED ->
  exists k', do_mutex_lock_acquire l k = Ok (tt, k') /\ view c W sem (<[l := LOCKED]> lock) k'.
Proof.
  intros (Q & HK & Hs & Hl & HW) Hu. pose proof (do_mutex_lock_acquire_spec k Q c l HK) as Hd. rewrite Hl, Hu in Hd.
  destruct Hd as (k' & E & HK' & El & _ & _ & F). exists k'. split; [done|]. exists Q. split_and!; [done| | |done].
  - intros i. by rewrite (lock_frame_outer sem_value k k').
  - intros l'. rewrite El. destruct (decide (l = l')) as [<-|Hne]; [by rewrite lookup_total_insert_eq, fn_lookup_insert|].
    by rewrite lookup_total_insert_ne, fn_lookup_insert_ne.
Qed.

Lemma view_release sem lock k l : view c W sem lock k ->
  exists k', do_mutex_lock_release l k = Ok (tt, k') /\ view c W sem (<[l := UNLOCKED]> lock) k'.
Proof.
  intros (Q & [(Hi & Hc & Hr) Hsy] & Hs & Hl & HW).
  destruct (do_mutex_lock_release_inv k Q c l Hi Hsy) as (V & k' & HV & E & Hi' & Hsy' & Hst & _ & F & _ & El).
  exists k'. split; [done|]. eexists. split_and!; [split; [split_and!; [exact Hi'|done|]|exact Hsy']| | |].
  - rewrite Hst, decide_False; [done|]. rewrite HV. intros Hin. by rewrite (queued_blocked k Q c _ c Hi Hin) in Hr by done.
  - intros i. by rewrite (lock_frame_outer sem_value k k').
  - intros l'. rewrite El. case_decide as Hd; [subst l'; by rewrite fn_lookup_insert|by rewrite fn_lookup_insert_ne, Hl].
  - intros i. cbn. rewrite !fn_lookup_insert_ne by done. by apply HW.
Qed.
End view.

(** ** The mailbox as a stack *)

(** Where the [k]-th message is, counted from 1. *)
Definition slot (k : Z) : Z := k mod MAX_MBOX_LENGTH * MAX_MESSAGE_LENGTH.
Definition stored (m : mem) (k : Z) (msg : mem) : Prop :=
  slice m (slot k) (len msg) = Ok msg /\ len msg <= MAX_MESSAGE_LENGTH.

(** The messages in a mailbox, the last one first. *)
Definition holds_stack (b : mailbox_t) (st : list mem) : Prop :=
  len (mb_msg b) = MAX_MBOX_LENGTH * MAX_MESSAGE_LENGTH /\ mb_ptr b = len st mod MAX_MBOX_LENGTH /\ len st <= MAX_MBOX_LENGTH
  /\ forall n msg, rev st !! n = Some msg -> stored (mb_msg b) (Z.of_nat n + 1) msg.

(** The state of mailbox [i] while its lock is free: it holds the messages [st];
    [ws] and [wr] are the senders and receivers that wait in the kernel; [ps]
    senders and [pr] receivers have been given a unit there and are yet to go on. *)
Definition box_state (i c : nat) (ps pr : Z) (ws wr : list nat) (st : list mem) (s : mstate) : Prop :=
  exists W sem lock b, view c W sem lock (kern s) /\ W (box_send i) = ws /\ W (box_recv i) = wr
    /\ sem (box_send i) = MAX_MBOX_LENGTH - len st - ps /\ sem (box_recv i) = len st - pr /\ lock (box_lock i) = UNLOCKED
    /\ 0 <= ps /\ len st + ps <= MAX_MBOX_LENGTH /\ 0 <= pr <= len st
    /\ mboxs s !! i = Some b /\ holds_stack b st.
(** A mailbox that nobody uses at the moment. *)
Definition box_ok (i c : nat) (st : list mem) (s : mstate) : Prop := box_state i c 0 0 [] [] st s.
(** After a message was put: the first receiver that waits goes on. *)
Definition put_state (i c : nat) (ps pr : Z) (ws wr : list nat) (st : list mem) (s : mstate) : Prop :=
  match wr with
  | [] => box_state i c ps pr ws [] st s
  | w :: wr => box_state i c ps (pr + 1) ws wr st s /\ ready (kern s) w
  end.
(** After a message was taken: the first sender that waits goes on. *)
Definition taken_state (i c : nat) (ps pr : Z) (ws wr : list nat) (st : list mem) (s : mstate) : Prop :=
  match ws with
  | [] => box_state i c ps pr [] wr st s
  | w :: ws => box_state i c (ps + 1) pr ws wr st s /\ ready (kern s) w
  end.

Lemma send_recv_ne i : box_send i <> box_recv i.
Proof. unfold box_send, box_recv. lia. Qed.

(** *** Steps *)

Lemma wp_get_box i s b Q : mboxs s !! i = Some b -> Q b s -> wp (get_box i) s Q.
Proof.
  intros Hb HQ. unfold get_box. repeat wp_basic. eapply wp_lift; [|exact HQ]. apply rd_lookup; [lia|]. by rewrite Nat2Z.id.
Qed.
Lemma wp_set_box i f s b (Q : unit -> mstate -> Prop) :
  mboxs s !! i = Some b -> Q tt (s <| mboxs := <[i := f b]> (mboxs s) |>) -> wp (set_box i f) s Q.
Proof.
  intros Hb HQ. unfold set_box. apply wp_bind, (wp_get_box i s b); [done|]. repeat wp_basic.
  eapply wp_lift; [apply wr_in_range; apply lookup_lt_Some in Hb; lia|]. rewrite Nat2Z.id. by apply wp_modify.
Qed.
Lemma wp_on_kernel {A} (m : M kstate A) s a k (Q : A -> mstate -> Prop) :
  m (kern s) = Ok (a, k) -> Q a (s <| kern := k |>) -> wp (on_kernel m) s Q.
Proof. intros E HQ. exists a, (s <| kern := k |>). unfold on_kernel. by rewrite E. Qed.
(** A step after which the task goes on. *)
Lemma wp_run_step x rest s c (Q : list instr -> mstate -> Prop) :
  current_running (kern s) = Some c ->
  wp (exec_instr x) s (fun _ s' => current_running (kern s') = Some c /\ wp (run rest) s' Q) -> wp (run (x :: rest)) s Q.
Proof.
  intros Hc ([] & s' & E & Hc' & Hr). cbn [run]. repeat wp_basic. exists tt, s'. split; [done|]. repeat wp_basic.
  by rewrite Hc, Hc', decide_True by done.
Qed.

(** *** Pushing and popping *)

Lemma slots_apart j k : 0 < j -> j <= MAX_MBOX_LENGTH -> 0 < k -> k <= MAX_MBOX_LENGTH -> j <> k ->
  slot j + MAX_MESSAGE_LENGTH <= slot k \/ slot k + MAX_MESSAGE_LENGTH <= slot j.
Proof. unfold slot, MAX_MBOX_LENGTH, MAX_MESSAGE_LENGTH. intros. pose proof (Z.div_mod j 32). pose proof (Z.div_mod k 32). lia. Qed.
Lemma slot_range k : 0 <= slot k /\ slot k + MAX_MESSAGE_LENGTH <= MAX_MBOX_LENGTH * MAX_MESSAGE_LENGTH.
Proof. unfold slot, MAX_MBOX_LENGTH, MAX_MESSAGE_LENGTH. pose proof (Z.mod_pos_bound k 32). lia. Qed.

Lemma push_stack b st msg m :
  holds_stack b st -> len st < MAX_MBOX_LENGTH -> len msg <= MAX_MESSAGE_LENGTH ->
  splice (mb_msg b) (slot (len st + 1)) msg = Ok m ->
  holds_stack (b <| mb_ptr := (mb_ptr b + 1) mod MAX_MBOX_LENGTH |> <| mb_msg := m |>) (msg :: st).
Proof.
  intros (Hl & Hp & Hle & Hst) Hlt Hm E. split_and!; cbn [mb_msg mb_ptr put length].
  - by rewrite (splice_length _ _ _ _ E).
  - rewrite Hp. unfold MAX_MBOX_LENGTH. rewrite Zplus_mod_idemp_l. f_equal. cbn. lia.
  - cbn. lia.
  - cbn [rev]. intros n x Hx. destruct (decide (n < length (rev st))%nat) as [Hn|Hn].
    + rewrite lookup_app_l in Hx by done. rewrite length_rev in Hn. destruct (Hst n x Hx) as [Hs Hlx]. split; [|done].
      rewrite (slice_splice_disj _ _ _ _ _ _ E); [done|lia|].
      destruct (slots_apart (Z.of_nat n + 1) (len st + 1)); unfold MAX_MESSAGE_LENGTH, MAX_MBOX_LENGTH in *; lia.
    + rewrite lookup_app_r in Hx by lia. rewrite length_rev in Hx, Hn.
      destruct (n - length st)%nat as [|d] eqn:Ed; [|done]. injection Hx as <-. split; [|done].
      replace (Z.of_nat n + 1) with (len st + 1); [by apply slice_splice in E|].
      assert (n = length st) by lia. lia.
Qed.

Lemma pop_stack b st msg :
  holds_stack b (msg :: st) ->
  holds_stack (b <| mb_ptr := (mb_ptr b + MAX_MBOX_LENGTH - 1) mod MAX_MBOX_LENGTH |>) st
  /\ slice (mb_msg b) (mb_ptr b * MAX_MESSAGE_LENGTH) (len msg) = Ok msg /\ len msg <= MAX_MESSAGE_LENGTH.
Proof.
  intros (Hl & Hp & Hle & Hst). cbn [length] in Hp, Hle. split.
  - split_and!; cbn [mb_msg mb_ptr put]; [done| |lia|].
    + rewrite Hp. unfold MAX_MBOX_LENGTH in *. rewrite <-Z.add_sub_assoc, Zplus_mod_idemp_l.
      replace (Z.of_nat (S (length st)) + (32 - 1)) with (len st + 1 * 32) by lia. by rewrite Z.mod_add.
    + intros n x Hx. apply Hst. cbn [rev]. by apply lookup_app_l_Some.
  - rewrite Hp. destruct (Hst (length st) msg) as [Hs Hm].
    + cbn [rev]. rewrite lookup_app_r by (rewrite length_rev; lia). by rewrite length_rev, Nat.sub_diag.
    + split; [|done]. unfold slot in Hs. by replace (Z.of_nat (S (length st))) with (len st + 1) by lia.
Qed.

(** *** The two functions *)

Lemma wp_run_nil s (Q : list instr -> mstate -> Prop) : Q [] s -> wp (run []) s Q.
Proof. apply wp_ret. Qed.

Lemma slice_size (m : mem) p n l : slice m p n = Ok l -> len l = n.
Proof.
  intros Hm. pose proof (slice_length _ _ _ _ Hm) as El. destruct (decide (0 <= n)); [lia|].
  unfold slice in Hm. destruct (Z.leb_spec 0 n); [lia|]. by rewrite andb_false_r in Hm.
Qed.
Ltac on_kernel_step E := eapply wp_run_step; [by eapply view_current|]; eapply wp_on_kernel; [exact E|]; split; [by eapply view_current|].

(** What a sender does behind its [semaphore_down]: it has the unit. *)
Lemma wp_send_rest i c ps pr ws wr st s msg n m (Q : list instr -> mstate -> Prop) :
  box_state i c ps pr ws wr st s -> 0 < ps -> slice (user s) msg n = Ok m -> n <= MAX_MESSAGE_LENGTH ->
  (forall s', put_state i c (ps - 1) pr ws wr (m :: st) s' -> user s' = user s -> Q [] s') ->
  wp (run (tail (mbox_send i msg n))) s Q.
Proof.
  intros (W & sem & lock & b & HV & HW1 & HW2 & H1 & H2 & H3 & Hps & Hle & Hpr & Hb & Hst) Hlt Hm Hn HQ.
  pose proof (slice_size _ _ _ _ Hm) as Elen. pose proof (send_recv_ne i) as Hne. cbn [mbox_send tail].
  destruct (view_acquire c _ _ _ (kern s) (box_lock i) HV H3) as (k2 & E2 & V2). on_kernel_step E2.
  eapply wp_run_step; [by eapply view_current|]. eapply wp_set_box; [exact Hb|]. split; [by eapply view_current|].
  assert (mb_ptr (b <| mb_ptr := (mb_ptr b + 1) mod MAX_MBOX_LENGTH |>) * MAX_MESSAGE_LENGTH = slot (len st + 1)) as Eslot.
  { destruct Hst as (_ & Hp & _). cbn. rewrite Hp. unfold slot, MAX_MBOX_LENGTH. by rewrite Zplus_mod_idemp_l. }
  pose proof (lookup_lt_Some _ _ _ Hb) as Hi. pose proof (slot_range (len st + 1)) as Hr.
  destruct (splice (mb_msg b) (slot (len st + 1)) m) as [l|] eqn:Es; [|rewrite splice_ok in Es; [done|lia|destruct Hst; lia]].
  eapply wp_run_step; [by eapply view_current|]. cbn [exec_instr].
  eapply wp_bind, wp_get_box; [by apply list_lookup_insert_eq|]. repeat wp_basic. eapply wp_lift; [exact Hm|].
  apply wp_bind. eapply wp_lift; [rewrite Eslot; exact Es|]. eapply wp_set_box; [by apply list_lookup_insert_eq|].
  split; [by eapply view_current|]. destruct (view_release c _ _ _ k2 (box_lock i) V2) as (k3 & E3 & V3). on_kernel_step E3.
  assert (len st < MAX_MBOX_LENGTH) as Hroom by lia.
  pose proof (push_stack b st m l Hst Hroom ltac:(lia) Es) as Hst'. cbn [length] in *.
  unfold put_state in HQ. destruct wr as [|w wr].
  - destruct (view_up c _ _ _ k3 (box_recv i) V3 HW2) as (k4 & E4 & V4). on_kernel_step E4.
    apply wp_run_nil, HQ; [|done]. eexists _, _, _, _. split; [exact V4|]. cbn [kern mboxs put length]. rewrite list_insert_insert_eq.
    rewrite !fn_lookup_insert, fn_lookup_insert_ne, H1, H2 by congruence. unfold MAX_MBOX_LENGTH in *.
    rewrite i32_small by lia. split_and!; try done; try lia; by apply list_lookup_insert_eq.
  - destruct (view_up_wakes c _ _ _ k3 (box_recv i) w wr V3 HW2) as (k4 & E4 & V4 & Hw). on_kernel_step E4.
    apply wp_run_nil, HQ; [|done]. split; [|done]. eexists _, _, _, _. split; [exact V4|]. cbn [kern mboxs put length]. rewrite list_insert_insert_eq.
    rewrite !fn_lookup_insert, fn_lookup_insert_ne, H1, H2 by congruence.
    split_and!; try done; try lia; by apply list_lookup_insert_eq.
Qed.

(** The same of a receiver. *)
Lemma wp_recv_rest i c ps pr ws wr st s msg m u (Q : list instr -> mstate -> Prop) :
  box_state i c ps pr ws wr (m :: st) s -> 0 < pr -> splice (user s) msg m = Ok u ->
  (forall s', taken_state i c ps (pr - 1) ws wr st s' -> user s' = u -> Q [] s') ->
  wp (run (tail (mbox_recv i msg (len m)))) s Q.
Proof.
  intros (W & sem & lock & b & HV & HW1 & HW2 & H1 & H2 & H3 & Hps & Hle & Hpr & Hb & Hst) Hlt Hu HQ.
  pose proof (send_recv_ne i) as Hne. cbn [length] in *. destruct (pop_stack b st m Hst) as (Hst' & Hsl & Hm). cbn [mbox_recv tail].
  destruct (view_acquire c _ _ _ (kern s) (box_lock i) HV H3) as (k2 & E2 & V2). on_kernel_step E2.
  eapply wp_run_step; [by eapply view_current|]. cbn [exec_instr].
  eapply wp_bind, wp_get_box; [exact Hb|]. repeat wp_basic. eapply wp_lift; [exact Hsl|].
  apply wp_bind. eapply wp_lift; [exact Hu|]. apply wp_modify. split; [by eapply view_current|].
  eapply wp_run_step; [by eapply view_current|]. eapply wp_set_box; [exact Hb|]. split; [by eapply view_current|].
  destruct (view_release c _ _ _ k2 (box_lock i) V2) as (k3 & E3 & V3). on_kernel_step E3.
  pose proof (lookup_lt_Some _ _ _ Hb) as Hi. unfold taken_state in HQ. destruct ws as [|w ws].
  - destruct (view_up c _ _ _ k3 (box_send i) V3 HW1) as (k4 & E4 & V4). on_kernel_step E4.
    apply wp_run_nil, HQ; [|done]. eexists _, _, _, _. split; [exact V4|]. cbn [kern mboxs put length].
    rewrite !fn_lookup_insert, fn_lookup_insert_ne, H1, H2 by congruence. unfold MAX_MBOX_LENGTH in *.
    rewrite i32_small by lia. split_and!; try done; try lia; by apply list_lookup_insert_eq.
  - destruct (view_up_wakes c _ _ _ k3 (box_send i) w ws V3 HW1) as (k4 & E4 & V4 & Hw). on_kernel_step E4.
    apply wp_run_nil, HQ; [|done]. split; [|done]. eexists _, _, _, _. split; [exact V4|]. cbn [kern mboxs put length].
    rewrite !fn_lookup_insert, fn_lookup_insert_ne, H1, H2 by congruence.
    split_and!; try done; try lia; by apply list_lookup_insert_eq.
Qed.

(** [semaphore_down] with a unit left. *)
Lemma wp_sem_send i c ps pr ws wr st s rest (Q : list instr -> mstate -> Prop) :
  box_state i c ps pr ws wr st s -> len st + ps < MAX_MBOX_LENGTH ->
  (forall s', box_state i c (ps + 1) pr ws wr st s' -> user s' = user s -> wp (run rest) s' Q) ->
  wp (run (I_call (C_semaphore_down (box_send i)) :: rest)) s Q.
Proof.
  intros (W & sem & lock & b & HV & HW1 & HW2 & H1 & H2 & H3 & Hps & Hle & Hpr & Hb & Hst) Hlt HQ. pose proof (send_recv_ne i) as Hne.
  destruct (view_down c _ sem lock (kern s) (box_send i) HV) as (k1 & E1 & V1); [lia|]. on_kernel_step E1.
  apply HQ; [|done]. eexists _, _, _, _. split; [exact V1|]. rewrite fn_lookup_insert, fn_lookup_insert_ne, H1 by done.
  unfold MAX_MBOX_LENGTH in *. rewrite i32_small by lia. split_and!; try done; lia.
Qed.
Lemma wp_sem_recv i c ps pr ws wr st s rest (Q : list instr -> mstate -> Prop) :
  box_state i c ps pr ws wr st s -> pr < len st ->
  (forall s', box_state i c ps (pr + 1) ws wr st s' -> user s' = user s -> wp (run rest) s' Q) ->
  wp (run (I_call (C_semaphore_down (box_recv i)) :: rest)) s Q.
Proof.
  intros (W & sem & lock & b & HV & HW1 & HW2 & H1 & H2 & H3 & Hps & Hle & Hpr & Hb & Hst) Hlt HQ. pose proof (send_recv_ne i) as Hne.
  destruct (view_down c _ sem lock (kern s) (box_recv i) HV) as (k1 & E1 & V1); [lia|]. on_kernel_step E1.
  apply HQ; [|done]. eexists _, _, _, _. split; [exact V1|]. rewrite fn_lookup_insert, fn_lookup_insert_ne, H2 by congruence.
  unfold MAX_MBOX_LENGTH in *. rewrite i32_small by lia. split_and!; try done; lia.
Qed.

(** A task that has to wait stops at its first call, with the rest to do. *)
Lemma run_waits sem_id rest s c W sem lock t :
  view c W sem lock (kern s) -> sem sem_id = 0 -> ready (kern s) t ->
  exists s' t', run (I_call (C_semaphore_down sem_id) :: rest) s = Ok (rest, s') /\ mboxs s' = mboxs s /\ user s' = user s
    /\ t' <> c /\ status (kern s') c = TASK_BLOCKED /\ view t' (<[sem_id := W sem_id ++ [c]]> W) sem lock (kern s').
Proof.
  intros HV Hz Ht. destruct (view_down_waits c W sem lock (kern s) sem_id t HV Hz Ht) as (k' & t' & E & Hne & Hb & HV').
  exists (s <| kern := k' |>), t'. pose proof (view_current _ _ _ _ _ HV) as Hc. pose proof (view_current _ _ _ _ _ HV') as Hc'.
  split_and!; try done. cbn [run exec_instr exec]. unfold bind, gets, on_kernel. rewrite E. cbn [kern put].
  rewrite decide_False; [done|]. cbn. congruence.
Qed.

(** ** Opening *)

Definition boxes_wf (l : list mailbox_t) : Prop :=
  len l = MAX_NUM_BOX /\ Forall (fun b => len (mb_name b) = MBOX_NAME_LENGTH
    /\ len (mb_msg b) = MAX_MBOX_LENGTH * MAX_MESSAGE_LENGTH) l.
(** The directory of mailboxes: name and number of users of those in use. *)
Abbreviation entry := (option (mem * Z)).
Definition shows (b : mailbox_t) (e : entry) : Prop :=
  match e with
  | None => mb_count b = 0 /\ exists old, cstr (mb_name b) 0 old
  | Some (name, n) => mb_count b = n /\ 0 < n < 2 ^ 31 /\ cstr (mb_name b) 0 name
  end.
Definition directory (l : list mailbox_t) (d : list entry) : Prop := boxes_wf l /\ Forall2 shows l d.
Definition named (name : mem) (e : entry) : Prop := fst <$> e = Some name.
#[export] Instance named_dec name e : Decision (named name e) := ltac:(unfold named; apply _).
Definition open_spec (name : mem) (d : list entry) : option (nat * list entry) :=
  match list_find (named name) d with
  | Some (i, Some (_, n)) => Some (i, <[i := Some (name, n + 1)]> d)
  | _ => match list_find (fun e : entry => e = None) d with
         | Some (i, _) => Some (i, <[i := Some (name, 1)]> d)
         | None => None
         end
  end.
Definition close_spec (i : nat) (d : list entry) : list entry :=
  match d !! i with Some (Some (x, n)) => <[i := if decide (n = 1) then None else Some (x, n - 1)]> d | _ => d end.
(** A quiet kernel: all locks are free and nobody waits for a semaphore. *)
Definition fresh (c : nat) (k : kstate) : Prop := exists sem, view c (fun _ => []) sem (fun _ => UNLOCKED) k.

Lemma view_lock_init c W sem k l : view c W sem (fun _ => UNLOCKED) k ->
  exists k', do_mutex_lock_init l k = Ok (tt, k') /\ view c W sem (fun _ => UNLOCKED) k'.
Proof.
  intros (Q & HK & Hs & Hl & HW). destruct (do_mutex_lock_init_spec k Q c l HK) as (k' & E & HK' & _); [by apply (si_mutex _ _ (proj2 HK))|].
  exists k'. split; [done|]. unfold do_mutex_lock_init, queue_init, bind, modify, store_queue, modify in E. cbn in E. injection E as <-.
  exists Q. split_and!; try done. intros l'. cbn. destruct (decide (l = l')) as [<-|Hne]; [by rewrite lookup_total_insert_eq|].
  by rewrite lookup_total_insert_ne.
Qed.
Lemma view_sem_init c W sem lock k i v : view c W sem lock k -> W i = [] ->
  exists k', do_semaphore_init i v k = Ok (tt, k') /\ view c W (<[i := v]> sem) lock k'.
Proof.
  intros (Q & HK & Hs & Hl & HW) Hi. destruct (do_semaphore_init_spec k Q c i v HK) as (k' & E & HK' & _); [by rewrite HW|].
  exists k'. split; [done|]. unfold do_semaphore_init, queue_init, bind, modify, store_queue, modify in E. cbn in E. injection E as <-.
  exists Q. split_and!; try done. intros j. cbn. destruct (decide (i = j)) as [<-|Hne]; [by rewrite lookup_total_insert_eq, fn_lookup_insert|].
  by rewrite lookup_total_insert_ne, fn_lookup_insert_ne, Hs.
Qed.

Lemma boxes_wf_insert l i b : boxes_wf l -> len (mb_name b) = MBOX_NAME_LENGTH -> len (mb_msg b) = MAX_MBOX_LENGTH * MAX_MESSAGE_LENGTH ->
  boxes_wf (<[i := b]> l).
Proof. intros [Hl Hf] Hn Hm. split; [by rewrite length_insert|]. by apply Forall_insert. Qed.
Lemma boxes_wf_lookup l i : boxes_wf l -> (i < 32)%nat -> exists b, l !! i = Some b
  /\ len (mb_name b) = MBOX_NAME_LENGTH /\ len (mb_msg b) = MAX_MBOX_LENGTH * MAX_MESSAGE_LENGTH.
Proof.
  intros [Hl Hf] Hi. unfold MAX_NUM_BOX in Hl. destruct (lookup_lt_is_Some_2 l i) as [b Hb]; [lia|]. exists b. split; [done|].
  by eapply Forall_lookup_1 in Hf.
Qed.

Lemma directory_lookup l d i e : directory l d -> d !! i = Some e ->
  exists b, l !! i = Some b /\ shows b e /\ len (mb_name b) = MBOX_NAME_LENGTH /\ len (mb_msg b) = MAX_MBOX_LENGTH * MAX_MESSAGE_LENGTH.
Proof.
  intros [[_ Hf] H2] Hi. destruct (Forall2_lookup_r _ _ _ _ _ H2 Hi) as (b & Hb & Hs). exists b. split_and!; try done; by eapply Forall_lookup_1 in Hf as [? ?].
Qed.
Lemma directory_insert l d i b e : directory l d -> shows b e -> len (mb_name b) = MBOX_NAME_LENGTH ->
  len (mb_msg b) = MAX_MBOX_LENGTH * MAX_MESSAGE_LENGTH -> directory (<[i := b]> l) (<[i := e]> d).
Proof. intros [Hw H2] Hs Hn Hm. split; [by apply boxes_wf_insert|by apply Forall2_insert]. Qed.
Lemma directory_length l d : directory l d -> length d = 32%nat.
Proof. intros [[Hl _] H2]. apply Forall2_length in H2. unfold MAX_NUM_BOX in Hl. lia. Qed.

Lemma wp_mbox_init c s (Q : unit -> mstate -> Prop) :
  fresh c (kern s) -> boxes_wf (mboxs s) ->
  (forall s', fresh c (kern s') -> directory (mboxs s') (replicate 32 None) -> user s' = user s -> Q tt s') -> wp mbox_init s Q.
Proof.
  intros Hf Hw HQ. unfold mbox_init.
  apply (wp_for_range (fun i t => fresh c (kern t) /\ boxes_wf (mboxs t) /\ user t = user s
    /\ forall n b, Z.of_nat n < i -> mboxs t !! n = Some b -> shows b None)).
  - split_and!; try done. intros n b Hn. lia.
  - change (Z.of_nat (Z.to_nat MAX_NUM_BOX)) with 32. intros i t Hi ([sem HV] & Ht & Hu & Hcl). cbv zeta.
    destruct (boxes_wf_lookup _ (Z.to_nat i) Ht) as (b & Hb & Hbn & Hbm); [lia|]. pose proof (lookup_lt_Some _ _ _ Hb) as Hlt.
    apply wp_bind, (wp_get_box _ t b); [done|]. destruct (mb_name b) as [|x name] eqn:En; [done|].
    apply wp_bind. eapply (wp_lift _ (0 :: name)); [done|].
    apply wp_bind. eapply wp_set_box; [exact Hb|]. apply wp_bind. eapply wp_set_box; [by apply list_lookup_insert_eq|].
    destruct (view_lock_init c _ sem (kern t) (box_lock (Z.to_nat i)) HV) as (k & E & HV').
    eapply wp_on_kernel; [exact E|]. cbn [kern mboxs user put]. rewrite list_insert_insert_eq. split_and!; [by exists sem| |done|].
    + apply boxes_wf_insert; [done|exact Hbn|exact Hbm].
    + intros n b' Hn. destruct (decide (n = Z.to_nat i)) as [->|Hne].
      * rewrite list_lookup_insert_eq by done. intros [= <-]. split; [done|by exists [], [], name].
      * rewrite list_lookup_insert_ne by done. apply Hcl. lia.
  - intros t (Ht & Hw' & Hu & Hcl). apply HQ; try done. split; [done|]. destruct Hw' as [Hl _]. unfold MAX_NUM_BOX in *.
    apply Forall2_same_length_lookup_2; [rewrite length_replicate; lia|]. intros n b e Hb He.
    apply lookup_replicate in He as [-> _]. apply (Hcl n); [|done]. apply lookup_lt_Some in Hb. cbn. lia.
Qed.

Lemma name_cmp_spec name b s : Forall (fun c => c <> 0) name -> cstr b 0 s ->
  name_cmp name b = Ok (if decide (name = s) then 0 else if decide (name `prefix_of` s) then -1 else 1).
Proof.
  intros Hn (pre & post & -> & Hp & Hs). destruct pre; [|done]. unfold name_cmp. apply strcmp_spec.
  - by exists [], (s ++ 0 :: post).
  - exists (name ++ [0]), post. rewrite length_app, <-app_assoc. split_and!; [done|cbn; lia|done].
Qed.

(** The two loops of [mbox_open] stop at the first entry that fits. *)
Lemma for_until_first {R} (P : entry -> Prop) `{forall e, Decision (P e)} (d : list entry) (f : nat -> Mb (option R)) s :
  length d = 32%nat ->
  (forall i e, d !! i = Some e -> ~ P e -> f i s = Ok (None, s)) ->
  match list_find P d with
  | Some (i, e) => forall r s', f i s = Ok (Some r, s') -> for_until 32 0 (fun i => f (Z.to_nat i)) s = Ok (Some r, s')
  | None => for_until 32 0 (fun i => f (Z.to_nat i)) s = Ok (None, s)
  end.
Proof.
  intros Hl Hb. rewrite <-Hl. clear Hl.
  assert (forall k, (forall i e, d !! i = Some e -> ~ P e -> f (k + i)%nat s = Ok (None, s)) ->
    match list_find P d with
    | Some (i, e) => forall r s', f (k + i)%nat s = Ok (Some r, s') ->
        for_until (length d) (Z.of_nat k) (fun i => f (Z.to_nat i)) s = Ok (Some r, s')
    | None => for_until (length d) (Z.of_nat k) (fun i => f (Z.to_nat i)) s = Ok (None, s)
    end) as Hgen; [|exact (Hgen 0%nat Hb)].
  clear Hb. induction d as [|e d IH]; intros k Hb; [done|]. cbn [list_find length for_until]. unfold bind. rewrite Nat2Z.id.
  case_decide as He.
  - intros r s' E. rewrite Nat.add_0_r in E. by rewrite E.
  - assert (f k s = Ok (None, s)) as -> by (rewrite <-(Nat.add_0_r k); by apply (Hb 0%nat e)).
    replace (Z.of_nat k + 1) with (Z.of_nat (S k)) by lia.
    assert (forall i e, d !! i = Some e -> ~ P e -> f (S k + i)%nat s = Ok (None, s)) as Hb'
      by (intros i x Hi Hx; rewrite <-(Hb (S i) x) by done; f_equal; lia).
    specialize (IH (S k) Hb'). destruct (list_find P d) as [[i e']|]; cbn [fmap option_fmap option_map prod_map]; [|exact IH].
    intros r s' E. apply IH. rewrite <-E. cbn. f_equal; lia.
Qed.

Lemma wp_ok {S A} (m : M S A) s a s' : wp m s (fun x t => x = a /\ t = s') -> m s = Ok (a, s').
Proof. by intros (x & t & E & -> & ->). Qed.

Lemma find_open_spec name d s :
  directory (mboxs s) d -> Forall (fun c => c <> 0) name ->
  match list_find (named name) d with
  | Some (i, _) => forall b, mboxs s !! i = Some b ->
      find_open name s = Ok (Some i, s <| mboxs := <[i := b <| mb_count := i32 (mb_count b + 1) |>]> (mboxs s) |>)
  | None => find_open name s = Ok (None, s)
  end.
Proof.
  intros Hd Hn. unfold find_open. change (Z.to_nat MAX_NUM_BOX) with 32%nat.
  pose proof (for_until_first (named name) d (match_step name) s (directory_length _ _ Hd)) as Hf. specialize (Hf ltac:(
    intros i e He Hne; destruct (directory_lookup _ _ _ _ Hd He) as (b & Hb & Hs & _);
    apply wp_ok, wp_bind, (wp_get_box _ _ b); [done|]; apply wp_bind;
    destruct e as [[x n]|]; cbn in Hs;
      [destruct Hs as (-> & Hn0 & Hx); eapply wp_lift; [by apply name_cmp_spec|]; rewrite decide_False by (intros ->; by apply Hne);
       case_decide; by apply wp_ret
      |destruct Hs as (-> & old & Hx); eapply wp_lift; [by apply (name_cmp_spec _ _ old)|]; rewrite andb_false_r; by apply wp_ret])).
  destruct (list_find (named name) d) as [[i e]|] eqn:El; [|done].
  intros b Hb. apply Hf. apply list_find_Some in El as (He & Hnm & _).
  destruct (directory_lookup _ _ _ _ Hd He) as (b' & Hb' & Hs & _). assert (b' = b) as -> by congruence.
  destruct e as [[x n]|]; [|done]. unfold named in Hnm. cbn in Hnm, Hs. injection Hnm as ->. destruct Hs as (Ec & Hn0 & Hx).
  apply wp_ok, wp_bind, (wp_get_box _ _ b); [done|]. apply wp_bind. eapply wp_lift; [by apply name_cmp_spec|].
  rewrite decide_True by done. destruct (Z.gtb_spec (mb_count b) 0); [|lia]. cbn [Z.eqb andb].
  apply wp_bind. eapply wp_set_box; [done|]. by apply wp_ret.
Qed.

(** What [mbox_open] makes of a free mailbox. *)
Definition opened (c i : nat) (s s' : mstate) : Prop :=
  user s' = user s /\ fresh c (kern s') /\ box_ok i c [] s'
  /\ forall j, j <> i -> mboxs s' !! j = mboxs s !! j
     /\ sem_value (kern s') !!! box_send j = sem_value (kern s) !!! box_send j
     /\ sem_value (kern s') !!! box_recv j = sem_value (kern s) !!! box_recv j.

Lemma open_free_step name i s c b :
  fresh c (kern s) -> mboxs s !! i = Some b -> mb_count b = 0 -> len (mb_name b) = MBOX_NAME_LENGTH ->
  len (mb_msg b) = MAX_MBOX_LENGTH * MAX_MESSAGE_LENGTH -> Forall (fun c => c <> 0) name -> len name < MBOX_NAME_LENGTH ->
  wp (claim_step name i) s
    (fun r s' => r = Some i /\ opened c i s s'
       /\ exists b', mboxs s' = <[i := b']> (mboxs s) /\ shows b' (Some (name, 1))
          /\ len (mb_name b') = MBOX_NAME_LENGTH /\ len (mb_msg b') = MAX_MBOX_LENGTH * MAX_MESSAGE_LENGTH).
Proof.
  intros [sem HV] Hb Hc Hbn Hbm Hn Hlen. pose proof (lookup_lt_Some _ _ _ Hb) as Hlt. pose proof (send_recv_ne i) as Hne.
  destruct (view_lock_init c _ sem (kern s) (box_lock i) HV) as (k & E & HV1).
  apply wp_bind, (wp_get_box _ _ b); [done|]. rewrite Hc. cbn [Z.eqb].
  apply wp_bind. eapply wp_on_kernel; [exact E|]. unfold MBOX_NAME_LENGTH in *.
  apply wp_bind. eapply wp_lift; [apply splice_ok; [lia|rewrite length_app; cbn; lia]|].
  apply wp_bind. eapply wp_set_box; [exact Hb|]. apply wp_bind. eapply wp_set_box; [by apply list_lookup_insert_eq|].
  apply wp_bind. eapply wp_set_box; [cbn [mboxs put]; rewrite list_insert_insert_eq; by apply list_lookup_insert_eq|].
  destruct (view_sem_init c _ sem _ k (box_send i) MAX_MBOX_LENGTH HV1 eq_refl) as (k2 & E2 & HV2).
  apply wp_bind. eapply wp_on_kernel; [exact E2|].
  destruct (view_sem_init c _ _ _ k2 (box_recv i) 0 HV2 eq_refl) as (k3 & E3 & HV3).
  apply wp_bind. eapply wp_on_kernel; [exact E3|]. apply wp_ret. cbn [mboxs put kern user mb_count].
  rewrite !list_insert_insert_eq, Hc. change (i32 (0 + 1)) with 1. split; [done|]. split.
  - split; [done|]. split; [by eexists|]. split.
    + eexists _, _, _, _. split; [exact HV3|].
      rewrite fn_lookup_insert_ne, !fn_lookup_insert by congruence. split_and!; try done; try (by apply list_lookup_insert_eq). split_and!; try done.
    + cbn [mboxs kern put]. intros j Hj. split; [by rewrite list_lookup_insert_ne|]. destruct HV as (Q0 & _ & Hs & _), HV3 as (Q3 & _ & Hs3 & _).
      rewrite !Hs3, !Hs. unfold box_send, box_recv in *. by rewrite !fn_lookup_insert_ne by lia.
  - eexists. split; [done|]. unfold shows. split_and!; cbn [mb_name mb_count mb_msg put]; [done|lia|lia| |rewrite !length_app, length_take, length_drop; cbn; lia|done].
    exists [], (drop (length (name ++ [0])) (mb_name b)). cbn. by rewrite <-app_assoc.
Qed.

Lemma open_free_spec name d s c :
  fresh c (kern s) -> directory (mboxs s) d -> Forall (fun c => c <> 0) name -> len name < MBOX_NAME_LENGTH ->
  match list_find (fun e : entry => e = None) d with
  | Some (i, _) => exists s', open_free name s = Ok (Some i, s') /\ opened c i s s' /\ directory (mboxs s') (<[i := Some (name, 1)]> d)
  | None => open_free name s = Ok (None, s)
  end.
Proof.
  intros Hf Hd Hn Hlen. unfold open_free. change (Z.to_nat MAX_NUM_BOX) with 32%nat.
  pose proof (for_until_first (fun e : entry => e = None) d (claim_step name) s (directory_length _ _ Hd)) as Hfirst.
  specialize (Hfirst ltac:(
    intros i [[x n]|] He Hne; [|done]; destruct (directory_lookup _ _ _ _ Hd He) as (b & Hb & (Hc & Hn0 & _) & _);
    apply wp_ok, wp_bind, (wp_get_box _ _ b); [done|]; rewrite (proj2 (Z.eqb_neq _ _)) by lia; by apply wp_ret)).
  destruct (list_find _ d) as [[i e]|] eqn:El; [|done]. apply list_find_Some in El as (He & -> & _).
  destruct (directory_lookup _ _ _ _ Hd He) as (b & Hb & (Hc & _) & Hbn & Hbm).
  destruct (open_free_step name i s c b Hf Hb Hc Hbn Hbm Hn Hlen) as (r & s' & E & -> & Ho & b' & Eb & Hs & Hbn' & Hbm').
  exists s'. split; [by apply Hfirst|]. split; [done|]. rewrite Eb. by apply directory_insert.
Qed.

(** A mailbox keeps its messages when its semaphores and its array stay. *)
Lemma box_ok_frame i c st s s' b b' :
  box_ok i c st s -> fresh c (kern s') ->
  sem_value (kern s') !!! box_send i = sem_value (kern s) !!! box_send i ->
  sem_value (kern s') !!! box_recv i = sem_value (kern s) !!! box_recv i ->
  mboxs s !! i = Some b -> mboxs s' !! i = Some b' -> mb_ptr b' = mb_ptr b -> mb_msg b' = mb_msg b -> box_ok i c st s'.
Proof.
  intros (W & sem & lock & b0 & (Q & _ & Hs & _) & _ & _ & H1 & H2 & _ & Hps & Hle & Hpr & Hb0 & Hst) [sem' HV'] E1 E2 Hb Hb' Hp Hm.
  assert (b0 = b) as -> by congruence. exists (fun _ => []), sem', (fun _ => UNLOCKED), b'. destruct HV' as (Q' & HK' & Hs' & Hl' & HW').
  split; [by exists Q'|]. rewrite <-!Hs', E1, E2, !Hs. unfold holds_stack in *. rewrite Hp, Hm. tauto.
Qed.

Lemma close_directory i x n d s : directory (mboxs s) d -> d !! i = Some (Some (x, n)) ->
  exists s', mbox_close i s = Ok (tt, s') /\ directory (mboxs s') (close_spec i d).
Proof.
  intros Hd He. destruct (directory_lookup _ _ _ _ Hd He) as (b & Hb & (Hc & Hn0 & Hx) & Hbn & Hbm).
  assert (wp (mbox_close i) s (fun _ s' => directory (mboxs s') (close_spec i d))) as ([] & s' & E & H); [|by exists s'].
  eapply wp_set_box; [exact Hb|]. cbn [mboxs put]. unfold close_spec. rewrite He.
  apply directory_insert; [done| |done|done]. unfold shows. cbn [mb_count mb_name put]. rewrite Hc, i32_small by lia.
  case_decide; [split; [lia|by eexists]|split_and!; [done|lia|lia|done]].
Qed.

(** The mailboxes are a directory of names with their numbers of users.
    [mbox_open] finds the first mailbox in use under the name and counts one more
    user; if there is none it takes the first free mailbox and makes it an empty
    one; if all 32 are in use it returns no value.  The messages in the other
    mailboxes, and in one that was open before, are kept.  [mbox_close] counts
    one user less, and the mailbox is free after the last one.  [mbox_init] makes
    them all free. *)
Theorem mbox_open_correct c name d s :
  fresh c (kern s) -> directory (mboxs s) d -> Forall (fun c => c <> 0) name -> len name < MBOX_NAME_LENGTH ->
  (forall i n, d !! i = Some (Some (name, n)) -> n + 1 < 2 ^ 31) ->
  match open_spec name d with
  | Some (i, d') => exists s', mbox_open name s = Ok (i, s') /\ fresh c (kern s') /\ directory (mboxs s') d'
      /\ (d !! i = Some None -> box_ok i c [] s')
      /\ forall j st, (j <> i \/ d !! i <> Some None) -> box_ok j c st s -> box_ok j c st s'
  | None => mbox_open name s = Fault NoReturnValue
  end
  /\ (forall i x n, d !! i = Some (Some (x, n)) -> exists s', mbox_close i s = Ok (tt, s') /\ directory (mboxs s') (close_spec i d))
  /\ exists s', mbox_init s = Ok (tt, s') /\ directory (mboxs s') (replicate 32 None).
Proof.
  intros Hf Hd Hn Hlen Hcount. split; [|split].
  - unfold open_spec, mbox_open, bind. pose proof (find_open_spec name d s Hd Hn) as Hfind.
    destruct (list_find (named name) d) as [[i e]|] eqn:El.
    + apply list_find_Some in El as (He & Hnm & _). destruct e as [[x n]|]; [|done]. unfold named in Hnm. cbn in Hnm. injection Hnm as ->.
      destruct (directory_lookup _ _ _ _ Hd He) as (b & Hb & (Hc & Hn0 & Hx) & Hbn & Hbm). rewrite (Hfind b Hb).
      eexists. split; [done|]. cbn [kern mboxs put]. specialize (Hcount i n He). split; [done|split; [|split; [by rewrite He|]]].
      * apply directory_insert; [done| |done|done]. rewrite Hc, i32_small by lia. cbn. split_and!; [done|lia|lia|done].
      * intros j st _ Hj. pose proof Hj as (W & sem & lock & b0 & _ & _ & _ & _ & _ & _ & _ & _ & _ & Hb0 & _).
        pose proof (lookup_lt_Some _ _ _ Hb) as Hlt.
        destruct (decide (j = i)) as [->|Hne]; [|eapply box_ok_frame; [done|done|done|done|done|cbn; by rewrite list_lookup_insert_ne|done|done]].
        eapply box_ok_frame; [done|done|done|done|done|cbn; by rewrite list_lookup_insert_eq|cbn; congruence|cbn; congruence].
    + rewrite Hfind. pose proof (open_free_spec name d s c Hf Hd Hn Hlen) as Hfree.
      destruct (list_find (fun e : entry => e = None) d) as [[i e]|] eqn:El2; [|by rewrite Hfree].
      destruct Hfree as (s' & -> & Ho & Hd'). apply list_find_Some in El2 as (He & -> & _).
      exists s'. destruct Ho as (_ & Hf' & Hbox & Hoth). split_and!; try done.
      intros j st [Hj|Hj] Hok; [|by rewrite He in Hj]. destruct (Hoth j Hj) as (Ej & E1 & E2).
      pose proof Hok as (W & sem & lock & b0 & _ & _ & _ & _ & _ & _ & _ & _ & _ & Hb0 & _).
      eapply box_ok_frame; [done|done|done|done|done|by rewrite Ej|done|done].
  - intros i x n He. by eapply close_directory.
  - destruct Hd as [Hw _]. destruct (wp_mbox_init c s (fun _ s' => directory (mboxs s') (replicate 32 None)) Hf Hw) as ([] & s' & E & H); [done|].
    by exists s'.
Qed.

(** ** A mailbox is a stack *)

(** The sender to a full mailbox and the receiver from an empty one. *)
Lemma box_send_waits i c ps pr ws wr st s rest t :
  box_state i c ps pr ws wr st s -> len st + ps = MAX_MBOX_LENGTH -> ready (kern s) t ->
  exists s' t', run (I_call (C_semaphore_down (box_send i)) :: rest) s = Ok (rest, s') /\ t' <> c
    /\ status (kern s') c = TASK_BLOCKED /\ box_state i t' ps pr (ws ++ [c]) wr st s' /\ user s' = user s.
Proof.
  intros (W & sem & lock & b & HV & <- & HW2 & H1 & H2 & H3 & Hps & Hle & Hpr & Hb & Hst) Hf Ht. pose proof (send_recv_ne i) as Hne.
  destruct (run_waits (box_send i) rest s c W sem lock t HV) as (s' & t' & E & Em & Eu & Hn & Hbl & HV'); [lia|done|].
  exists s', t'. split_and!; try done. eexists _, _, _, b. split; [exact HV'|]. rewrite fn_lookup_insert, fn_lookup_insert_ne, Em by done.
  split_and!; try done; lia.
Qed.
Lemma box_recv_waits i c ps pr ws wr st s rest t :
  box_state i c ps pr ws wr st s -> len st = pr -> ready (kern s) t ->
  exists s' t', run (I_call (C_semaphore_down (box_recv i)) :: rest) s = Ok (rest, s') /\ t' <> c
    /\ status (kern s') c = TASK_BLOCKED /\ box_state i t' ps pr ws (wr ++ [c]) st s' /\ user s' = user s.
Proof.
  intros (W & sem & lock & b & HV & HW1 & <- & H1 & H2 & H3 & Hps & Hle & Hpr & Hb & Hst) Hf Ht. pose proof (send_recv_ne i) as Hne.
  destruct (run_waits (box_recv i) rest s c W sem lock t HV) as (s' & t' & E & Em & Eu & Hn & Hbl & HV'); [lia|done|].
  exists s', t'. split_and!; try done. eexists _, _, _, b. split; [exact HV'|]. rewrite fn_lookup_insert, fn_lookup_insert_ne, Em by congruence.
  split_and!; try done; lia.
Qed.

(** C30: A mailbox of 32 messages of at most 32 bytes is a stack, and keeps every
    message byte for byte.  [mbox_send] with room left puts the message on top and
    makes the first receiver that waits ready; [mbox_recv] takes the message that
    was sent last, not the oldest one, copies it to the receiver, who asks for
    exactly its length, and makes the first sender that waits ready.  A sender to a
    full mailbox and a receiver from an empty one block behind the others that wait,
    before they touch the mailbox (there being another ready task), and when they
    have been woken and run again, the rest of their call puts or takes the message
    in the same way.  This is stated for states in which the lock of the mailbox is
    free, and for a task that is not interrupted between the kernel calls of the
    function; any number of woken senders and receivers may be on their way. *)
Theorem mailbox_stack i c ps pr ws wr st s :
  box_state i c ps pr ws wr st s ->
  (forall msg n m, slice (user s) msg n = Ok m -> n <= MAX_MESSAGE_LENGTH ->
     (len st + ps < MAX_MBOX_LENGTH -> exists s', run (mbox_send i msg n) s = Ok ([], s')
        /\ put_state i c ps pr ws wr (m :: st) s' /\ user s' = user s)
     /\ (0 < ps -> exists s', run (tail (mbox_send i msg n)) s = Ok ([], s')
        /\ put_state i c (ps - 1) pr ws wr (m :: st) s' /\ user s' = user s))
  /\ (forall m older msg u, st = m :: older -> splice (user s) msg m = Ok u ->
     (pr < len st -> exists s', run (mbox_recv i msg (len m)) s = Ok ([], s')
        /\ taken_state i c ps pr ws wr older s' /\ user s' = u)
     /\ (0 < pr -> exists s', run (tail (mbox_recv i msg (len m))) s = Ok ([], s')
        /\ taken_state i c ps (pr - 1) ws wr older s' /\ user s' = u))
  /\ (forall t msg n, ready (kern s) t ->
     (len st + ps = MAX_MBOX_LENGTH -> exists s' t', run (mbox_send i msg n) s = Ok (tail (mbox_send i msg n), s')
        /\ t' <> c /\ status (kern s') c = TASK_BLOCKED /\ box_state i t' ps pr (ws ++ [c]) wr st s' /\ user s' = user s)
     /\ (len st = pr -> exists s' t', run (mbox_recv i msg n) s = Ok (tail (mbox_recv i msg n), s')
        /\ t' <> c /\ status (kern s') c = TASK_BLOCKED /\ box_state i t' ps pr ws (wr ++ [c]) st s' /\ user s' = user s)).
Proof.
  intros Hok. assert (0 <= ps /\ 0 <= pr) as [Hps Hpr] by (destruct Hok as (W & sem & lock & b & Hok); lia). split_and!.
  - intros msg n m Hm Hn. split; intros Hlt.
    + assert (wp (run (mbox_send i msg n)) s (fun r s' => r = [] /\ put_state i c ps pr ws wr (m :: st) s' /\ user s' = user s))
        as (r & s' & E & -> & H); [|by exists s'].
      apply (wp_sem_send i c ps pr ws wr st); [done..|]. intros s1 H1 E1. rewrite <-E1 in Hm.
      eapply (wp_send_rest _ _ (ps + 1)); [exact H1|lia|exact Hm|done|]. rewrite Z.add_simpl_r. intros s' ? ?. split_and!; [done..|congruence].
    + assert (wp (run (tail (mbox_send i msg n))) s (fun r s' => r = [] /\ put_state i c (ps - 1) pr ws wr (m :: st) s' /\ user s' = user s))
        as (r & s' & E & -> & H); [|by exists s']. by eapply wp_send_rest.
  - intros m older msg u -> Hu. split; intros Hlt.
    + assert (wp (run (mbox_recv i msg (len m))) s (fun r s' => r = [] /\ taken_state i c ps pr ws wr older s' /\ user s' = u))
        as (r & s' & E & -> & H); [|by exists s'].
      apply (wp_sem_recv i c ps pr ws wr (m :: older)); [done..|]. intros s1 H1 E1. rewrite <-E1 in Hu.
      eapply (wp_recv_rest _ _ _ (pr + 1)); [exact H1|lia|exact Hu|]. rewrite Z.add_simpl_r. done.
    + assert (wp (run (tail (mbox_recv i msg (len m)))) s (fun r s' => r = [] /\ taken_state i c ps (pr - 1) ws wr older s' /\ user s' = u))
        as (r & s' & E & -> & H); [|by exists s']. by eapply wp_recv_rest.
  - intros t msg n Ht. split; intros Hl; [by apply (box_send_waits i c ps pr ws wr st _ _ t)|by apply (box_recv_waits i c ps pr ws wr st _ _ t)].
Qed.

(** ** A concrete mailbox *)

Definition demo_mstate : mstate :=
  mk_mstate demo_boot (replicate 32 (mk_mailbox (replicate 32 0) 0 0 (replicate 1024 0))) [104; 105; 0; 0].

Lemma demo_fresh : fresh 1 (kern demo_mstate).
Proof.
  destruct demo_boot_inv as (Q & [HK _] & HQ). exists (fun i => sem_value demo_boot !!! i), Q.
  split; [exact HK|]. split; [reflexivity|]. split; [|intros i; apply HQ].
  intros l. pose proof (bool_decide_unpack (map_Forall (fun _ v => v = UNLOCKED) (lock_status demo_boot)) ltac:(vm_compute; exact I)) as Hall.
  change (kern demo_mstate) with demo_boot. destruct (lock_status demo_boot !! l) as [v|] eqn:E.
  - rewrite (lookup_total_correct _ _ _ E). exact (Hall l v E).
  - unfold lookup_total, map_lookup_total. rewrite E. reflexivity.
Qed.
Lemma demo_directory : directory (mboxs demo_mstate) (replicate 32 None).
Proof.
  split; [split; [reflexivity|apply Forall_replicate; split; reflexivity]|].
  apply Forall2_replicate. split; [reflexivity|]. exists [], [], (replicate 31 0). split_and!; [reflexivity|reflexivity|constructor].
Qed.
Lemma demo_name : Forall (fun c => c <> 0) [109; 98].
Proof. repeat constructor; discriminate. Qed.

Lemma mbox_open_correct_witness : exists s', mbox_open [109; 98] demo_mstate = Ok (0%nat, s') /\ box_ok 0 1 [] s'.
Proof.
  destruct (mbox_open_correct 1 [109; 98] (replicate 32 None) demo_mstate demo_fresh demo_directory demo_name) as [H _].
  - reflexivity.
  - intros i n Hi. apply lookup_replicate in Hi as [Hi _]. discriminate.
  - assert (open_spec [109; 98] (replicate 32 None) = Some (0%nat, <[0%nat := Some ([109; 98], 1)]> (replicate 32 None))) as E
      by reflexivity.
    rewrite E in H. destruct H as (s' & E' & _ & _ & Hok & _). exists s'. split; [exact E'|]. apply Hok. reflexivity.
Defined.

Lemma demo_box : exists s, box_ok 0 1 [] s /\ user s = [104; 105; 0; 0].
Proof.
  pose proof (open_free_spec [109; 98] (replicate 32 None) demo_mstate 1 demo_fresh demo_directory demo_name eq_refl) as H.
  cbn [replicate list_find] in H. rewrite decide_True in H by reflexivity. destruct H as (s' & _ & (Hu & _ & Hok & _) & _). exists s'. split; [exact Hok|exact Hu].
Qed.
Lemma mailbox_stack_witness : exists s s', run (mbox_send 0 0 2) s = Ok ([], s') /\ box_ok 0 1 [[104; 105]] s'.
Proof.
  destruct demo_box as (s & Hok & Hu). exists s. destruct (mailbox_stack 0 1 0 0 [] [] [] s Hok) as (Hsend & _).
  destruct (Hsend 0 2 [104; 105]) as [Hs _]; [rewrite Hu; reflexivity|discriminate|].
  destruct (Hs ltac:(reflexivity)) as (s' & E & Hok' & _).
  exists s'. split; [exact E|exact Hok'].
Defined.
