(* ===== verification/Mac.v ===== *)
(** The network driver: drivers/mac.c.

    The driver and the MAC share the rings of descriptors in memory; the driver
    hands a descriptor to the device with its OWN bit, the device hands it back
    by clearing the bit.  All accesses are loads and stores of words on the bus,
    which is the interface [Bus]; [Gmac] says what the device does on it. *)

From S2P Require Import Prelude Wp Kernel Queue Sched Sync Process CString Printk Screen.

(** ** The bus *)

(** A load and a store of a word at an address; a device may go on meanwhile. *)
Class Bus (bus : Type) := {
  load_word : Z -> bus -> Z * bus;
  store_word : Z -> Z -> bus -> bus
}.

Definition GMAC_BASE_ADDR : Z := 0xbfe10000.
Definition DMA_BASE_ADDR : Z := 0xbfe11000.
Definition PSIZE : Z := 256.
Definition PNUM : Z := 64.
Definition DESC_SIZE : Z := 16.
Definition SEND_DESC_SIZE : Z := DESC_SIZE * PNUM.
Definition RECV_DESC_SIZE : Z := DESC_SIZE * PNUM.
Definition RECV_BUFFER_SIZE : Z := PSIZE * PNUM.
Definition PHYADDR (x : Z) : Z := Z.land x 0x1fffffff.
Definition GmacAddr0High : Z := 0x40.
Definition GmacAddr0Low : Z := 0x44.
Definition DmaTxPollDemand : Z := 0x4.
Definition DmaRxPollDemand : Z := 0x8.
Definition DmaRxBaseAddr : Z := 0xc.
Definition DmaTxBaseAddr : Z := 0x10.
Definition DmaStatus : Z := 0x14.
Definition DmaControl : Z := 0x18.
Definition DmaInterrupt : Z := 0x1c.
Definition DmaIntDisable : Z := 0.
Definition INT1_SR : Z := 0xbfd01058.
Definition INT1_EN : Z := 0xbfd0105c.
Definition INT1_CLR : Z := 0xbfd01064.
Definition INT1_POL : Z := 0xbfd01068.
Definition INT1_EDGE : Z := 0xbfd0106c.
Definition OWN : Z := 0x80000000.

(** The fields of a descriptor at [addr]. *)
Record desc_t := mk_desc { des0 : Z; des1 : Z; des2 : Z; des3 : Z }.
Record mac_t := mk_mac {
  psize : Z; mac_pnum : Z; mac_addr : Z; dma_addr : Z;
  saddr : Z; daddr : Z; saddr_phy : Z; daddr_phy : Z;
  mac_td : Z; mac_rd : Z; mac_td_phy : Z; mac_rd_phy : Z
}.

(** ** Operations on the bus *)

Section bus.
Context {bus : Type} `{Bus bus}.

Definition reg_read_32 (addr : Z) : M bus Z := fun b => Ok (load_word addr b).
Definition read_register (base offset : Z) : M bus Z := reg_read_32 (u32 (base + offset)).
Definition reg_write_32 (addr data : Z) : M bus unit := modify (store_word addr data).
(** [((desc_t * )addr)->des0] and the stores to a whole descriptor. *)
Definition get_des0 (addr : Z) : M bus Z := reg_read_32 addr.
Definition put_desc (addr : Z) (d : desc_t) : M bus unit :=
  do! reg_write_32 addr (des0 d);
  do! reg_write_32 (u32 (addr + 4)) (des1 d);
  do! reg_write_32 (u32 (addr + 8)) (des2 d);
  reg_write_32 (u32 (addr + 12)) (des3 d).

Definition gmac_get_mac_addr : M bus (list Z) :=
  let! low := read_register GMAC_BASE_ADDR GmacAddr0Low in
  let! high := read_register GMAC_BASE_ADDR GmacAddr0High in
  ret [Z.land low 0xff; Z.land (Z.shiftr low 8) 0xff; Z.land (Z.shiftr low 16) 0xff; Z.land (Z.shiftr low 24) 0xff;
       Z.land high 0xff; Z.land (Z.shiftr high 8) 0xff].
Definition set_mac_addr (mac : mac_t) : M bus unit :=
  let MacAddr := [0x00; 0x55; 0x7b; 0xb5; 0x7d; 0xf7] in
  let! data := lift (try! a5 := rd MacAddr 5 in try! a4 := rd MacAddr 4 in Ok (u32 (Z.lor (Z.shiftl a5 8) a4))) in
  do! reg_write_32 (u32 (mac_addr mac + 0x40)) data;
  let! data := lift (try! a3 := rd MacAddr 3 in try! a2 := rd MacAddr 2 in try! a1 := rd MacAddr 1 in try! a0 := rd MacAddr 0 in
    Ok (u32 (Z.lor (Z.lor (Z.lor (Z.shiftl a3 24) (Z.shiftl a2 16)) (Z.shiftl a1 8)) a0))) in
  reg_write_32 (u32 (mac_addr mac + 0x44)) data.

Definition set_sram_ctr : M bus unit := reg_write_32 0xbfd00420 0x8000.
(** The inner loop only lets time pass. *)
Fixpoint reset_loop (fuel : nat) (dma : Z) : M bus unit :=
  match fuel with
  | O => throw Diverges
  | S fuel' =>
      let! v := reg_read_32 dma in
      if Z.land v 1 =? 0 then ret tt else do! reg_write_32 dma 1; reset_loop fuel' dma
  end.
Definition s_reset (fuel : nat) (mac : mac_t) : M bus unit :=
  do! reg_write_32 (dma_addr mac) 1;
  reset_loop fuel (dma_addr mac).
Definition disable_interrupt_all (mac : mac_t) : M bus unit := reg_write_32 (u32 (dma_addr mac + DmaInterrupt)) DmaIntDisable.
Definition enable_mac_int : M bus unit := reg_write_32 INT1_EN (Z.shiftl 1 3).
Definition clear_interrupt : M bus unit :=
  let! data := reg_read_32 (u32 (0xbfe11000 + DmaStatus)) in
  reg_write_32 (u32 (0xbfe11000 + DmaStatus)) data.

(** *** The rings *)

(** [while (++cnt < pnum)]: [fuel] is one more than [pnum]. *)
Fixpoint desc_loop (fuel : nat) (pnum cnt addr : Z) (d : Z -> Z -> desc_t) : M bus (Z * Z) :=
  match fuel with
  | O => throw Diverges
  | S fuel' =>
      let cnt := i32 (cnt + 1) in
      if u32 cnt <? pnum then
        do! put_desc addr (d cnt addr);
        desc_loop fuel' pnum cnt (u32 (addr + DESC_SIZE)) d
      else ret (cnt, addr)
  end.
Definition recv_desc (buffer bufsize cnt : Z) (flags next : Z) : desc_t :=
  mk_desc 0 (u32 (Z.lor flags (Z.land bufsize 0x7ff))) (PHYADDR (u32 (buffer + u32 ((cnt - 1) * bufsize)))) (PHYADDR next).
Definition do_recv_desc_init (desc_addr buffer bufsize pnum : Z) : M bus Z :=
  let start_addr := desc_addr in
  let! r := desc_loop (S (Z.to_nat pnum)) pnum 0 desc_addr (fun cnt addr =>
    recv_desc buffer bufsize cnt (Z.lor (Z.shiftl 1 24) (Z.shiftl 1 31)) (u32 (addr + DESC_SIZE))) in
  do! put_desc (snd r) (recv_desc buffer bufsize (fst r) (Z.shiftl 1 25) start_addr);
  ret start_addr.
Definition send_desc (buffer bufsize : Z) (flags next : Z) : desc_t :=
  mk_desc 0 (u32 (Z.lor flags (Z.land bufsize 0x7ff))) (PHYADDR buffer) (PHYADDR next).
Definition do_send_desc_init (desc_addr buffer bufsize pnum : Z) : M bus Z :=
  let start_addr := desc_addr in
  let! r := desc_loop (S (Z.to_nat pnum)) pnum 0 desc_addr (fun cnt addr =>
    send_desc buffer bufsize (Z.lor (Z.lor (Z.shiftl 1 30) (Z.shiftl 1 29)) (Z.shiftl 1 24)) (u32 (addr + DESC_SIZE))) in
  do! put_desc (snd r) (send_desc buffer bufsize
    (Z.lor (Z.lor (Z.lor (Z.shiftl 1 30) (Z.shiftl 1 29)) (Z.shiftl 1 25)) (Z.shiftl 1 24)) start_addr);
  ret start_addr.

(** *** Sending and receiving *)

(** [reg |= bits]. *)
Definition reg_set (addr bits : Z) : M bus unit :=
  let! v := reg_read_32 addr in
  reg_write_32 addr (Z.lor v bits).
Definition own_all (n : Z) (table : Z) : M bus unit :=
  for_range (Z.to_nat n) 0 (fun l => reg_write_32 (u32 (table + l * DESC_SIZE)) OWN).

(** [while (des0 & 0x80000000);] *)
Fixpoint poll_loop (fuel : nat) (addr : Z) : M bus unit :=
  match fuel with
  | O => throw Diverges
  | S fuel' =>
      let! d := get_des0 addr in
      if Z.land d OWN =? 0 then ret tt else poll_loop fuel' addr
  end.
Definition do_net_send (fuel : nat) (td td_phy : Z) : M bus unit :=
  do! reg_write_32 (u32 (DMA_BASE_ADDR + 0x10)) td_phy;
  do! reg_set GMAC_BASE_ADDR (Z.lor (Z.shiftl 1 2) (Z.shiftl 1 3));
  do! reg_set (u32 (DMA_BASE_ADDR + 0x18)) 0x02202000;
  do! reg_write_32 (u32 (DMA_BASE_ADDR + 0x1c)) (Z.lor 0x10001 (Z.shiftl 1 6));
  do! own_all 64 td;
  for_range 64 0 (fun l =>
    do! reg_write_32 (u32 (DMA_BASE_ADDR + DmaTxPollDemand)) 1;
    poll_loop fuel (u32 (td + l * DESC_SIZE))).

Definition receive (n : Z) (recv_desc_table_ptr rd : Z) : M bus Z :=
  do! reg_write_32 (u32 (DMA_BASE_ADDR + 0xC)) recv_desc_table_ptr;
  do! reg_set GMAC_BASE_ADDR 4;
  do! reg_set (u32 (DMA_BASE_ADDR + 0x18)) 0x02200002;
  do! reg_write_32 (u32 (DMA_BASE_ADDR + 0x1c)) (Z.lor 0x10001 (Z.shiftl 1 6));
  do! own_all n rd;
  do! for_range (Z.to_nat n) 0 (fun l => reg_write_32 (u32 (DMA_BASE_ADDR + DmaRxPollDemand)) 1);
  ret 0.
Definition do_net_recv (recv_desc_table_ptr rd rd_phy daddr : Z) : M bus Z := receive 64 recv_desc_table_ptr rd.
Definition do_net_fast_recv (recv_desc_table_ptr rd rd_phy daddr : Z) : M bus Z := receive 256 recv_desc_table_ptr rd.

(** Is one of the first [PNUM - 1] descriptors still with the device? *)
Definition still_owned (table : Z) : M bus (option unit) :=
  for_until (Z.to_nat (PNUM - 1)) 0 (fun pnow =>
    let! d := get_des0 (u32 (table + DESC_SIZE * pnow)) in
    if Z.land d OWN =? 0 then ret None else ret (Some tt)).
(** The result of the search is not used. *)
Definition check_recv (recv_desc_table_ptr : Z) : M bus unit := do! still_owned recv_desc_table_ptr; ret tt.

(** [bzero], word by word. *)
Definition bzero_words (addr size : Z) : M bus unit :=
  for_range (Z.to_nat (size / 4)) 0 (fun i => reg_write_32 (u32 (addr + 4 * i)) 0).
End bus.

(** ** The driver in the kernel *)

Record nstate (bus port : Type) := mk_nstate {
  net_kernel : kstate;
  net_bus : bus;
  net_port : port;
  send_desc_table_ptr : Z;
  recv_desc_table_ptr : Z
}.
Arguments mk_nstate {bus port}.
Arguments net_kernel {bus port}.
Arguments net_bus {bus port}.
Arguments net_port {bus port}.
Arguments send_desc_table_ptr {bus port}.
Arguments recv_desc_table_ptr {bus port}.

Section driver.
Context {bus port : Type} `{Bus bus} `{Pmon port}.
(** The places of the two tables and of the buffer for packets. *)
Context (send_desc_table recv_desc_table recv_buffer : Z).
(** What the buffers of [printk] on the stack hold before the call. *)
Context (buff bf : list Z).

Definition Net := M (nstate bus port).
Definition on_bus {A} (m : M bus A) : Net A := fun s =>
  match m (net_bus s) with
  | Ok (a, b) => Ok (a, mk_nstate (net_kernel s) b (net_port s) (send_desc_table_ptr s) (recv_desc_table_ptr s))
  | Fault f => Fault f
  end.
Definition in_kernel {A} (m : M kstate A) : Net A := fun s =>
  match m (net_kernel s) with
  | Ok (a, k) => Ok (a, mk_nstate k (net_bus s) (net_port s) (send_desc_table_ptr s) (recv_desc_table_ptr s))
  | Fault f => Fault f
  end.
Definition to_port {A} (m : M port A) : Net A := fun s =>
  match m (net_port s) with
  | Ok (a, p) => Ok (a, mk_nstate (net_kernel s) (net_bus s) p (send_desc_table_ptr s) (recv_desc_table_ptr s))
  | Fault f => Fault f
  end.

(** The other fields are not used. *)
Definition test_mac : mac_t := mk_mac (PSIZE * 4) PNUM 0xbfe10000 0xbfe11000 0 0 0 0 0 0 0 0.
Definition do_init_mac (fuel : nat) : Net unit :=
  do! on_bus set_sram_ctr;
  do! on_bus (s_reset fuel test_mac);
  do! on_bus (disable_interrupt_all test_mac);
  do! on_bus (set_mac_addr test_mac);
  do! on_bus (reg_write_32 INT1_CLR 0xFFFFFFFF);
  do! on_bus (reg_write_32 INT1_POL 0xFFFFFFFF);
  do! on_bus (reg_write_32 INT1_EDGE 0);
  do! modify (fun s => mk_nstate (net_kernel s) (net_bus s) (net_port s) send_desc_table (recv_desc_table_ptr s));
  do! modify (fun s => mk_nstate (net_kernel s) (net_bus s) (net_port s) (send_desc_table_ptr s) recv_desc_table);
  do! on_bus (bzero_words send_desc_table SEND_DESC_SIZE);
  on_bus (bzero_words recv_desc_table RECV_DESC_SIZE).

Definition do_wait_recv_package : Net unit :=
  let! table := gets recv_desc_table_ptr in
  do! on_bus enable_mac_int;
  let! d := on_bus (get_des0 (u32 (table + 63 * DESC_SIZE))) in
  if Z.land d OWN =? OWN then in_kernel (do_block recv_block_queue R_return) else ret tt.

Definition hex_format : list Z := [37; 120; 32; 0].     (* %x  *)
Definition line_format : list Z := [10; 0].
(** The first words of the last thirty packets. *)
Definition show_packets : Net unit :=
  do! to_port (printk buff bf move_format 0 [27; 15; 1]);
  for_range 30 0 (fun k =>
    let i := 30 - k in
    do! for_range 16 0 (fun j =>
      let! x := on_bus (reg_read_32 (u32 (recv_buffer + 4 * ((PNUM - i) * PSIZE + j)))) in
      do! to_port (printk buff bf hex_format 0 [x]); ret tt);
    do! to_port (printk buff bf line_format 0 []); ret tt).
Definition check_recv_block_queue : Net unit :=
  let! q := gets (fun s => q_head (queue (net_kernel s) recv_block_queue)) in
  match q with
  | None => ret tt
  | Some _ =>
      let! table := gets recv_desc_table_ptr in
      let! o := on_bus (still_owned table) in
      match o with
      | Some _ => ret tt
      | None => do! show_packets; in_kernel (do_unblock_one recv_block_queue)
      end
  end.

Definition irq_mac : Net unit :=
  do! on_bus clear_interrupt;
  in_kernel (do_unblock_one recv_block_queue).
(** [cp0_status] is what [get_cp0_status] reads. *)
Definition check_irq_mac (cp0_status : Z) : Net unit :=
  let ip := Z.land (Z.shiftr cp0_status 8) 0xff in
  if Z.land ip (Z.shiftl 1 3) =? 0 then ret tt
  else
    let! sr := on_bus (reg_read_32 INT1_SR) in
    if Z.land sr (Z.shiftl 1 3) =? 0 then ret tt else irq_mac.

(** The whole clock interrupt, with the check of the network queue between the
    counter and the scheduler.  A task that was interrupted in the kernel goes on;
    another task that gets the processor goes on where it gave it away. *)
Definition clock_interrupt : Net unit :=
  do! in_kernel (modify (fun s => s <| time_elapsed := u32 (time_elapsed s + 15) |>));
  do! check_recv_block_queue;
  let! cur := gets (fun s => current_running (net_kernel s)) in
  let! mode := in_kernel (load cur pcb_mode) in
  match mode with
  | KERNEL_MODE => ret tt
  | USER_MODE =>
      do! in_kernel (store cur (fun p => p <| pcb_mode := KERNEL_MODE |>));
      do! in_kernel (do_scheduler R_return);
      let! now := gets (fun s => current_running (net_kernel s)) in
      if decide (now = cur) then in_kernel (store now (fun p => p <| pcb_mode := USER_MODE |>)) else ret tt
  end.
End driver.

(** ** The device *)

(** Memory and registers by physical address, the descriptor at which the
    transmitter is, whether it is at work (and for how many more accesses to the
    bus), and the packets that were sent: place and length. *)
Record gview := mk_gview { v_ram : gmap Z Z; v_reg : gmap Z Z; v_cur : Z; v_busy : option nat; v_sent : list (Z * Z) }.
#[export] Instance gview_struct : Struct gview := fun v => mk_gview (v_ram v) (v_reg v) (v_cur v) (v_busy v) (v_sent v).

Definition in_ram (p : Z) : Prop := 0 <= p < 2 ^ 28.
(** Bit 25 ends the list, bit 24 says that the fourth word is the next one. *)
Definition next_desc (m : gmap Z Z) (list_addr d : Z) : Z :=
  let des1 := m !!! (d + 4) in
  if Z.testbit des1 25 then list_addr else if Z.testbit des1 24 then m !!! (d + 12) else d + DESC_SIZE.
Definition tx_complete (v : gview) : gview :=
  v <| v_ram := <[v_cur v := Z.clearbit (v_ram v !!! v_cur v) 31]> (v_ram v) |>
    <| v_sent := v_sent v ++ [(v_ram v !!! (v_cur v + 8), Z.land (v_ram v !!! (v_cur v + 4)) 0x7ff)] |>
    <| v_cur := next_desc (v_ram v) (v_reg v !!! PHYADDR (DMA_BASE_ADDR + DmaTxBaseAddr)) (v_cur v) |> <| v_busy := None |>.
Definition tick (v : gview) : gview :=
  match v_busy v with None => v | Some O => tx_complete v | Some (S n) => v <| v_busy := Some n |> end.
(** Enabled in the MAC, and started in the DMA engine. *)
Definition tx_on (v : gview) : bool :=
  Z.testbit (v_reg v !!! PHYADDR GMAC_BASE_ADDR) 3 && Z.testbit (v_reg v !!! PHYADDR (DMA_BASE_ADDR + DmaControl)) 13.
(** The registers that hold what is written. *)
Definition plain_regs : list Z := PHYADDR <$>
  [GMAC_BASE_ADDR; GMAC_BASE_ADDR + GmacAddr0High; GMAC_BASE_ADDR + GmacAddr0Low;
   DMA_BASE_ADDR + DmaControl; DMA_BASE_ADDR + DmaInterrupt; DMA_BASE_ADDR + DmaRxBaseAddr; INT1_EN].

(** What the manual of the device, quoted in mac.c, says: a demand makes the
    transmitter send the packet of its descriptor, if that is handed over; after
    some time the packet is out and the descriptor is handed back.  This is for
    the time in which no packet arrives ([quiet]). *)
Class Gmac (bus : Type) `{Bus bus} := {
  view : bus -> gview;
  quiet : bus -> Prop;
  quiet_load a b : quiet b -> quiet (snd (load_word a b));
  quiet_store a x b : quiet b -> quiet (store_word a x b);
  load_ram a b : quiet b -> in_ram (PHYADDR a) ->
    fst (load_word a b) = v_ram (tick (view b)) !!! PHYADDR a /\ view (snd (load_word a b)) = tick (view b);
  load_reg a b : quiet b -> v_busy (view b) = None -> PHYADDR a ∈ plain_regs ->
    fst (load_word a b) = v_reg (view b) !!! PHYADDR a /\ view (snd (load_word a b)) = view b;
  store_ram a x b : quiet b -> v_busy (view b) = None -> in_ram (PHYADDR a) ->
    view (store_word a x b) = (view b) <| v_ram := <[PHYADDR a := x]> (v_ram (view b)) |>;
  store_reg a x b : quiet b -> v_busy (view b) = None -> PHYADDR a ∈ plain_regs ->
    view (store_word a x b) = (view b) <| v_reg := <[PHYADDR a := x]> (v_reg (view b)) |>;
  store_list x b : quiet b -> v_busy (view b) = None ->
    view (store_word (DMA_BASE_ADDR + DmaTxBaseAddr) x b) =
    (view b) <| v_reg := <[PHYADDR (DMA_BASE_ADDR + DmaTxBaseAddr) := x]> (v_reg (view b)) |> <| v_cur := x |>;
  demand_tx x b : quiet b -> v_busy (view b) = None -> exists n,
    view (store_word (DMA_BASE_ADDR + DmaTxPollDemand) x b) =
    (view b) <| v_busy := if tx_on (view b) && Z.testbit (v_ram (view b) !!! v_cur (view b)) 31 then Some n else None |>;
  demand_rx x b : quiet b -> v_busy (view b) = None -> view (store_word (DMA_BASE_ADDR + DmaRxPollDemand) x b) = view b
}.

(** A device that follows these rules and needs two accesses for a packet. *)
#[export] Instance gview_bus : Bus gview := {|
  load_word a v := let v := tick v in
    (if PHYADDR a <? 2 ^ 28 then v_ram v !!! PHYADDR a else v_reg v !!! PHYADDR a, v);
  store_word a x v :=
    if PHYADDR a <? 2 ^ 28 then v <| v_ram := <[PHYADDR a := x]> (v_ram v) |>
    else if PHYADDR a =? PHYADDR (DMA_BASE_ADDR + DmaTxBaseAddr) then
      v <| v_reg := <[PHYADDR (DMA_BASE_ADDR + DmaTxBaseAddr) := x]> (v_reg v) |> <| v_cur := x |>
    else if PHYADDR a =? PHYADDR (DMA_BASE_ADDR + DmaTxPollDemand) then
      v <| v_busy := if tx_on v && Z.testbit (v_ram v !!! v_cur v) 31 then Some 2%nat else None |>
    else if PHYADDR a =? PHYADDR (DMA_BASE_ADDR + DmaRxPollDemand) then v
    else v <| v_reg := <[PHYADDR a := x]> (v_reg v) |>
|}.

Lemma tick_idle v : v_busy v = None -> tick v = v.
Proof. unfold tick. by intros ->. Qed.
Lemma plain_reg_range p : p ∈ plain_regs -> (p <? 2 ^ 28) = false /\ (p =? PHYADDR (DMA_BASE_ADDR + DmaTxBaseAddr)) = false
  /\ (p =? PHYADDR (DMA_BASE_ADDR + DmaTxPollDemand)) = false /\ (p =? PHYADDR (DMA_BASE_ADDR + DmaRxPollDemand)) = false.
Proof. intros Hp. unfold plain_regs in Hp. apply list_elem_of_fmap in Hp as (a & -> & Ha). repeat (apply elem_of_cons in Ha as [->|Ha]; [split_and!; vm_compute; reflexivity|]). by apply not_elem_of_nil in Ha. Qed.
#[export] Program Instance gview_gmac : Gmac gview := {| view v := v; quiet _ := True |}.
Next Obligation. done. Qed.
Next Obligation. done. Qed.
Next Obligation. intros a v _ Ha. cbn. rewrite (proj2 (Z.ltb_lt _ _)) by apply Ha. done. Qed.
Next Obligation. intros a v _ Hi Ha. cbn. rewrite tick_idle, (proj1 (plain_reg_range _ Ha)) by done. done. Qed.
Next Obligation. intros a x v _ Hi Ha. cbn. rewrite (proj2 (Z.ltb_lt _ _)) by apply Ha. done. Qed.
Next Obligation. intros a x v _ Hi Ha. cbn. destruct (plain_reg_range _ Ha) as (-> & -> & -> & ->). done. Qed.
Next Obligation. intros x v _ Hi. reflexivity. Qed.
Next Obligation. intros x v _ Hi. exists 2%nat. reflexivity. Qed.
Next Obligation. intros x v _ Hi. reflexivity. Qed.

(** ** Loads and stores *)

Lemma PHYADDR_mod x : PHYADDR x = x mod 2 ^ 29.
Proof. unfold PHYADDR. change 0x1fffffff with (Z.ones 29). by rewrite Z.land_ones. Qed.
Lemma u32_mod x : u32 x = x mod 2 ^ 32.
Proof. unfold u32. try reflexivity. Qed.
(** Physical addresses go up with the virtual ones. *)
Lemma PHYADDR_add a k : 0 <= k -> PHYADDR a + k < 2 ^ 29 -> PHYADDR (u32 (a + k)) = PHYADDR a + k.
Proof.
  rewrite !PHYADDR_mod, u32_mod. intros Hk Hr. rewrite Z.mod_mod_divide by by exists 8.
  rewrite <-Zplus_mod_idemp_l. apply Z.mod_small. pose proof (Z.mod_pos_bound a (2 ^ 29)). lia.
Qed.
Lemma PHYADDR_pos a : 0 <= PHYADDR a.
Proof. rewrite PHYADDR_mod. by apply Z.mod_pos_bound. Qed.
Lemma PHYADDR_u32_add a j k : 0 <= j -> 0 <= k -> PHYADDR a + j + k < 2 ^ 29 -> PHYADDR (u32 (u32 (a + j) + k)) = PHYADDR a + j + k.
Proof. intros Hj Hk Hr. pose proof (PHYADDR_pos a). rewrite PHYADDR_add; rewrite ?PHYADDR_add; lia. Qed.

Section rules.
Context {bus : Type} `{Gmac bus}.

(** The device is at [v], and no packet arrives. *)
Definition at_view (b : bus) (v : gview) : Prop := quiet b /\ view b = v.

Lemma wp_read_ram a b v Q : at_view b v -> in_ram (PHYADDR a) ->
  (forall b', at_view b' (tick v) -> Q (v_ram (tick v) !!! PHYADDR a) b') -> wp (reg_read_32 a) b Q.
Proof.
  intros [Hq Hv] Ha HQ. destruct (load_ram a b Hq Ha) as [E1 E2]. pose proof (quiet_load a b Hq) as Hq'. rewrite Hv in E1, E2.
  eexists _, _. unfold reg_read_32. rewrite (surjective_pairing (load_word a b)). split; [done|]. rewrite E1. by apply HQ.
Qed.
Lemma wp_read_reg a b v Q : at_view b v -> v_busy v = None -> PHYADDR a ∈ plain_regs ->
  (forall b', at_view b' v -> Q (v_reg v !!! PHYADDR a) b') -> wp (reg_read_32 a) b Q.
Proof.
  intros [Hq Hv] Hi Ha HQ. subst v. destruct (load_reg a b Hq Hi Ha) as [E1 E2]. pose proof (quiet_load a b Hq) as Hq'.
  eexists _, _. unfold reg_read_32. rewrite (surjective_pairing (load_word a b)). split; [done|]. rewrite E1. by apply HQ.
Qed.
Lemma wp_write_ram a x b v Q : at_view b v -> v_busy v = None -> in_ram (PHYADDR a) ->
  (forall b', at_view b' (v <| v_ram := <[PHYADDR a := x]> (v_ram v) |>) -> Q tt b') -> wp (reg_write_32 a x) b Q.
Proof.
  intros [Hq Hv] Hi Ha HQ. apply wp_modify, HQ. subst v. split; [by apply quiet_store|by apply store_ram].
Qed.
Lemma wp_write_reg a x b v Q : at_view b v -> v_busy v = None -> PHYADDR a ∈ plain_regs ->
  (forall b', at_view b' (v <| v_reg := <[PHYADDR a := x]> (v_reg v) |>) -> Q tt b') -> wp (reg_write_32 a x) b Q.
Proof.
  intros [Hq Hv] Hi Ha HQ. apply wp_modify, HQ. subst v. split; [by apply quiet_store|by apply store_reg].
Qed.
Lemma wp_reg_set a bits b v Q : at_view b v -> v_busy v = None -> PHYADDR a ∈ plain_regs ->
  (forall b', at_view b' (v <| v_reg := <[PHYADDR a := Z.lor (v_reg v !!! PHYADDR a) bits]> (v_reg v) |>) -> Q tt b') ->
  wp (reg_set a bits) b Q.
Proof.
  intros Hv Hi Ha HQ. unfold reg_set. apply wp_bind. eapply wp_read_reg; [done..|]. intros b1 H1. by eapply wp_write_reg.
Qed.

(** *** Descriptors *)

Definition desc_at (m : gmap Z Z) (p : Z) (d : desc_t) : Prop :=
  m !!! p = des0 d /\ m !!! (p + 4) = des1 d /\ m !!! (p + 8) = des2 d /\ m !!! (p + 12) = des3 d.
(** Memory changed only in [lo, hi). *)
Definition changed (lo hi : Z) (m m' : gmap Z Z) : Prop := forall p, (p < lo \/ hi <= p) -> m' !!! p = m !!! p.

Lemma total_insert_eq (m : gmap Z Z) p x : <[p := x]> m !!! p = x.
Proof. apply lookup_total_insert_eq. Qed.
Lemma total_insert_ne (m : gmap Z Z) p q x : q <> p -> <[p := x]> m !!! q = m !!! q.
Proof. intros. by apply lookup_total_insert_ne. Qed.

Lemma wp_put_desc a d b v Q :
  at_view b v -> v_busy v = None -> PHYADDR a + 16 <= 2 ^ 28 ->
  (forall b' m, at_view b' (v <| v_ram := m |>) -> desc_at m (PHYADDR a) d -> changed (PHYADDR a) (PHYADDR a + 16) (v_ram v) m -> Q tt b') ->
  wp (put_desc a d) b Q.
Proof.
  intros Hv Hi Hr HQ. pose proof (PHYADDR_pos a) as Hp. unfold put_desc, in_ram in *.
  assert (forall k, 0 <= k < 16 -> PHYADDR (u32 (a + k)) = PHYADDR a + k) as Ek by (intros k Hk; apply PHYADDR_add; lia).
  apply wp_bind. eapply wp_write_ram; [done..|unfold in_ram; lia|]. intros b1 H1.
  apply wp_bind. eapply wp_write_ram; [done..|unfold in_ram; rewrite Ek; lia|]. intros b2 H2.
  apply wp_bind. eapply wp_write_ram; [done..|unfold in_ram; rewrite Ek; lia|]. intros b3 H3.
  eapply wp_write_ram; [done..|unfold in_ram; rewrite Ek; lia|]. intros b4 H4. rewrite !Ek in H4 by lia.
  eapply (HQ b4); [exact H4|..]; cbn [v_ram put].
  - unfold desc_at. split_and!; repeat (rewrite total_insert_ne by lia); by rewrite total_insert_eq.
  - intros p Hout. by repeat (rewrite total_insert_ne by lia).
Qed.

Lemma desc_at_frame lo hi m m' p d : changed lo hi m m' -> (p + 16 <= lo \/ hi <= p) -> desc_at m p d -> desc_at m' p d.
Proof. intros Hc Hp Hd. unfold desc_at in *. rewrite !Hc by lia. done. Qed.
Lemma changed_trans lo hi lo' hi' m m' m'' : changed lo hi m m' -> changed lo' hi' m' m'' -> changed (Z.min lo lo') (Z.max hi hi') m m''.
Proof. intros H1 H2 p Hp. rewrite H2, H1 by lia. done. Qed.
Lemma changed_weaken lo hi lo' hi' m m' : changed lo hi m m' -> lo' <= lo -> hi <= hi' -> changed lo' hi' m m'.
Proof. intros Hc H1 H2 p Hp. apply Hc. lia. Qed.

Section ring.
Context (td n : Z) (d : Z -> Z -> desc_t).
Hypothesis Hn : 1 <= n < 2 ^ 31.
Hypothesis Hr : PHYADDR td + 16 * n <= 2 ^ 28.

Lemma entry_PHYADDR k : 0 <= k < n -> PHYADDR (u32 (td + 16 * k)) = PHYADDR td + 16 * k.
Proof. intros Hk. apply PHYADDR_add; lia. Qed.
Lemma next_entry k : u32 (u32 (td + 16 * k) + DESC_SIZE) = u32 (td + 16 * (k + 1)).
Proof. rewrite !u32_mod. rewrite Zplus_mod_idemp_l. unfold DESC_SIZE. f_equal. lia. Qed.

Lemma wp_desc_loop fuel j addr b v m0 m (Q : Z * Z -> bus -> Prop) :
  0 <= j < n -> n - j <= Z.of_nat fuel -> addr = u32 (td + 16 * j) -> at_view b (v <| v_ram := m |>) -> v_busy v = None ->
  (forall k, 0 <= k < j -> desc_at m (PHYADDR td + 16 * k) (d (k + 1) (u32 (td + 16 * k)))) ->
  changed (PHYADDR td) (PHYADDR td + 16 * n) m0 m ->
  (forall b' m', at_view b' (v <| v_ram := m' |>) ->
     (forall k, 0 <= k < n - 1 -> desc_at m' (PHYADDR td + 16 * k) (d (k + 1) (u32 (td + 16 * k)))) ->
     changed (PHYADDR td) (PHYADDR td + 16 * n) m0 m' -> Q (n, u32 (td + 16 * (n - 1))) b') ->
  wp (desc_loop fuel n j addr d) b Q.
Proof.
  revert j addr b m. induction fuel as [|fuel IH]; intros j addr b m Hj Hf -> Hv Hi Hd Hc HQ; [lia|].
  cbn [desc_loop]. rewrite i32_small, u32_id by (unfold is_word; lia). destruct (Z.ltb_spec (j + 1) n) as [Hlt|Hge].
  - apply wp_bind. eapply wp_put_desc; [exact Hv|done|rewrite entry_PHYADDR; lia|]. cbn [v_ram put].
    rewrite entry_PHYADDR by lia. intros b1 m1 H1 Hd1 Hc1. apply (IH (j + 1) _ b1 m1); [lia|lia|apply next_entry|exact H1|done| |eapply changed_weaken; [by eapply changed_trans|lia|lia]|done].
    intros k Hk. destruct (decide (k = j)) as [->|Hne]; [done|]. eapply desc_at_frame; [done|lia|apply Hd; lia].
  - apply wp_ret. replace (j + 1) with n by lia. replace j with (n - 1) by lia. apply (HQ _ m); [done| |done].
    intros k Hk. apply Hd. lia.
Qed.

(** The whole initialisation: the ordinary descriptors, and the last one. *)
Lemma wp_init_ring fuel last b v (Q : Z -> bus -> Prop) :
  n <= Z.of_nat fuel -> is_word td -> at_view b v -> v_busy v = None ->
  (forall b' m, at_view b' (v <| v_ram := m |>) ->
     (forall k, 0 <= k < n - 1 -> desc_at m (PHYADDR td + 16 * k) (d (k + 1) (u32 (td + 16 * k)))) ->
     desc_at m (PHYADDR td + 16 * (n - 1)) (last n) ->
     changed (PHYADDR td) (PHYADDR td + 16 * n) (v_ram v) m -> Q td b') ->
  wp (let! r := desc_loop fuel n 0 td d in do! put_desc (snd r) (last (fst r)); ret td) b Q.
Proof.
  intros Hf Hw Hv Hi HQ. apply wp_bind.
  eapply (wp_desc_loop fuel 0 td b v (v_ram v) (v_ram v)); [lia|lia|by rewrite Z.add_0_r, u32_id|by destruct v|done|intros k; lia|by intros p _|].
  intros b1 m1 H1 Hd1 Hc1. cbn [fst snd]. apply wp_bind. eapply wp_put_desc; [exact H1|done|rewrite entry_PHYADDR; lia|]. cbn [v_ram put].
  rewrite entry_PHYADDR by lia. intros b2 m2 H2 Hd2 Hc2. apply wp_ret, (HQ _ m2); [exact H2| |done|].
  - intros k Hk. eapply desc_at_frame; [done|lia|by apply Hd1].
  - eapply changed_weaken; [by eapply changed_trans|lia|lia].
Qed.
End ring.

Lemma flags_bit F s i : 11 <= i < 32 -> Z.testbit (u32 (Z.lor F (Z.land s 0x7ff))) i = Z.testbit F i.
Proof.
  intros Hi. rewrite u32_mod, Z.mod_pow2_bits_low, Z.lor_spec, Z.land_spec by lia. change 0x7ff with (Z.ones 11).
  rewrite Z.ones_spec_high by lia. by rewrite andb_false_r, orb_false_r.
Qed.
Lemma flags_length F s : Z.land F 0x7ff = 0 -> Z.land (u32 (Z.lor F (Z.land s 0x7ff))) 0x7ff = Z.land s 0x7ff.
Proof.
  intros HF. change 0x7ff with (Z.ones 11) in *. apply Z.bits_inj'. intros i Hi. rewrite !Z.land_spec.
  destruct (Z.ltb_spec i 11) as [Hlt|Hge].
  - rewrite u32_mod, Z.mod_pow2_bits_low, Z.lor_spec, Z.land_spec, Z.ones_spec_low, !andb_true_r by lia.
    assert (Z.testbit (Z.land F (Z.ones 11)) i = false) as HFi by (rewrite HF; apply Z.bits_0).
    rewrite Z.land_spec, Z.ones_spec_low, andb_true_r in HFi by lia. by rewrite HFi.
  - by rewrite Z.ones_spec_high, !andb_false_r by lia.
Qed.

(** [do_recv_desc_init] makes a ring of [pnum] descriptors: each one is with
    the driver, says where its own part of the buffer is (the parts follow each
    other) and how long it is, and the way of the device from one descriptor to
    the next goes through all of them and from the last one back to the first.
    Nothing else in memory changes. *)
Theorem recv_ring_correct b v desc buffer bufsize pnum :
  at_view b v -> v_busy v = None -> is_word desc -> 1 <= pnum < 2 ^ 31 -> 0 <= bufsize < 2 ^ 11 ->
  PHYADDR desc + 16 * pnum <= 2 ^ 28 -> PHYADDR buffer + bufsize * pnum <= 2 ^ 28 ->
  exists b' m, do_recv_desc_init desc buffer bufsize pnum b = Ok (desc, b') /\ at_view b' (v <| v_ram := m |>)
    /\ changed (PHYADDR desc) (PHYADDR desc + 16 * pnum) (v_ram v) m
    /\ forall k, 0 <= k < pnum -> let p := PHYADDR desc + 16 * k in
       m !!! p = 0 /\ Z.land (m !!! (p + 4)) 0x7ff = bufsize /\ m !!! (p + 8) = PHYADDR buffer + k * bufsize
       /\ next_desc m (PHYADDR desc) p = PHYADDR desc + 16 * ((k + 1) mod pnum).
Proof.
  intros Hv Hi Hw Hn Hs Hr Hb.
  assert (forall k, 0 <= k < pnum -> PHYADDR (u32 (buffer + u32 ((k + 1 - 1) * bufsize))) = PHYADDR buffer + k * bufsize) as Ebuf.
  { intros k Hk. replace (k + 1 - 1) with k by lia. rewrite (u32_id (k * bufsize)) by (unfold is_word; pose proof (PHYADDR_pos buffer); nia).
    apply PHYADDR_add; [nia|]. nia. }
  assert (Z.land bufsize 0x7ff = bufsize) as Elen by (change 0x7ff with (Z.ones 11); rewrite Z.land_ones by lia; by apply Z.mod_small).
  destruct (wp_init_ring desc pnum (fun cnt addr => recv_desc buffer bufsize cnt (Z.lor (Z.shiftl 1 24) (Z.shiftl 1 31)) (u32 (addr + DESC_SIZE)))
    Hn Hr (S (Z.to_nat pnum)) (fun cnt => recv_desc buffer bufsize cnt (Z.shiftl 1 25) desc) b v
    (fun r b' => r = desc /\ exists m, at_view b' (v <| v_ram := m |>) /\ changed (PHYADDR desc) (PHYADDR desc + 16 * pnum) (v_ram v) m
      /\ (forall k, 0 <= k < pnum - 1 -> desc_at m (PHYADDR desc + 16 * k) (recv_desc buffer bufsize (k + 1) (Z.lor (Z.shiftl 1 24) (Z.shiftl 1 31)) (u32 (u32 (desc + 16 * k) + DESC_SIZE))))
      /\ desc_at m (PHYADDR desc + 16 * (pnum - 1)) (recv_desc buffer bufsize pnum (Z.shiftl 1 25) desc)))
    as (r & b' & E & -> & m & Hv' & Hc & Hd & Hl); [lia|done|done|done|by intros; eauto 10|].
  exists b', m. split_and!; try done. intros k Hk p.
  destruct (decide (k < pnum - 1)) as [Hlt|Hge].
  - destruct (Hd k) as (H0' & H1' & H2' & H3'); [lia|]. cbn [recv_desc des0 des1 des2 des3] in *. fold p in H0', H1', H2', H3'.
    split_and!; [done|by rewrite H1', flags_length|by rewrite H2', Ebuf|]. unfold next_desc. rewrite H1', !flags_bit by lia. cbn [Z.testbit].
    rewrite H3', next_entry, Z.mod_small by lia. apply (entry_PHYADDR desc pnum Hr); lia.
  - assert (k = pnum - 1) as Ek by lia. rewrite <-Ek in Hl. destruct Hl as (H0' & H1' & H2' & H3'). cbn [recv_desc des0 des1 des2 des3] in *.
    fold p in H0', H1', H2', H3'. replace pnum with (k + 1) in H2' by lia.
    split_and!; [done|by rewrite H1', flags_length|by rewrite H2', Ebuf|]. unfold next_desc. rewrite H1', flags_bit by lia.
    change (Z.testbit (Z.shiftl 1 25) 25) with true. cbv iota. replace (k + 1) with pnum by lia. rewrite Z.mod_same by lia. lia.
Qed.

(** *** Handing over descriptors *)

(** The first words of [n] descriptors are set, and nothing else. *)
Definition handed_over (n table : Z) (m m' : gmap Z Z) : Prop :=
  (forall k, 0 <= k < n -> m' !!! (PHYADDR table + 16 * k) = OWN)
  /\ forall p, (forall k, 0 <= k < n -> p <> PHYADDR table + 16 * k) -> m' !!! p = m !!! p.

Lemma PHYADDR_entry table l n : 0 <= l < n -> PHYADDR table + 16 * n <= 2 ^ 28 -> PHYADDR (u32 (table + l * DESC_SIZE)) = PHYADDR table + 16 * l.
Proof. intros Hl Hr. replace (l * DESC_SIZE) with (16 * l) by (unfold DESC_SIZE; lia). apply PHYADDR_add; lia. Qed.

Lemma wp_own_all n table b v (Q : unit -> bus -> Prop) :
  at_view b v -> v_busy v = None -> 0 <= n -> PHYADDR table + 16 * n <= 2 ^ 28 ->
  (forall b' m, at_view b' (v <| v_ram := m |>) -> handed_over n table (v_ram v) m -> Q tt b') ->
  wp (own_all n table) b Q.
Proof.
  intros Hv Hi Hn Hr HQ. unfold own_all. pose proof (PHYADDR_pos table) as Hpos.
  apply (wp_for_range (fun l b => exists m, at_view b (v <| v_ram := m |>) /\ handed_over l table (v_ram v) m)).
  - exists (v_ram v). split; [by destruct v|]. split; [intros k; lia|done].
  - intros l b1 Hl (m & Hv1 & Ho & Hm). rewrite Z2Nat.id in Hl by lia. pose proof (PHYADDR_entry table l n ltac:(lia) Hr) as El.
    eapply wp_write_ram; [exact Hv1|done|unfold in_ram; lia|]. rewrite El. cbn [v_ram put]. intros b2 Hv2.
    exists (<[PHYADDR table + 16 * l := OWN]> m). split; [exact Hv2|]. split.
    + intros k Hk. destruct (decide (k = l)) as [->|Hne]; [by rewrite total_insert_eq|]. rewrite total_insert_ne by lia. apply Ho. lia.
    + intros p Hp. rewrite total_insert_ne by (apply Hp; lia). apply Hm. intros k Hk. apply Hp. lia.
  - rewrite Z.add_0_l, Z2Nat.id by lia. intros b1 (m & Hv1 & Hs1). by apply (HQ b1 m).
Qed.

(** *** Sending *)

(** The ring of 64 descriptors for the same packet; the first [l] were sent. *)
Definition send_state (td buf size : Z) (m0 : gmap Z Z) (sent0 : list (Z * Z)) (own l : Z) (v : gview) : Prop :=
  v_busy v = None /\ changed (PHYADDR td) (PHYADDR td + 16 * 64) m0 (v_ram v)
  /\ v_sent v = sent0 ++ replicate (Z.to_nat l) (PHYADDR buf, size)
  /\ forall k, 0 <= k < 64 -> let p := PHYADDR td + 16 * k in
     v_ram v !!! p = (if decide (l <= k < own) then OWN else 0) /\ Z.land (v_ram v !!! (p + 4)) 0x7ff = size
     /\ v_ram v !!! (p + 8) = PHYADDR buf /\ next_desc (v_ram v) (PHYADDR td) p = PHYADDR td + 16 * ((k + 1) mod 64).
Definition transmitting (td l : Z) (v : gview) : Prop :=
  tx_on v = true /\ v_reg v !!! PHYADDR (DMA_BASE_ADDR + DmaTxBaseAddr) = PHYADDR td /\ v_cur v = PHYADDR td + 16 * (l mod 64).

Lemma wp_send_init td buf size b v (Q : Z -> bus -> Prop) :
  at_view b v -> v_busy v = None -> is_word td -> 0 <= size < 2 ^ 11 -> PHYADDR td + 16 * 64 <= 2 ^ 28 ->
  (forall b' m, at_view b' (v <| v_ram := m |>) -> send_state td buf size (v_ram v) (v_sent v) 0 0 (v <| v_ram := m |>) -> Q td b') ->
  wp (do_send_desc_init td buf size 64) b Q.
Proof.
  intros Hv Hi Hw Hs Hr HQ. 
  apply (wp_init_ring td 64 (fun cnt addr =>
      send_desc buf size (Z.lor (Z.lor (Z.shiftl 1 30) (Z.shiftl 1 29)) (Z.shiftl 1 24)) (u32 (addr + DESC_SIZE)))
    ltac:(lia) Hr 65 (fun cnt => send_desc buf size
      (Z.lor (Z.lor (Z.lor (Z.shiftl 1 30) (Z.shiftl 1 29)) (Z.shiftl 1 25)) (Z.shiftl 1 24)) td) b v); [lia|done|done|done|].
  intros b' m Hv' Hd Hl Hc. apply (HQ b' m Hv'). unfold send_state. cbn [v_busy v_ram v_sent put].
  split; [done|split; [done|split; [symmetry; apply app_nil_r|]]].
  assert (Z.land size 0x7ff = size) as Elen by (change 0x7ff with (Z.ones 11); rewrite Z.land_ones by lia; by apply Z.mod_small).
  intros k Hk. set (p := PHYADDR td + 16 * k). rewrite decide_False by lia. destruct (decide (k < 64 - 1)) as [Hlt|Hge].
  - destruct (Hd k) as (H0' & H1' & H2' & H3'); [lia|]. cbn [send_desc des0 des1 des2 des3] in *. fold p in H0', H1', H2', H3'.
    split_and!; [done|by rewrite H1', flags_length|done|]. unfold next_desc. rewrite H1', !flags_bit by lia. cbn [Z.testbit].
    rewrite H3', next_entry, Z.mod_small by lia. apply (entry_PHYADDR td 64 Hr); lia.
  - assert (k = 64 - 1) as Ek by lia. rewrite <-Ek in Hl. destruct Hl as (H0' & H1' & H2' & H3'). cbn [send_desc des0 des1 des2 des3] in *.
    fold p in H0', H1', H2', H3'. split_and!; [done|by rewrite H1', flags_length|done|]. unfold next_desc. rewrite H1', flags_bit by lia.
    match goal with |- (if ?c then _ else _) = _ => change c with true end. cbv iota. rewrite Ek. change ((64 - 1 + 1) mod 64) with 0. lia.
Qed.

Lemma send_state_own td buf size m0 sent0 v m :
  send_state td buf size m0 sent0 0 0 v -> handed_over 64 td (v_ram v) m -> send_state td buf size m0 sent0 64 0 (v <| v_ram := m |>).
Proof.
  intros (Hi & Hc & Hsent & Hk) [Ho Hm]. unfold send_state. cbn [v_busy v_ram v_sent put]. split; [done|split; [|split; [done|]]].
  - intros p Hp. rewrite Hm by lia. by apply Hc.
  - intros k Hkr. destruct (Hk k Hkr) as (_ & H1' & H2' & H3'). unfold next_desc in *. rewrite Ho, decide_True, !Hm by lia. done.
Qed.

Lemma tx_complete_busy v x : tx_complete (v <| v_busy := x |>) = tx_complete v.
Proof. by destruct v. Qed.
(** The driver sees the descriptor handed back after finitely many looks. *)
Lemma poll_ends n b v a :
  at_view b v -> v_busy v = Some n -> v_cur v = PHYADDR a -> in_ram (PHYADDR a) -> v_ram v !!! PHYADDR a = OWN ->
  exists b', at_view b' (tx_complete v) /\ forall fuel, (n < fuel)%nat -> poll_loop fuel a b = Ok (tt, b').
Proof.
  revert b v. induction n as [|n IH]; intros b v Hv Hb Hc Ha Ho.
  - destruct (wp_read_ram a b v (fun x b' => x = 0 /\ at_view b' (tx_complete v))) as (x & b' & E & -> & Hv'); [done|done|..].
    { intros b' Hb'. unfold tick in *. rewrite Hb in *. split; [|done]. cbn [tx_complete v_ram put]. by rewrite Hc, total_insert_eq, Ho. }
    exists b'. split; [done|]. intros [|fuel] Hf; [lia|]. cbn [poll_loop]. unfold bind, get_des0. by rewrite E.
  - destruct (wp_read_ram a b v (fun x b' => x = OWN /\ at_view b' (v <| v_busy := Some n |>))) as (x & b1 & E & -> & Hv1); [done|done|..].
    { intros b' Hb'. unfold tick in *. rewrite Hb in *. by split. }
    destruct (IH b1 _ Hv1) as (b' & Hv' & Hp); [done..|]. rewrite tx_complete_busy in Hv'. exists b'. split; [done|].
    intros [|fuel] Hf; [lia|]. cbn [poll_loop]. unfold bind, get_des0. rewrite E. apply Hp. lia.
Qed.

Section send.
Context (td buf size : Z) (m0 : gmap Z Z) (sent0 : list (Z * Z)).
Hypothesis Hr : PHYADDR td + 16 * 64 <= 2 ^ 28.

Lemma complete_next l v : 0 <= l < 64 -> send_state td buf size m0 sent0 64 l v -> transmitting td l v ->
  send_state td buf size m0 sent0 64 (l + 1) (tx_complete v) /\ transmitting td (l + 1) (tx_complete v).
Proof.
  intros Hl (Hi & Hc & Hs & Hk) (Hon & Hbase & Hcur). rewrite Z.mod_small in Hcur by lia.
  pose proof (Hk l Hl) as (Ho & Hlen & Hbuf & Hnext). rewrite decide_True in Ho by lia.
  unfold send_state, transmitting, tx_complete, tx_on. cbn [v_busy v_ram v_sent v_reg v_cur put]. rewrite Hcur, Ho, Hlen, Hbuf, Hbase.
  split; [|split; [exact Hon|split; [done|exact Hnext]]]. split; [done|]. split; [|split].
  - intros p Hp. rewrite total_insert_ne by lia. by apply Hc.
  - rewrite Hs, <-app_assoc. replace (Z.to_nat (l + 1)) with (S (Z.to_nat l)) by lia. by rewrite replicate_S_end.
  - intros k Hkr. destruct (Hk k Hkr) as (H0' & H1' & H2' & H3'). unfold next_desc in *.
    rewrite !(total_insert_ne _ _ (PHYADDR td + 16 * k + _)) by lia. split; [|done].
    destruct (decide (k = l)) as [->|Hne]; [rewrite total_insert_eq; by rewrite decide_False by lia|].
    rewrite total_insert_ne, H0' by lia. repeat case_decide; try lia; done.
Qed.

Lemma send_loop n : forall l b v, l + Z.of_nat n = 64 -> 0 <= l ->
  at_view b v -> send_state td buf size m0 sent0 64 l v -> transmitting td l v ->
  exists N b' v', at_view b' v' /\ send_state td buf size m0 sent0 64 64 v'
    /\ forall fuel, (N <= fuel)%nat -> for_range n l (fun l =>
         do! reg_write_32 (u32 (DMA_BASE_ADDR + DmaTxPollDemand)) 1; poll_loop fuel (u32 (td + l * DESC_SIZE))) b = Ok (tt, b').
Proof.
  induction n as [|n IH]; intros l b v Hln Hl Hv Hs Ht.
  - assert (l = 64) as -> by lia. exists 0%nat, b, v. by split_and!.
  - pose proof Hv as [Hq Ev]. pose proof Hs as (Hi & _ & _ & Hk). pose proof Ht as (Hon & _ & Hcur). rewrite Z.mod_small in Hcur by lia.
    destruct (Hk l) as (Ho & _); [lia|]. rewrite decide_True in Ho by lia. pose proof (PHYADDR_pos td) as Hpos.
    destruct (demand_tx 1 b Hq) as (w & Ew); [by rewrite Ev|]. rewrite Ev, Hon, Hcur, Ho in Ew. cbn [andb] in Ew.
    change (Z.testbit OWN 31) with true in Ew. cbv iota in Ew.
    assert (PHYADDR (u32 (td + l * DESC_SIZE)) = PHYADDR td + 16 * l) as El.
    { apply (PHYADDR_entry td l 64); [lia|done]. }
    destruct (poll_ends w (store_word (DMA_BASE_ADDR + DmaTxPollDemand) 1 b) (v <| v_busy := Some w |>) (u32 (td + l * DESC_SIZE)))
      as (b1 & Hv1 & Hp1); [split; [by apply quiet_store|done]|done|by rewrite El|unfold in_ram; rewrite El; lia|by rewrite El|].
    rewrite tx_complete_busy in Hv1. destruct (complete_next l v) as [Hs1 Ht1]; [lia|done|done|].
    destruct (IH (l + 1) b1 _ ltac:(lia) ltac:(lia) Hv1 Hs1 Ht1) as (N & b' & v' & Hv' & Hs' & Hrun).
    exists (N `max` S w)%nat, b', v'. split; [done|]. split; [done|]. intros fuel Hf. cbn [for_range].
    unfold bind at 1 2. unfold reg_write_32 at 1, modify at 1. change (u32 (DMA_BASE_ADDR + DmaTxPollDemand)) with (DMA_BASE_ADDR + DmaTxPollDemand).
    rewrite Hp1 by lia. apply Hrun. lia.
Qed.
End send.

(** The calls before the loop hand over all descriptors and start the transmitter
    at the first one. *)
Definition send_start (td td_phy : Z) : M bus unit :=
  do! reg_write_32 (u32 (DMA_BASE_ADDR + 0x10)) td_phy;
  do! reg_set GMAC_BASE_ADDR (Z.lor (Z.shiftl 1 2) (Z.shiftl 1 3));
  do! reg_set (u32 (DMA_BASE_ADDR + 0x18)) 0x02202000;
  do! reg_write_32 (u32 (DMA_BASE_ADDR + 0x1c)) (Z.lor 0x10001 (Z.shiftl 1 6));
  own_all 64 td.
Lemma do_net_send_start fuel td td_phy b b1 : send_start td td_phy b = Ok (tt, b1) ->
  do_net_send fuel td td_phy b = for_range 64 0 (fun l =>
    do! reg_write_32 (u32 (DMA_BASE_ADDR + DmaTxPollDemand)) 1; poll_loop fuel (u32 (td + l * DESC_SIZE))) b1.
Proof.
  intros E. unfold send_start in E. do 4 (apply bind_Ok_inv in E as ([] & ? & ? & E)). unfold do_net_send.
  do 5 (erewrite bind_Ok by eassumption). done.
Qed.
Lemma wp_send_start td buf size m0 sent0 b v :
  at_view b v -> send_state td buf size m0 sent0 0 0 v -> PHYADDR td + 16 * 64 <= 2 ^ 28 ->
  wp (send_start td (PHYADDR td)) b (fun _ b' => exists v', at_view b' v' /\ send_state td buf size m0 sent0 64 0 v' /\ transmitting td 0 v').
Proof.
  intros Hv Hs Hr. pose proof Hv as [Hq Ev]. pose proof Hs as (Hi & _). unfold send_start. apply wp_bind, wp_modify.
  apply wp_bind. eapply (wp_reg_set GMAC_BASE_ADDR);
    [split; [by apply quiet_store|rewrite store_list, Ev; [reflexivity|done|by rewrite Ev]]|done|by left|].
  intros b2 H2. apply wp_bind. eapply wp_reg_set; [exact H2|done|unfold plain_regs; set_solver|]. intros b3 H3.
  apply wp_bind. eapply wp_write_reg; [exact H3|done|unfold plain_regs; set_solver|]. intros b4 H4.
  eapply wp_own_all; [exact H4|exact Hi|lia|done|]. intros b5 m5 H5 Ho5. eexists. split; [exact H5|].
  split; [by apply (send_state_own td buf size m0 sent0 v m5 Hs)|].
  unfold transmitting, tx_on. cbn [v_reg v_cur put]. change (PHYADDR GMAC_BASE_ADDR) with 0x1fe10000.
  change (PHYADDR (DMA_BASE_ADDR + DmaControl)) with 0x1fe11018. change (PHYADDR (u32 (DMA_BASE_ADDR + 24))) with 0x1fe11018.
  change (PHYADDR (u32 (DMA_BASE_ADDR + 28))) with 0x1fe1101c. change (PHYADDR (DMA_BASE_ADDR + DmaTxBaseAddr)) with 0x1fe11010.
  repeat first [rewrite total_insert_eq|rewrite total_insert_ne by lia]. rewrite !Z.lor_spec, !orb_true_r.
  split; [done|split; [done|]]. rewrite Z.mod_0_l by lia. lia.
Qed.

(** C31: Sending always ends, and sends everything: when the transmitter is idle at
    the start and while no packet arrives, on a ring that [do_send_desc_init] has
    made for a packet of less than 2048 bytes in the first 256 MB of memory,
    [do_net_send] returns after finitely many looks at the descriptors however long
    the device takes for each packet; the packet was sent 64 times, all descriptors
    are back with the driver, and nothing else in memory has changed. *)
Theorem net_send_correct b v td buf size :
  at_view b v -> v_busy v = None -> is_word td -> 0 <= size < 2 ^ 11 -> PHYADDR td + 16 * 64 <= 2 ^ 28 ->
  exists N b' v', at_view b' v'
    /\ (forall fuel, (N <= fuel)%nat ->
         (do! do_send_desc_init td buf size 64; do_net_send fuel td (PHYADDR td)) b = Ok (tt, b'))
    /\ v_sent v' = v_sent v ++ replicate 64 (PHYADDR buf, size) /\ v_busy v' = None
    /\ (forall k, 0 <= k < 64 -> v_ram v' !!! (PHYADDR td + 16 * k) = 0)
    /\ changed (PHYADDR td) (PHYADDR td + 16 * 64) (v_ram v) (v_ram v').
Proof.
  intros Hv Hi Hw Hs Hr.
  destruct (wp_send_init td buf size b v (fun _ b1 => exists v1, at_view b1 v1 /\ send_state td buf size (v_ram v) (v_sent v) 0 0 v1))
    as (r & b1 & E1 & v1 & Hv1 & Hs1); [by eauto..|].
  destruct (wp_send_start td buf size _ _ b1 v1 Hv1 Hs1 Hr) as ([] & b2 & E2 & v2 & Hv2 & Hs2 & Ht2).
  destruct (send_loop td buf size _ _ Hr 64 0 b2 v2 eq_refl ltac:(lia) Hv2 Hs2 Ht2) as (N & b' & v' & Hv' & (Hi' & Hc & Hsent & Hk) & Hrun).
  exists N, b', v'. split; [done|]. split; [|split; [done|split; [done|split; [|done]]]].
  - intros fuel Hf. unfold bind. rewrite E1. rewrite (do_net_send_start fuel td _ b1 b2 E2). by apply Hrun.
  - intros k Hkr. destruct (Hk k Hkr) as [-> _]. by rewrite decide_False by lia.
Qed.

(** *** Receiving *)

Lemma wp_receive n ptr rd b v (Q : Z -> bus -> Prop) :
  at_view b v -> v_busy v = None -> 0 <= n -> PHYADDR rd + 16 * n <= 2 ^ 28 ->
  (forall b' m r, at_view b' (v <| v_ram := m |> <| v_reg := r |>) -> handed_over n rd (v_ram v) m ->
     r !!! PHYADDR (DMA_BASE_ADDR + DmaRxBaseAddr) = ptr -> Z.testbit (r !!! PHYADDR GMAC_BASE_ADDR) 2 = true ->
     Z.testbit (r !!! PHYADDR (DMA_BASE_ADDR + DmaControl)) 1 = true -> Q 0 b') ->
  wp (receive n ptr rd) b Q.
Proof.
  intros Hv Hi Hn Hr HQ. unfold receive.
  apply wp_bind. eapply wp_write_reg; [exact Hv|done|unfold plain_regs; set_solver|]. intros b1 H1.
  apply wp_bind. eapply wp_reg_set; [exact H1|done|by left|]. intros b2 H2.
  apply wp_bind. eapply wp_reg_set; [exact H2|done|unfold plain_regs; set_solver|]. intros b3 H3.
  apply wp_bind. eapply wp_write_reg; [exact H3|done|unfold plain_regs; set_solver|]. intros b4 H4.
  apply wp_bind. eapply wp_own_all; [exact H4|done|done|done|]. cbn [v_ram v_reg put]. intros b5 m5 H5 Ho5.
  apply wp_bind, (wp_for_range (fun _ b => at_view b (v <| v_ram := m5 |> <| v_reg := v_reg (view b5) |>))).
  - pose proof H5 as [Hq5 ->]. split; [done|]. by destruct H5 as [_ ->].
  - intros l b6 _ [Hq6 Ev6]. apply wp_modify. split; [by apply quiet_store|]. rewrite <-Ev6. apply demand_rx; [done|by rewrite Ev6].
  - intros b6 H6. apply wp_ret, (HQ _ m5 _ H6 Ho5); destruct H5 as [_ ->]; cbn [v_reg put];
      change (PHYADDR GMAC_BASE_ADDR) with 0x1fe10000; change (PHYADDR (DMA_BASE_ADDR + DmaControl)) with 0x1fe11018;
      change (PHYADDR (u32 (DMA_BASE_ADDR + 24))) with 0x1fe11018; change (PHYADDR (u32 (DMA_BASE_ADDR + 28))) with 0x1fe1101c;
      change (PHYADDR (DMA_BASE_ADDR + DmaRxBaseAddr)) with 0x1fe1100c; change (PHYADDR (u32 (DMA_BASE_ADDR + 12))) with 0x1fe1100c;
      repeat first [rewrite total_insert_eq|rewrite total_insert_ne by lia]; rewrite ?Z.lor_spec, ?orb_true_r; done.
Qed.

(** [do_net_recv] starts the receiver of the MAC and of the DMA engine at the
    table of descriptors and hands over all 64 of them, while the places of the
    buffers and the links between the descriptors stay as they are. *)
Theorem net_recv_correct b v ptr rd rd_phy daddr :
  at_view b v -> v_busy v = None -> PHYADDR rd + RECV_DESC_SIZE <= 2 ^ 28 ->
  exists b' m r, do_net_recv ptr rd rd_phy daddr b = Ok (0, b') /\ at_view b' (v <| v_ram := m |> <| v_reg := r |>)
    /\ handed_over PNUM rd (v_ram v) m
    /\ r !!! PHYADDR (DMA_BASE_ADDR + DmaRxBaseAddr) = ptr
    /\ Z.testbit (r !!! PHYADDR GMAC_BASE_ADDR) 2 = true /\ Z.testbit (r !!! PHYADDR (DMA_BASE_ADDR + DmaControl)) 1 = true.
Proof.
  intros Hv Hi Hr. unfold RECV_DESC_SIZE, DESC_SIZE in Hr.
  destruct (wp_receive 64 ptr rd b v (fun x b' => x = 0 /\ exists m r, at_view b' (v <| v_ram := m |> <| v_reg := r |>)
    /\ handed_over 64 rd (v_ram v) m /\ r !!! PHYADDR (DMA_BASE_ADDR + DmaRxBaseAddr) = ptr
    /\ Z.testbit (r !!! PHYADDR GMAC_BASE_ADDR) 2 = true /\ Z.testbit (r !!! PHYADDR (DMA_BASE_ADDR + DmaControl)) 1 = true))
    as (x & b' & E & -> & m & r & Hrest); [done|done|lia|exact Hr|by eauto 10|].
  exists b', m, r. split; [exact E|exact Hrest].
Qed.

(** [do_net_fast_recv] hands over 256 descriptors, and the tables have
    [PNUM]: it writes behind the table of receive descriptors. *)
Theorem net_fast_recv_overruns b v table rd_phy daddr :
  at_view b v -> v_busy v = None -> PHYADDR table + 16 * 256 <= 2 ^ 28 ->
  exists b' m r, do_net_fast_recv table table rd_phy daddr b = Ok (0, b') /\ at_view b' (v <| v_ram := m |> <| v_reg := r |>)
    /\ forall k, PNUM <= k < 256 ->
       PHYADDR table + RECV_DESC_SIZE <= PHYADDR table + 16 * k /\ m !!! (PHYADDR table + 16 * k) = OWN.
Proof.
  intros Hv Hi Hr.
  destruct (wp_receive 256 table table b v (fun x b' => x = 0 /\ exists m r, at_view b' (v <| v_ram := m |> <| v_reg := r |>)
    /\ handed_over 256 table (v_ram v) m)) as (x & b' & E & -> & m & r & Hv' & Ho & _); [done|done|lia|exact Hr|by eauto 10|].
  exists b', m, r. split; [exact E|]. split; [exact Hv'|]. unfold RECV_DESC_SIZE, DESC_SIZE, PNUM. intros k Hk. split; [lia|].
  apply Ho. lia.
Qed.

(** The address that [set_mac_addr] writes to the two registers is the one
    that [gmac_get_mac_addr] reads from them, byte for byte. *)
Theorem mac_addr_roundtrip b v :
  at_view b v -> v_busy v = None ->
  exists b', (do! set_mac_addr test_mac; gmac_get_mac_addr) b = Ok ([0x00; 0x55; 0x7b; 0xb5; 0x7d; 0xf7], b').
Proof.
  intros Hv Hi.
  assert (wp (do! set_mac_addr test_mac; gmac_get_mac_addr) b (fun l _ => l = [0x00; 0x55; 0x7b; 0xb5; 0x7d; 0xf7])) as (l & b' & E & ->);
    [|by exists b'].
  unfold set_mac_addr, gmac_get_mac_addr, read_register. apply wp_bind. cbv zeta. repeat wp_basic. eapply wp_lift; [reflexivity|].
  apply wp_bind. eapply wp_write_reg; [exact Hv|done|unfold plain_regs; set_solver|]. intros b1 H1. apply wp_bind. eapply wp_lift; [reflexivity|].
  eapply wp_write_reg; [exact H1|done|unfold plain_regs; set_solver|]. intros b2 H2.
  apply wp_bind. eapply wp_read_reg; [exact H2|done|unfold plain_regs; set_solver|]. intros b3 H3.
  apply wp_bind. eapply wp_read_reg; [exact H3|done|unfold plain_regs; set_solver|]. intros b4 H4. apply wp_ret.
  cbn [v_reg put test_mac mac_addr]. change (PHYADDR (u32 (GMAC_BASE_ADDR + GmacAddr0Low))) with 0x1fe10044.
  change (PHYADDR (u32 (GMAC_BASE_ADDR + GmacAddr0High))) with 0x1fe10040. change (PHYADDR (u32 (3219193856 + 68))) with 0x1fe10044.
  change (PHYADDR (u32 (3219193856 + 64))) with 0x1fe10040.
  repeat first [rewrite total_insert_eq|rewrite total_insert_ne by lia]. reflexivity.
Qed.
End rules.

(** ** A device for the witnesses *)

Definition demo_gmac : gview := mk_gview ∅ ∅ 0 None [].
Lemma demo_at : at_view (bus := gview) demo_gmac demo_gmac.
Proof. split; [exact I|reflexivity]. Qed.

Lemma recv_ring_correct_witness : exists b', do_recv_desc_init 0xa0010000 0xa0020000 1024 64 demo_gmac = Ok (0xa0010000, b').
Proof.
  destruct (recv_ring_correct (bus := gview) demo_gmac demo_gmac 0xa0010000 0xa0020000 1024 64 demo_at eq_refl) as (b' & m & E & _);
    [split; reflexivity || discriminate|split; reflexivity || discriminate|split; reflexivity || discriminate|vm_compute; discriminate|vm_compute; discriminate|].
  exists b'. exact E.
Defined.
Lemma net_send_correct_witness : exists N b' v', at_view (bus := gview) b' v'
  /\ (forall fuel, (N <= fuel)%nat -> (do! do_send_desc_init 0xa0010000 0xa0020000 1024 64; do_net_send fuel 0xa0010000 0x10000) demo_gmac = Ok (tt, b'))
  /\ v_sent v' = replicate 64 (0x20000, 1024).
Proof.
  destruct (net_send_correct (bus := gview) demo_gmac demo_gmac 0xa0010000 0xa0020000 1024 demo_at eq_refl) as (N & b' & v' & H1 & H2 & H3 & _);
    [split; reflexivity || discriminate|split; reflexivity || discriminate|vm_compute; discriminate|].
  exists N, b', v'. split; [exact H1|]. split; [exact H2|exact H3].
Defined.
Lemma net_recv_correct_witness : exists b' : gview, do_net_recv 0xa0010000 0xa0010000 0x10000 0xa0020000 demo_gmac = Ok (0, b').
Proof.
  destruct (net_recv_correct (bus := gview) demo_gmac demo_gmac 0xa0010000 0xa0010000 0x10000 0xa0020000 demo_at eq_refl) as (b' & m & r & E & _);
    [vm_compute; discriminate|].
  exists b'. exact E.
Defined.
Lemma net_fast_recv_overruns_witness : exists b' : gview, do_net_fast_recv 0xa0010000 0xa0010000 0x10000 0xa0020000 demo_gmac = Ok (0, b').
Proof.
  destruct (net_fast_recv_overruns (bus := gview) demo_gmac demo_gmac 0xa0010000 0x10000 0xa0020000 demo_at eq_refl) as (b' & m & r & E & _);
    [vm_compute; discriminate|].
  exists b'. exact E.
Defined.
Lemma mac_addr_roundtrip_witness : exists b' : gview,
  (do! set_mac_addr test_mac; gmac_get_mac_addr) demo_gmac = Ok ([0x00; 0x55; 0x7b; 0xb5; 0x7d; 0xf7], b').
Proof. exact (mac_addr_roundtrip (bus := gview) demo_gmac demo_gmac demo_at eq_refl). Defined.
