(* ===== verification/MacProps.v ===== *)
(** The network driver in the kernel: a task that waits for packets, and the
    clock interrupt that looks for them. *)

From S2P Require Import Prelude Wp Kernel Queue Sched Sync Process KernelProps CString Printk Screen Mac.

(** The mode of a task is not part of any invariant of the kernel. *)
Lemma full_inv_mode s Q c t m : full_inv s Q c -> full_inv (set_pcb t ((pcb s t) <| pcb_mode := m |>) s) Q c.
Proof.
  intros [[(H & Hc & Hrun) HS] HP]. set (s' := set_pcb _ _ _).
  assert (forall (A : Type) (f : pcb_t -> A) u, f ((pcb s t) <| pcb_mode := m |>) = f (pcb s t) -> f (pcb s' u) = f (pcb s u)) as Hf.
  { intros A f u E. unfold s'. destruct (decide (t = u)) as [<-|Hne]; [by rewrite pcb_set_eq|by rewrite pcb_set_ne]. }
  assert (forall u, status s' u = status s u) as Hst by (intros u; by apply (Hf _ pcb_status)).
  split; [split|].
  - split_and!; [|done|by rewrite Hst]. destruct H as [H1 H2 H3 H4 H5 H6 H7]. split; [by apply abs_set_fields|done..| | |].
    + intros u Hu. rewrite Hst. by apply H5.
    + intros u Hu Hs. rewrite (Hf _ entry_point) by done. apply H6; [done|]. by rewrite <-Hst.
    + by rewrite (Hf _ entry_point).
  - revert HS. by apply sync_inv_transfer.
  - revert HP. apply proc_inv_transfer; [|done]. split; try done; intros u; first [by rewrite Hst|by apply (Hf _ pcb_pid)|by apply (Hf _ (fun p => length (pcb_lock p)))].
Qed.

Lemma land_OWN w : Z.land w OWN = if Z.testbit w 31 then OWN else 0.
Proof.
  change OWN with (2 ^ 31). apply Z.bits_inj'. intros i Hi. rewrite Z.land_spec, Z.pow2_bits_eqb by lia.
  destruct (Z.eqb_spec 31 i) as [<-|Hne]; [rewrite andb_true_r|rewrite andb_false_r]; destruct (Z.testbit w 31) eqn:E; try done;
    rewrite ?Z.bits_0, ?Z.pow2_bits_true, ?Z.pow2_bits_false by lia; done.
Qed.

Section driver.
Context {bus port : Type} {Hbus : Bus bus} {Hgmac : Gmac bus} {Hpmon : Pmon port}.
Context (recv_buffer : Z) (buff bf : list Z).
Hypothesis Hbuff : length buff = 256%nat.
Hypothesis Hbf : length bf = 24%nat.
Hypothesis Hbuffer : PHYADDR recv_buffer + 4 * RECV_BUFFER_SIZE <= 2 ^ 28.

(** The driver at rest: the device is at [v], and the table is in memory. *)
Definition net_at (s : nstate bus port) (v : gview) : Prop :=
  at_view (net_bus s) v /\ v_busy v = None /\ PHYADDR (recv_desc_table_ptr s) + RECV_DESC_SIZE <= 2 ^ 28.
(** Does the device still have descriptor [k]? *)
Definition owned (v : gview) (table k : Z) : bool := Z.testbit (v_ram v !!! (PHYADDR table + 16 * k)) 31.
(** Only the bus (not what is seen of it) and the port have changed. *)
Definition only_output (v : gview) (s s' : nstate bus port) : Prop :=
  net_kernel s' = net_kernel s /\ send_desc_table_ptr s' = send_desc_table_ptr s
  /\ recv_desc_table_ptr s' = recv_desc_table_ptr s /\ net_at s' v.

Lemma wp_on_bus {A} (m : M bus A) s (Q : A -> nstate bus port -> Prop) :
  wp m (net_bus s) (fun a b => Q a (mk_nstate (net_kernel s) b (net_port s) (send_desc_table_ptr s) (recv_desc_table_ptr s))) ->
  wp (on_bus m) s Q.
Proof. intros (a & b & E & HQ). exists a. eexists. unfold on_bus. rewrite E. split; [done|exact HQ]. Qed.
Lemma wp_in_kernel {A} (m : M kstate A) s (Q : A -> nstate bus port -> Prop) :
  wp m (net_kernel s) (fun a k => Q a (mk_nstate k (net_bus s) (net_port s) (send_desc_table_ptr s) (recv_desc_table_ptr s))) ->
  wp (in_kernel m) s Q.
Proof. intros (a & b & E & HQ). exists a. eexists. unfold in_kernel. rewrite E. split; [done|exact HQ]. Qed.
Lemma wp_to_port m fmt va args text s (Q : Z -> nstate bus port -> Prop) :
  cstr m 0 fmt -> Forall2 (arg_ok m) va args -> format fmt args = Some text ->
  (forall x p, Q x (mk_nstate (net_kernel s) (net_bus s) p (send_desc_table_ptr s) (recv_desc_table_ptr s))) ->
  wp (to_port (printk buff bf m 0 va)) s Q.
Proof.
  intros Hc Ha Hf HQ. eexists _, _. split; [|apply HQ]. unfold to_port. by rewrite (printk_spec _ _ _ _ fmt _ args text) by done.
Qed.

Lemma get_des0_wp table k b v (Q : Z -> bus -> Prop) :
  at_view b v -> v_busy v = None -> 0 <= k < PNUM -> PHYADDR table + RECV_DESC_SIZE <= 2 ^ 28 ->
  (forall b', at_view b' v -> Q (v_ram v !!! (PHYADDR table + 16 * k)) b') -> wp (get_des0 (u32 (table + k * DESC_SIZE))) b Q.
Proof.
  unfold RECV_DESC_SIZE, DESC_SIZE, PNUM. intros Hv Hi Hk Hr HQ. pose proof (PHYADDR_pos table) as Hp.
  assert (PHYADDR (u32 (table + k * 16)) = PHYADDR table + 16 * k) as Ek by (rewrite (Z.mul_comm k); apply PHYADDR_add; lia).
  eapply wp_read_ram; [done|unfold in_ram; lia|]. rewrite tick_idle, Ek by done. exact HQ.
Qed.

Lemma still_owned_wp table b v (Q : option unit -> bus -> Prop) :
  at_view b v -> v_busy v = None -> PHYADDR table + RECV_DESC_SIZE <= 2 ^ 28 ->
  (forall r b', at_view b' v -> (r = None <-> forall k, 0 <= k < PNUM - 1 -> owned v table k = false) -> Q r b') ->
  wp (still_owned table) b Q.
Proof.
  intros Hv Hi Hr HQ. unfold still_owned. change (Z.to_nat (PNUM - 1)) with 63%nat.
  assert (forall n i b, 0 <= i -> i + Z.of_nat n <= PNUM - 1 -> at_view b v -> wp (for_until n i (fun pnow =>
      let! d := get_des0 (u32 (table + DESC_SIZE * pnow)) in if Z.land d OWN =? 0 then ret None else ret (Some tt))) b
    (fun r b' => at_view b' v /\ (r = None <-> forall k, i <= k < i + Z.of_nat n -> owned v table k = false))) as Hloop.
  { intros n. induction n as [|n IH]; intros i b1 Hi0 Hn H1; cbn [for_until].
    - apply wp_ret. split; [done|]. split; [intros _ k; lia|done].
    - apply wp_bind, wp_bind. rewrite (Z.mul_comm DESC_SIZE). eapply get_des0_wp; [done|done|lia|done|]. intros b2 H2.
      rewrite land_OWN. fold (owned v table i). destruct (owned v table i) eqn:Eo; apply wp_ret.
      + apply wp_ret. split; [done|]. split; [done|]. intros Hk. rewrite (Hk i) in Eo by lia. done.
      + eapply wp_mono; [apply (IH (i + 1)); [lia|lia|done]|]. intros r b3 [H3 Hr3]. split; [done|]. rewrite Hr3. split.
        * intros Hk k Hki. destruct (decide (k = i)) as [->|]; [done|]. apply Hk. lia.
        * intros Hk k Hki. apply Hk. lia. }
  eapply wp_mono; [apply (Hloop 63%nat 0 b); [lia|unfold PNUM; lia|done]|]. intros r b' [H1 H2]. by apply HQ.
Qed.

Lemma only_output_bus v s0 s b : only_output v s0 s -> at_view b v ->
  only_output v s0 (mk_nstate (net_kernel s) b (net_port s) (send_desc_table_ptr s) (recv_desc_table_ptr s)).
Proof. intros (H1 & H2 & H3 & H4 & H5 & H6) Hb. by split_and!. Qed.
Lemma only_output_port v s0 s p : only_output v s0 s ->
  only_output v s0 (mk_nstate (net_kernel s) (net_bus s) p (send_desc_table_ptr s) (recv_desc_table_ptr s)).
Proof. intros (H1 & H2 & H3 & H4 & H5 & H6). by split_and!. Qed.

Lemma show_packets_wp s v (Q : unit -> nstate bus port -> Prop) :
  net_at s v -> (forall s', only_output v s s' -> Q tt s') -> wp (show_packets recv_buffer buff bf) s Q.
Proof.
  intros Hs HQ. unfold show_packets. apply wp_bind.
  eapply (wp_to_port _ [37; 99; 91; 37; 100; 59; 37; 100; 72] _ [AInt 27; AInt 15; AInt 1]).
  { exists [], []. split_and!; [done..|]. repeat constructor; lia. }
  { repeat constructor. }
  { vm_compute. reflexivity. }
  intros _ p0. apply (wp_for_range (fun _ t => only_output v s t)); [by apply only_output_port| |by intros t Ht; apply HQ].
  intros k s1 Hk H1. cbv zeta. apply wp_bind, (wp_for_range (fun _ t => only_output v s t)); [done|..].
  - intros j s2 Hj H2. pose proof H2 as (_ & _ & _ & Hv2 & Hi & Hr). apply wp_bind, wp_on_bus.
    change (Z.of_nat 30) with 30 in Hk. change (Z.of_nat 16) with 16 in Hj. unfold RECV_BUFFER_SIZE in Hbuffer. unfold PNUM, PSIZE in *.
    pose proof (PHYADDR_pos recv_buffer) as Hp. eapply wp_read_ram; [exact Hv2|unfold in_ram; rewrite PHYADDR_add; lia|].
    rewrite tick_idle by done. intros b Hb. apply wp_bind. eapply (wp_to_port _ [37; 120; 32] _ [AInt _]).
    { exists [], []. split_and!; [done..|]. repeat constructor; lia. }
    { repeat constructor. }
    { reflexivity. }
    intros x p. apply wp_ret. by apply (only_output_port v s (mk_nstate _ b _ _ _)), only_output_bus.
  - intros s2 H2. apply wp_bind. eapply (wp_to_port _ [10] [] []); [exists [], []; split_and!; [done..|]; repeat constructor; lia|constructor|reflexivity|].
    intros x p. apply wp_ret. by apply only_output_port.
Qed.

(** *** Waiting *)

Lemma full_inv_woken s Q c x l l1 l2 s' :
  full_inv s Q c -> Q recv_block_queue = x :: l -> do_unblock_one recv_block_queue s = Ok (tt, s') ->
  inv s' (<[ready_queue := Q ready_queue ++ [pick (prio s) x l]]> (<[recv_block_queue := l1 ++ l2]> Q)) c -> woken [pick (prio s) x l] s s' ->
  full_inv s' (<[ready_queue := Q ready_queue ++ [pick (prio s) x l]]> (<[recv_block_queue := l1 ++ l2]> Q)) c.
Proof.
  intros [[(H & Hc & Hrun) HS] HP] EQ E H' W. pose proof (exit_do_unblock_one _ _ _ _ E) as F. split; [split; [split_and!; [done|done|]|]|].
  - rewrite (woken_status W), decide_False; [done|]. intros Hin. assert (c ∈ Q recv_block_queue) as Hq.
    { apply list_elem_of_singleton in Hin as ->. rewrite EQ. apply pick_in. }
    by rewrite (queued_blocked s Q c _ c H Hq) in Hrun.
  - revert HS. apply (sync_inv_woken _ _ _ _ _ W). intros q Hq. by qcase.
  - revert HP. apply proc_inv_transfer; [done|]. intros t. by qcase.
Qed.

(** What the check at a clock tick does to the waiting tasks. *)
Definition checked (v : gview) (Q Q' : queue_id -> list nat) (c : nat) (s s' : nstate bus port) : Prop :=
  full_inv (net_kernel s') Q' c /\ net_at s' v /\
  ((Q' = Q /\ only_output v s s'
    /\ (Q recv_block_queue = [] \/ exists k, 0 <= k < PNUM - 1 /\ owned v (recv_desc_table_ptr s) k = true))
   \/ exists x l l1 l2, Q recv_block_queue = x :: l /\ (forall k, 0 <= k < PNUM - 1 -> owned v (recv_desc_table_ptr s) k = false)
      /\ x :: l = l1 ++ pick (prio (net_kernel s)) x l :: l2
      /\ Q' = <[ready_queue := Q ready_queue ++ [pick (prio (net_kernel s)) x l]]> (<[recv_block_queue := l1 ++ l2]> Q)
      /\ woken [pick (prio (net_kernel s)) x l] (net_kernel s) (net_kernel s')).

Lemma check_wp s v Q c :
  net_at s v -> full_inv (net_kernel s) Q c ->
  wp (check_recv_block_queue recv_buffer buff bf) s (fun _ s' => exists Q', checked v Q Q' c s s').
Proof.
  intros Hs HF. pose proof HF as [[(H & Hc & Hrun) _] _]. pose proof Hs as (Hv & Hi & Hr).
  unfold check_recv_block_queue. apply wp_bind, wp_gets. destruct (abs_queue _ _ (inv_abs _ _ _ H) recv_block_queue) as [Hh _ _ _].
  rewrite Hh. destruct (Q recv_block_queue) as [|x l] eqn:EQ; cbn [head].
  { apply wp_ret. exists Q. split; [done|]. split; [done|]. left. split; [done|]. split; [done|by left]. }
  apply wp_bind, wp_gets, wp_bind, wp_on_bus. eapply still_owned_wp; [done|done|done|]. intros r b Hb Hr'. destruct r as [[]|].
  - apply wp_ret. exists Q. split; [done|]. split; [done|]. left. split; [done|]. split; [done|]. right.
    destruct (decide (Exists (fun k => owned v (recv_desc_table_ptr s) k = true) (seqZ 0 63))) as [Hex|Hno].
    + apply Exists_exists in Hex as (k & Hk & Ho). exists k. split; [|done]. apply elem_of_seqZ in Hk. unfold PNUM. lia.
    + assert (Some tt = None) as [=]. apply Hr'. intros k Hk. destruct (owned v (recv_desc_table_ptr s) k) eqn:Eo; [|done].
      exfalso. apply Hno, Exists_exists. exists k. split; [|done]. apply elem_of_seqZ. unfold PNUM in Hk. lia.
  - set (s1 := mk_nstate _ b _ _ _). assert (net_at s1 v) as Hs1 by done. apply wp_bind, (show_packets_wp s1 v); [done|].
    intros s2 (Ek & _ & _ & Hs2). apply wp_in_kernel. rewrite Ek. change (net_kernel s1) with (net_kernel s).
    pose proof (do_unblock_one_spec (net_kernel s) Q c recv_block_queue H) as Hu. rewrite EQ in Hu.
    destruct Hu as (l1 & l2 & k' & El & E & H' & W); [done|]. exists tt, k'. split; [done|]. eexists. split; [|split; [exact Hs2|]].
    + exact (full_inv_woken _ Q c x l l1 l2 k' HF EQ E H' W).
    + right. exists x, l, l1, l2. split_and!; try done. by apply Hr'.
Qed.

(** A task that calls [do_wait_recv_package] while the device has the last
    descriptor gives the processor away and waits in [recv_block_queue]; otherwise
    it returns at once.  At a clock tick the first of the waiting tasks with the
    highest priority is made ready if the device has handed back all descriptors
    but the last one, which is not looked at; otherwise nobody is woken. *)
Theorem net_wait_correct s v Q c :
  net_at s v -> full_inv (net_kernel s) Q c ->
  (exists b v', at_view b v' /\ v_ram v' = v_ram v
     /\ if owned v (recv_desc_table_ptr s) 63
        then exists o, blocks (net_kernel s) Q c recv_block_queue R_return o
          /\ do_wait_recv_package s = match o with
             | Ok (_, k) => Ok (tt, mk_nstate k b (net_port s) (send_desc_table_ptr s) (recv_desc_table_ptr s))
             | Fault f => Fault f
             end
        else do_wait_recv_package s
          = Ok (tt, mk_nstate (net_kernel s) b (net_port s) (send_desc_table_ptr s) (recv_desc_table_ptr s)))
  /\ exists s' Q', check_recv_block_queue recv_buffer buff bf s = Ok (tt, s') /\ checked v Q Q' c s s'.
Proof.
  intros Hs HF. split; [|by destruct (check_wp s v Q c Hs HF) as ([] & s' & E & Q' & HQ); exists s', Q'].
  pose proof Hs as (Hv & Hi & Hr).
  assert (wp (do! enable_mac_int; get_des0 (u32 (recv_desc_table_ptr s + 63 * DESC_SIZE))) (net_bus s)
    (fun d b => d = v_ram v !!! (PHYADDR (recv_desc_table_ptr s) + 16 * 63) /\ exists v', at_view b v' /\ v_ram v' = v_ram v))
    as (d & b & E & -> & v' & Hv' & Er).
  { apply wp_bind. eapply wp_write_reg; [exact Hv|done|unfold plain_regs; set_solver|]. intros b1 H1.
    eapply (get_des0_wp _ 63); [exact H1|done|unfold PNUM; lia|done|]. intros b2 H2. by eauto. }
  exists b, v'. split; [done|]. split; [done|]. apply bind_Ok_inv in E as ([] & b1 & E1 & E2).
  unfold do_wait_recv_package, bind, gets, on_bus. rewrite E1. cbn [net_bus]. rewrite E2, land_OWN. unfold owned.
  destruct (Z.testbit _ 31); [|done]. rewrite Z.eqb_refl. exists (do_block recv_block_queue R_return (net_kernel s)). split;
    [|unfold in_kernel; cbn [net_kernel net_bus]; by destruct (do_block _ _ _) as [[[] k]|]].
  destruct HF as [[HK HS] HP]. apply do_block_blocks; [done..|].
  pose proof (sync_resume _ Q c R_return HK HS) as HS1. revert HS1. apply sync_inv_queues; try done. intros q Hq. by qcase.
Qed.

Definition advance (s : nstate bus port) : nstate bus port :=
  mk_nstate ((net_kernel s) <| time_elapsed := u32 (time_elapsed (net_kernel s) + 15) |>) (net_bus s) (net_port s)
    (send_desc_table_ptr s) (recv_desc_table_ptr s).

(** A user task is switched away from: the choice does not depend on its mode. *)
Lemma preempted_mode s t m Q c Q' c' :
  preempted (set_pcb t ((pcb s t) <| pcb_mode := m |>) s) Q c Q' c' -> preempted s Q c Q' c'.
Proof.
  set (s' := set_pcb _ _ _). assert (forall u, prio s' u = prio s u) as Hp.
  { intros u. unfold s', prio. destruct (decide (t = u)) as [<-|Hne]; [by rewrite pcb_set_eq|by rewrite pcb_set_ne]. }
  assert (forall u, expired s' u = expired s u) as He.
  { intros u. unfold s', expired. destruct (decide (t = u)) as [<-|Hne]; [by rewrite pcb_set_eq|by rewrite pcb_set_ne]. }
  intros (W & l' & l1 & l2 & HW & E & H1 & H2 & HQ). exists W, l', l1, l2. split_and!; try done.
  - destruct HW as [(-> & -> & Hall)|(m1 & x & m2 & -> & El & -> & Hx & Hall)]; [left|right; exists m1, x, m2];
      split_and!; try done; try (by rewrite <-He); by (eapply Forall_impl; [exact Hall|]; intros u; cbn; rewrite He).
  - intros u. rewrite <-!Hp. apply H1.
  - intros u. rewrite <-!Hp. apply H2.
Qed.

(** C32: the clock interrupt always returns.  The clock has advanced by 15; then the
    queue of tasks that wait for packets was looked at: when the device has handed
    back all descriptors but the last one, which is not looked at, the first of the
    waiting tasks with the highest priority of the first rising run is ready, and
    nobody otherwise ([checked]).  A task that was interrupted in the kernel goes on,
    and nothing else changes.  One that was interrupted in user mode is put behind
    the ready tasks (and behind it one sleeper that is due), the CPU goes to the task
    at which the priorities stop rising, the interrupted task loses one point of
    priority, and only if it is chosen again it is back in user mode.  (The device is
    at rest: it neither sends nor receives while the interrupt is handled; its table
    and the receive buffer lie in the first 2^28 bytes of memory.) *)
Theorem clock_interrupt_correct s v Q c :
  net_at s v -> full_inv (net_kernel s) Q c ->
  exists s1 Q1 s' Q' c', checked v Q Q1 c (advance s) s1
    /\ clock_interrupt recv_buffer buff bf s = Ok (tt, s') /\ full_inv (net_kernel s') Q' c' /\ net_at s' v
    /\ time_elapsed (net_kernel s') = u32 (time_elapsed (net_kernel s) + 15)
    /\ match pcb_mode (pcb (net_kernel s) c) with
       | KERNEL_MODE => s' = s1 /\ Q' = Q1 /\ c' = c
       | USER_MODE => preempted (net_kernel s1) Q1 c Q' c'
           /\ (forall u, prio (net_kernel s') u = if decide (u = c) then i32 (prio (net_kernel s1) u - 1) else prio (net_kernel s1) u)
           /\ pcb_mode (pcb (net_kernel s') c) = if decide (c' = c) then USER_MODE else KERNEL_MODE
       end.
Proof.
  intros Hs HF.
  match goal with |- exists s1 Q1 s' Q' c', ?A /\ _ = Ok (tt, s') /\ ?B =>
    assert (wp (clock_interrupt recv_buffer buff bf) s (fun _ s' => exists s1 Q1 Q' c', A /\ B)) as ([] & s' & E & s1 & Q1 & Q' & c' & H' & H'');
      [|by exists s1, Q1, s', Q', c'] end.
  unfold clock_interrupt. apply wp_bind, wp_in_kernel, wp_modify.
  pose proof (full_inv_clock _ Q c (u32 (time_elapsed (net_kernel s) + 15)) HF) as HF1.
  apply wp_bind. eapply wp_mono; [apply (check_wp (advance s) v Q c); [exact Hs|exact HF1]|]. intros _ s2 (Q2 & Hc2).
  pose proof Hc2 as (HF2 & Hs2 & Hch).
  assert (time_elapsed (net_kernel s2) = u32 (time_elapsed (net_kernel s) + 15)
    /\ pcb_mode (pcb (net_kernel s2) c) = pcb_mode (pcb (net_kernel s) c)) as [Et Em].
  { destruct Hch as [(_ & (Ek & _) & _)|(x & l & l1 & l2 & EQ & _ & El & _ & W)]; [by rewrite Ek|]. split.
    - by rewrite (woken_rest W time_elapsed).
    - by rewrite (woken_field W pcb_mode). }
  apply wp_bind, wp_gets. pose proof HF2 as [[(H2 & _) _] _]. rewrite (inv_cur _ _ _ H2).
  apply wp_bind, wp_in_kernel. exists (pcb_mode (pcb (net_kernel s2) c)), (net_kernel s2). split; [done|]. rewrite Em.
  destruct (pcb_mode (pcb (net_kernel s) c)).
  { apply wp_ret. exists s2, Q2, Q2, c. destruct s2. by split_and!. }
  apply wp_bind, wp_in_kernel. eexists tt, _. split; [done|]. pose proof (full_inv_mode _ Q2 c c KERNEL_MODE HF2) as HF3.
  apply wp_bind, wp_in_kernel. cbn [net_kernel]. destruct (preempt_choice _ Q2 c HF3) as (k4 & Q4 & c4 & E4 & HF4 & Hpr & Hp & F).
  assert (Hp4 : forall u, prio k4 u = if decide (u = c) then i32 (prio (net_kernel s2) u - 1) else prio (net_kernel s2) u).
  { intros u. rewrite Hp. unfold prio. destruct (decide (c = u)) as [<-|Hne]; [by rewrite pcb_set_eq|by rewrite pcb_set_ne]. }
  assert (Et4 : time_elapsed k4 = u32 (time_elapsed (net_kernel s) + 15)) by (rewrite (sched_frame_outer time_elapsed _ _ F) by done; exact Et).
  assert (Em4 : pcb_mode (pcb k4 c) = KERNEL_MODE).
  { rewrite (sched_frame_field pcb_mode _ _ c F) by done. change (pcb_mode (pcb (set_pcb c ((pcb (net_kernel s2) c) <| pcb_mode := KERNEL_MODE |>) (net_kernel s2)) c) = KERNEL_MODE). by rewrite pcb_set_eq. }
  exists tt, k4. split; [exact E4|]. apply wp_bind, wp_gets. cbn [net_kernel]. pose proof HF4 as [[(H4 & _) _] _]. rewrite (inv_cur _ _ _ H4).
  apply preempted_mode in Hpr. case_decide as Hd.
  - injection Hd as ->. apply wp_in_kernel. eexists tt, _. split; [done|]. exists s2, Q2, Q4, c. split; [done|]. split; [by apply full_inv_mode|].
    split_and!; try done; cbn [net_kernel].
    + intros u. rewrite <-Hp4. unfold prio. destruct (decide (c = u)) as [<-|Hne]; [by rewrite pcb_set_eq|by rewrite pcb_set_ne].
    + rewrite decide_True by done. by rewrite pcb_set_eq.
  - apply wp_ret. exists s2, Q2, Q4, c4. split_and!; try done. rewrite decide_False; [exact Em4|]. by intros ->.
Qed.
End driver.

(** ** A driver for the witnesses *)

(** All descriptors are with the driver, except the last one in [demo_net 1]. *)
Definition demo_net (last : Z) : nstate gview transcript :=
  mk_nstate demo_boot (mk_gview {[ 0x103f0 := last * OWN ]} ∅ 0 None []) [] 0 0xa0010000.
Lemma demo_net_at last : net_at (demo_net last) (net_bus (demo_net last)).
Proof. split; [split; [exact I|reflexivity]|split; [reflexivity|vm_compute; discriminate]]. Qed.

Lemma net_wait_correct_witness :
  exists s', check_recv_block_queue 0xa0020000 (replicate 256 0) (replicate 24 0) (demo_net 1) = Ok (tt, s').
Proof.
  destruct demo_boot_inv as (Q & HF & _).
  destruct (net_wait_correct (port := transcript) 0xa0020000 (replicate 256 0) (replicate 24 0) eq_refl eq_refl ltac:(vm_compute; discriminate)
    (demo_net 1) _ Q 1 (demo_net_at 1) HF) as [_ (s' & Q' & E & _)]. exists s'. exact E.
Defined.
Lemma clock_interrupt_correct_witness :
  exists s', clock_interrupt 0xa0020000 (replicate 256 0) (replicate 24 0) (demo_net 0) = Ok (tt, s').
Proof.
  destruct demo_boot_inv as (Q & HF & _).
  destruct (clock_interrupt_correct (port := transcript) 0xa0020000 (replicate 256 0) (replicate 24 0) eq_refl eq_refl ltac:(vm_compute; discriminate)
    (demo_net 0) _ Q 1 (demo_net_at 0) HF) as (s1 & Q1 & s' & Q' & c' & _ & E & _). exists s'. exact E.
Defined.
