(* ===== verification/Scanf.v ===== *)
(** Keyboard input: libs/scanf.c.

    The serial port is the interface [Uart]: a status register that tells whether
    a character is there, and a register to take it from. *)

From S2P Require Import Prelude Wp CString.

Definition INPUT_BUFFER_MAX_LENGTH : Z := 1000.
Definition VM_SIZE : Z := 0x80000000.

(** What the queue of the port holds, and what will be typed: the bursts arrive
    one at a time when the port is looked at with its queue empty; an empty burst
    is a pause. *)
Definition typing : Type := list Z * list (list Z).
Definition arrive (t : typing) : typing :=
  match t with ([], burst :: later) => (burst, later) | _ => t end.
Class Uart (uart : Type) := {
  stat_port : uart -> Z * uart;
  read_port : uart -> Z * uart;
  typed : uart -> typing;
  uart_stat u : typed (snd (stat_port u)) = arrive (typed u)
    /\ Z.land (fst (stat_port u)) 1 = (match fst (arrive (typed u)) with [] => 0 | _ => 1 end);
  uart_read u c r later : typed u = (c :: r, later) -> fst (read_port u) = c /\ typed (snd (read_port u)) = (r, later)
}.
(** A port that follows these rules. *)
Definition typing_stat (u : typing) : Z * typing := (match fst (arrive u) with [] => 0x60 | _ => 0x61 end, arrive u).
Definition typing_read (u : typing) : Z * typing := match u with (c :: r, later) => (c, (r, later)) | _ => (0, u) end.
#[export] Program Instance typing_uart : Uart typing := {| stat_port := typing_stat; read_port := typing_read; typed u := u |}.
Next Obligation. intros u. split; [done|]. cbn. by destruct (fst (arrive u)). Qed.
Next Obligation. by intros u c r later ->. Qed.

Record scanner (uart : Type) := mk_scanner {
  port_s : uart;
  buffer_set : bool;        (* [inputBuffer_s.buffer] is [Buffer_s], and not NULL *)
  Buffer_s : mem;
  buffer_length : Z;
  input_length : Z;
  pointer : Z;
  index : Z;
  target : Z                (* [*mem] *)
}.
Arguments mk_scanner {uart}.
Arguments port_s {uart}.
Arguments buffer_set {uart}.
Arguments Buffer_s {uart}.
Arguments buffer_length {uart}.
Arguments input_length {uart}.
Arguments pointer {uart}.
Arguments index {uart}.
Arguments target {uart}.

Section scanf.
Context {uart : Type} `{Uart uart}.

(** A [char] is signed. *)
Definition to_char (x : Z) : Z := if x <? 128 then x else x - 256.

Fixpoint drain (fuel : nat) (ch : Z) : M uart Z :=
  match fuel with
  | O => throw Diverges
  | S fuel' =>
      let! st := (fun u => Ok (stat_port u)) in
      if Z.land st 1 =? 0 then ret ch
      else
        let! c := (fun u => Ok (read_port u)) in
        drain fuel' (to_char c)
  end.
Definition read_uart_ch_s (fuel : nat) : M uart Z := drain fuel 0.

Definition init_InputBuffer_s : M (scanner uart) unit :=
  modify (fun s => mk_scanner (port_s s) true (Buffer_s s) INPUT_BUFFER_MAX_LENGTH 0 0 (index s) (target s)).

Definition from_port {A} (m : M uart A) : M (scanner uart) A := fun s =>
  match m (port_s s) with
  | Ok (a, u) => Ok (a, mk_scanner u (buffer_set s) (Buffer_s s) (buffer_length s) (input_length s) (pointer s) (index s) (target s))
  | Fault f => Fault f
  end.
(** [*(inputBuffer_s_ptr->buffer + i)]. *)
Definition buffer_get (i : Z) : M (scanner uart) Z := fun s =>
  if buffer_set s then try! c := rd (Buffer_s s) i in Ok (c, s) else Fault NullDeref.
Definition buffer_put (i c : Z) : M (scanner uart) unit := fun s =>
  if buffer_set s then
    try! l := wr (Buffer_s s) i c in
    Ok (tt, mk_scanner (port_s s) true l (buffer_length s) (input_length s) (pointer s) (index s) (target s))
  else Fault NullDeref.

(** A line is complete: is it a number?  [k] is an [int], the comparison with
    [VM_SIZE] one of unsigned numbers. *)
Definition scan_line : M (scanner uart) unit :=
  let! p := gets pointer in
  let! c := buffer_get p in
  if c =? 48 then
    let! x := buffer_get (p + 1) in
    if x =? 120 then
      let! m := gets Buffer_s in
      let! n := lift (atoh m (p + 2)) in
      let k := i32 n in
      if (k >=? 0) && (u32 k <=? VM_SIZE) then
        modify (fun s => mk_scanner (port_s s) (buffer_set s) (Buffer_s s) (buffer_length s) (input_length s) (pointer s) (index s) k)
      else ret tt
    else ret tt
  else ret tt.
Fixpoint do_scanf (fuel : nat) : M (scanner uart) Z :=
  match fuel with
  | O => throw Diverges
  | S fuel' =>
      let! ch := from_port (read_uart_ch_s fuel) in
      if ch =? 0 then do_scanf fuel'
      else
        let! i := gets index in
        do! buffer_put i ch;
        do! modify (fun s => mk_scanner (port_s s) (buffer_set s) (Buffer_s s) (buffer_length s) (i32 (input_length s + 1)) (pointer s) (index s) (target s));
        do! modify (fun s => mk_scanner (port_s s) (buffer_set s) (Buffer_s s) (buffer_length s) (input_length s) (pointer s) (i32 (index s + 1)) (target s));
        do! (if ch =? 13 then
               do! scan_line;
               modify (fun s => mk_scanner (port_s s) (buffer_set s) (Buffer_s s) (buffer_length s) (input_length s) (index s) (index s) (target s))
             else ret tt);
        ret ch
  end.

(** The calls of a program that reads [n] characters. *)
Fixpoint scan_all (fuel n : nat) : M (scanner uart) (list Z) :=
  match n with
  | O => ret []
  | S n' =>
      let! c := do_scanf fuel in
      let! r := scan_all fuel n' in
      ret (c :: r)
  end.

(** ** Characters *)

Lemma drain_burst b : forall fuel ch u later, (length b < fuel)%nat -> typed u = (b, [] :: later) ->
  exists u', drain fuel ch u = Ok (foldl (fun _ c => to_char c) ch b, u') /\ typed u' = ([], later).
Proof.
  induction b as [|c b IH]; intros [|fuel] ch u later Hf Hu; cbn [length] in Hf; try lia; cbn [drain]; unfold bind;
    destruct (stat_port u) as [st u1] eqn:Es; destruct (uart_stat u) as [E1 E2]; rewrite Es, Hu in E1, E2; cbn in E1, E2.
  - rewrite E2. by exists u1.
  - rewrite E2. cbn [Z.eqb]. destruct (read_port u1) as [c' u2] eqn:Er. destruct (uart_read u1 c b _ E1) as [F1 F2].
    rewrite Er in F1, F2. cbn in F1, F2. subst c'. destruct (IH fuel (to_char c) u2 later ltac:(lia) F2) as (u' & E & Hu').
    by exists u'.
Qed.

(** The state when [pre] was read before and [line] of the present line. *)
Definition reading (pre line rest : mem) (later : list (list Z)) (t : Z) (s : scanner uart) : Prop :=
  typed (port_s s) = ([], later) /\ buffer_set s = true /\ Buffer_s s = pre ++ line ++ rest
  /\ pointer s = len pre /\ index s = len (pre ++ line) /\ target s = t.

(** A burst before a pause: only its last character is read. *)
Lemma read_burst fuel b ch u later :
  (length b + 1 < fuel)%nat -> foldl (fun _ c => to_char c) 0 b = ch -> ch <> 0 -> typed u = ([], b :: [] :: later) ->
  exists u', read_uart_ch_s fuel u = Ok (ch, u') /\ typed u' = ([], later).
Proof.
  intros Hf Hb Hch Hu. destruct fuel as [|fuel]; [lia|]. unfold read_uart_ch_s. destruct b as [|c b]; [by subst|]. cbn [drain]. unfold bind at 1.
  destruct (stat_port u) as [st u1] eqn:Es. destruct (uart_stat u) as [E1 E2]. rewrite Es, Hu in E1, E2. cbn in E1, E2.
  rewrite E2. cbn [Z.eqb]. unfold bind at 1. destruct (read_port u1) as [c' u2] eqn:Er. destruct (uart_read u1 c b _ E1) as [F1 F2].
  rewrite Er in F1, F2. cbn in F1, F2. subst c'. cbn [length] in Hf.
  destruct (drain_burst b fuel (to_char c) u2 later ltac:(lia) F2) as (u' & E & Hu'). exists u'. by rewrite E, <-Hb.
Qed.
(** The character goes to the end of the line. *)
Lemma do_scanf_read fuel b ch pre line c0 rest later t s :
  (length b + 1 < fuel)%nat -> foldl (fun _ c => to_char c) 0 b = ch -> ch <> 0 -> len (pre ++ line) + 1 < 2 ^ 31 ->
  reading pre line (c0 :: rest) (b :: [] :: later) t s ->
  exists s1, reading pre (line ++ [ch]) rest later t s1
    /\ do_scanf fuel s = (do! (if ch =? 13 then
         do! scan_line;
         modify (fun s => mk_scanner (port_s s) (buffer_set s) (Buffer_s s) (buffer_length s) (input_length s) (index s) (index s) (target s))
       else ret tt); ret ch) s1.
Proof.
  intros Hf Hb Hch Hlen (Hu & Hset & Hbuf & Hp & Hi & Ht). destruct fuel as [|fuel]; [lia|]. cbn [do_scanf].
  destruct (read_burst (S fuel) b ch (port_s s) later Hf Hb Hch Hu) as (u' & E & Hu').
  unfold bind at 1. unfold from_port at 1. rewrite E. rewrite (proj2 (Z.eqb_neq _ _) Hch).
  eexists. split; [|unfold bind at 1 2 3 4, gets, buffer_put, modify; cbn [index buffer_set Buffer_s]; rewrite Hset, Hbuf, Hi, app_assoc, wr_at by done; reflexivity].
  split_and!; cbn [port_s buffer_set Buffer_s pointer index target]; try done.
  - by rewrite <-!app_assoc.
  - rewrite i32_small by lia. rewrite !length_app. cbn. lia.
Qed.

(** One character at a time, with a pause after each. *)
Definition slowly (cs : list Z) : list (list Z) := flat_map (fun c => [[c]; []]) cs.

Lemma scan_chars fuel cs : forall pre line rest later t s,
  (2 < fuel)%nat -> Forall (fun c => 0 < c < 128 /\ c <> 13) cs -> (length cs <= length rest)%nat ->
  len pre + len line + len cs < 2 ^ 31 -> reading pre line rest (slowly cs ++ later) t s ->
  exists s', reading pre (line ++ cs) (drop (length cs) rest) later t s' /\ scan_all fuel (length cs) s = Ok (cs, s').
Proof.
  induction cs as [|c cs IH]; intros pre line rest later t s Hf Hcs Hr Hl Hs.
  - exists s. by rewrite app_nil_r.
  - apply Forall_cons in Hcs as [[Hc Hc13] Hcs]. destruct rest as [|c0 rest]; cbn [length] in *; [lia|].
    destruct (do_scanf_read fuel [c] c pre line c0 rest (slowly cs ++ later) t s) as (s1 & Hs1 & E); [cbn; lia| |lia|rewrite length_app; lia|done|].
    { cbn. unfold to_char. destruct (Z.ltb_spec c 128); lia. }
    rewrite (proj2 (Z.eqb_neq _ _) Hc13) in E.
    destruct (IH pre (line ++ [c]) rest later t s1) as (s' & Hs' & E'); [done|done|lia|rewrite length_app; cbn; lia|done|].
    exists s'. rewrite <-app_assoc in Hs'. split; [done|]. cbn [scan_all]. unfold bind. rewrite E. cbn. by rewrite E'.
Qed.

Definition digit_text (ds : list Z) : list Z := map (fun d => digit_0 + d) ds.
Lemma is_dec_digit d : 0 <= d <= 9 -> is_dec (digit_0 + d) = true.
Proof. intros Hd. unfold is_dec, digit_0, digit_9. by rewrite !(proj2 (Z.leb_le _ _)) by lia. Qed.
Lemma digit_text_range ds : Forall (fun d => 0 <= d <= 9) ds ->
  Forall (fun c => 0 < c < 128 /\ c <> 13) (digit_text ds) /\ Forall (fun c => is_hex_char c = true) (digit_text ds).
Proof.
  intros Hd. split; apply Forall_map; eapply Forall_impl; [exact Hd| |exact Hd|]; intros d Hr; cbv beta in *; [unfold digit_0; lia|].
  unfold is_hex_char. by rewrite is_dec_digit.
Qed.
Lemma atoh_digits pre ds post : Forall (fun d => 0 <= d <= 9) ds ->
  atoh (pre ++ digit_text ds ++ 13 :: post) (len pre) = Ok (u32 (value 16 ds)).
Proof.
  intros Hd. unfold atoh. rewrite (parse_loop_spec 16); [|done|rewrite !length_app; cbn; lia|by apply digit_text_range|done]. cbn [obind]. f_equal.
  unfold digit_text. rewrite foldl_map, (foldl_ext_in _ (fun n d => i32 (n * 16 + d))); [by apply foldl_i32|].
  intros d n Hin. rewrite Forall_forall in Hd. specialize (Hd d Hin). rewrite is_dec_digit by done. f_equal. lia.
Qed.

(** What [*mem] holds after a line: the number behind "0x", as an [int], when it
    is not negative, and what it held before otherwise. *)
Definition line_target (line : list Z) (t : Z) : Z :=
  match line with
  | 48 :: 120 :: r => let k := i32 (value 16 (map (fun c => c - digit_0) r)) in if 0 <=? k then k else t
  | _ => t
  end.
(** Characters of a line; behind "0x" only decimal digits. *)
Definition line_ok (line : list Z) : Prop :=
  Forall (fun c => 0 < c < 128 /\ c <> 13) line
  /\ match line with 48 :: 120 :: r => exists ds, r = digit_text ds /\ Forall (fun d => 0 <= d <= 9) ds | _ => True end.

(** The end of a line that holds a number. *)
Lemma scan_line_number pre ds rest later t s :
  Forall (fun d => 0 <= d <= 9) ds -> reading pre ([48; 120] ++ digit_text ds ++ [13]) rest later t s ->
  exists s', scan_line s = Ok (tt, s') /\ reading pre ([48; 120] ++ digit_text ds ++ [13]) rest later (line_target (48 :: 120 :: digit_text ds) t) s'.
Proof.
  intros Hd (Hu & Hset & Hbuf & Hp & Hi & Ht).
  assert (rd (Buffer_s s) (len pre) = Ok 48) as E0 by (rewrite Hbuf; by apply rd_at).
  assert (rd (Buffer_s s) (len pre + 1) = Ok 120) as E1.
  { replace (Buffer_s s) with ((pre ++ [48]) ++ 120 :: (digit_text ds ++ [13]) ++ rest) by by rewrite Hbuf, <-app_assoc.
    apply rd_at. rewrite length_app. cbn. lia. }
  assert (atoh (Buffer_s s) (len pre + 2) = Ok (u32 (value 16 ds))) as E2.
  { replace (Buffer_s s) with ((pre ++ [48; 120]) ++ digit_text ds ++ 13 :: rest) by by rewrite Hbuf, <-!app_assoc.
    replace (len pre + 2) with (len (pre ++ [48; 120])) by (rewrite length_app; cbn; lia). by apply atoh_digits. }
  assert (line_target (48 :: 120 :: digit_text ds) t = if 0 <=? i32 (value 16 ds) then i32 (value 16 ds) else t) as E3.
  { unfold line_target, digit_text. rewrite map_map, (map_ext _ id), map_id; [done|]. intros d. unfold id. lia. }
  rewrite E3. unfold scan_line, bind, gets, buffer_get, lift, modify. rewrite Hp, Hset, E0. cbn [obind Z.eqb Pos.eqb]. rewrite Hset, E1. cbn [obind Z.eqb Pos.eqb].
  rewrite E2, i32_u32. pose proof (i32_range (value 16 ds)) as Hr. rewrite Z.geb_leb. destruct (Z.leb_spec 0 (i32 (value 16 ds))).
  - unfold u32 at 1. rewrite Z.mod_small by lia. rewrite (proj2 (Z.leb_le _ VM_SIZE)) by (unfold VM_SIZE; lia). cbn [andb].
    eexists. split; [reflexivity|]. by split_and!.
  - cbn [andb]. exists s. by split_and!.
Qed.
(** The end of any line. *)
Lemma scan_line_end pre line rest later t s :
  line_ok line -> reading pre (line ++ [13]) rest later t s ->
  exists s', scan_line s = Ok (tt, s') /\ reading pre (line ++ [13]) rest later (line_target line t) s'.
Proof.
  intros [Hc Hnum] Hs.
  assert (forall c x, (c <> 48 \/ x <> 120) -> (exists r, Buffer_s s = pre ++ c :: x :: r) \/ c <> 48 /\ (exists r, Buffer_s s = pre ++ c :: r) ->
    exists s', scan_line s = Ok (tt, s') /\ reading pre (line ++ [13]) rest later t s') as Hplain.
  { intros c x Hne Hb. pose proof Hs as (Hu & Hset & Hbuf & Hp & Hi & Ht). exists s. split; [|done].
    assert (rd (Buffer_s s) (len pre) = Ok c) as E0 by (destruct Hb as [[r ->]|[_ [r ->]]]; by apply rd_at).
    unfold scan_line, bind, gets, buffer_get. rewrite Hp, Hset, E0. cbn [obind]. destruct (Z.eqb_spec c 48) as [->|]; [|done].
    destruct Hb as [[r Hr]|[? _]]; [|done]. rewrite Hset.
    assert (rd (Buffer_s s) (len pre + 1) = Ok x) as ->.
    { rewrite Hr. change (48 :: x :: r) with ([48] ++ x :: r). rewrite app_assoc. apply rd_at. rewrite length_app. cbn. lia. }
    cbn [obind]. destruct (Z.eqb_spec x 120); [by destruct Hne|done]. }
  pose proof Hs as (_ & _ & Hbuf & _).
  destruct (decide (take 2 line = [48; 120])) as [E2|Hno].
  - destruct line as [|c [|x r]]; [done|done|]. cbn [take] in E2. injection E2 as -> ->.
    destruct Hnum as (ds & -> & Hd). by apply scan_line_number.
  - assert (line_target line t = t) as ->.
    { unfold line_target. repeat case_match; try done; subst; by destruct Hno. }
    destruct line as [|c [|x r]]; cbn [app] in Hbuf.
    + apply (Hplain 13 0); [by left|right]. split; [done|]. by eexists.
    + apply (Hplain c 13); [by right|left]. by eexists.
    + apply (Hplain c x); [|left; by eexists]. destruct (decide (c = 48)) as [->|]; [|by left].
      destruct (decide (x = 120)) as [->|]; [|by right]. by destruct Hno.
Qed.

Lemma scan_all_app fuel n m l1 l2 s s1 s2 :
  scan_all fuel n s = Ok (l1, s1) -> scan_all fuel m s1 = Ok (l2, s2) -> scan_all fuel (n + m) s = Ok (l1 ++ l2, s2).
Proof.
  revert l1 s. induction n as [|n IH]; intros l1 s E1 E2; cbn [Nat.add scan_all] in *; [by injection E1 as <- <-|].
  apply bind_Ok_inv in E1 as (c & s3 & Ec & E1). apply bind_Ok_inv in E1 as (r & s4 & Er & E1). injection E1 as <- <-.
  rewrite (bind_Ok _ _ _ _ _ Ec), (bind_Ok _ _ _ _ _ (IH _ _ Er E2)). done.
Qed.
Lemma slowly_snoc cs c later : slowly (cs ++ [c]) ++ later = slowly cs ++ [c] :: [] :: later.
Proof. unfold slowly. by rewrite flat_map_app, <-app_assoc. Qed.

(** C33: A line is read character by character, and its number is understood: when
    the characters of a line, from 1 to 127, and its end are typed one at a time,
    with room for them in the 1000 bytes of the buffer, each call of [do_scanf]
    returns the next one, and the next line begins behind this one in the buffer.
    When the line is "0x" and decimal digits, the last call stores the number that
    the digits mean in base 16, taken as an [int], unless it is negative: then, and
    for every line that does not begin with "0x", nothing is stored. Lines with
    other characters behind "0x" are not covered. *)
Theorem scanf_line_correct fuel pre line rest later t s :
  (2 < fuel)%nat -> line_ok line -> (length line + 1 <= length rest)%nat -> len pre + len rest = INPUT_BUFFER_MAX_LENGTH ->
  reading pre [] rest (slowly (line ++ [13]) ++ later) t s ->
  exists s', scan_all fuel (length line + 1) s = Ok (line ++ [13], s')
    /\ reading (pre ++ line ++ [13]) [] (drop (length line + 1) rest) later (line_target line t) s'.
Proof.
  unfold INPUT_BUFFER_MAX_LENGTH. intros Hf Hline Hr Hl Hs. rewrite slowly_snoc in Hs.
  destruct (scan_chars fuel line pre [] rest ([13] :: [] :: later) t s) as (s1 & Hs1 & E1); [done|apply Hline|lia|cbn [length]; lia|done|].
  cbn [app] in Hs1.
  destruct (drop (length line) rest) as [|c0 rest'] eqn:Edrop; [pose proof (length_drop rest (length line)) as Hx; rewrite Edrop in Hx; cbn [length] in Hx; lia|].
  destruct (do_scanf_read fuel [13] 13 pre line c0 rest' later t s1) as (s2 & Hs2 & E2); [cbn; lia|done|done|rewrite length_app; lia|done|].
  destruct (scan_line_end pre line rest' later t s2 Hline Hs2) as (s3 & E3 & Hs3). cbn [Z.eqb Pos.eqb] in E2.
  eexists. split.
  - eapply scan_all_app; [exact E1|]. cbn [scan_all]. unfold bind in E2 |- *. rewrite E3 in E2. rewrite E2. reflexivity.
  - rewrite <-drop_drop, Edrop. cbn [drop]. destruct Hs3 as (Hu & Hset & Hbuf & Hp & Hi & Ht).
    split_and!; cbn [port_s buffer_set Buffer_s pointer index target]; try done.
    + by rewrite Hbuf, app_nil_l, <-!app_assoc.
    + by rewrite app_nil_r.
Qed.

(** What is not read slowly enough is lost: of the characters that arrive
    before [do_scanf] looks at the port only the last one is returned and put into
    the buffer.  And the buffer is used only once: when its 1000 places are full,
    the next character is written behind it. *)
Theorem scanf_limits fuel b ch pre line rest later t s :
  (length b + 1 < fuel)%nat -> foldl (fun _ c => to_char c) 0 b = ch -> ch <> 0 -> ch <> 13 -> len (pre ++ line) + 1 < 2 ^ 31 ->
  reading pre line rest (b :: [] :: later) t s ->
  match rest with
  | [] => do_scanf fuel s = Fault OutOfBounds
  | _ :: rest => exists s', do_scanf fuel s = Ok (ch, s') /\ reading pre (line ++ [ch]) rest later t s'
  end.
Proof.
  intros Hf Hb H0 H13 Hl Hs. destruct rest as [|c0 rest].
  - destruct Hs as (Hu & Hset & Hbuf & Hp & Hi & Ht). destruct fuel as [|fuel]; [lia|]. cbn [do_scanf].
    destruct (read_burst (S fuel) b ch (port_s s) later Hf Hb H0 Hu) as (u' & E & Hu').
    unfold bind, from_port, gets, buffer_put. rewrite E, (proj2 (Z.eqb_neq _ _) H0). cbn [index buffer_set Buffer_s]. rewrite Hset, Hbuf, Hi, app_nil_r.
    unfold wr. destruct (Z.ltb_spec (len (pre ++ line)) (len (pre ++ line))); [lia|]. by rewrite andb_false_r.
  - destruct (do_scanf_read fuel b ch pre line c0 rest later t s Hf Hb H0 Hl Hs) as (s1 & Hs1 & E).
    rewrite (proj2 (Z.eqb_neq _ _) H13) in E. by exists s1.
Qed.
End scanf.

(** ** Witnesses *)

Definition demo_scanner (used : nat) (later : list (list Z)) : scanner typing :=
  mk_scanner ([], later) true (replicate used 32 ++ replicate (1000 - used) 0) 1000 0 (Z.of_nat used) (Z.of_nat used) 7.
Lemma demo_reading used later : (used <= 1000)%nat ->
  reading (uart := typing) (replicate used 32) [] (replicate (1000 - used) 0) later 7 (demo_scanner used later).
Proof. intros Hu. split_and!; try reflexivity; cbn; rewrite ?length_app, ?length_replicate; cbn; lia. Qed.

(** The line 0x25, and the line 0x80000000, which stores nothing. *)
Definition line_25 : list Z := [48; 120; 50; 53].
Definition line_80000000 : list Z := [48; 120; 56; 48; 48; 48; 48; 48; 48; 48].
Lemma scanf_line_correct_witness :
  (exists s', scan_all 3 5 (demo_scanner 0 (slowly (line_25 ++ [13]))) = Ok (line_25 ++ [13], s') /\ target s' = 37)
  /\ exists s', scan_all 3 11 (demo_scanner 0 (slowly (line_80000000 ++ [13]))) = Ok (line_80000000 ++ [13], s') /\ target s' = 7.
Proof.
  split.
  - destruct (scanf_line_correct (uart := typing) 3 [] line_25 (replicate 1000 0) [] 7 (demo_scanner 0 (slowly (line_25 ++ [13]))))
      as (s' & E & Hs).
    + lia.
    + split; [repeat constructor; lia|]. exists [2; 5]. split; [reflexivity|]. repeat constructor; lia.
    + cbn. lia.
    + rewrite length_replicate. reflexivity.
    + rewrite app_nil_r. exact (demo_reading 0 (slowly (line_25 ++ [13])) ltac:(lia)).
    + exists s'. split; [exact E|]. destruct Hs as (_ & _ & _ & _ & _ & Ht). exact Ht.
  - destruct (scanf_line_correct (uart := typing) 3 [] line_80000000 (replicate 1000 0) [] 7 (demo_scanner 0 (slowly (line_80000000 ++ [13]))))
      as (s' & E & Hs).
    + lia.
    + split; [repeat constructor; lia|]. exists [8; 0; 0; 0; 0; 0; 0; 0]. split; [reflexivity|]. repeat constructor; lia.
    + cbn. lia.
    + rewrite length_replicate. reflexivity.
    + rewrite app_nil_r. exact (demo_reading 0 (slowly (line_80000000 ++ [13])) ltac:(lia)).
    + exists s'. split; [exact E|]. destruct Hs as (_ & _ & _ & _ & _ & Ht). exact Ht.
Defined.
Lemma scanf_limits_witness :
  do_scanf 5 (demo_scanner 1000 [[97; 98]; []]) = Fault OutOfBounds.
Proof.
  refine (scanf_limits (uart := typing) 5 [97; 98] 98 (replicate 1000 32) [] [] [] 7 (demo_scanner 1000 [[97; 98]; []]) _ _ _ _ _ _).
  - cbn. lia.
  - reflexivity.
  - discriminate.
  - discriminate.
  - rewrite length_app, length_replicate. reflexivity.
  - exact (demo_reading 1000 [[97; 98]; []] ltac:(lia)).
Defined.
