(* ===== verification/Shell.v ===== *)
(** The shell: test/test_shell.c, the first user task.

    It collects the characters that are typed in a buffer; at the end of a line it
    compares the line with the commands, one after the other, and makes the system
    calls of the first one that fits. *)

From Stdlib Require Import Ascii String.
From S2P Require Import Prelude Wp Kernel CString FsData Printk Syscall Scanf.

Definition MAX_PARAMETER_LENGTH : Z := 20.
Definition MAX_PARAMETER_NUM : Z := 10.
Definition num_test_tasks : Z := 24.

(** The text of a C string, without its end mark. *)
Definition text (s : string) : list Z := map (fun a => Z.of_nat (nat_of_ascii a)) (list_ascii_of_string s).

(** ** The commands *)

#[local] Open Scope string_scope.
#[local] Open Scope list_scope.
#[local] Open Scope Z_scope.

Inductive command :=
| Cmd_ps | Cmd_clear | Cmd_exec | Cmd_kill | Cmd_mkfs | Cmd_statfs | Cmd_cd | Cmd_mkdir | Cmd_rmdir | Cmd_ls
| Cmd_touch | Cmd_cat | Cmd_find | Cmd_rename | Cmd_symlink | Cmd_link | Cmd_pwd | Cmd_dump | Cmd_du | Cmd_df
| Cmd_diff | Cmd_wc | Cmd_rm | Cmd_mv | Cmd_cp | Cmd_chmod | Cmd_man.

#[export] Instance command_eq_dec : EqDecision command.
Proof. solve_decision. Defined.

(** The tests, in their order. *)
Definition commands : list (string * command) := [
  ("ps", Cmd_ps); ("clear", Cmd_clear); ("exec ", Cmd_exec); ("kill ", Cmd_kill); ("mkfs", Cmd_mkfs); ("statfs", Cmd_statfs);
  ("cd ", Cmd_cd); ("mkdir ", Cmd_mkdir); ("rmdir ", Cmd_rmdir); ("ls", Cmd_ls); ("touch ", Cmd_touch); ("cat ", Cmd_cat);
  ("find ", Cmd_find); ("rename ", Cmd_rename); ("ln -s ", Cmd_symlink); ("ln ", Cmd_link); ("pwd", Cmd_pwd); ("dump", Cmd_dump);
  ("du", Cmd_du); ("df", Cmd_df); ("diff ", Cmd_diff); ("wc ", Cmd_wc); ("rm ", Cmd_rm); ("mv ", Cmd_mv); ("cp ", Cmd_cp);
  ("chmod ", Cmd_chmod); ("man ", Cmd_man)].

(** The [&&] of the comparisons of one character each. *)
Fixpoint matches (m : mem) (p : Z) (w : list Z) : outcome bool :=
  match w with
  | [] => Ok true
  | c :: w' => try! x := rd m p in if x =? c then matches m (p + 1) w' else Ok false
  end.
Definition takes_number (c : command) : bool := match c with Cmd_exec | Cmd_kill => true | _ => false end.
(** The first command that fits the line at [p], the place behind its word, and
    its number; [k] is an [int] and [num_test_tasks] unsigned. *)
Fixpoint find_command (l : list (string * command)) (m : mem) (p : Z) : outcome (option (command * Z * Z)) :=
  match l with
  | [] => Ok None
  | (w, c) :: l' =>
      try! b := matches m p (text w) in
      if b then
        if takes_number c then
          try! n := atoi m (p + len (text w)) in
          let k := i32 n in
          if (k >=? 0) && (u32 k <=? u32 (num_test_tasks - 1)) then Ok (Some (c, p + len (text w), k)) else find_command l' m p
        else Ok (Some (c, p + len (text w), 0))
      else find_command l' m p
  end.

Definition status_type_to_string (status : task_status_t) : string :=
  match status with
  | TASK_BLOCKED => "TASK_BLOCKED" | TASK_RUNNING => "TASK_RUNNING" | TASK_READY => "TASK_READY"
  | TASK_EXITED => "TASK_EXITED" | TASK_CREATED => "TASK_CREATED" | TASK_SLEEPING => "TASK_SLEEPING"
  end.

(** ** The shell and the system around it *)

(** System calls (the kernel sees the memory of the shell), [printf], and what the
    shell shares with the kernel: the cursor, the table of [ps], the buffers of
    [ls] and [cat], which printing leaves alone. *)
Class System (world : Type) := {
  system : user_call -> mem -> mem -> world -> Z * world;
  print : string -> list arg -> world -> world;
  shared_cursor : world -> Z * Z;
  set_shared_cursor : Z * Z -> world -> world;
  shown : world -> list process_show_t;
  clear_shown : Z -> world -> world;
  listed : world -> mem;
  cat_text : world -> mem;
  print_keeps fmt args w : shown (print fmt args w) = shown w /\ listed (print fmt args w) = listed w /\ cat_text (print fmt args w) = cat_text w
}.

Record shell (uart world : Type) := mk_shell {
  sh_uart : uart;
  cp0_status_bits : Z;
  Buffer : mem;
  sh_input_length : Z;
  sh_pointer : Z;
  sh_i : Z;
  param_buffer : mem;
  sh_world : world
}.
Arguments mk_shell {uart world}.
Arguments sh_uart {uart world}.
Arguments cp0_status_bits {uart world}.
Arguments Buffer {uart world}.
Arguments sh_input_length {uart world}.
Arguments sh_pointer {uart world}.
Arguments sh_i {uart world}.
Arguments param_buffer {uart world}.
Arguments sh_world {uart world}.

Section shell.
Context {uart world : Type} `{Uart uart} `{System world}.
(** The addresses of the buffers and of the descriptions of the test programs. *)
Context (buffer_addr param_addr : Z) (test_tasks : Z -> Z).

Definition Sh := M (shell uart world).
Definition set_status_bits (x : Z) : Sh unit := modify (fun s =>
  mk_shell (sh_uart s) x (Buffer s) (sh_input_length s) (sh_pointer s) (sh_i s) (param_buffer s) (sh_world s)).
Definition set_buffer (b : mem) : Sh unit := modify (fun s =>
  mk_shell (sh_uart s) (cp0_status_bits s) b (sh_input_length s) (sh_pointer s) (sh_i s) (param_buffer s) (sh_world s)).
Definition set_places (n p i : Z) : Sh unit := modify (fun s =>
  mk_shell (sh_uart s) (cp0_status_bits s) (Buffer s) n p i (param_buffer s) (sh_world s)).
Definition set_params (b : mem) : Sh unit := modify (fun s =>
  mk_shell (sh_uart s) (cp0_status_bits s) (Buffer s) (sh_input_length s) (sh_pointer s) (sh_i s) b (sh_world s)).
Definition in_world {A} (f : world -> A * world) : Sh A := fun s =>
  let (a, w) := f (sh_world s) in
  Ok (a, mk_shell (sh_uart s) (cp0_status_bits s) (Buffer s) (sh_input_length s) (sh_pointer s) (sh_i s) (param_buffer s) w).
Definition call (u : user_call) : Sh Z := fun s => in_world (system u (Buffer s) (param_buffer s)) s.
Definition do_call (u : user_call) : Sh unit := let! _ := call u in ret tt.
Definition printf (fmt : string) (args : list arg) : Sh unit := in_world (fun w => (tt, print fmt args w)).
Definition from_uart {A} (m : M uart A) : Sh A := fun s =>
  match m (sh_uart s) with
  | Ok (a, u) => Ok (a, mk_shell u (cp0_status_bits s) (Buffer s) (sh_input_length s) (sh_pointer s) (sh_i s) (param_buffer s) (sh_world s))
  | Fault f => Fault f
  end.

Definition newline : string := String (ascii_of_nat 10) EmptyString.
Definition prompt : Sh unit := printf "> root@UCAS_OS: " [].

Definition disable_interrupt : Sh unit := let! x := gets cp0_status_bits in set_status_bits (Z.land x 0xfffffffe).
Definition enable_interrupt : Sh unit := let! x := gets cp0_status_bits in set_status_bits (Z.lor x 1).
(** The same function as in libs/scanf.c. *)
Definition read_uart_ch (fuel : nat) : M uart Z := drain fuel 0.

Definition init_InputBuffer : Sh unit := let! i := gets sh_i in set_places 0 0 i.
Definition init_ProcessShow : Sh unit := for_range 20 0 (fun i => in_world (fun w => (tt, clear_shown i w))).

(** *** Arguments of commands *)

Fixpoint handle_loop (n : nat) (m : mem) (p : Z) : outcome mem :=
  match n with
  | O => Ok m
  | S n' => try! c := rd m p in if c =? 13 then wr m p 0 else handle_loop n' m (p + 1)
  end.
(** [name] is a place in the buffer. *)
Definition handle_input (name : Z) : Sh unit :=
  let! m := gets Buffer in
  let! m := lift (handle_loop (Z.to_nat MAX_PATH_LENGTH) m name) in
  set_buffer m.

(** [param_buffer[j].param[k]]. *)
Definition param_place (j k : Z) : Z := j * MAX_PARAMETER_LENGTH + k.
Fixpoint separate_loop (n : nat) (m : mem) (p j k : Z) (b : mem) : outcome mem :=
  match n with
  | O => Ok b
  | S n' =>
      try! c := rd m p in
      if c =? 0 then wr b (param_place j k) 0
      else if c =? 32 then
        try! b := wr b (param_place j k) 0 in
        separate_loop n' m (p + 1) (j + 1) 0 b
      else
        try! b := wr b (param_place j k) c in
        separate_loop n' m (p + 1) j (k + 1) b
  end.
Definition separate_params (param : Z) : Sh unit :=
  let! m := gets Buffer in
  let! b := lift (separate_loop (Z.to_nat INPUT_BUFFER_MAX_LENGTH) m param 0 0
    (replicate (Z.to_nat (MAX_PARAMETER_NUM * MAX_PARAMETER_LENGTH)) 0)) in
  set_params b.

(** *** Running a command *)

Definition path_call (p : Z) (f : Z -> user_call) : Sh unit :=
  do! handle_input p;
  do_call (f (buffer_addr + p)).
Definition two_params (p : Z) : Sh unit := do! handle_input p; separate_params p.
Definition params_call (p : Z) (f : Z -> Z -> user_call) : Sh unit :=
  do! two_params p;
  do_call (f param_addr (param_addr + MAX_PARAMETER_LENGTH)).

(** The lists end with an entry that is marked; their arrays have 40, 10 and
    20480 entries. *)
Fixpoint ps_loop (fuel : nat) (j : Z) : Sh unit :=
  match fuel with
  | O => throw Diverges
  | S fuel' =>
      let! w := gets sh_world in
      let! e := lift (rd (shown w) j) in
      if show_num e >=? 0 then
        do! printf (String.append "[%d] PID : %d STATUS : %s" newline) [AInt (show_num e); AInt (show_pid e); AStr (text (status_type_to_string (show_status e)))];
        ps_loop fuel' (j + 1)
      else ret tt
  end.
Fixpoint ls_loop (fuel : nat) (j : Z) : Sh unit :=
  match fuel with
  | O => throw Diverges
  | S fuel' =>
      let! w := gets sh_world in
      let name := DENTRY_SIZE * j + 4 in
      let! c := lift (rd (listed w) name) in
      if c =? 0 then ret tt
      else
        let! n := lift (strlen (listed w) name) in
        let! s := lift (slice (listed w) name n) in
        do! printf "  %s" [AStr s];
        ls_loop fuel' (j + 1)
  end.
Fixpoint cat_loop (fuel : nat) (j : Z) : Sh unit :=
  match fuel with
  | O => throw Diverges
  | S fuel' =>
      let! w := gets sh_world in
      let! c := lift (rd (cat_text w) j) in
      if c =? 0 then ret tt else do! printf "%c" [AInt c]; cat_loop fuel' (j + 1)
  end.

Definition exec_task (k : Z) : Sh unit :=
  do! printf (String.append "exec test_tasks[%d]." newline) [AInt k];
  let! w := gets sh_world in
  let saved := shared_cursor w in
  do! do_call (U_sys_spawn (test_tasks k));
  in_world (fun w => (tt, set_shared_cursor saved w)).
Definition run_body (c : command) (p k : Z) : Sh unit :=
  match c with
  | Cmd_ps => do! do_call U_sys_ps; do! printf (String.append "[PROCESS TABLE]" newline) []; ps_loop 41 0
  | Cmd_clear => do! do_call U_sys_screen_clear; do! do_call (U_sys_move_cursor 1 15);
      printf (String.append "-----------------COMMAND-------------------" newline) []
  | Cmd_exec => exec_task k
  | Cmd_kill => do! printf (String.append "kill process PID = %d" newline) [AInt k]; do_call (U_sys_kill k)
  | Cmd_mkfs => do_call U_sys_mkfs
  | Cmd_statfs => do_call U_sys_statfs
  | Cmd_cd => path_call p U_sys_cd
  | Cmd_mkdir => path_call p U_sys_mkdir
  | Cmd_rmdir => path_call p U_sys_rmdir
  | Cmd_ls => do! do_call U_sys_ls; do! ls_loop 11 0; printf newline []
  | Cmd_touch => path_call p U_sys_touch
  | Cmd_cat => do! path_call p U_sys_cat; do! printf (String.append "cat output:" newline) []; cat_loop (S (Z.to_nat CAT_MAX_LENGTH)) 0
  | Cmd_find => do! two_params p;
      let! r := call (U_sys_find param_addr (param_addr + MAX_PARAMETER_LENGTH)) in
      if r =? 1 then printf (String.append "Exist in the directory" newline) [] else printf (String.append "Not exist in the directory" newline) []
  | Cmd_rename => params_call p U_sys_rename
  | Cmd_symlink => params_call p U_sys_symlink
  | Cmd_link => params_call p U_sys_link
  | Cmd_pwd => do_call U_sys_pwd
  | Cmd_dump => ret tt
  | Cmd_du => do_call U_sys_du
  | Cmd_df => do_call U_sys_df
  | Cmd_diff => params_call p U_sys_diff
  | Cmd_wc => path_call p U_sys_wc
  | Cmd_rm => path_call p U_sys_rm
  | Cmd_mv => params_call p U_sys_mv
  | Cmd_cp => params_call p U_sys_cp
  | Cmd_chmod => path_call p U_sys_chmod
  | Cmd_man => path_call p U_sys_man
  end.
Definition run_command (c : command) (p k : Z) : Sh unit := do! run_body c p k; prompt.

Definition shell_line : Sh unit :=
  let! m := gets Buffer in
  let! p := gets sh_pointer in
  let! r := lift (find_command commands m p) in
  do! (match r with Some (c, q, k) => run_command c q k | None => ret tt end);
  let! n := gets sh_input_length in
  let! i := gets sh_i in
  set_places n i i.
Definition handle_char (ch : Z) : Sh unit :=
  do! printf "%c" [AInt ch];
  let! m := gets Buffer in
  let! i := gets sh_i in
  let! m := lift (wr m i ch) in
  do! set_buffer m;
  let! n := gets sh_input_length in
  let! p := gets sh_pointer in
  do! set_places (i32 (n + 1)) p (i32 (i + 1));
  if ch =? 13 then shell_line else ret tt.

Definition shell_start : Sh unit :=
  do! do_call (U_sys_move_cursor 1 50);
  do! printf (String.append "-----------------COMMAND-------------------" newline) [];
  do! prompt;
  let! n := gets sh_input_length in
  let! p := gets sh_pointer in
  do! set_places n p 0;
  do! init_InputBuffer;
  init_ProcessShow.
(** One round of the loop, which never ends. *)
Definition shell_round (fuel : nat) : Sh unit :=
  do! disable_interrupt;
  let! ch := from_uart (read_uart_ch fuel) in
  do! enable_interrupt;
  if ch =? 0 then ret tt else handle_char ch.
Fixpoint shell_rounds (rounds fuel : nat) : Sh unit :=
  match rounds with
  | O => ret tt
  | S rounds' => do! shell_round fuel; shell_rounds rounds' fuel
  end.
Definition test_shell (rounds fuel : nat) : Sh unit := do! shell_start; shell_rounds rounds fuel.
End shell.

(** ** What the commands mean *)

Section meaning.
Context {world : Type} `{System world}.
Context (buffer_addr param_addr : Z) (test_tasks : Z -> Z).

Definition simple_commands : list (string * command * user_call) :=
  [("mkfs", Cmd_mkfs, U_sys_mkfs); ("statfs", Cmd_statfs, U_sys_statfs); ("pwd", Cmd_pwd, U_sys_pwd); ("du", Cmd_du, U_sys_du); ("df", Cmd_df, U_sys_df)].
Definition path_commands : list (string * command * (Z -> user_call)) :=
  [("cd ", Cmd_cd, U_sys_cd); ("mkdir ", Cmd_mkdir, U_sys_mkdir); ("rmdir ", Cmd_rmdir, U_sys_rmdir); ("touch ", Cmd_touch, U_sys_touch);
   ("wc ", Cmd_wc, U_sys_wc); ("rm ", Cmd_rm, U_sys_rm); ("chmod ", Cmd_chmod, U_sys_chmod); ("man ", Cmd_man, U_sys_man)].
Definition param_commands : list (string * command * (Z -> Z -> user_call)) :=
  [("rename ", Cmd_rename, U_sys_rename); ("ln -s ", Cmd_symlink, U_sys_symlink); ("diff ", Cmd_diff, U_sys_diff);
   ("mv ", Cmd_mv, U_sys_mv); ("cp ", Cmd_cp, U_sys_cp); ("ln ", Cmd_link, U_sys_link)].

(** Characters of a word: no end of line, no end mark, no blank. *)
Definition word_char (c : Z) : Prop := 0 < c < 128 /\ c <> 13 /\ c <> 32.
Definition path_char (c : Z) : Prop := 0 < c < 128 /\ c <> 13.
(** [param_buffer] with two words in it. *)
Definition params_of (a b : list Z) : mem :=
  a ++ replicate (20 - length a) 0 ++ b ++ replicate (180 - length b) 0.
Definition two_words (a b : list Z) : Prop :=
  Forall word_char a /\ Forall word_char b /\ len a < MAX_PARAMETER_LENGTH /\ len b < MAX_PARAMETER_LENGTH.
Definition number_text (ds : list Z) : Prop := Forall (fun d => 0 <= d <= 9) ds /\ ds <> [].

(** What is printed. *)
Definition echo (x : world) (c : Z) : world := print "%c" [AInt c] x.
Definition prompted (x : world) : world := print "> root@UCAS_OS: " [] x.
Definition show_process (x : world) (e : process_show_t) : world :=
  print (String.append "[%d] PID : %d STATUS : %s" newline)
    [AInt (show_num e); AInt (show_pid e); AStr (text (status_type_to_string (show_status e)))] x.
Definition show_name (x : world) (name : list Z) : world := print "  %s" [AStr name] x.

(** The table of [ps] has these entries before its end mark; the buffer of [ls]
    these names; the buffer of [cat] this text. *)
Definition processes_are (x : world) (es : list process_show_t) : Prop :=
  len es <= 40 /\ exists e rest, shown x = es ++ e :: rest /\ Forall (fun e => 0 <= show_num e) es /\ show_num e < 0.
Definition names_are (x : world) (names : list (list Z)) : Prop :=
  len names <= 10 /\ rd (listed x) (DENTRY_SIZE * len names + 4) = Ok 0
  /\ forall j name, names !! j = Some name -> name <> [] /\ cstr (listed x) (DENTRY_SIZE * Z.of_nat j + 4) name.
Definition cat_text_is (x : world) (t : list Z) : Prop :=
  len t <= CAT_MAX_LENGTH /\ exists rest, cat_text x = t ++ 0 :: rest /\ Forall (fun c => c <> 0) t.

(** [line_effect pos line left params eff]: the line typed at place [pos] of the
    buffer is left there as [left], with [param_buffer] changed by [params]; [eff]
    relates the world before and after it, given the two buffers. *)
Inductive line_effect (pos : Z) : list Z -> list Z -> (mem -> mem) -> (mem -> mem -> world -> world -> Prop) -> Prop :=
| effect_simple w c u : (w, c, u) ∈ simple_commands ->
    line_effect pos (text w) (text w ++ [13]) id (fun b pr x x' => x' = prompted (snd (system u b pr x)))
| effect_path w c f path : (w, c, f) ∈ path_commands -> Forall path_char path -> len path < MAX_PATH_LENGTH ->
    line_effect pos (text w ++ path) (text w ++ path ++ [0]) id
      (fun b pr x x' => x' = prompted (snd (system (f (buffer_addr + (pos + len (text w)))) b pr x)))
| effect_params w c f a b : (w, c, f) ∈ param_commands -> two_words a b -> (w = "ln " -> a <> text "-s") ->
    line_effect pos (text w ++ a ++ 32 :: b) (text w ++ (a ++ 32 :: b) ++ [0]) (fun _ => params_of a b)
      (fun m pr x x' => x' = prompted (snd (system (f param_addr (param_addr + MAX_PARAMETER_LENGTH)) m pr x)))
| effect_kill ds : number_text ds -> value 10 ds < num_test_tasks ->
    line_effect pos (text "kill " ++ digit_text ds) (text "kill " ++ digit_text ds ++ [13]) id
      (fun b pr x x' => x' = prompted (snd (system (U_sys_kill (value 10 ds)) b pr
        (print (String.append "kill process PID = %d" newline) [AInt (value 10 ds)] x))))
| effect_exec ds : number_text ds -> value 10 ds < num_test_tasks ->
    line_effect pos (text "exec " ++ digit_text ds) (text "exec " ++ digit_text ds ++ [13]) id
      (fun b pr x x' =>
        let x := print (String.append "exec test_tasks[%d]." newline) [AInt (value 10 ds)] x in
        x' = prompted (set_shared_cursor (shared_cursor x) (snd (system (U_sys_spawn (test_tasks (value 10 ds))) b pr x))))
| effect_ps : line_effect pos (text "ps") (text "ps" ++ [13]) id
      (fun b pr x x' => let x := snd (system U_sys_ps b pr x) in
        exists es, processes_are x es /\ x' = prompted (foldl show_process (print (String.append "[PROCESS TABLE]" newline) [] x) es))
| effect_clear : line_effect pos (text "clear") (text "clear" ++ [13]) id
      (fun b pr x x' => let x := snd (system (U_sys_move_cursor 1 15) b pr (snd (system U_sys_screen_clear b pr x))) in
        x' = prompted (print (String.append "-----------------COMMAND-------------------" newline) [] x))
| effect_dump : line_effect pos (text "dump") (text "dump" ++ [13]) id (fun b pr x x' => x' = prompted x)
| effect_ls : line_effect pos (text "ls") (text "ls" ++ [13]) id
      (fun b pr x x' => let x := snd (system U_sys_ls b pr x) in
        exists names, names_are x names /\ x' = prompted (print newline [] (foldl show_name x names)))
| effect_cat path : Forall path_char path -> len path < MAX_PATH_LENGTH ->
    line_effect pos (text "cat " ++ path) (text "cat " ++ path ++ [0]) id
      (fun b pr x x' => let x := snd (system (U_sys_cat (buffer_addr + (pos + len (text "cat ")))) b pr x) in
        exists t, cat_text_is x t /\ x' = prompted (foldl echo (print (String.append "cat output:" newline) [] x) t))
| effect_find a b : two_words a b ->
    line_effect pos (text "find " ++ a ++ 32 :: b) (text "find " ++ (a ++ 32 :: b) ++ [0]) (fun _ => params_of a b)
      (fun m pr x x' => let (r, x) := system (U_sys_find param_addr (param_addr + MAX_PARAMETER_LENGTH)) m pr x in
        x' = prompted (print (String.append (if r =? 1 then "Exist in the directory" else "Not exist in the directory") newline) [] x))
| effect_refused w ds : w = "kill " \/ w = "exec " -> number_text ds -> num_test_tasks <= value 10 ds < 2 ^ 31 ->
    line_effect pos (text w ++ digit_text ds) ((text w ++ digit_text ds) ++ [13]) id (fun b pr x x' => x' = x)
| effect_unknown line : Forall (fun wc => ~ text (fst wc) `prefix_of` line) commands ->
    line_effect pos line (line ++ [13]) id (fun b pr x x' => x' = x).
End meaning.
#[local] Close Scope string_scope.

(** ** Finding the command *)

Lemma matches_line w : forall pre line rest, 13 ∉ w ->
  matches (pre ++ line ++ 13 :: rest) (len pre) w = Ok (bool_decide (w `prefix_of` line)).
Proof.
  induction w as [|c w IH]; intros pre line rest Hw; cbn [matches]; [by rewrite bool_decide_true by apply prefix_nil|].
  apply not_elem_of_cons in Hw as [Hc Hw]. destruct line as [|x line]; cbn [app].
  - rewrite rd_at by done. cbn [obind]. rewrite (proj2 (Z.eqb_neq _ _)) by done. rewrite bool_decide_false; [done|]. by intros [k [=]].
  - rewrite rd_at by done. cbn [obind]. destruct (Z.eqb_spec x c) as [->|Hne].
    + replace (pre ++ c :: line ++ 13 :: rest) with ((pre ++ [c]) ++ line ++ 13 :: rest) by by rewrite <-app_assoc.
      replace (len pre + 1) with (len (pre ++ [c])) by (rewrite length_app; cbn; lia). rewrite IH by done. f_equal.
      apply bool_decide_ext. split; [by apply prefix_cons|by intros ?%prefix_cons_inv_2].
    + rewrite bool_decide_false; [done|]. intros Hp%prefix_cons_inv_1. congruence.
Qed.

(** The two words differ at a place that both have. *)
Fixpoint apart (a b : list Z) : bool :=
  match a, b with x :: a, y :: b => if x =? y then apart a b else true | _, _ => false end.
Lemma apart_prefix a b path : apart a b = true -> ~ a `prefix_of` b ++ path.
Proof.
  revert b. induction a as [|x a IH]; intros [|y b]; cbn; try done. destruct (Z.eqb_spec x y) as [->|Hne].
  - intros Ha Hp%prefix_cons_inv_2. by apply (IH b).
  - intros _ Hp%prefix_cons_inv_1. congruence.
Qed.
(** No command before this one fits a line that begins with its word, or ([exact])
    is its word. *)
Definition misses (exact : bool) (a b : list Z) : bool := if exact then negb (bool_decide (a `prefix_of` b)) else apart a b.
Lemma misses_prefix exact a b path : misses exact a b = true -> (exact = true -> path = []) -> ~ a `prefix_of` b ++ path.
Proof.
  unfold misses. destruct exact; intros Hm Hp; [|by apply apart_prefix]. rewrite Hp, app_nil_r by done.
  intros Hpre. by rewrite bool_decide_true in Hm.
Qed.
Fixpoint reached (exact : bool) (l : list (string * command)) (w : string) (c : command) : bool :=
  match l with
  | [] => false
  | (w', c') :: l' =>
      forallb (fun x => negb (x =? 13)) (text w')
      && (if String.eqb w' w then bool_decide (c' = c) else misses exact (text w') (text w) && reached exact l' w c)
  end.

Lemma no_return_word w : forallb (fun x => negb (x =? 13)) w = true -> 13 ∉ w.
Proof. intros Hf Hin. rewrite forallb_forall in Hf. apply list_elem_of_In in Hin. by apply Hf in Hin. Qed.

Lemma find_command_reached exact l w c pre path rest k :
  reached exact l w c = true -> (exact = true -> path = []) ->
  (if takes_number c then atoi (pre ++ (text w ++ path) ++ 13 :: rest) (len pre + len (text w)) = Ok k /\ 0 <= k < num_test_tasks else k = 0) ->
  find_command l (pre ++ (text w ++ path) ++ 13 :: rest) (len pre) = Ok (Some (c, len pre + len (text w), k)).
Proof.
  intros Hr Hp Hk. induction l as [|[w' c'] l IH]; [done|]. cbn [reached] in Hr. apply andb_prop in Hr as [H13 Hr]. cbn [find_command].
  rewrite matches_line by by apply no_return_word. cbn [obind]. destruct (String.eqb_spec w' w) as [->|Hne].
  - apply bool_decide_eq_true in Hr as ->. rewrite bool_decide_true by by exists path. destruct (takes_number c); [|by subst].
    destruct Hk as [-> Hk]. cbn [obind]. unfold num_test_tasks in *. rewrite i32_small by lia.
    destruct (Z.geb_spec k 0); [|lia]. unfold u32. rewrite !Z.mod_small by lia. destruct (Z.leb_spec k (24 - 1)); [done|lia].
  - apply andb_prop in Hr as [Ha Hr]. rewrite bool_decide_false by by apply (misses_prefix exact). by apply IH.
Qed.

(** The commands that do not fit. *)
Lemma find_command_misses l l' pre line rest :
  Forall (fun wc => (13 ∉ text (fst wc)) /\ ~ text (fst wc) `prefix_of` line) l ->
  find_command (l ++ l') (pre ++ line ++ 13 :: rest) (len pre) = find_command l' (pre ++ line ++ 13 :: rest) (len pre).
Proof.
  induction 1 as [|[w c] l [H13 Hp] Hl IH]; [done|]. cbn [app find_command fst] in *. rewrite matches_line by done. cbn [obind].
  by rewrite bool_decide_false by done.
Qed.
Lemma commands_no_return : Forall (fun wc => 13 ∉ text (fst wc)) commands.
Proof.
  assert (forallb (fun wc => forallb (fun x => negb (x =? 13)) (text (fst wc))) commands = true) as Hf by (vm_compute; reflexivity).
  rewrite forallb_forall in Hf. apply Forall_forall. intros wc Hin. apply no_return_word, Hf. by apply list_elem_of_In.
Qed.
Lemma find_unknown pre line rest : Forall (fun wc => ~ text (fst wc) `prefix_of` line) commands ->
  find_command commands (pre ++ line ++ 13 :: rest) (len pre) = Ok None.
Proof.
  intros Hl. rewrite <-(app_nil_r commands), find_command_misses; [done|]. apply Forall_and. split; [apply commands_no_return|done].
Qed.

(** A word followed by a blank, behind another one. *)
Lemma word_prefix a b d : Forall word_char a -> Forall word_char b -> (a ++ [32]) `prefix_of` (b ++ 32 :: d) -> a = b.
Proof.
  revert b. induction a as [|x a IH]; intros [|y b] Ha Hb Hp; cbn [app] in Hp; [done|..].
  - apply prefix_cons_inv_1 in Hp as <-. by apply Forall_cons in Hb as [(_ & _ & ?) _].
  - apply prefix_cons_inv_1 in Hp as ->. by apply Forall_cons in Ha as [(_ & _ & ?) _].
  - apply Forall_cons in Ha as [_ Ha], Hb as [_ Hb]. pose proof (prefix_cons_inv_1 _ _ _ _ Hp) as ->.
    apply prefix_cons_inv_2 in Hp. f_equal. by apply IH.
Qed.
Lemma find_link a b pre rest : two_words a b -> a <> text "-s"%string ->
  find_command commands (pre ++ (text "ln "%string ++ a ++ 32 :: b) ++ 13 :: rest) (len pre)
  = Ok (Some (Cmd_link, len pre + len (text "ln "%string), 0)).
Proof.
  intros (Ha & Hb & _) Hne. rewrite <-(take_drop 15 commands), find_command_misses.
  - change (drop 15 commands) with (("ln "%string, Cmd_link) :: drop 16 commands). cbn [find_command].
    rewrite matches_line by (apply no_return_word; reflexivity). cbn [obind]. rewrite bool_decide_true by by exists (a ++ 32 :: b). done.
  - apply Forall_and. split; [apply Forall_take, commands_no_return|].
    change (take 15 commands) with (take 14 commands ++ [("ln -s "%string, Cmd_symlink)]). apply Forall_app. split.
    + assert (forallb (fun wc => apart (text (fst wc)) (text "ln "%string)) (take 14 commands) = true) as Hf by (vm_compute; reflexivity).
      rewrite forallb_forall in Hf. apply Forall_forall. intros wc Hin. apply apart_prefix, Hf. by apply list_elem_of_In.
    + apply Forall_singleton. cbn [fst]. change (text "ln -s "%string) with (text "ln "%string ++ text "-s"%string ++ [32]).
      intros Hp%prefix_app_inv. apply Hne. symmetry. apply (word_prefix _ _ b); [|done|done]. repeat constructor; discriminate.
Qed.
(** A number that is too large for [kill] and [exec]. *)
Lemma find_command_apart l' w pre path rest :
  forallb (fun wc => forallb (fun x => negb (x =? 13)) (text (fst wc)) && apart (text (fst wc)) (text w)) l' = true ->
  find_command l' (pre ++ (text w ++ path) ++ 13 :: rest) (len pre) = Ok None.
Proof.
  intros Hf. rewrite <-(app_nil_r l'), find_command_misses; [done|]. rewrite forallb_forall in Hf. apply Forall_forall. intros wc Hin.
  apply list_elem_of_In in Hin. apply Hf, andb_prop in Hin as [H1 H2]. split; [by apply no_return_word|by apply apart_prefix].
Qed.
Lemma find_refused w pre ds rest k :
  w = "kill "%string \/ w = "exec "%string -> atoi (pre ++ (text w ++ digit_text ds) ++ 13 :: rest) (len pre + len (text w)) = Ok k ->
  num_test_tasks <= k < 2 ^ 31 -> find_command commands (pre ++ (text w ++ digit_text ds) ++ 13 :: rest) (len pre) = Ok None.
Proof.
  unfold num_test_tasks. intros Hw Hk Hr.
  assert (exists n c, commands = take n commands ++ (w, c) :: drop (S n) commands /\ takes_number c = true
    /\ forallb (fun wc => forallb (fun x => negb (x =? 13)) (text (fst wc)) && apart (text (fst wc)) (text w)) (take n commands) = true
    /\ forallb (fun wc => forallb (fun x => negb (x =? 13)) (text (fst wc)) && apart (text (fst wc)) (text w)) (drop (S n) commands) = true
    /\ 13 ∉ text w) as (n & c & E & Hc & H1 & H2 & H3).
  { destruct Hw as [->| ->]; [exists 3%nat, Cmd_kill|exists 2%nat, Cmd_exec];
      (split; [reflexivity|]; split; [reflexivity|]; split; [vm_compute; reflexivity|]; split; [vm_compute; reflexivity|]; by apply no_return_word). }
  rewrite E, find_command_misses.
  - cbn [find_command]. rewrite matches_line by done. cbn [obind]. rewrite bool_decide_true by by exists (digit_text ds). rewrite Hc, Hk. cbn [obind].
    rewrite i32_small by lia. destruct (Z.geb_spec k 0); [|lia]. unfold u32, num_test_tasks. rewrite !Z.mod_small by lia.
    destruct (Z.leb_spec k (24 - 1)); [lia|]. cbn [andb]. by apply find_command_apart.
  - rewrite forallb_forall in H1. apply Forall_forall. intros wc Hin. apply list_elem_of_In in Hin. apply H1, andb_prop in Hin as [? ?].
    split; [by apply no_return_word|by apply apart_prefix].
Qed.

(** ** The arguments *)

Lemma handle_loop_line path : forall n pre rest, Forall path_char path -> (length path < n)%nat ->
  handle_loop n (pre ++ path ++ 13 :: rest) (len pre) = Ok (pre ++ path ++ 0 :: rest).
Proof.
  induction path as [|c path IH]; intros [|n] pre rest Hp Hn; cbn [length] in Hn; try lia; cbn [handle_loop app].
  - rewrite rd_at by done. cbn [obind Z.eqb Pos.eqb]. by apply wr_at.
  - rewrite rd_at by done. cbn [obind]. apply Forall_cons in Hp as [Hc Hp]. rewrite (proj2 (Z.eqb_neq _ _)) by apply Hc.
    replace (pre ++ c :: path ++ 13 :: rest) with ((pre ++ [c]) ++ path ++ 13 :: rest) by by rewrite <-app_assoc.
    replace (len pre + 1) with (len (pre ++ [c])) by (rewrite length_app; cbn; lia). rewrite IH by (done || lia). by rewrite <-app_assoc.
Qed.

(** A word is copied to its place. *)
Lemma separate_word a : forall n pm post j k before old after,
  Forall word_char a -> param_place j k = len before -> length old = length a ->
  separate_loop (length a + n) (pm ++ a ++ post) (len pm) j k (before ++ old ++ after)
  = separate_loop n (pm ++ a ++ post) (len pm + len a) j (k + len a) (before ++ a ++ after).
Proof.
  induction a as [|c a IH]; intros n pm post j k before old after Ha Hk Hold.
  - destruct old; [|done]. cbn [length app Nat.add]. by rewrite !Z.add_0_r.
  - destruct old as [|o old]; [done|]. cbn [length] in *. apply Forall_cons in Ha as [(Hc & Hc13 & Hc32) Ha]. cbn [Nat.add separate_loop app].
    rewrite rd_at by lia. cbn [obind]. rewrite !(proj2 (Z.eqb_neq _ _)) by lia. rewrite wr_at by done. cbn [obind].
    replace (pm ++ c :: a ++ post) with ((pm ++ [c]) ++ a ++ post) by by rewrite <-app_assoc.
    replace (before ++ c :: old ++ after) with ((before ++ [c]) ++ old ++ after) by by rewrite <-app_assoc.
    replace (before ++ c :: a ++ after) with ((before ++ [c]) ++ a ++ after) by by rewrite <-app_assoc.
    replace (len pm + 1) with (len (pm ++ [c])) by (rewrite length_app; cbn; lia).
    rewrite IH; [|done|unfold param_place in *; rewrite length_app; cbn; lia|lia]. f_equal; rewrite ?length_app; cbn; lia.
Qed.

Lemma replicate_split n k (x : Z) : (k <= n)%nat -> replicate n x = replicate k x ++ replicate (n - k) x.
Proof. intros Hk. rewrite <-replicate_add. f_equal. lia. Qed.
Lemma separate_two a b pm rest n : Forall word_char a -> Forall word_char b -> (length a < 20)%nat -> (length b < 20)%nat ->
  (length a + length b + 2 <= n)%nat ->
  separate_loop n (pm ++ (a ++ 32 :: b) ++ 0 :: rest) (len pm) 0 0 (replicate 200 0) = Ok (params_of a b).
Proof.
  intros Ha Hb La Lb Hn. rewrite <-!app_assoc. cbn [app]. set (m := pm ++ a ++ 32 :: b ++ 0 :: rest).
  replace n with (length a + S (length b + S (n - length a - length b - 2)))%nat by lia.
  rewrite (replicate_split 200 (length a)) by lia. rewrite <-(app_nil_l (replicate (length a) 0 ++ _)).
  unfold m. rewrite separate_word; [|done|done|apply length_replicate]. fold m. cbn [separate_loop app].
  assert (m = (pm ++ a) ++ 32 :: b ++ 0 :: rest) as E1 by (unfold m; by rewrite <-app_assoc).
  rewrite E1 at 1. rewrite rd_at by (rewrite length_app; lia). cbn [obind Z.eqb Pos.eqb].
  rewrite (replicate_split (200 - length a) (20 - length a)) by lia. replace (200 - length a - (20 - length a))%nat with 180%nat by lia.
  destruct (20 - length a)%nat as [|d] eqn:Ed; [lia|]. change (replicate (S d) 0) with (0 :: replicate d 0). cbn [app].
  rewrite wr_at by (unfold param_place; lia). cbn [obind]. rewrite (replicate_split 180 (length b)) by lia.
  assert (m = (pm ++ a ++ [32]) ++ b ++ 0 :: rest) as E2 by (unfold m; by rewrite <-!app_assoc).
  replace (len pm + len a + 1) with (len (pm ++ a ++ [32])) by (rewrite !length_app; cbn; lia).
  change (a ++ 0 :: replicate d 0 ++ replicate (length b) 0 ++ replicate (180 - length b) 0)
    with (a ++ (0 :: replicate d 0) ++ replicate (length b) 0 ++ replicate (180 - length b) 0). rewrite (app_assoc a (0 :: replicate d 0)).
  rewrite E2, separate_word; [|done| |apply length_replicate].
  2: { unfold param_place, MAX_PARAMETER_LENGTH. rewrite length_app. cbn [length]. rewrite length_replicate. lia. }
  rewrite <-E2. assert (m = (pm ++ a ++ [32] ++ b) ++ 0 :: rest) as E3 by (unfold m; by rewrite <-!app_assoc). cbn [separate_loop].
  rewrite E3, rd_at by (rewrite !length_app; cbn; lia). cbn [obind Z.eqb].
  destruct (180 - length b)%nat as [|e] eqn:Ee; [lia|]. change (replicate (S e) 0) with (0 :: replicate e 0).
  rewrite (app_assoc (a ++ 0 :: replicate d 0) b), wr_at.
  - unfold params_of. rewrite Ed, Ee. by rewrite <-!app_assoc.
  - unfold param_place, MAX_PARAMETER_LENGTH. rewrite !length_app. cbn [length]. rewrite length_replicate. lia.
Qed.

(** ** A line *)

Section line.
Context {uart world : Type} {Huart : Uart uart} {Hsystem : System world}.
Context (buffer_addr param_addr : Z) (test_tasks : Z -> Z).

Let run := run_body (uart := uart) (world := world) buffer_addr param_addr test_tasks.

Lemma simple_run w c u : (w, c, u) ∈ simple_commands ->
  reached true commands w c = true /\ takes_number c = false /\ forall p k, run c p k = do_call u.
Proof.
  intros Hin. unfold simple_commands in Hin.
  repeat (apply elem_of_cons in Hin as [Hin|Hin]; [injection Hin as -> -> ->; split; [vm_compute; reflexivity|split; reflexivity]|]).
  by apply not_elem_of_nil in Hin.
Qed.
Lemma path_run w c f : (w, c, f) ∈ path_commands ->
  reached false commands w c = true /\ takes_number c = false /\ forall p k, run c p k = path_call buffer_addr p f.
Proof.
  intros Hin. unfold path_commands in Hin.
  repeat (apply elem_of_cons in Hin as [Hin|Hin]; [injection Hin as -> -> ->; split; [vm_compute; reflexivity|split; reflexivity]|]).
  by apply not_elem_of_nil in Hin.
Qed.
Lemma param_run w c f a b pre rest : (w, c, f) ∈ param_commands -> two_words a b -> (w = "ln "%string -> a <> text "-s"%string) ->
  find_command commands (pre ++ (text w ++ a ++ 32 :: b) ++ 13 :: rest) (len pre) = Ok (Some (c, len pre + len (text w), 0))
  /\ forall p k, run c p k = params_call param_addr p f.
Proof.
  intros Hin Hab Hln. unfold param_commands in Hin.
  do 5 (apply elem_of_cons in Hin as [Hin|Hin];
    [injection Hin as -> -> ->; split; [apply (find_command_reached false); [vm_compute; reflexivity|done|done]|reflexivity]|]).
  apply list_elem_of_singleton in Hin. injection Hin as -> -> ->. split; [|reflexivity]. apply find_link; auto.
Qed.

(** The state after a line. *)
Definition line_done (s : shell uart world) (b pr : mem) (x : world) : shell uart world :=
  mk_shell (sh_uart s) (cp0_status_bits s) b (sh_input_length s) (sh_i s) (sh_i s) pr x.
Definition body_done (s : shell uart world) (b pr : mem) (x : world) : shell uart world :=
  mk_shell (sh_uart s) (cp0_status_bits s) b (sh_input_length s) (sh_pointer s) (sh_i s) pr x.

Lemma shell_line_runs s c q k b pr x :
  find_command commands (Buffer s) (sh_pointer s) = Ok (Some (c, q, k)) -> run c q k s = Ok (tt, body_done s b pr x) ->
  shell_line buffer_addr param_addr test_tasks s = Ok (tt, line_done s b pr (prompted x)).
Proof.
  intros Hf Hr. unfold shell_line, bind, gets, lift. rewrite Hf. unfold run_command, bind. unfold run in Hr. rewrite Hr. reflexivity.
Qed.
Lemma do_call_spec u s : do_call u s =
  Ok (tt, body_done s (Buffer s) (param_buffer s) (snd (system u (Buffer s) (param_buffer s) (sh_world s)))).
Proof. unfold do_call, bind, call, in_world. by destruct (system _ _ _ _). Qed.
Lemma handle_input_spec s pre path rest : Buffer s = pre ++ path ++ 13 :: rest -> Forall path_char path -> len path < MAX_PATH_LENGTH ->
  handle_input (len pre) s = Ok (tt, body_done s (pre ++ path ++ 0 :: rest) (param_buffer s) (sh_world s)).
Proof.
  intros Hb Hp Hl. unfold handle_input, bind, gets, lift. unfold MAX_PATH_LENGTH in *. rewrite Hb, handle_loop_line by (done || lia). reflexivity.
Qed.
Lemma atoi_digits pre ds post : Forall (fun d => 0 <= d <= 9) ds -> atoi (pre ++ digit_text ds ++ 13 :: post) (len pre) = Ok (u32 (value 10 ds)).
Proof.
  intros Hd. unfold atoi. rewrite (parse_loop_spec 10); [|done|rewrite !length_app; cbn; lia| |done].
  - cbn [obind]. f_equal. unfold digit_text. rewrite foldl_map, (foldl_ext_in _ (fun n d => i32 (n * 10 + d))); [by apply foldl_i32|].
    intros d n Hin. f_equal. lia.
  - unfold digit_text. apply Forall_map. eapply Forall_impl; [exact Hd|]. intros d Hr. by apply is_dec_digit.
Qed.

Lemma two_words_path a d : Forall word_char a -> Forall word_char d -> Forall path_char (a ++ 32 :: d).
Proof.
  intros Ha Hd. apply Forall_app. split; [|constructor; [unfold path_char; lia|]]; (eapply Forall_impl; [eassumption|]); unfold word_char, path_char; lia.
Qed.
(** The number behind [kill] and [exec]. *)
Lemma value_nonneg base ds : 0 <= base -> Forall (fun d => 0 <= d <= 9) ds -> 0 <= value base ds.
Proof.
  intros Hb Hd. unfold value. assert (forall n, 0 <= n -> 0 <= foldl (fun n d => n * base + d) n ds) as Hg; [|by apply Hg].
  induction Hd as [|d ds Hr Hd IH]; intros n Hn; cbn [foldl]; [done|]. apply IH. nia.
Qed.
Lemma number_argument pre w ds rest : number_text ds -> value 10 ds < 2 ^ 31 ->
  atoi (pre ++ (text w ++ digit_text ds) ++ 13 :: rest) (len pre + len (text w)) = Ok (value 10 ds) /\ 0 <= value 10 ds.
Proof.
  intros [Hd _] Hv. pose proof (value_nonneg 10 ds ltac:(lia) Hd) as H0. split; [|done].
  replace (pre ++ (text w ++ digit_text ds) ++ 13 :: rest) with ((pre ++ text w) ++ digit_text ds ++ 13 :: rest) by by rewrite <-!app_assoc.
  replace (len pre + len (text w)) with (len (pre ++ text w)) by (rewrite length_app; lia). rewrite atoi_digits by done.
  unfold u32. by rewrite Z.mod_small by lia.
Qed.

(** *** The loops that print *)

Lemma printf_spec fmt args s : printf (uart := uart) fmt args s = Ok (tt, body_done s (Buffer s) (param_buffer s) (print fmt args (sh_world s))).
Proof. reflexivity. Qed.
Lemma body_done_again s b pr x b' pr' x' : body_done (body_done s b pr x) b' pr' x' = body_done s b' pr' x'.
Proof. reflexivity. Qed.

Lemma ps_loop_spec es : forall fuel done_es e rest s,
  (length es < fuel)%nat -> shown (sh_world s) = done_es ++ es ++ e :: rest -> Forall (fun e => 0 <= show_num e) es -> show_num e < 0 ->
  ps_loop fuel (len done_es) s = Ok (tt, body_done s (Buffer s) (param_buffer s) (foldl show_process (sh_world s) es)).
Proof.
  induction es as [|e0 es IH]; intros [|fuel] d e rest s Hf Hs Hes He; cbn [length] in Hf; try lia; cbn [ps_loop foldl];
    unfold bind at 1, gets; unfold bind at 1, lift; rewrite Hs; cbn [app]; rewrite rd_at by done.
  - destruct (Z.geb_spec (show_num e) 0); [lia|]. by destruct s.
  - apply Forall_cons in Hes as [H0 Hes]. destruct (Z.geb_spec (show_num e0) 0); [|lia]. unfold bind. rewrite printf_spec.
    replace (len d + 1) with (len (d ++ [e0])) by (rewrite length_app; cbn; lia). rewrite (IH fuel (d ++ [e0]) e rest); [done|lia| |done|done].
    cbn [body_done sh_world]. rewrite (proj1 (print_keeps _ _ _)), Hs. by rewrite <-app_assoc.
Qed.
Lemma cat_loop_spec t : forall fuel done_t rest s,
  (length t < fuel)%nat -> cat_text (sh_world s) = done_t ++ t ++ 0 :: rest -> Forall (fun c => c <> 0) t ->
  cat_loop fuel (len done_t) s = Ok (tt, body_done s (Buffer s) (param_buffer s) (foldl echo (sh_world s) t)).
Proof.
  induction t as [|c t IH]; intros [|fuel] d rest s Hf Hs Ht; cbn [length] in Hf; try lia; cbn [cat_loop foldl];
    unfold bind at 1, gets; unfold bind at 1, lift; rewrite Hs; cbn [app]; rewrite rd_at by done.
  - by destruct s.
  - apply Forall_cons in Ht as [H0 Ht]. rewrite (proj2 (Z.eqb_neq _ _) H0). unfold bind. rewrite printf_spec.
    replace (len d + 1) with (len (d ++ [c])) by (rewrite length_app; cbn; lia). rewrite (IH fuel (d ++ [c]) rest); [done|lia| |done].
    cbn [body_done sh_world]. rewrite (proj2 (proj2 (print_keeps _ _ _))), Hs. by rewrite <-app_assoc.
Qed.
Lemma ls_loop_spec names : forall fuel (k : nat) s,
  (length names < fuel)%nat -> rd (listed (sh_world s)) (DENTRY_SIZE * (Z.of_nat k + len names) + 4) = Ok 0 ->
  (forall j name, names !! j = Some name -> name <> [] /\ cstr (listed (sh_world s)) (DENTRY_SIZE * Z.of_nat (k + j) + 4) name) ->
  ls_loop fuel (Z.of_nat k) s = Ok (tt, body_done s (Buffer s) (param_buffer s) (foldl show_name (sh_world s) names)).
Proof.
  induction names as [|name names IH]; intros [|fuel] k s Hf Hend Hn; cbn [length] in Hf; try lia; cbn [ls_loop foldl];
    unfold bind at 1, gets; unfold bind at 1, lift.
  - rewrite Z.add_0_r in Hend. rewrite Hend. by destruct s.
  - destruct (Hn 0%nat name eq_refl) as [Hne Hc]. rewrite Nat.add_0_r in Hc. pose proof Hc as (pre & post & Em & Ep & Hnz).
    destruct name as [|c name]; [done|]. assert (rd (listed (sh_world s)) (DENTRY_SIZE * Z.of_nat k + 4) = Ok c) as -> by (rewrite Em; by apply rd_at).
    rewrite (cstr_byte_ne c name) by done. unfold bind at 1. rewrite (strlen_spec _ _ _ Hc). unfold bind at 1.
    assert (slice (listed (sh_world s)) (DENTRY_SIZE * Z.of_nat k + 4) (len (c :: name)) = Ok (c :: name)) as ->.
    { rewrite Em, slice_ok by (rewrite ?length_app; cbn [length]; lia). rewrite Ep, !Nat2Z.id, drop_app_length, take_app_length. done. }
    unfold bind. rewrite printf_spec. replace (Z.of_nat k + 1) with (Z.of_nat (S k)) by lia.
    rewrite (IH fuel (S k)); [done|lia| |].
    + cbn [body_done sh_world]. rewrite (proj1 (proj2 (print_keeps _ _ _))). cbn [length] in Hend. rewrite <-Hend. f_equal. lia.
    + intros j nm Hj. cbn [body_done sh_world]. rewrite (proj1 (proj2 (print_keeps _ _ _))). destruct (Hn (S j) nm Hj) as [? Hc'].
      split; [done|]. by replace (S k + j)%nat with (k + S j)%nat by lia.
Qed.

(** *** The commands *)

Lemma two_params_spec s pre a d rest : Buffer s = pre ++ (a ++ 32 :: d) ++ 13 :: rest -> two_words a d ->
  two_params (len pre) s = Ok (tt, body_done s (pre ++ (a ++ 32 :: d) ++ 0 :: rest) (params_of a d) (sh_world s)).
Proof.
  intros Hb (Ha & Hd & La & Ld). unfold MAX_PARAMETER_LENGTH in La, Ld. unfold two_params, bind.
  rewrite (handle_input_spec s pre (a ++ 32 :: d) rest); [|done|by apply two_words_path|
    unfold MAX_PATH_LENGTH; rewrite length_app; cbn [length]; lia].
  unfold separate_params, bind, gets, lift. cbn [body_done Buffer]. unfold MAX_PARAMETER_NUM, MAX_PARAMETER_LENGTH, INPUT_BUFFER_MAX_LENGTH.
  rewrite separate_two by (done || lia). reflexivity.
Qed.
Lemma path_call_spec s pre path rest f : Buffer s = pre ++ path ++ 13 :: rest -> Forall path_char path -> len path < MAX_PATH_LENGTH ->
  path_call buffer_addr (len pre) f s = Ok (tt, body_done s (pre ++ path ++ 0 :: rest) (param_buffer s)
    (snd (system (f (buffer_addr + len pre)) (pre ++ path ++ 0 :: rest) (param_buffer s) (sh_world s)))).
Proof. intros Hb Hp Hl. unfold path_call, bind. rewrite (handle_input_spec s pre path rest Hb Hp Hl), do_call_spec. reflexivity. Qed.

Lemma word_place pre w : len pre + len (text w) = len (pre ++ text w).
Proof. rewrite length_app. lia. Qed.

(** The state after a line, given what was found in it. *)
Lemma word_line s pre w c rest x :
  Buffer s = pre ++ text w ++ 13 :: rest -> sh_pointer s = len pre -> reached true commands w c = true -> takes_number c = false ->
  run c (len pre + len (text w)) 0 s = Ok (tt, body_done s (Buffer s) (param_buffer s) x) ->
  shell_line buffer_addr param_addr test_tasks s = Ok (tt, line_done s (pre ++ (text w ++ [13]) ++ rest) (param_buffer s) (prompted x)).
Proof.
  intros Hb Hp Hr Ht Hrun. replace (pre ++ (text w ++ [13]) ++ rest) with (Buffer s) by by rewrite Hb, <-!app_assoc.
  apply (shell_line_runs s c (len pre + len (text w)) 0); [|exact Hrun].
  rewrite Hb, Hp. replace (text w ++ 13 :: rest) with ((text w ++ []) ++ 13 :: rest) by by rewrite app_nil_r.
  apply (find_command_reached true); [done|done|]. by rewrite Ht.
Qed.
Lemma number_line s pre w c ds rest x :
  Buffer s = pre ++ (text w ++ digit_text ds) ++ 13 :: rest -> sh_pointer s = len pre -> reached false commands w c = true ->
  takes_number c = true -> number_text ds -> value 10 ds < num_test_tasks ->
  run c (len pre + len (text w)) (value 10 ds) s = Ok (tt, body_done s (Buffer s) (param_buffer s) x) ->
  shell_line buffer_addr param_addr test_tasks s
  = Ok (tt, line_done s (pre ++ (text w ++ digit_text ds ++ [13]) ++ rest) (param_buffer s) (prompted x)).
Proof.
  intros Hb Hp Hr Ht Hd Hv Hrun. replace (pre ++ (text w ++ digit_text ds ++ [13]) ++ rest) with (Buffer s) by by rewrite Hb, <-!app_assoc.
  apply (shell_line_runs s c (len pre + len (text w)) (value 10 ds)); [|exact Hrun]. rewrite Hb, Hp.
  apply (find_command_reached false); [done|done|]. rewrite Ht. unfold num_test_tasks in *.
  destruct (number_argument pre w ds rest Hd ltac:(lia)) as [E1 E2]. split; [exact E1|lia].
Qed.
Lemma no_line s pre line rest :
  Buffer s = pre ++ line ++ 13 :: rest -> find_command commands (Buffer s) (sh_pointer s) = Ok None ->
  shell_line buffer_addr param_addr test_tasks s = Ok (tt, line_done s (pre ++ (line ++ [13]) ++ rest) (param_buffer s) (sh_world s)).
Proof.
  intros Hb Hf. unfold shell_line, bind, gets, lift. rewrite Hf. unfold set_places, modify, line_done, ret. cbn [sh_input_length sh_i].
  replace (pre ++ (line ++ [13]) ++ rest) with (Buffer s) by by rewrite Hb, <-!app_assoc. reflexivity.
Qed.
(** A command with a path or with two words. *)
Lemma argument_line s pre w c path rest b pr x :
  Buffer s = pre ++ (text w ++ path) ++ 13 :: rest -> sh_pointer s = len pre -> reached false commands w c = true -> takes_number c = false ->
  run c (len pre + len (text w)) 0 s = Ok (tt, body_done s b pr x) ->
  shell_line buffer_addr param_addr test_tasks s = Ok (tt, line_done s b pr (prompted x)).
Proof.
  intros Hb Hp Hr Ht Hrun. apply (shell_line_runs s c (len pre + len (text w)) 0); [|exact Hrun].
  rewrite Hb, Hp. apply (find_command_reached false); [done|done|]. by rewrite Ht.
Qed.

(** The commands that print what the kernel left. *)
Lemma cat_line s pre path rest t (x := snd (system (U_sys_cat (buffer_addr + (len pre + len (text "cat "%string))))
    (pre ++ (text "cat "%string ++ path ++ [0]) ++ rest) (param_buffer s) (sh_world s))) :
  Buffer s = pre ++ (text "cat "%string ++ path) ++ 13 :: rest -> sh_pointer s = len pre -> Forall path_char path -> len path < MAX_PATH_LENGTH ->
  cat_text_is x t ->
  shell_line buffer_addr param_addr test_tasks s = Ok (tt, line_done s (pre ++ (text "cat "%string ++ path ++ [0]) ++ rest) (param_buffer s)
    (prompted (foldl echo (print (String.append "cat output:" newline) [] x) t))).
Proof.
  intros Hb Hp Hpath Hl (Ht & r & Hs & Hnz). apply (argument_line s pre "cat "%string Cmd_cat path rest); [done|done|vm_compute; reflexivity|done|].
  unfold run. cbn [run_body]. unfold bind. subst x. rewrite word_place in *. rewrite <-!app_assoc in *. cbn [app] in *.
  rewrite (path_call_spec s (pre ++ text "cat "%string) path rest) by (done || by rewrite Hb, <-!app_assoc).
  rewrite printf_spec. rewrite (cat_loop_spec t _ [] r); [|unfold CAT_MAX_LENGTH in *; lia| |done].
  - cbn [body_done Buffer param_buffer sh_world]. rewrite <-!app_assoc. reflexivity.
  - cbn [body_done sh_world Buffer param_buffer app]. rewrite (proj2 (proj2 (print_keeps _ _ _))), <-Hs. rewrite <-!app_assoc. reflexivity.
Qed.
Lemma find_line s pre a d rest r x :
  Buffer s = pre ++ (text "find "%string ++ a ++ 32 :: d) ++ 13 :: rest -> sh_pointer s = len pre -> two_words a d ->
  system (U_sys_find param_addr (param_addr + MAX_PARAMETER_LENGTH)) (pre ++ (text "find "%string ++ (a ++ 32 :: d) ++ [0]) ++ rest)
    (params_of a d) (sh_world s) = (r, x) ->
  shell_line buffer_addr param_addr test_tasks s
  = Ok (tt, line_done s (pre ++ (text "find "%string ++ (a ++ 32 :: d) ++ [0]) ++ rest) (params_of a d)
      (prompted (print (String.append (if r =? 1 then "Exist in the directory" else "Not exist in the directory") newline) [] x))).
Proof.
  intros Hb Hp Hab Es. apply (argument_line s pre "find "%string Cmd_find (a ++ 32 :: d) rest); [done|done|vm_compute; reflexivity|done|].
  unfold run. cbn [run_body]. unfold bind.
  rewrite word_place, (two_params_spec s (pre ++ text "find "%string) a d rest) by (done || by rewrite Hb, <-!app_assoc).
  unfold call, in_world. cbn [body_done Buffer param_buffer sh_world]. rewrite <-!app_assoc in *. cbn [app] in *. rewrite Es.
  destruct (r =? 1); rewrite printf_spec; reflexivity.
Qed.
Lemma ps_line s pre rest es (x := snd (system U_sys_ps (pre ++ (text "ps"%string ++ [13]) ++ rest) (param_buffer s) (sh_world s))) :
  Buffer s = pre ++ text "ps"%string ++ 13 :: rest -> sh_pointer s = len pre -> processes_are x es ->
  shell_line buffer_addr param_addr test_tasks s = Ok (tt, line_done s (pre ++ (text "ps"%string ++ [13]) ++ rest) (param_buffer s)
    (prompted (foldl show_process (print (String.append "[PROCESS TABLE]" newline) [] x) es))).
Proof.
  intros Hb Hp (Hes & e & r & Hs & Hge & Hlt). apply (word_line s pre "ps"%string Cmd_ps rest); [done|done|vm_compute; reflexivity|done|].
  unfold run. cbn [run_body]. unfold bind. subst x.
  replace (pre ++ (text "ps"%string ++ [13]) ++ rest) with (Buffer s) in * by by rewrite Hb, <-!app_assoc.
  rewrite do_call_spec, printf_spec. rewrite (ps_loop_spec es 41 [] e r); [reflexivity|lia| |done|done].
  cbn [body_done sh_world Buffer param_buffer app]. by rewrite (proj1 (print_keeps _ _ _)).
Qed.
Lemma ls_line s pre rest names (x := snd (system U_sys_ls (pre ++ (text "ls"%string ++ [13]) ++ rest) (param_buffer s) (sh_world s))) :
  Buffer s = pre ++ text "ls"%string ++ 13 :: rest -> sh_pointer s = len pre -> names_are x names ->
  shell_line buffer_addr param_addr test_tasks s = Ok (tt, line_done s (pre ++ (text "ls"%string ++ [13]) ++ rest) (param_buffer s)
    (prompted (print newline [] (foldl show_name x names)))).
Proof.
  intros Hb Hp (Hn & Hend & Hns). apply (word_line s pre "ls"%string Cmd_ls rest); [done|done|vm_compute; reflexivity|done|].
  unfold run. cbn [run_body]. unfold bind. subst x.
  replace (pre ++ (text "ls"%string ++ [13]) ++ rest) with (Buffer s) in * by by rewrite Hb, <-!app_assoc.
  rewrite do_call_spec. rewrite (ls_loop_spec names 11 0); [reflexivity|lia|exact Hend|exact Hns].
Qed.

(** What a line does: the command that is found and its run, or no command. *)
Lemma shell_line_spec s pre line rest left P E x' :
  Buffer s = pre ++ line ++ 13 :: rest -> sh_pointer s = len pre ->
  line_effect buffer_addr param_addr test_tasks (len pre) line left P E -> E (pre ++ left ++ rest) (P (param_buffer s)) (sh_world s) x' ->
  shell_line buffer_addr param_addr test_tasks s = Ok (tt, line_done s (pre ++ left ++ rest) (P (param_buffer s)) x').
Proof.
  intros Hb Hp HE Hx.
  destruct HE as [w c u Hin|w c f path Hin Hpath Hl|w c f a d Hin Hab Hln|ds Hd Hv|ds Hd Hv| | | | |path Hpath Hl|a d Hab|w ds Hw Hd Hv|line Hl].
  - destruct (simple_run w c u Hin) as (Hr & Ht & Hrun). rewrite Hx. apply (word_line s pre w c rest); [done..|].
    rewrite Hrun, do_call_spec, Hb. unfold id. by rewrite <-!app_assoc.
  - destruct (path_run w c f Hin) as (Hr & Ht & Hrun). rewrite Hx. apply (argument_line s pre w c path rest); [done..|].
    rewrite Hrun, word_place, (path_call_spec s (pre ++ text w) path rest) by (done || by rewrite Hb, <-!app_assoc).
    unfold id. rewrite <-!app_assoc. cbn [app]. reflexivity.
  - destruct (param_run w c f a d pre rest Hin Hab Hln) as (Hf & Hrun). rewrite Hx. apply (shell_line_runs s c (len pre + len (text w)) 0).
    + by rewrite Hb, Hp.
    + rewrite Hrun, word_place. unfold params_call, bind. rewrite (two_params_spec s (pre ++ text w) a d rest) by (done || by rewrite Hb, <-!app_assoc).
      rewrite do_call_spec. cbn [body_done Buffer param_buffer sh_world]. rewrite <-!app_assoc. cbn [app]. reflexivity.
  - rewrite Hx. apply (number_line s pre "kill "%string Cmd_kill ds rest); [done|done|vm_compute; reflexivity|done..|].
    unfold run. cbn [run_body]. unfold bind. rewrite printf_spec, do_call_spec. cbn [body_done Buffer param_buffer sh_world]. rewrite Hb. unfold id. by rewrite <-!app_assoc.
  - rewrite Hx. apply (number_line s pre "exec "%string Cmd_exec ds rest); [done|done|vm_compute; reflexivity|done..|].
    unfold run. cbn [run_body]. unfold exec_task, bind. rewrite printf_spec. unfold gets. rewrite do_call_spec. unfold in_world.
    cbn [body_done Buffer param_buffer sh_world sh_uart cp0_status_bits sh_input_length sh_pointer sh_i]. rewrite Hb. unfold id. by rewrite <-!app_assoc.
  - destruct Hx as (es & Hes & ->). by apply ps_line.
  - rewrite Hx. apply (word_line s pre "clear"%string Cmd_clear rest); [done|done|vm_compute; reflexivity|done|].
    unfold run. cbn [run_body]. unfold bind. rewrite !do_call_spec, printf_spec. cbn [body_done Buffer param_buffer sh_world]. rewrite Hb. unfold id. by rewrite <-!app_assoc.
  - rewrite Hx. apply (word_line s pre "dump"%string Cmd_dump rest); [done|done|vm_compute; reflexivity|done|]. by destruct s.
  - destruct Hx as (names & Hn & ->). by apply ls_line.
  - destruct Hx as (t & Ht & ->). by apply cat_line.
  - destruct (system (U_sys_find param_addr (param_addr + MAX_PARAMETER_LENGTH)) _ _ (sh_world s)) as [r x] eqn:Es. rewrite Hx. by apply find_line.
  - rewrite Hx. apply no_line; [done|]. rewrite Hb, Hp.
    destruct (number_argument pre w ds rest Hd ltac:(lia)) as [E1 _]. by apply (find_refused w pre ds rest (value 10 ds)).
  - rewrite Hx. apply no_line; [done|]. rewrite Hb, Hp. by apply find_unknown.
Qed.

(** *** Typing *)

(** The shell has read [line] of the present line; [later] is still to be typed. *)
Definition collecting (pre line rest : mem) (later : list (list Z)) (s : shell uart world) : Prop :=
  typed (sh_uart s) = ([], later) /\ Buffer s = pre ++ line ++ rest /\ sh_pointer s = len pre /\ sh_i s = len (pre ++ line).

Lemma shell_round_reads fuel c pre line c0 rest later s :
  (2 < fuel)%nat -> 0 < c < 128 -> len (pre ++ line) + 1 < 2 ^ 31 -> collecting pre line (c0 :: rest) ([c] :: [] :: later) s ->
  exists s1, collecting pre (line ++ [c]) rest later s1 /\ param_buffer s1 = param_buffer s /\ sh_world s1 = echo (sh_world s) c
    /\ shell_round buffer_addr param_addr test_tasks fuel s
       = if c =? 13 then shell_line buffer_addr param_addr test_tasks s1 else Ok (tt, s1).
Proof.
  intros Hf Hc Hl (Hu & Hb & Hp & Hi).
  destruct (read_burst fuel [c] c (sh_uart s) later) as (u' & Eu & Hu'); [cbn; lia| |lia|done|].
  { cbn. unfold to_char. destruct (Z.ltb_spec c 128); lia. }
  eexists. split; [|split; [|split]]; cycle 3.
  - unfold shell_round, disable_interrupt, enable_interrupt, set_status_bits, from_uart, bind, gets, modify, handle_char, printf, in_world.
    cbn [sh_uart cp0_status_bits Buffer sh_input_length sh_pointer sh_i param_buffer sh_world]. change (read_uart_ch fuel) with (read_uart_ch_s fuel).
    rewrite Eu. rewrite (proj2 (Z.eqb_neq c 0)) by lia. unfold bind, set_buffer, set_places, modify, gets, lift. cbn [Buffer sh_i].
    rewrite Hb, Hi, app_assoc, wr_at by done. cbn [sh_input_length sh_pointer]. destruct (c =? 13); reflexivity.
  - unfold collecting. cbn [sh_uart Buffer sh_pointer sh_i]. split_and!; [done|by rewrite <-!app_assoc|done|].
    rewrite i32_small by lia. rewrite !length_app. cbn [length]. lia.
  - reflexivity.
  - reflexivity.
Qed.

Lemma shell_types fuel cs : forall pre line rest later s,
  (2 < fuel)%nat -> Forall path_char cs -> (length cs <= length rest)%nat -> len pre + len line + len cs < 2 ^ 31 ->
  collecting pre line rest (slowly cs ++ later) s ->
  exists s1, collecting pre (line ++ cs) (drop (length cs) rest) later s1 /\ param_buffer s1 = param_buffer s
    /\ sh_world s1 = foldl echo (sh_world s) cs
    /\ shell_rounds buffer_addr param_addr test_tasks (length cs) fuel s = Ok (tt, s1).
Proof.
  induction cs as [|c cs IH]; intros pre line rest later s Hf Hcs Hr Hl Hs.
  - exists s. by rewrite app_nil_r.
  - apply Forall_cons in Hcs as [[Hc H13] Hcs]. destruct rest as [|c0 rest]; cbn [length] in *; [lia|].
    destruct (shell_round_reads fuel c pre line c0 rest (slowly cs ++ later) s) as (s1 & Hs1 & Ep & Ew & E); [done|done|rewrite length_app; lia|done|].
    rewrite (proj2 (Z.eqb_neq _ _) H13) in E.
    destruct (IH pre (line ++ [c]) rest later s1) as (s2 & Hs2 & Ep2 & Ew2 & E2); [done|done|lia|rewrite length_app; cbn; lia|done|].
    exists s2. rewrite <-app_assoc in Hs2. split; [done|]. split; [congruence|]. split; [by rewrite Ew2, Ew|].
    cbn [shell_rounds]. unfold bind. by rewrite E.
Qed.
Lemma shell_rounds_snoc n fuel s s1 s2 : shell_rounds buffer_addr param_addr test_tasks n fuel s = Ok (tt, s1) ->
  shell_round buffer_addr param_addr test_tasks fuel s1 = Ok (tt, s2) -> shell_rounds buffer_addr param_addr test_tasks (n + 1) fuel s = Ok (tt, s2).
Proof.
  revert s. induction n as [|n IH]; intros s E1 E2; cbn [Nat.add shell_rounds] in *; unfold bind in *.
  - injection E1 as ->. by rewrite E2.
  - destruct (shell_round _ _ _ fuel s) as [[[] s3]|]; [|done]. by apply IH.
Qed.

Lemma effect_length pos line left P E : line_effect (world := world) buffer_addr param_addr test_tasks pos line left P E ->
  length left = (length line + 1)%nat.
Proof. intros []; repeat (rewrite length_app || cbn [length]); lia. Qed.

(** C34: The shell understands its commands: a line of characters from 1 to 127,
    typed one at a time, with room for it in the buffer, does what its command stands for. It is
    the word of ps, clear, mkfs, statfs, ls, pwd, dump, du or df, or the word of
    cd, mkdir, rmdir, touch, cat, wc, rm, chmod or man and a path shorter than
    MAX_PATH_LENGTH, or the word of find, rename, ln -s, ln, diff, mv or cp and two
    words of at most 19 characters (the first one after ln is not -s), or kill or
    exec and a number below 24. Every character is echoed; then come exactly the
    system calls of the command, with a path as a C string in the buffer, two words
    as C strings in [param_buffer], a number as its value; then what the command
    prints (for ps, ls and cat the entries of the shared tables, which must hold
    their end mark, behind at most 40 entries, 10 names or 20480 characters) and the prompt, and the next line begins behind this one. A
    number from 24 to 2^31 - 1 after kill or exec, or a line that begins with no
    command, does nothing, and no prompt is printed. *)
Theorem shell_command_correct fuel s pre line rest left later P E x' :
  (2 < fuel)%nat -> Forall path_char line -> (length line + 1 <= length rest)%nat -> len pre + len rest < 2 ^ 31 ->
  collecting pre [] rest (slowly (line ++ [13]) ++ later) s ->
  line_effect buffer_addr param_addr test_tasks (len pre) line left P E ->
  E (pre ++ left ++ drop (length line + 1) rest) (P (param_buffer s)) (foldl echo (sh_world s) (line ++ [13])) x' ->
  exists s', shell_rounds buffer_addr param_addr test_tasks (length line + 1) fuel s = Ok (tt, s')
    /\ collecting (pre ++ left) [] (drop (length line + 1) rest) later s'
    /\ param_buffer s' = P (param_buffer s) /\ sh_world s' = x'.
Proof.
  intros Hf Hline Hr Hl Hs HE Hx. rewrite slowly_snoc in Hs.
  destruct (shell_types fuel line pre [] rest ([13] :: [] :: later) s) as (s1 & Hs1 & Ep1 & Ew1 & E1); [done|done|lia|cbn [length]; lia|done|].
  rewrite <-drop_drop in Hx |- *.
  destruct (drop (length line) rest) as [|c0 rest'] eqn:Edrop;
    [pose proof (length_drop rest (length line)) as Hlen; rewrite Edrop in Hlen; cbn [length] in Hlen; lia|].
  destruct (shell_round_reads fuel 13 pre line c0 rest' later s1) as (s2 & Hs2 & Ep2 & Ew2 & E2); [done|lia|rewrite length_app; lia|done|].
  rewrite Z.eqb_refl in E2. destruct Hs2 as (Hu2 & Hb2 & Hp2 & Hi2). rewrite <-app_assoc in Hb2. cbn [drop] in *.
  assert (P (param_buffer s2) = P (param_buffer s)) as EP by (by rewrite Ep2, Ep1).
  assert (sh_world s2 = foldl echo (sh_world s) (line ++ [13])) as EW by (by rewrite Ew2, Ew1, foldl_app).
  rewrite <-EP, <-EW in Hx. pose proof (shell_line_spec s2 pre line rest' left P E x' Hb2 Hp2 HE Hx) as E3.
  eexists. split; [exact (shell_rounds_snoc _ _ _ _ _ E1 (eq_trans E2 E3))|].
  unfold line_done. cbn [param_buffer sh_world Buffer]. split; [|by rewrite EP].
  pose proof (effect_length _ _ _ _ _ HE) as Elen. unfold collecting. cbn [sh_uart Buffer sh_pointer sh_i].
  split; [exact Hu2|]. split; [|split].
  - by rewrite <-app_assoc.
  - rewrite Hi2, !length_app, Elen. cbn [length]. lia.
  - rewrite Hi2, app_nil_r, !length_app, Elen. cbn [length]. lia.
Qed.
End line.

(** ** A system that records what it is asked for *)

Inductive event := Called (u : user_call) | Printed (fmt : string) (args : list arg).
(** Its table of [ps] has one entry. *)
#[export, refine] Instance event_system : System (list event) := {|
  system u _ _ w := (0, w ++ [Called u]);
  print fmt args w := w ++ [Printed fmt args];
  shared_cursor _ := (0, 0);
  set_shared_cursor _ w := w;
  shown _ := [mk_show 0 1 TASK_RUNNING; mk_show (-1) 0 TASK_EXITED];
  clear_shown _ w := w;
  listed _ := [];
  cat_text _ := []
|}.
Proof. done. Defined.
Definition demo_shell (later : list (list Z)) : shell typing (list event) :=
  mk_shell ([], later) 0 (replicate 1000 0) 0 0 0 (replicate 200 0) [].

(** The lines "touch a" and "ps". *)
Lemma shell_command_correct_witness :
  (exists s', shell_rounds 0xa0800000 0xa0900000 id 8 3 (demo_shell (slowly (text "touch a" ++ [13]))) = Ok (tt, s')
    /\ Called (U_sys_touch 0xa0800006) ∈ sh_world s')
  /\ exists s', shell_rounds 0xa0800000 0xa0900000 id 3 3 (demo_shell (slowly (text "ps" ++ [13]))) = Ok (tt, s')
    /\ Called U_sys_ps ∈ sh_world s'.
Proof.
  split.
  - destruct (shell_command_correct (uart := typing) (world := list event) 0xa0800000 0xa0900000 id 3
      (demo_shell (slowly (text "touch a" ++ [13]))) [] (text "touch a") (replicate 1000 0) (text "touch " ++ [97] ++ [0]) [] id _ 
      (foldl echo [] (text "touch a" ++ [13]) ++ [Called (U_sys_touch 0xa0800006); Printed "> root@UCAS_OS: " []])
      ltac:(lia) ltac:(repeat constructor; vm_compute; discriminate || reflexivity) ltac:(vm_compute; lia) eq_refl
      ltac:(rewrite app_nil_r; split; [reflexivity|]; split; [reflexivity|]; split; reflexivity)
      (effect_path 0xa0800000 _ _ 0 "touch " Cmd_touch U_sys_touch [97]
        ltac:(unfold path_commands; do 3 apply list_elem_of_further; apply list_elem_of_here)
        ltac:(repeat constructor; discriminate) eq_refl)) as (s' & E & _ & _ & Hw).
    + vm_compute. reflexivity.
    + exists s'. split; [exact E|]. rewrite Hw. apply elem_of_app. right. apply list_elem_of_here.
  - destruct (shell_command_correct (uart := typing) (world := list event) 0xa0800000 0xa0900000 id 3
      (demo_shell (slowly (text "ps" ++ [13]))) [] (text "ps") (replicate 1000 0) (text "ps" ++ [13]) [] id _
      (prompted (foldl show_process (print (String.append "[PROCESS TABLE]" newline) [] (foldl echo [] (text "ps" ++ [13]) ++ [Called U_sys_ps]))
        [mk_show 0 1 TASK_RUNNING]))
      ltac:(lia) ltac:(repeat constructor; vm_compute; discriminate || reflexivity) ltac:(vm_compute; lia) eq_refl
      ltac:(rewrite app_nil_r; split; [reflexivity|]; split; [reflexivity|]; split; reflexivity)
      (effect_ps _ _ _ 0)) as (s' & E & _ & _ & Hw).
    + exists [mk_show 0 1 TASK_RUNNING]. split; [|reflexivity]. split; [vm_compute; discriminate|].
      exists (mk_show (-1) 0 TASK_EXITED), []. split; [reflexivity|]. split; [|reflexivity]. repeat constructor; vm_compute; discriminate.
    + exists s'. split; [exact E|]. rewrite Hw. do 3 (apply elem_of_app; left). apply elem_of_app. right. apply list_elem_of_here.
Defined.
