(* ===== verification/Image.v ===== *)
(** The image builder: tools/createimage.c, which puts the boot block and the
    kernel on the card image.

    A file is its bytes and a position; the functions of <stdio.h> work on it.
    The fields of the ELF headers that are used are read at the offsets that
    <elf.h> gives them. *)

From S2P Require Import Prelude Wp CString.

Module Image.

(** ** Files *)

Record file := mk_file { contents : list Z; position : Z }.
Definition fseek (f : file) (offset : Z) : file := mk_file (contents f) offset.
Definition rewind (f : file) : file := fseek f 0.
(** At most [size] bytes are read, fewer at the end of the file. *)
Definition fread (size : Z) (f : file) : list Z * file :=
  let l := take (Z.to_nat size) (drop (Z.to_nat (position f)) (contents f)) in
  (l, mk_file (contents f) (position f + len l)).
(** A gap between the end of the file and the position is filled with zeros. *)
Definition fwrite (l : list Z) (f : file) : file :=
  let p := Z.to_nat (position f) in
  let c := contents f ++ replicate (p - length (contents f)) 0 in
  mk_file (take p c ++ l ++ drop (p + length l) c) (position f + len l).

(** [fread] into a buffer of the heap. *)
Definition read_into (buffer : list Z) (size : Z) (f : file) : outcome (list Z) := splice buffer 0 (fst (fread size f)).
(** [calloc(n, sizeof(int))]. *)
Definition calloc (n : Z) : list Z := replicate (Z.to_nat (n * 4)) 0.

(** ** The headers of <elf.h> *)

Record Elf32_Ehdr := mk_ehdr { e_phoff : Z; e_phnum : Z }.
Record Elf32_Phdr := mk_phdr { p_offset : Z; p_vaddr : Z; p_filesz : Z; p_memsz : Z }.
Definition sizeof_Ehdr : Z := 52.
Definition sizeof_Phdr : Z := 32.
(** A field of [n] bytes at offset [i]; a header that the file is too short for
    has fields without a value. *)
Definition field (l : list Z) (i n : Z) : outcome Z := try! b := slice l i n in Ok (le_val b).
Definition ehdr_of (l : list Z) : outcome Elf32_Ehdr :=
  try! phoff := field l 28 4 in try! phnum := field l 44 2 in Ok (mk_ehdr phoff phnum).
Definition phdr_of (l : list Z) : outcome Elf32_Phdr :=
  try! offset := field l 4 4 in try! vaddr := field l 8 4 in
  try! filesz := field l 16 4 in try! memsz := field l 20 4 in
  Ok (mk_phdr offset vaddr filesz memsz).

(** ** Operations *)

(** A file that cannot be opened ends the program; the answer is then [None]. *)
Definition read_exec_file (exec_file : option (list Z)) : outcome (option (file * Elf32_Ehdr * Elf32_Phdr)) :=
  match exec_file with
  | None => Ok None
  | Some bytes =>
      let (l, f) := fread sizeof_Ehdr (mk_file bytes 0) in
      try! ehdr := ehdr_of l in
      let (l, f) := fread sizeof_Phdr (fseek f (e_phoff ehdr)) in
      try! phdr := phdr_of l in
      Ok (Some (f, ehdr, phdr))
  end.

Definition write_bootblock (image boot_file : file) (boot_phdr : Elf32_Phdr) : outcome file :=
  let buffer := calloc 512 in
  let boot_file := fseek boot_file (p_offset boot_phdr) in
  try! buffer := read_into buffer (p_filesz boot_phdr) boot_file in
  let image := rewind image in
  try! l := slice buffer 0 512 in
  let image := fwrite l image in
  Ok (fseek image 512).

Definition write_kernel (image kernel_file : file) (kernel_phdr : Elf32_Phdr) : outcome file :=
  let buffer := calloc (p_memsz kernel_phdr) in
  let kernel_file := fseek kernel_file (p_offset kernel_phdr) in
  try! buffer := read_into buffer (p_memsz kernel_phdr) kernel_file in
  try! buffer := bzero buffer (p_filesz kernel_phdr) (Z.to_nat (u32 (p_memsz kernel_phdr - p_filesz kernel_phdr))) in
  let image := fseek image 512 in
  try! l := slice buffer 0 (p_memsz kernel_phdr) in
  Ok (fwrite l image).

(** [i] is an [int]; [%] has the sign of [i]. *)
Definition count_kernel_sectors (kernel_ehdr : Elf32_Ehdr) (kernel_phdr : Elf32_Phdr) : Z :=
  let i := i32 (u32 (e_phnum kernel_ehdr * p_memsz kernel_phdr)) in
  if Z.rem i 512 =? 0 then Z.shiftr i 9 else i32 (Z.shiftr i 9 + 1).

Definition record_kernel_sectors (image : file) (num_sec : Z) : file := fwrite (le_bytes 4 num_sec) (fseek image 0x1f0).

(** The exit status and the file [image], without the report of [extended_opt].
    [argv[1]] is never the address of the string constant, so that the number of
    arguments alone decides.  [image] can be opened. *)
Definition main (argc : Z) (boot_file kernel_file : option (list Z)) : outcome (Z * option file) :=
  if negb (argc =? 4) then Ok (1, None)
  else
    try! b := read_exec_file boot_file in
    match b with
    | None => Ok (1, None)
    | Some (boot_file, boot_ehdr, boot_phdr) =>
        try! k := read_exec_file kernel_file in
        match k with
        | None => Ok (1, None)
        | Some (kernel_file, kernel_ehdr, kernel_phdr) =>
            let image := mk_file [] 0 in
            let num_sec := count_kernel_sectors kernel_ehdr kernel_phdr in
            try! image := write_bootblock image boot_file boot_phdr in
            try! image := write_kernel image kernel_file kernel_phdr in
            Ok (0, Some (record_kernel_sectors image num_sec))
        end
    end.

(** ** The image *)

(** The part of a file that a program header names. *)
Definition segment (f : list Z) (h : Elf32_Phdr) : list Z := take (Z.to_nat (p_filesz h)) (drop (Z.to_nat (p_offset h)) f).
Definition segment_ok (f : list Z) (h : Elf32_Phdr) : Prop :=
  0 <= p_offset h /\ 0 <= p_filesz h /\ p_offset h + p_filesz h <= len f.
(** The segment and the zeros behind it, [n] bytes in all. *)
Definition loaded (f : list Z) (h : Elf32_Phdr) (n : Z) : list Z :=
  segment f h ++ replicate (Z.to_nat n - length (segment f h)) 0.

Lemma segment_length f h : segment_ok f h -> len (segment f h) = p_filesz h.
Proof. intros (H1 & H2 & H3). unfold segment. rewrite length_take, length_drop. lia. Qed.
Lemma loaded_length f h n : segment_ok f h -> p_filesz h <= n -> len (loaded f h n) = n.
Proof. intros Hs Hz. pose proof (segment_length f h Hs). destruct Hs as (? & ? & ?). unfold loaded. rewrite length_app, length_replicate. lia. Qed.

Lemma fwrite_end l f : position f = len (contents f) -> contents (fwrite l f) = contents f ++ l.
Proof.
  intros Hp. unfold fwrite. cbn [contents]. rewrite Hp, Nat2Z.id, Nat.sub_diag. cbn [replicate]. rewrite app_nil_r, take_ge, drop_ge by lia.
  by rewrite app_nil_r.
Qed.
Lemma fwrite_inside a old z l : length l = length old -> contents (fwrite l (mk_file (a ++ old ++ z) (len a))) = a ++ l ++ z.
Proof.
  intros Hl. unfold fwrite. cbn [contents position]. rewrite Nat2Z.id, length_app.
  replace (length a - (length a + length (old ++ z)))%nat with 0%nat by lia. cbn [replicate]. rewrite app_nil_r, take_app_length, Hl.
  rewrite <-drop_drop, drop_app_length. by rewrite drop_app_length.
Qed.

Lemma read_into_spec n l size f : fst (fread size f) = l -> len l <= n * 4 ->
  read_into (calloc n) size f = Ok (l ++ replicate (Z.to_nat (n * 4) - length l) 0).
Proof.
  intros E Hl. unfold read_into, calloc. rewrite E, splice_ok by (rewrite ?length_replicate; lia). cbn [Z.to_nat take app Nat.add].
  by rewrite drop_replicate.
Qed.
(** A prefix of a segment followed by zeros. *)
Lemma slice_zeros (l : list Z) m n : len l <= n -> n <= len l + Z.of_nat m ->
  slice (l ++ replicate m 0) 0 n = Ok (l ++ replicate (Z.to_nat n - length l) 0).
Proof.
  intros H1 H2. rewrite slice_ok by (rewrite ?length_app, ?length_replicate; lia). f_equal.
  change (Z.to_nat 0) with 0%nat. rewrite drop_0, take_app, take_ge by lia. f_equal. rewrite take_replicate. f_equal. lia.
Qed.

Lemma write_bootblock_spec f p h : segment_ok f h -> p_filesz h <= 512 ->
  write_bootblock (mk_file [] 0) (mk_file f p) h = Ok (mk_file (loaded f h 512) 512).
Proof.
  intros Hs Hz. pose proof (segment_length f h Hs) as Hl. unfold write_bootblock, rewind, fseek. cbn [contents].
  rewrite (read_into_spec 512 (segment f h)) by (try done; lia). cbn [obind].
  rewrite slice_zeros by lia. cbn [obind]. by rewrite (fwrite_end _ (mk_file [] 0)).
Qed.

(** What [fread] took from behind the segment is cleared again. *)
Lemma bzero_tail (s t : list Z) k n : (length t <= n <= length t + k)%nat ->
  bzero ((s ++ t) ++ replicate k 0) (len s) n = Ok (s ++ replicate (length t + k) 0).
Proof.
  intros Hn. unfold bzero. rewrite <-app_assoc, <-(take_drop n (t ++ replicate k 0)).
  rewrite memset_spec by (rewrite length_take, length_app, length_replicate; lia). do 2 f_equal.
  rewrite drop_app_ge, drop_replicate by lia. change (u8 0) with 0. rewrite <-replicate_add. f_equal. lia.
Qed.

Lemma write_kernel_spec b f p h : len b = 512 -> segment_ok f h -> p_filesz h <= p_memsz h < 2 ^ 32 ->
  exists q, write_kernel (mk_file b 512) (mk_file f p) h = Ok (mk_file (b ++ loaded f h (p_memsz h)) q).
Proof.
  intros Hb Hs Hz. pose proof (segment_length f h Hs) as Hl. destruct Hs as (H1 & H2 & H3). unfold write_kernel, fseek. cbn [contents].
  set (l := take (Z.to_nat (p_memsz h)) (drop (Z.to_nat (p_offset h)) f)).
  assert (l = segment f h ++ drop (Z.to_nat (p_filesz h)) l) as El.
  { unfold segment. rewrite <-(take_drop (Z.to_nat (p_filesz h)) l) at 1. f_equal. unfold l. rewrite take_take. f_equal. lia. }
  assert (len l <= p_memsz h) as Hll by (unfold l; rewrite length_take; lia).
  rewrite (read_into_spec (p_memsz h) l) by (try done; lia). cbn [obind].
  unfold u32. rewrite (Z.mod_small (p_memsz h - p_filesz h)) by lia.
  pose proof (f_equal length El) as Elen. rewrite length_app in Elen.
  pose proof (bzero_tail (segment f h) (drop (Z.to_nat (p_filesz h)) l) (Z.to_nat (p_memsz h * 4) - length l)
    (Z.to_nat (p_memsz h - p_filesz h)) ltac:(lia)) as Hz0.
  rewrite <-El, Hl in Hz0. rewrite Hz0. cbn [obind].
  rewrite slice_zeros by lia. cbn [obind].
  eexists. f_equal. rewrite <-(fwrite_end _ (mk_file b 512)) by (cbn; lia). reflexivity.
Qed.

(** The number of sectors that hold [e_phnum] times [p_memsz] bytes. *)
Lemma count_kernel_sectors_spec e h n : n = e_phnum e * p_memsz h -> 0 <= n < 2 ^ 31 ->
  let c := count_kernel_sectors e h in 0 <= c < 2 ^ 31 /\ 512 * (c - 1) < n <= 512 * c.
Proof.
  intros En Hn. cbn zeta. unfold count_kernel_sectors. rewrite <-En. unfold u32. rewrite Z.mod_small, i32_small by lia.
  rewrite Z.shiftr_div_pow2, Z.rem_mod_nonneg by lia. change (2 ^ 9) with 512.
  pose proof (Z.div_mod n 512 ltac:(lia)). pose proof (Z.mod_pos_bound n 512 ltac:(lia)).
  destruct (Z.eqb_spec (n mod 512) 0); [lia|]. rewrite i32_small by lia. lia.
Qed.

(** What the loader finds on a card image: the number of sectors at 0x1f0, the
    kernel from sector 1 on. *)
Definition image_of (boot kernel : list Z) (n : Z) : list Z := take 0x1f0 boot ++ le_bytes 4 n ++ drop 0x1f4 boot ++ kernel.

Lemma record_kernel_sectors_spec boot kernel n p : len boot = 512 ->
  contents (record_kernel_sectors (mk_file (boot ++ kernel) p) n) = image_of boot kernel n.
Proof.
  intros Hb. unfold record_kernel_sectors, fseek, image_of. cbn [contents].
  assert (boot = take 0x1f0 boot ++ take 4 (drop 0x1f0 boot) ++ drop 0x1f4 boot) as E.
  { change (0x1f4%nat) with (0x1f0 + 4)%nat. by rewrite <-drop_drop, take_drop, take_drop. }
  rewrite E at 1. rewrite <-!app_assoc. replace 496 with (len (take 0x1f0 boot)) by (rewrite length_take; lia).
  apply fwrite_inside. rewrite le_bytes_length, length_take, length_drop. lia.
Qed.

(** The two files of a call and their headers. *)
Definition exec_file (bytes : list Z) (e : Elf32_Ehdr) (h : Elf32_Phdr) : Prop :=
  exists l, ehdr_of (take 52 bytes) = Ok e /\ l = take 32 (drop (Z.to_nat (e_phoff e)) bytes) /\ phdr_of l = Ok h.

Lemma read_exec_file_spec bytes e h : exec_file bytes e h -> exists p, read_exec_file (Some bytes) = Ok (Some (mk_file bytes p, e, h)).
Proof.
  intros (l & He & -> & Hh). unfold read_exec_file, fread, fseek, sizeof_Ehdr, sizeof_Phdr. cbn [contents position].
  change (Z.to_nat 0) with 0%nat. rewrite drop_0. change (Z.to_nat 52) with 52%nat. rewrite He. cbn [obind].
  change (Z.to_nat 32) with 32%nat. rewrite Hh. cbn [obind]. eauto.
Qed.

(** C40: with three arguments that name a boot block of at most a sector and a
    kernel, createimage ends with status 0 and writes this image: the boot block
    filled up with zeros to a sector, with the number of sectors of the kernel
    at 0x1f0, and behind it the memory of the kernel, its segment and then zeros
    for the uninitialised data even where the file goes on.  The number at 0x1f0
    reads back as the least that covers e_phnum times p_memsz bytes.  With
    another number of arguments, or a file that does not open, it ends with
    status 1 and no image. *)
Theorem image_correct boot kernel eb hb ek hk :
  exec_file boot eb hb -> exec_file kernel ek hk ->
  segment_ok boot hb -> p_filesz hb <= 512 ->
  segment_ok kernel hk -> p_filesz hk <= p_memsz hk < 2 ^ 32 ->
  0 <= e_phnum ek * p_memsz hk < 2 ^ 31 ->
  (exists image n, main 4 (Some boot) (Some kernel) = Ok (0, Some image)
     /\ contents image = image_of (loaded boot hb 512) (loaded kernel hk (p_memsz hk)) n
     /\ le_val (take 4 (drop 0x1f0 (contents image))) = n
     /\ take (Z.to_nat (p_memsz hk)) (drop 512 (contents image)) = loaded kernel hk (p_memsz hk)
     /\ 512 * (n - 1) < e_phnum ek * p_memsz hk <= 512 * n)
  /\ (forall argc b k, argc <> 4 -> main argc b k = Ok (1, None))
  /\ (forall k, main 4 None k = Ok (1, None)) /\ main 4 (Some boot) None = Ok (1, None).
Proof.
  intros Xb Xk Sb Hb Sk Hk Hn. destruct (read_exec_file_spec _ _ _ Xb) as [p Eb], (read_exec_file_spec _ _ _ Xk) as [q Ek].
  split; [|split_and!; unfold main; [|done|by rewrite Eb]].
  2:{ intros argc b k Ha. by rewrite (proj2 (Z.eqb_neq argc 4) Ha). }
  pose proof (loaded_length _ _ 512 Sb Hb) as Lb. pose proof (loaded_length _ _ _ Sk (proj1 Hk)) as Lk.
  destruct (write_kernel_spec _ kernel q hk Lb Sk Hk) as [r Er].
  destruct (count_kernel_sectors_spec ek hk _ eq_refl Hn) as [Hc Hs].
  exists (record_kernel_sectors (mk_file (loaded boot hb 512 ++ loaded kernel hk (p_memsz hk)) r) (count_kernel_sectors ek hk)), (count_kernel_sectors ek hk).
  rewrite record_kernel_sectors_spec by done. split_and!; try (done || lia).
  - unfold main. rewrite Eb, Ek. cbn [Z.eqb Pos.eqb negb obind]. rewrite write_bootblock_spec by done. cbn [obind]. by rewrite Er.
  - unfold image_of. rewrite drop_app_length', take_app_length' by (rewrite ?length_take, ?le_bytes_length; lia).
    apply le_val_bytes. change (256 ^ Z.of_nat 4) with (2 ^ 32). lia.
  - unfold image_of. rewrite !app_assoc. rewrite drop_app_length' by (rewrite !length_app, length_take, le_bytes_length, length_drop; lia).
    rewrite take_ge by lia. done.
Qed.

(** A header at the start of a file, its program header behind it, then the bytes. *)
Definition small_file (filesz memsz : Z) (bytes : list Z) : list Z :=
  replicate 28 0 ++ le_bytes 4 52 ++ replicate 12 0 ++ le_bytes 2 1 ++ replicate 6 0
  ++ replicate 4 0 ++ le_bytes 4 84 ++ replicate 8 0 ++ le_bytes 4 filesz ++ le_bytes 4 memsz ++ replicate 8 0 ++ bytes.

Lemma image_correct_witness : exists image n,
  main 4 (Some (small_file 3 3 [1; 2; 3])) (Some (small_file 2 600 [7; 8; 9])) = Ok (0, Some image)
  /\ le_val (take 4 (drop 0x1f0 (contents image))) = n /\ 512 * (n - 1) < 600 <= 512 * n.
Proof.
  destruct (image_correct (small_file 3 3 [1; 2; 3]) (small_file 2 600 [7; 8; 9]) (mk_ehdr 52 1) (mk_phdr 84 0 3 3)
    (mk_ehdr 52 1) (mk_phdr 84 0 2 600)) as [(image & n & E & _ & Hn & _ & Hb) _].
  - eexists. split_and!; [reflexivity..|vm_compute; reflexivity].
  - eexists. split_and!; [reflexivity..|vm_compute; reflexivity].
  - vm_compute. split_and!; congruence.
  - cbn. lia.
  - vm_compute. split_and!; congruence.
  - cbn. lia.
  - cbn. lia.
  - exists image, n. cbn in Hb. split_and!; [exact E|exact Hn|lia|lia].
Defined.
End Image.
