(* ===== verification/Dump.v ===== *)
(** The hex dump of the packet programs: print.c of other/net-software.

    A function that prints has its text as result.  The text for a log file and
    the one for the screen differ in their blanks, so that the destination is an
    argument. *)

From S2P Require Import Prelude CString.

(** ** Operations *)

(** [%05x] and [%02x]: at least [n] digits. *)
Fixpoint hex_digits (n : nat) (z : Z) : list Z :=
  match n with O => [] | S n' => hex_digits n' (z / 16) ++ [hex_char (z mod 16)] end.
Definition hex_width (z : Z) : nat := S (Z.to_nat (Z.log2 z / 4)).
Definition hex_text (n : nat) (z : Z) : list Z := hex_digits (n `max` hex_width z) z.

Definition blanks (to_file : bool) : list Z := if to_file then [32; 32] else [32].

(** The loop over the bytes of a line. *)
Fixpoint hex_loop (n : nat) (to_file : bool) (payload : mem) (i : Z) : outcome (list Z) :=
  match n with
  | O => Ok []
  | S n' =>
      try! ch := rd payload i in
      try! rest := hex_loop n' to_file payload (i + 1) in
      Ok (hex_text 2 ch ++ [32] ++ (if i =? 7 then blanks to_file else []) ++ rest)
  end.
Definition print_hex_ascii_line (payload : mem) (len offset : Z) (to_file : bool) : outcome (list Z) :=
  try! hex := hex_loop (Z.to_nat len) to_file payload 0 in
  Ok (hex_text 5 offset ++ [32; 32; 32] ++ hex
      ++ (if len <? 8 then blanks to_file else [])
      ++ (if len <? 16 then replicate (Z.to_nat (3 * (16 - len))) 32 else [])
      ++ [10]).

(** The lines of a payload of more than one line.  [%] by the rest of the length
    leaves the width as it is while more than a line is left; by zero it has no
    value. *)
Fixpoint lines_loop (fuel : nat) (to_file : bool) (ch : mem) (len_rem offset : Z) : outcome (list Z) :=
  match fuel with
  | O => Fault Diverges
  | S fuel' =>
      if len_rem =? 0 then Fault NoReturnValue else
      let line_len := Z.rem 16 len_rem in
      try! l := print_hex_ascii_line ch line_len offset to_file in
      let len_rem := len_rem - line_len in
      let ch := drop (Z.to_nat line_len) ch in
      let offset := offset + 16 in
      if len_rem <=? 16 then
        try! l' := print_hex_ascii_line ch len_rem offset to_file in Ok (l ++ l')
      else
        try! rest := lines_loop fuel' to_file ch len_rem offset in Ok (l ++ rest)
  end.
(** A payload of [len] bytes has fewer than [len] lines. *)
Definition print_payload (payload : mem) (len : Z) (to_file : bool) : outcome (list Z) :=
  if len <=? 0 then Ok []
  else if len <=? 16 then print_hex_ascii_line payload len 0 to_file
  else lines_loop (Z.to_nat len) to_file payload len 0.

(** ** Reading a dump *)

Definition hex_value (c : Z) : Z := if c <? char_a then c - digit_0 else c - char_a + 10.
Definition not_blank (c : Z) : Prop := c <> 32.
#[export] Instance not_blank_dec c : Decision (not_blank c).
Proof. unfold not_blank. apply _. Defined.

(** The lines of a text, without their ends. *)
Fixpoint text_lines (l cur : list Z) : list (list Z) :=
  match l with
  | [] => match cur with [] => [] | _ => [cur] end
  | c :: r => if c =? 10 then cur :: text_lines r [] else text_lines r (cur ++ [c])
  end.
Fixpoint pairs (l : list Z) : list Z :=
  match l with a :: b :: r => 16 * hex_value a + hex_value b :: pairs r | _ => [] end.
(** What stands behind the first blank. *)
Fixpoint after_blank (l : list Z) : list Z :=
  match l with [] => [] | c :: r => if c =? 32 then r else after_blank r end.
Definition undump_line (l : list Z) : list Z := pairs (filter not_blank (after_blank l)).
Definition undump (text : list Z) : list Z := flat_map undump_line (text_lines text []).

(** ** The text *)

(** A dump of bytes [l], line by line. *)
Definition line_text (to_file : bool) (offset : Z) (l : list Z) : list Z :=
  hex_text 5 offset ++ [32; 32; 32]
  ++ mjoin (imap (fun i b => hex_text 2 b ++ [32] ++ (if Nat.eqb i 7 then blanks to_file else [])) l)
  ++ (if len l <? 8 then blanks to_file else []) ++ replicate (48 - 3 * length l) 32.

Lemma hex_loop_spec to_file l : forall pre post k, k = length pre ->
  hex_loop (length l) to_file (pre ++ l ++ post) (len pre)
    = Ok (mjoin (imap (fun i b => hex_text 2 b ++ [32] ++ (if Nat.eqb (k + i) 7 then blanks to_file else [])) l)).
Proof.
  induction l as [|b l IH]; intros pre post k ->; cbn [length hex_loop app]; [done|].
  rewrite rd_at by done. cbn [obind]. specialize (IH (pre ++ [b]) post (S (length pre))).
  rewrite len_snoc, <-app_assoc in IH. cbn [app] in IH. rewrite IH by (by rewrite length_app, Nat.add_comm). cbn [obind].
  rewrite imap_cons. cbn [mjoin list_join]. rewrite <-!app_assoc, Nat.add_0_r.
  replace (Nat.eqb (length pre) 7) with (len pre =? 7) by (destruct (Nat.eqb_spec (length pre) 7), (Z.eqb_spec (len pre) 7); (done || lia)).
  do 2 f_equal. cbn [app]. do 3 f_equal. apply imap_ext. intros i x _. cbn. by rewrite Nat.add_succ_r.
Qed.
Lemma print_line_spec to_file l post offset : (length l <= 16)%nat ->
  print_hex_ascii_line (l ++ post) (len l) offset to_file = Ok (line_text to_file offset l ++ [10]).
Proof.
  intros Hl. unfold print_hex_ascii_line, line_text. rewrite Nat2Z.id. pose proof (hex_loop_spec to_file l [] post 0 eq_refl) as E. cbn [app length Nat.add] in E. change (Z.of_nat 0) with 0 in E. rewrite E. cbn [obind].
  rewrite <-!app_assoc. do 5 f_equal. destruct (Z.ltb_spec (len l) 16).
  - do 2 f_equal. lia.
  - by replace (48 - 3 * length l)%nat with 0%nat by lia.
Qed.

(** The dump as a function of the bytes alone. *)
Fixpoint dump (fuel : nat) (to_file : bool) (offset : Z) (l : list Z) : list Z :=
  match fuel, l with
  | O, _ | _, [] => []
  | S fuel', _ => line_text to_file offset (take 16 l) ++ [10] ++ dump fuel' to_file (offset + 16) (drop 16 l)
  end.

Lemma dump_last fuel to_file offset l : (0 < length l <= 16)%nat -> dump (S fuel) to_file offset l = line_text to_file offset l ++ [10].
Proof. intros Hl. destruct l as [|x l]; [cbn in Hl; lia|]. cbn [dump]. rewrite take_ge, drop_ge by lia. by destruct fuel. Qed.
Lemma lines_loop_spec to_file fuel : forall l offset, (16 < length l <= 16 + fuel)%nat ->
  lines_loop fuel to_file l (len l) offset = Ok (dump (S fuel) to_file offset l).
Proof.
  induction fuel as [|fuel IH]; intros l offset Hl; [lia|]. cbn [lines_loop].
  destruct (Z.eqb_spec (len l) 0); [lia|]. rewrite Z.rem_small by lia.
  rewrite <-(take_drop 16 l) at 1. replace 16 with (len (take 16 l)) at 1 by (rewrite length_take; lia).
  rewrite print_line_spec by (rewrite length_take; lia). cbn [obind]. change (Z.to_nat 16) with 16%nat.
  assert (dump (S (S fuel)) to_file offset l = line_text to_file offset (take 16 l) ++ [10] ++ dump (S fuel) to_file (offset + 16) (drop 16 l)) as ->
    by (destruct l; [cbn in Hl; lia|done]).
  replace (len l - 16) with (len (drop 16 l)) by (rewrite length_drop; lia).
  destruct (Z.leb_spec (len (drop 16 l)) 16) as [Hle|Hgt].
  - pose proof (print_line_spec to_file (drop 16 l) [] (offset + 16) ltac:(lia)) as E. rewrite app_nil_r in E. rewrite E. cbn [obind]. clear E. f_equal. rewrite <-app_assoc, dump_last by (rewrite ?length_drop in *; lia). done.
  - rewrite IH by (rewrite length_drop in *; lia). cbn [obind]. by rewrite <-app_assoc.
Qed.

Lemma print_payload_dump to_file l post : 0 < len l ->
  (post = [] \/ len l <= 16) -> print_payload (l ++ post) (len l) to_file = Ok (dump (S (length l)) to_file 0 l).
Proof.
  intros Hl Hp. unfold print_payload. destruct (Z.leb_spec (len l) 0); [lia|]. destruct (Z.leb_spec (len l) 16).
  - by rewrite print_line_spec, dump_last by lia.
  - destruct Hp as [->|]; [|lia]. rewrite app_nil_r, Nat2Z.id. apply lines_loop_spec. lia.
Qed.

(** ** Reading it back *)

Lemma hex_char_value d : 0 <= d < 16 -> hex_value (hex_char d) = d /\ hex_char d <> 32 /\ hex_char d <> 10.
Proof. intros Hd. unfold hex_value, hex_char, char_a, digit_0. destruct (Z.ltb_spec d 10); [destruct (Z.ltb_spec (d + 48) 97)|destruct (Z.ltb_spec (d - 10 + 97) 97)]; lia. Qed.
Lemma hex_byte b : is_byte b -> hex_text 2 b = [hex_char (b / 16); hex_char (b mod 16)].
Proof.
  intros Hb. unfold hex_text, hex_width. assert (Z.log2 b / 4 < 2).
  { apply Z.div_lt_upper_bound; [lia|]. destruct (decide (b = 0)) as [->|]; [done|]. apply Z.log2_lt_pow2; unfold is_byte in Hb; lia. }
  replace (2 `max` S (Z.to_nat (Z.log2 b / 4)))%nat with 2%nat by lia. cbn [hex_digits app].
  unfold is_byte in Hb. by rewrite (Z.mod_small (b / 16) 16) by (pose proof (Z.div_lt_upper_bound b 16 16); pose proof (Z.div_pos b 16); lia).
Qed.
Definition plain (c : Z) : Prop := c <> 32 /\ c <> 10.
Lemma hex_digits_plain n : forall z, Forall plain (hex_digits n z).
Proof.
  induction n as [|n IH]; intros z; cbn [hex_digits]; [done|]. apply Forall_app. split; [apply IH|].
  apply Forall_singleton. pose proof (hex_char_value (z mod 16) (Z.mod_pos_bound z 16 ltac:(lia))). split; tauto.
Qed.

Lemma text_lines_line l : forall cur rest, Forall (fun c => c <> 10) l -> text_lines (l ++ 10 :: rest) cur = (cur ++ l) :: text_lines rest [].
Proof.
  induction l as [|c l IH]; intros cur rest Hl; cbn [app text_lines].
  - by rewrite Z.eqb_refl, app_nil_r.
  - apply Forall_cons in Hl as [Hc Hl]. rewrite (proj2 (Z.eqb_neq c 10) Hc), IH by done. by rewrite <-app_assoc.
Qed.
Lemma after_blank_app l r : Forall plain l -> after_blank (l ++ 32 :: r) = r.
Proof.
  induction 1 as [|c l [Hc _] _ IH]; cbn [app after_blank]; [done|]. by rewrite (proj2 (Z.eqb_neq c 32) Hc).
Qed.
Lemma filter_blanks n : filter not_blank (replicate n 32) = [].
Proof. induction n as [|n IH]; cbn [replicate]; [done|]. by rewrite filter_cons_False by (unfold not_blank; tauto). Qed.

Definition two_digits (b : Z) : list Z := [hex_char (b / 16); hex_char (b mod 16)].
Lemma filter_cells l : forall (f : nat -> list Z), (forall i, filter not_blank (f i) = []) -> Forall is_byte l ->
  filter not_blank (mjoin (imap (fun i b => hex_text 2 b ++ [32] ++ f i) l)) = flat_map two_digits l.
Proof.
  induction l as [|b l IH]; intros f Hf Hl; [done|]. apply Forall_cons in Hl as [Hb Hl]. rewrite imap_cons. cbn [mjoin list_join flat_map].
  rewrite !filter_app, Hf. change ((fun i b => hex_text 2 b ++ [32] ++ f i) ∘ S) with (fun i b => hex_text 2 b ++ [32] ++ (f ∘ S) i).
  rewrite IH by (try done; intros i; apply Hf). rewrite hex_byte by done. f_equal. unfold is_byte in Hb.
  pose proof (hex_char_value (b mod 16) (Z.mod_pos_bound b 16 ltac:(lia))).
  assert (0 <= b / 16 < 16) as Hq by (pose proof (Z.div_lt_upper_bound b 16 16); pose proof (Z.div_pos b 16); lia). pose proof (hex_char_value _ Hq).
  rewrite !filter_cons_True by (unfold not_blank; tauto). by rewrite filter_cons_False by (unfold not_blank; tauto).
Qed.
Lemma pairs_two_digits l : Forall is_byte l -> pairs (flat_map two_digits l) = l.
Proof.
  induction 1 as [|b l Hb _ IH]; [done|]. cbn [flat_map two_digits app pairs]. rewrite IH. f_equal. unfold is_byte in Hb.
  rewrite !(fun d H => proj1 (hex_char_value d H)) by (pose proof (Z.div_lt_upper_bound b 16 16); pose proof (Z.div_pos b 16);
    pose proof (Z.mod_pos_bound b 16); lia). pose proof (Z.div_mod b 16). lia.
Qed.

Lemma filter_of_blanks (c to_file : bool) : filter not_blank (if c then blanks to_file else []) = [].
Proof. by destruct c, to_file. Qed.
Lemma undump_line_text to_file offset l : Forall is_byte l -> undump_line (line_text to_file offset l) = l.
Proof.
  intros Hl. unfold undump_line, line_text. cbn [app]. rewrite after_blank_app by apply hex_digits_plain.
  cbn [app]. rewrite !filter_cons_False by (unfold not_blank; tauto).
  pose proof (filter_cells l (fun i => if Nat.eqb i 7 then blanks to_file else []) ltac:(intros; apply filter_of_blanks) Hl) as E.
  cbn [app] in E. rewrite !filter_app, E, filter_of_blanks, filter_blanks, !app_nil_r. by apply pairs_two_digits.
Qed.
Lemma blanks_no_newline (c to_file : bool) : Forall (fun c => c <> 10) (if c then blanks to_file else []).
Proof. destruct c, to_file; repeat constructor; lia. Qed.
Lemma line_text_no_newline to_file offset l : Forall (fun c => c <> 10) (line_text to_file offset l).
Proof.
  assert (forall n z, Forall (fun c => c <> 10) (hex_text n z)) as Hh.
  { intros n z. eapply Forall_impl; [apply hex_digits_plain|]. intros c [_ ?]. done. }
  unfold line_text. rewrite !Forall_app. split_and!; [apply Hh|repeat constructor; lia| |apply blanks_no_newline|by apply Forall_replicate].
  apply Forall_join, Forall_forall. intros x (i & b & -> & _)%elem_of_lookup_imap.
  rewrite !Forall_app. split_and!; [apply Hh|repeat constructor; lia|apply blanks_no_newline].
Qed.
Lemma undump_dump to_file fuel : forall offset l, (length l <= fuel)%nat -> Forall is_byte l -> undump (dump fuel to_file offset l) = l.
Proof.
  induction fuel as [|fuel IH]; intros offset l Hf Hl; [by destruct l; [|cbn in Hf; lia]|].
  destruct l as [|b l]; [done|]. cbn [dump]. set (k := b :: l) in *. unfold undump. cbn [app].
  rewrite text_lines_line by apply line_text_no_newline. cbn [flat_map app]. rewrite undump_line_text by by apply Forall_take.
  change (flat_map undump_line (text_lines ?t [])) with (undump t).
  rewrite IH by (rewrite ?length_drop; try apply Forall_drop; (done || unfold k in *; cbn in *; lia)). apply take_drop.
Qed.

Lemma undump_app a b : (a = [] \/ last a = Some 10) -> undump (a ++ b) = undump a ++ undump b.
Proof.
  assert (forall a cur, last a = Some 10 -> flat_map undump_line (text_lines (a ++ b) cur)
    = flat_map undump_line (text_lines a cur) ++ flat_map undump_line (text_lines b [])) as Ha.
  { clear a. induction a as [|c a IH]; intros cur Hl; [done|]. cbn [app text_lines]. destruct (Z.eqb_spec c 10) as [->|Hc].
    - cbn [flat_map]. rewrite <-app_assoc. f_equal. destruct a as [|d a]; [done|]. by apply IH.
    - destruct a as [|d a]; [by injection Hl|]. by apply IH. }
  intros [->|Hl]; [done|by apply Ha].
Qed.
(** The line of byte [16 * i] starts behind the lines of the bytes before it. *)
Lemma dump_line to_file fuel : forall offset l i, (length l <= fuel)%nat -> (16 * i < length l)%nat -> Forall is_byte l ->
  exists pre post, dump fuel to_file offset l = pre ++ hex_text 5 (offset + 16 * Z.of_nat i) ++ [32] ++ post
    /\ (pre = [] \/ last pre = Some 10) /\ undump pre = take (16 * i) l.
Proof.
  induction fuel as [|fuel IH]; intros offset l i Hf Hi Hl; [lia|].
  assert (dump (S fuel) to_file offset l = (line_text to_file offset (take 16 l) ++ [10]) ++ dump fuel to_file (offset + 16) (drop 16 l)) as ->.
  { rewrite <-app_assoc. destruct l; [cbn in Hi; lia|done]. }
  destruct i as [|i].
  - eexists [], _. split_and!; [|by left|done]. rewrite Z.mul_0_r, Z.add_0_r. unfold line_text. by rewrite <-!app_assoc.
  - destruct (IH (offset + 16) (drop 16 l) i) as (pre & post & E & Hp & Hu); [rewrite length_drop; lia..|by apply Forall_drop|].
    exists ((line_text to_file offset (take 16 l) ++ [10]) ++ pre), post. split_and!.
    + rewrite E, <-!app_assoc. by replace (offset + 16 * Z.of_nat (S i)) with (offset + 16 + 16 * Z.of_nat i) by lia.
    + right. rewrite last_app. destruct Hp as [->|Hp]; [cbn; by rewrite last_app|by rewrite Hp].
    + rewrite undump_app by (right; by rewrite last_app). rewrite Hu. replace (16 * S i)%nat with (16 + 16 * i)%nat by lia.
      rewrite <-take_take_drop. f_equal. unfold undump. rewrite text_lines_line by apply line_text_no_newline. cbn [app text_lines flat_map].
      rewrite app_nil_r. apply undump_line_text. by apply Forall_take.
Qed.

(** ** The dump of a packet *)

(** C39: the dump of a payload, on the screen or in a log file, ends, and what it
    shows is the payload: taking the digits of its lines gives back every byte in
    its order, for payloads of any length, also one that ends within a line.  The
    number in front of a line is the number of bytes on the lines before it. *)
Theorem print_payload_roundtrip (payload : list Z) (to_file : bool) :
  Forall is_byte payload ->
  exists text, print_payload payload (len payload) to_file = Ok text /\ undump text = payload
    /\ forall i, 16 * Z.of_nat i < len payload ->
       exists pre post, text = pre ++ hex_text 5 (16 * Z.of_nat i) ++ [32] ++ post /\ undump pre = take (16 * i) payload.
Proof.
  intros Hb. destruct (decide (payload = [])) as [->|Hn].
  { exists []. split_and!; [done..|]. intros i Hi. cbn in Hi. lia. }
  pose proof (print_payload_dump to_file payload []) as E. rewrite app_nil_r in E.
  eexists. split_and!; [apply E; [destruct payload; [done|cbn; lia]|by left]|apply undump_dump; [lia|done]|].
  intros i Hi. destruct (dump_line to_file (S (length payload)) 0 payload i) as (pre & post & Ed & _ & Hu); [lia..|done|]. eauto.
Qed.
Lemma print_payload_roundtrip_witness : exists text,
  print_payload (replicate 20 171) 20 false = Ok text /\ undump text = replicate 20 171.
Proof.
  destruct (print_payload_roundtrip (replicate 20 171) false) as (text & E & H & _).
  - apply Forall_replicate. unfold is_byte. lia.
  - exists text. split; [exact E|exact H].
Defined.
