(* ===== verification/Packet.v ===== *)
(** The packet programs of the host: pktRxTx.c and pktheader.h of
    other/net-software, in the build for Linux.

    [pktRxtx-bonus] is modelled but for [usage] and [sig_handler]; the functions of the other version,
    [pktRxTX-task1-task2-task3], that are different are in the section [task].  The
    adapter, which libpcap drives, and the clock are the interface [Pcap].  What
    is printed is left out, but for the messages about packets that could not be
    sent, which are counted. *)

From S2P Require Import Prelude Wp CString Image Dump.

(** ** The interface *)

(** Microseconds from one reading of the clock, in seconds and nanoseconds, to another. *)
Definition elapsed (t_s t_e : Z * Z) : Z := (fst t_e - fst t_s) * 1000000 + Z.quot (snd t_e - snd t_s) 1000.

Class Pcap (net : Type) := {
  pcap_sendpacket : list Z -> net -> Z * net;
  pcap_next_ex : net -> Z * (Z * list Z) * net;     (* the length on the wire and the bytes *)
  clock_gettime : net -> Z * Z * net;
  sent : net -> list (list Z);
  received : net -> list (list Z);
  pcap_sends p n r n' : pcap_sendpacket p n = (r, n') ->
    received n' = received n /\ sent n' = if r =? 0 then sent n ++ [p] else sent n;
  pcap_receives n r l d n' : pcap_next_ex n = (r, (l, d), n') ->
    sent n' = sent n /\ if 0 <? r then received n' = received n ++ [d] /\ l = len d /\ 14 <= len d else received n' = received n;
  clock_reads n t n' : clock_gettime n = (t, n') -> sent n' = sent n /\ received n' = received n;
  clock_runs n t_s us : exists k, us < elapsed t_s (fst (clock_gettime (Nat.iter k (fun n => snd (clock_gettime n)) n)))
}.

(** ** Headers

    Host memory is little-endian, and a bit field starts at the low bits. *)

Record iphdr := mk_iphdr {
  ip_ihl : Z; ip_version : Z; ip_tos : Z; ip_tot_len : Z; ip_id : Z; ip_frag_off : Z;
  ip_ttl : Z; ip_protocol : Z; ip_check : Z; ip_saddr : Z; ip_daddr : Z
}.
#[export] Instance iphdr_struct : Struct iphdr := fun h =>
  mk_iphdr (ip_ihl h) (ip_version h) (ip_tos h) (ip_tot_len h) (ip_id h) (ip_frag_off h)
    (ip_ttl h) (ip_protocol h) (ip_check h) (ip_saddr h) (ip_daddr h).
Definition iphdr_bytes (h : iphdr) : list Z :=
  [ip_ihl h + 16 * ip_version h; ip_tos h] ++ le_bytes 2 (ip_tot_len h) ++ le_bytes 2 (ip_id h) ++ le_bytes 2 (ip_frag_off h)
  ++ [ip_ttl h; ip_protocol h] ++ le_bytes 2 (ip_check h) ++ le_bytes 4 (ip_saddr h) ++ le_bytes 4 (ip_daddr h).

Record tcphdr := mk_tcphdr {
  tcp_source : Z; tcp_dest : Z; tcp_seq : Z; tcp_ack_seq : Z; tcp_doff : Z;
  tcp_fin : Z; tcp_syn : Z; tcp_rst : Z; tcp_psh : Z; tcp_ack : Z; tcp_urg : Z;
  tcp_window : Z; tcp_check : Z; tcp_urg_ptr : Z
}.
#[export] Instance tcphdr_struct : Struct tcphdr := fun h =>
  mk_tcphdr (tcp_source h) (tcp_dest h) (tcp_seq h) (tcp_ack_seq h) (tcp_doff h) (tcp_fin h) (tcp_syn h) (tcp_rst h)
    (tcp_psh h) (tcp_ack h) (tcp_urg h) (tcp_window h) (tcp_check h) (tcp_urg_ptr h).
(** [res1], [ece] and [cwr] stay 0. *)
Definition tcphdr_bytes (h : tcphdr) : list Z :=
  le_bytes 2 (tcp_source h) ++ le_bytes 2 (tcp_dest h) ++ le_bytes 4 (tcp_seq h) ++ le_bytes 4 (tcp_ack_seq h)
  ++ [16 * tcp_doff h; tcp_fin h + 2 * tcp_syn h + 4 * tcp_rst h + 8 * tcp_psh h + 16 * tcp_ack h + 32 * tcp_urg h]
  ++ le_bytes 2 (tcp_window h) ++ le_bytes 2 (tcp_check h) ++ le_bytes 2 (tcp_urg_ptr h).

Record pseudo_header := mk_pseudo { source_address : Z; dest_address : Z; placeholder : Z; psh_protocol : Z; tcp_length : Z }.
Definition pseudo_bytes (h : pseudo_header) : list Z :=
  le_bytes 4 (source_address h) ++ le_bytes 4 (dest_address h) ++ [placeholder h; psh_protocol h] ++ le_bytes 2 (tcp_length h).

Definition sizeof_ethhdr : Z := 14.
Definition sizeof_iphdr : Z := 20.
Definition sizeof_tcphdr : Z := 20.
Definition sizeof_pseudo : Z := 12.
Definition PACKET_LEN : Z := 1514.
Definition HEADER_LEN : Z := sizeof_ethhdr + sizeof_iphdr + sizeof_tcphdr.
Definition PAYLOAD_OFFSET : Z := HEADER_LEN.
Definition TCPHDR_OFFSET : Z := sizeof_ethhdr + sizeof_iphdr.
Definition IPHDR_OFFSET : Z := sizeof_ethhdr.
Definition PSEUDO_SIZE : Z := sizeof_pseudo + sizeof_tcphdr + PACKET_LEN - HEADER_LEN.
Definition IPPROTO_TCP : Z := 6.
Definition ECHO_MODE : Z := 1.
Definition LISTENING_MODE : Z := 2.
Definition BENCHMARK_MODE : Z := 3.

Definition htons (x : Z) : Z := le_val (rev (le_bytes 2 x)).
Definition htonl (x : Z) : Z := le_val (rev (le_bytes 4 x)).
(** The address with these four numbers. *)
Definition inet_addr (a b c d : Z) : Z := le_val [a; b; c; d].

(** ** The state: the global variables *)

Record tool (net : Type) := mk_tool {
  iph : iphdr;
  tcph : tcphdr;
  pkt : mem;
  pseudo_gram : mem;
  rxtx_exit : Z;
  insert_iphdr : Z;
  insert_tcphdr : Z;
  need_ack : Z;             (* of the older version *)
  log_file : Z;
  tfname : mem;
  rfname : mem;
  fbinary : Z;
  dev : mem;
  tx_cnt : Z;
  rx_cnt : Z;
  mode : Z;
  interval : Z;
  sendnum : Z;
  src_mac_addr : list Z;
  dest_mac_addr : list Z;
  errors : nat;             (* messages about packets that were not sent *)
  wire : net
}.
Arguments mk_tool {net}.
Arguments iph {net}.
Arguments tcph {net}.
Arguments pkt {net}.
Arguments pseudo_gram {net}.
Arguments rxtx_exit {net}.
Arguments insert_iphdr {net}.
Arguments insert_tcphdr {net}.
Arguments need_ack {net}.
Arguments log_file {net}.
Arguments tfname {net}.
Arguments rfname {net}.
Arguments fbinary {net}.
Arguments dev {net}.
Arguments tx_cnt {net}.
Arguments rx_cnt {net}.
Arguments mode {net}.
Arguments interval {net}.
Arguments sendnum {net}.
Arguments src_mac_addr {net}.
Arguments dest_mac_addr {net}.
Arguments errors {net}.
Arguments wire {net}.
#[export] Instance tool_struct {net} : Struct (tool net) := fun s =>
  mk_tool (iph s) (tcph s) (pkt s) (pseudo_gram s) (rxtx_exit s) (insert_iphdr s) (insert_tcphdr s) (need_ack s) (log_file s)
    (tfname s) (rfname s) (fbinary s) (dev s) (tx_cnt s) (rx_cnt s) (mode s) (interval s) (sendnum s)
    (src_mac_addr s) (dest_mac_addr s) (errors s) (wire s).

Definition no_iphdr : iphdr := mk_iphdr 0 0 0 0 0 0 0 0 0 0 0.
Definition no_tcphdr : tcphdr := mk_tcphdr 0 0 0 0 0 0 0 0 0 0 0 0 0 0.
(** The program when it starts. *)
Definition new_tool {net} (n : net) : tool net :=
  mk_tool no_iphdr no_tcphdr (replicate (Z.to_nat PACKET_LEN) 0) (replicate (Z.to_nat PSEUDO_SIZE) 0) 0 1 1 0 0
    (replicate 50 0) (replicate 50 0) 0 (replicate 55 0) 0 0 ECHO_MODE 1 3
    [0x80; 0xfa; 0x5b; 0x33; 0x56; 0xef] [0x00; 0x0e; 0xc6; 0xd7; 0x77; 0x7b] 0 n.

(** ** Checksums *)

Fixpoint csum_loop (fuel : nat) (m : mem) (ptr nbytes sum : Z) : outcome Z :=
  match fuel with
  | O => Fault Diverges
  | S fuel' =>
      if nbytes >? 1 then
        try! w := slice m ptr 2 in
        csum_loop fuel' m (ptr + 2) (nbytes - 2) (sum + le_val w)
      else if nbytes =? 1 then
        try! oddbyte := rd m ptr in Ok (sum + oddbyte)
      else Ok sum
  end.
Definition csum (m : mem) (nbytes : Z) : outcome Z :=
  try! sum := csum_loop (S (Z.to_nat nbytes)) m 0 nbytes 0 in
  let sum := Z.shiftr sum 16 + Z.land sum 0xffff in
  let sum := sum + Z.shiftr sum 16 in
  Ok (u16 (Z.lnot sum)).

(** ** Packets *)

Section tool.
Context {net : Type} `{PC : Pcap net}.
Abbreviation Tool := (M (tool net)).

(** [memcpy] into the packet. *)
Definition put_pkt (offset : Z) (l : list Z) : Tool unit := fun s =>
  try! p := splice (pkt s) offset l in Ok (tt, s <| pkt := p |>).
Definition put_pseudo (offset : Z) (l : list Z) : Tool unit := fun s =>
  try! p := splice (pseudo_gram s) offset l in Ok (tt, s <| pseudo_gram := p |>).

Definition ip_header (payload_len : Z) : Tool unit :=
  do! modify (fun s => s <| iph := (iph s) <| ip_tot_len := htons (sizeof_iphdr + sizeof_tcphdr + payload_len) |> |>);
  do! modify (fun s => s <| iph := (iph s) <| ip_check := 0 |> |>);
  let! h := gets iph in
  let! c := lift (csum (iphdr_bytes h) sizeof_iphdr) in
  do! modify (fun s => s <| iph := (iph s) <| ip_check := c |> |>);
  let! h := gets iph in
  put_pkt IPHDR_OFFSET (iphdr_bytes h).

Definition tcp_header (payload_len : Z) : Tool unit :=
  do! modify (fun s => s <| tcph := (tcph s) <| tcp_check := 0 |> |>);
  do! modify (fun s => s <| tx_cnt := i32 (tx_cnt s + 1) |>);
  do! modify (fun s => s <| tcph := (tcph s) <| tcp_seq := htonl (u32 (tx_cnt s)) |> |>);
  let! ip := gets iph in
  let psh := mk_pseudo (ip_saddr ip) (ip_daddr ip) 0 IPPROTO_TCP (htons (sizeof_tcphdr + payload_len)) in
  let psize := sizeof_pseudo + sizeof_tcphdr + payload_len in
  do! put_pseudo 0 (pseudo_bytes psh);
  let! h := gets tcph in
  do! put_pseudo sizeof_pseudo (tcphdr_bytes h);
  let! p := gets pkt in
  let! payload := lift (slice p PAYLOAD_OFFSET payload_len) in
  do! put_pseudo (sizeof_pseudo + sizeof_tcphdr) payload;
  let! g := gets pseudo_gram in
  let! c := lift (csum g psize) in
  do! modify (fun s => s <| tcph := (tcph s) <| tcp_check := c |> |>);
  let! h := gets tcph in
  put_pkt TCPHDR_OFFSET (tcphdr_bytes h).

(** The first [len] bytes of [str] from [start] on, and 0x11 up to the end of the payload. *)
Definition fill_payload (start : Z) (str : list Z) (len payload_len : Z) : Tool unit :=
  let! l := lift (slice str 0 len) in
  do! put_pkt start l;
  for_range (Z.to_nat (PAYLOAD_OFFSET + payload_len - (start + len))) (start + len) (fun i => put_pkt i [0x11]).

Definition send_down (l : list Z) : Tool unit := fun s =>
  let (r, n) := pcap_sendpacket l (wire s) in
  Ok (tt, if r =? 0 then s <| wire := n |> else s <| wire := n |> <| errors := S (errors s) |>).

Definition send_packet (str : list Z) (len : Z) : Tool unit :=
  let payload_len := 65 in
  do! ip_header payload_len;
  do! tcp_header payload_len;
  do! fill_payload PAYLOAD_OFFSET str len payload_len;
  let! p := gets pkt in
  let! l := lift (slice p 0 (HEADER_LEN + payload_len)) in
  send_down l.

Definition prepare_header : Tool unit :=
  do! for_range 6 0 (fun i =>
    let! d := gets dest_mac_addr in
    let! d := lift (rd d i) in
    do! put_pkt i [d];
    let! m := gets src_mac_addr in
    let! m := lift (rd m i) in
    put_pkt (i + 6) [m]);
  let! ins := gets insert_iphdr in
  do! put_pkt 12 (le_bytes 2 (if ins =? 0 then 0x87a else htons 0x0800));
  do! modify (fun s => s <| iph := no_iphdr <| ip_ihl := 5 |> <| ip_version := 4 |> <| ip_tos := 0 |> <| ip_id := htons 54321 |>
                              <| ip_frag_off := 0 |> <| ip_ttl := 255 |> |>);
  do! modify (fun s => s <| iph := (iph s) <| ip_daddr := inet_addr 10 0 0 67 |> |>);
  do! modify (fun s => s <| iph := (iph s) <| ip_daddr := inet_addr 10 0 0 68 |> |>);
  let! ins := gets insert_tcphdr in
  do! modify (fun s => s <| iph := (iph s) <| ip_protocol := if ins =? 0 then u8 (Z.lnot IPPROTO_TCP) else IPPROTO_TCP |> |>);
  let! h := gets iph in
  do! put_pkt IPHDR_OFFSET (iphdr_bytes h);
  do! modify (fun s => s <| tcph := no_tcphdr <| tcp_source := htons 46930 |> <| tcp_dest := htons 50001 |> <| tcp_seq := 0 |>
                               <| tcp_ack_seq := 0 |> <| tcp_doff := 5 |> <| tcp_fin := 0 |> <| tcp_syn := 0 |> <| tcp_rst := 0 |>
                               <| tcp_psh := 0 |> <| tcp_ack := 1 |> <| tcp_urg := 0 |> <| tcp_window := htons 5840 |>
                               <| tcp_check := 0 |> <| tcp_urg_ptr := 0 |> |>);
  let! h := gets tcph in
  put_pkt TCPHDR_OFFSET (tcphdr_bytes h).

(** ** Receiving *)

Definition from_wire {A} (f : net -> A * net) : Tool A := fun s => let (a, n) := f (wire s) in Ok (a, s <| wire := n |>).

(** One round of the loop: does it go on? *)
Definition receive_round : Tool bool :=
  let! r := from_wire pcap_next_ex in
  let '(res, (n, pkt_data)) := r in
  if res <? 0 then ret false
  else if res =? 0 then ret true
  else
    let! m := gets mode in
    if m =? ECHO_MODE then
      let! tmp_mac_addr := lift (slice pkt_data 0 6) in
      let! source := lift (slice pkt_data 6 6) in
      let! pkt_data := lift (splice pkt_data 0 source) in
      let! pkt_data := lift (splice pkt_data 6 tmp_mac_addr) in
      let! l := lift (slice pkt_data 0 n) in
      do! send_down l;
      ret true
    else
      do! modify (fun s => s <| rx_cnt := i32 (rx_cnt s + 1) |>);
      let! c := gets rx_cnt in
      do! (if c >=? 10000 then modify (fun s => s <| rx_cnt := 0 |>) else ret tt);
      ret true.
(** The first [rounds] rounds of the thread; [true]: it is still running. *)
Fixpoint receive_packet (rounds : nat) : Tool bool :=
  match rounds with
  | O => ret true
  | S rounds' => let! go := receive_round in if go then receive_packet rounds' else ret false
  end.

(** ** Waiting and commands *)

Fixpoint wait_loop (fuel : nat) (t_s : Z * Z) (us : Z) : Tool unit :=
  match fuel with
  | O => throw Diverges
  | S fuel' =>
      let! stop := gets rxtx_exit in
      if negb (stop =? 0) then ret tt
      else
        let! t_e := from_wire clock_gettime in
        if elapsed t_s t_e >? us then ret tt else wait_loop fuel' t_s us
  end.
Definition time_wait (fuel : nat) (us : Z) : Tool unit :=
  let! t_s := from_wire clock_gettime in
  wait_loop fuel t_s us.

Definition normal : list Z := [110; 111; 114; 109; 97; 108; 0].
Definition quit : list Z := [113; 117; 105; 116].

(** [while (num--)] of the listening mode. *)
Fixpoint send_loop (fuel : nat) (num : Z) : Tool unit :=
  match fuel with
  | O => throw Diverges
  | S fuel' =>
      if num =? 0 then ret tt
      else
        do! send_packet normal 6;
        do! time_wait fuel 200;
        send_loop fuel' (i32 (num - 1))
  end.
(** [scanf] of a word into [cmd], which keeps what it has at the end of the
    input, and whether it starts with "quit". *)
Definition read_cmd (cmd : list Z) (word : option (list Z)) : outcome (list Z * bool) :=
  try! cmd := match word with Some word => splice cmd 0 (word ++ [0]) | None => Ok cmd end in
  try! l := slice cmd 0 4 in
  Ok (cmd, bool_decide (l = quit)).
(** [scanf] of a number, likewise. *)
Definition read_num (num : Z) (input : list (list Z * Z)) : Z := match input with (_, num') :: _ => num' | [] => num end.

(** The commands are pairs of a word and a number. [while (num--)] leaves -1 in
    [num], which is what the next round has when the input is at its end. *)
Fixpoint listening (rounds fuel : nat) (cmd : list Z) (num : Z) (input : list (list Z * Z)) : Tool unit :=
  match rounds with
  | O => throw Diverges
  | S rounds' =>
      let! c := lift (read_cmd cmd (fst <$> head input)) in
      if snd c then ret tt
      else
        do! send_loop fuel (read_num num input);
        let! stop := gets rxtx_exit in
        if stop =? 0 then listening rounds' fuel (fst c) (-1) (tail input) else ret tt
  end.

(** Sending for [time] seconds, in the benchmark mode. *)
Fixpoint bench_loop (fuel : nat) (t_s : Z * Z) (time : Z) : Tool unit :=
  match fuel with
  | O => throw Diverges
  | S fuel' =>
      let! stop := gets rxtx_exit in
      if negb (stop =? 0) then ret tt
      else
        let! t_e := from_wire clock_gettime in
        if elapsed t_s t_e >=? i32 (time * 1000000) then ret tt
        else
          do! send_packet normal 6;
          do! time_wait fuel 50;
          bench_loop fuel' t_s time
  end.
Fixpoint benchmark (rounds fuel : nat) (cmd : list Z) (time : Z) (input : list (list Z * Z)) : Tool unit :=
  match rounds with
  | O => throw Diverges
  | S rounds' =>
      let! c := lift (read_cmd cmd (fst <$> head input)) in
      if snd c then ret tt
      else
        let time := read_num time input in
        let! t_s := from_wire clock_gettime in
        do! bench_loop fuel t_s time;
        let! stop := gets rxtx_exit in
        if stop =? 0 then benchmark rounds' fuel (fst c) time (tail input) else ret tt
  end.
End tool.

(** ** Options *)

(** [getopt] with "bvhf:t:n:i:m:": the options in their order, each with its
    argument; 63 ('?') is the answer for an option that is not known or lacks its
    argument. *)
Definition takes_argument (c : Z) : bool := bool_decide (c ∈ [102; 116; 110; 105; 109]).
Definition is_option (c : Z) : bool := takes_argument c || bool_decide (c ∈ [98; 118; 104]).
Fixpoint cluster (go : list (list Z) -> list (Z * list Z)) (args : list (list Z)) (cs : list Z) : list (Z * list Z) :=
  match cs with
  | [] => go args
  | c :: cs' =>
      if takes_argument c then
        match cs' with
        | [] => match args with [] => [(63, [])] | a :: args' => (c, a) :: go args' end
        | _ => (c, cs') :: go args
        end
      else (if is_option c then c else 63, []) :: cluster go args cs'
  end.
Fixpoint getopt (fuel : nat) (args : list (list Z)) : list (Z * list Z) :=
  match fuel, args with
  | O, _ | _, [] => []
  | S fuel', a :: args' =>
      match a with
      | 45 :: [] => []
      | 45 :: 45 :: [] => []
      | 45 :: cs => cluster (getopt fuel') args' cs
      | _ => []
      end
  end.

(** [atoi] of the host: blanks, a sign, digits. *)
Fixpoint decimal (n : Z) (l : list Z) : Z :=
  match l with c :: r => if is_dec c then decimal (10 * n + (c - digit_0)) r else n | [] => n end.
Fixpoint host_atoi (l : list Z) : Z :=
  match l with
  | 32 :: r => host_atoi r
  | 45 :: r => i32 (- decimal 0 r)
  | 43 :: r => i32 (decimal 0 r)
  | _ => i32 (decimal 0 l)
  end.

(** [strcpy] into an array. *)
Definition copy_string (buf s : list Z) : outcome (list Z) := splice buf 0 (s ++ [0]).
Definition log_suffix (dir : Z) : list Z := [45; dir; 120; 45; 37; 48; 51; 100; 46; 108; 111; 103].   (* -tx-%03d.log *)

Section options.
Context {net : Type} `{PC : Pcap net}.
Abbreviation Tool := (M (tool net)).

(** One option: the result is the status with which the program ends. *)
Definition do_option (o : Z * list Z) : Tool (option Z) :=
  let (i, optarg) := o in
  if i =? 109 then do! modify (fun s => s <| mode := host_atoi optarg |>); ret None
  else if i =? 116 then do! modify (fun s => s <| interval := host_atoi optarg |>); ret None
  else if i =? 110 then
    do! modify (fun s => s <| sendnum := host_atoi optarg |>);
    do! modify (fun s => s <| fbinary := 1 |>); ret None
  else if i =? 98 then do! modify (fun s => s <| fbinary := 1 |>); ret None
  else if i =? 102 then
    let! t := gets tfname in
    let! t := lift (copy_string t (optarg ++ log_suffix 116)) in
    do! modify (fun s => s <| tfname := t |>);
    let! r := gets rfname in
    let! r := lift (copy_string r (optarg ++ log_suffix 114)) in
    do! modify (fun s => s <| rfname := r |>);
    do! modify (fun s => s <| log_file := 1 |>); ret None
  else if i =? 105 then
    let! d := gets dev in
    let! d := lift (copy_string d optarg) in
    do! modify (fun s => s <| dev := d |>); ret None
  else if i =? 104 then ret (Some 0)
  else ret (Some 1).
(** The result has also whether a device was named. *)
Fixpoint do_options (l : list (Z * list Z)) (setdev : bool) : Tool (option Z * bool) :=
  match l with
  | [] => ret (None, setdev)
  | o :: l' =>
      let! r := do_option o in
      match r with Some _ => ret (r, setdev) | None => do_options l' (setdev || (fst o =? 105)) end
  end.
(** [devs] is what [pcap_findalldevs] finds, [inum] what the user answers. *)
Definition choose_device (devs : option (list (list Z))) (inum : option Z) : Tool (option Z) :=
  match devs with
  | None => ret (Some 1)
  | Some [] => ret (Some 1)
  | Some l =>
      match inum with
      | None => ret (Some 1)
      | Some k =>
          if (k <? 1) || (k >? len l) then ret (Some 1)
          else
            let! name := lift (rd l (k - 1)) in
            let! d := gets dev in
            let! d := lift (copy_string d name) in
            do! modify (fun s => s <| dev := d |>); ret None
      end
  end.
Definition get_options (args : list (list Z)) (devs : option (list (list Z))) (inum : option Z) : Tool (option Z) :=
  let! r := do_options (getopt (length args) args) false in
  match r with
  | (Some e, _) => ret (Some e)
  | (None, true) => ret None
  | (None, false) => choose_device devs inum
  end.

(** The program, with its exit status.  [uid], [opened] and [threads] are what
    [getuid], [pcap_open_live] and [pthread_create] answer.  Without a command
    loop the program waits for the thread that receives, which runs for [rounds]
    rounds. [junk] is what the stack holds where [cmd] and the number are. *)
Definition main (uid : Z) (args : list (list Z)) (devs : option (list (list Z))) (inum : option Z) (opened threads : bool)
    (fuel rounds : nat) (junk : list Z * Z) (input : list (list Z * Z)) : Tool Z :=
  if negb (uid =? 0) then ret 1
  else
    let! e := get_options args devs inum in
    match e with
    | Some e => ret e
    | None =>
        do! modify (fun s => s <| rxtx_exit := 0 |>);
        if negb opened then ret 1
        else if negb threads then ret 0
        else
          let! m := gets mode in
          if m =? LISTENING_MODE then
            do! prepare_header;
            do! listening fuel fuel (fst junk) (snd junk) input; ret 0
          else if m =? BENCHMARK_MODE then
            do! prepare_header;
            do! benchmark fuel fuel (fst junk) (snd junk) input; ret 0
          else
            do! receive_packet rounds; ret 0
    end.
End options.

(** ** The log *)

(** A log: the name and the file that is open, the number of the next one, and
    the files that were closed. *)
Record packet_log := mk_log { fp : option (list Z * Image.file); fidx : Z; closed : list (list Z * Image.file) }.
(** [sprintf] with the format "...%03d.log" of a log. *)
Definition log_name (prefix : list Z) (n : Z) : list Z :=
  prefix ++ [digit_0 + n / 100; digit_0 + n / 10 mod 10; digit_0 + n mod 10] ++ [46; 108; 111; 103].
(** A new file; [closed] gets the one that was open.  [can_open] is whether [fopen] succeeds. *)
Definition open_log (can_open : bool) (prefix : list Z) (l : packet_log) : option packet_log :=
  let closed' := match fp l with Some f => f :: closed l | None => closed l end in
  if can_open then
    let n := fidx l + 1 in
    Some (mk_log (Some (log_name prefix (fidx l), Image.mk_file [] 0)) (if n >? 10 then 1 else n) closed')
  else None.
(** [None]: the program ends because no file could be opened.  The text of a
    packet that is not logged to a file goes to the screen. *)
Definition log_packets (log_file fbinary : Z) (can_open : bool) (prefix : list Z) (l : packet_log) (buf : list Z) (n : Z)
    : outcome (option (packet_log * list Z)) :=
  let opened :=
    if negb (log_file =? 0) then
      match fp l with
      | Some (name, f) =>
          let pos := Image.position f in
          if pos + n >? 0x1000000 then open_log can_open prefix l
          else if negb (fbinary =? 0) && negb (Z.land pos 0xf =? 0)
          then Some (mk_log (Some (name, Image.fseek f (pos + (0x10 - Z.land pos 0xf)))) (fidx l) (closed l))
          else Some l
      | None => open_log can_open prefix l
      end
    else Some (mk_log None (fidx l) (closed l)) in
  match opened with
  | None => Ok None
  | Some l =>
      match fp l with
      | Some (name, f) =>
          if negb (fbinary =? 0) then
            try! b := slice buf 0 n in
            Ok (Some (mk_log (Some (name, Image.fwrite b f)) (fidx l) (closed l), []))
          else
            try! t := print_payload buf n true in
            Ok (Some (mk_log (Some (name, Image.fwrite t f)) (fidx l) (closed l), []))
      | None =>
          try! t := print_payload buf n false in Ok (Some (l, t))
      end
  end.

(** ** The version for the first three tasks *)

Section task.
Context {net : Type} `{PC : Pcap net}.
Abbreviation Tool := (M (tool net)).

Definition task_new_tool (n : net) : tool net :=
  (new_tool n) <| src_mac_addr := [0x90; 0xe2; 0xba; 0x15; 0xcd; 0xd0] |> <| dest_mac_addr := [0x10; 0x1b; 0x54; 0x84; 0x83; 0xd6] |>.
(** The payload starts with a flag. *)
Definition task_send_packet (str : list Z) (len : Z) : Tool unit :=
  let! a := gets need_ack in
  do! put_pkt PAYLOAD_OFFSET [a];
  let payload_len := 20 in
  do! ip_header payload_len;
  do! tcp_header payload_len;
  do! fill_payload (PAYLOAD_OFFSET + 1) str len payload_len;
  let! p := gets pkt in
  let! l := lift (slice p 0 (HEADER_LEN + payload_len)) in
  send_down l.
End task.
