(* ===== verification/PacketProps.v ===== *)
(** What the packet programs send and receive.

    The checksum of csum is the one's complement sum of RFC 1071; the frames that
    are sent; what the receiving thread does with a packet. *)

From S2P Require Import Prelude Wp CString Image Dump Packet.

(** ** Checksums *)

(** The words of a sequence of bytes; a last single byte is a word by itself. *)
Fixpoint words (l : list Z) : list Z :=
  match l with
  | [] => []
  | a :: r => match r with [] => [a] | b :: r' => a + 256 * b :: words r' end
  end.
Definition word_sum (l : list Z) : Z := foldr Z.add 0 (words l).
(** The sum of RFC 1071: a carry is added at the other end. *)
Definition ones_add (a b : Z) : Z := if a + b <? 2 ^ 16 then a + b else a + b - (2 ^ 16 - 1).
Definition ones_sum (l : list Z) : Z := foldl ones_add 0 (words l).

(** Its value as a number. *)
Definition fold16 (s : Z) : Z := if s =? 0 then 0 else (s - 1) mod 65535 + 1.

Lemma words_ind (P : list Z -> Prop) : P [] -> (forall a, P [a]) -> (forall a b l, P l -> P (a :: b :: l)) -> forall l, P l.
Proof.
  intros H0 H1 H2 l. enough (P l /\ forall a, P (a :: l)) by tauto. induction l as [|b l [IH1 IH2]]; [done|]. split; [apply IH2|]. intros a. by apply H2.
Qed.

Lemma words_range l : Forall is_byte l -> Forall (fun w => 0 <= w < 2 ^ 16) (words l).
Proof.
  induction l as [|a|a b l IH] using words_ind; intros Hl; [done|..]; unfold is_byte in *.
  - apply Forall_cons in Hl as [Hl _]. constructor; [cbv beta in *; lia|done].
  - apply Forall_cons in Hl as [Ha Hl]. apply Forall_cons in Hl as [Hb Hl]. cbn [words]. constructor; [cbv beta in *; lia|by apply IH].
Qed.
Lemma word_sum_bound l : Forall is_byte l -> 0 <= word_sum l <= 65535 * len l.
Proof.
  unfold word_sum. induction l as [|a|a b l IH] using words_ind; intros Hl; [done|..]; unfold is_byte in *.
  - apply Forall_cons in Hl as [Hl _]. cbv beta in *. cbn. lia.
  - apply Forall_cons in Hl as [Ha Hl]. apply Forall_cons in Hl as [Hb Hl]. specialize (IH Hl). cbv beta in *. cbn [words foldr length]. lia.
Qed.
Lemma word_sum_app a b : Nat.Even (length a) -> word_sum (a ++ b) = word_sum a + word_sum b.
Proof.
  unfold word_sum. induction a as [|x|x y a IH] using words_ind; intros He; [done|destruct He as [k Hk]; cbn in Hk; lia|].
  cbn [app words foldr]. rewrite IH; [lia|]. destruct He as [k Hk]. cbn [length] in Hk. exists (k - 1)%nat. lia.
Qed.
Lemma word_sum_le_bytes c : 0 <= c < 2 ^ 16 -> word_sum (le_bytes 2 c) = c.
Proof.
  intros Hc. unfold word_sum. cbn. assert (c / 256 < 256) by (apply Z.div_lt_upper_bound; lia). assert (0 <= c / 256) by (apply Z.div_pos; lia).
  rewrite (Z.mod_small (c / 256)) by lia. pose proof (Z.div_mod c 256). lia.
Qed.

Lemma ones_sum_fold16 l : Forall is_byte l -> ones_sum l = fold16 (word_sum l).
Proof.
  intros Hl. pose proof (words_range l Hl) as Hw. unfold ones_sum, word_sum. clear Hl.
  enough (forall s, 0 <= s -> foldl ones_add (fold16 s) (words l) = fold16 (s + foldr Z.add 0 (words l))) as E by (by apply (E 0)).
  induction Hw as [|w ws Hw _ IH]; intros s Hs; cbn [foldl foldr]; [by rewrite Z.add_0_r|].
  replace (ones_add (fold16 s) w) with (fold16 (s + w)); [rewrite IH by lia; f_equal; lia|].
  unfold ones_add, fold16. destruct (Z.eqb_spec s 0), (Z.eqb_spec (s + w) 0), (Z.ltb_spec (((s - 1) mod 65535 + 1) + w) (2 ^ 16)),
    (Z.ltb_spec (0 + w) (2 ^ 16)); try lia; Z.div_mod_to_equations; lia.
Qed.

(** The two steps that add the carries. *)
Lemma fold_carries s : 0 <= s < 65535 * 65536 ->
  u16 (Z.lnot (Z.shiftr s 16 + Z.land s 0xffff + Z.shiftr (Z.shiftr s 16 + Z.land s 0xffff) 16)) = 65535 - fold16 s.
Proof.
  intros Hs. change 65535 with (Z.ones 16) at 1 2. rewrite Z.land_ones, !Z.shiftr_div_pow2 by lia. unfold u16, fold16, Z.lnot.
  change (2 ^ 16) with 65536. change (Z.ones 16) with 65535. unfold Z.pred. Z.div_mod_to_equations. destruct (Z.eqb_spec s 0); lia.
Qed.
Lemma fold16_range s : 0 <= s -> 0 <= fold16 s <= 65535.
Proof. intros Hs. unfold fold16. pose proof (Z.mod_pos_bound (s - 1) 65535). destruct (Z.eqb_spec s 0); lia. Qed.
Lemma fold16_spec s : 0 < s -> exists k, s = 65535 * k + fold16 s /\ 1 <= fold16 s <= 65535.
Proof.
  intros Hs. unfold fold16. rewrite (proj2 (Z.eqb_neq s 0)) by lia. exists ((s - 1) / 65535).
  pose proof (Z.div_mod (s - 1) 65535). pose proof (Z.mod_pos_bound (s - 1) 65535). lia.
Qed.
(** Adding the complement of the sum of [s] to [t]: nothing is left exactly if
    [t] has the same sum. *)
Lemma fold16_check s t : 0 < s -> 0 < t -> fold16 (t + (65535 - fold16 s)) = 65535 <-> fold16 s = fold16 t.
Proof.
  intros Hs Ht. destruct (fold16_spec s Hs) as (k & Ek & Hk), (fold16_spec t Ht) as (m & Em & Hm).
  destruct (fold16_spec (t + (65535 - fold16 s))) as (n & En & Hn); lia.
Qed.

Lemma csum_loop_spec fuel : forall l pre post s, (length l < fuel)%nat ->
  csum_loop fuel (pre ++ l ++ post) (len pre) (len l) s = Ok (s + word_sum l).
Proof.
  induction fuel as [|fuel IH]; intros l pre post s Hf; [lia|]. cbn [csum_loop]. destruct l as [|a [|b l]].
  - cbn. by rewrite Z.add_0_r.
  - cbn [length app]. cbn [Z.of_nat Z.gtb Z.compare Pos.of_succ_nat Pos.compare Pos.compare_cont Z.eqb Pos.eqb]. rewrite rd_at by done. cbn. do 2 f_equal. lia.
  - destruct (Z.gtb_spec (len (a :: b :: l)) 1) as [Hl|Hl]; [|cbn [length] in Hl; lia].
    rewrite slice_ok by (rewrite ?length_app; cbn [length]; lia). cbn [obind]. rewrite Nat2Z.id, drop_app_length.
    change (take (Z.to_nat 2) ((a :: b :: l) ++ post)) with [a; b]. cbn [app].
    specialize (IH l (pre ++ [a; b]) post (s + le_val [a; b])). rewrite <-app_assoc, length_app in IH. cbn [app length] in IH.
    replace (len pre + 2) with (Z.of_nat (length pre + 2)) by lia. replace (len (a :: b :: l) - 2) with (len l) by (cbn [length]; lia).
    rewrite IH by (cbn [length] in Hf; lia). f_equal. unfold word_sum. cbn [words foldr le_val]. lia.
Qed.
Lemma csum_spec l post : Forall is_byte l -> len l < 2 ^ 16 - 1 -> csum (l ++ post) (len l) = Ok (65535 - fold16 (word_sum l)).
Proof.
  intros Hb Hl. unfold csum. pose proof (csum_loop_spec (S (Z.to_nat (len l))) l [] post 0 ltac:(lia)) as E. change (len (@nil Z)) with 0 in E. cbn [app] in E.
  rewrite E. cbn [obind]. f_equal. pose proof (word_sum_bound l Hb). rewrite Z.add_0_l.
  cbv zeta. rewrite (fold_carries (word_sum l)) by lia. reflexivity.
Qed.
Lemma csum_all l : Forall is_byte l -> len l < 2 ^ 16 - 1 -> csum l (len l) = Ok (65535 - fold16 (word_sum l)).
Proof. intros Hb Hl. rewrite <-(csum_spec l [] Hb Hl). by rewrite app_nil_r. Qed.

(** The checksum of [a], an empty field of two bytes and [b]; with it in the
    field, the checksum of [a] and [b'] is 0 exactly if their sum is the same. *)
Lemma csum_verify a b n post : Forall is_byte a -> Forall is_byte b -> Nat.Even (length a) -> n = len a + 2 + len b -> n < 60000 -> 0 < word_sum a ->
  exists c, 0 <= c < 2 ^ 16 /\ csum ((a ++ [0; 0] ++ b) ++ post) n = Ok c
    /\ forall b', Forall is_byte b' -> length b' = length b ->
       csum (a ++ le_bytes 2 c ++ b') n = Ok 0 <-> fold16 (word_sum (a ++ b)) = fold16 (word_sum (a ++ b')).
Proof.
  intros Ha Hb He -> Hl Hs. assert (Forall is_byte [0; 0]) as H0 by (repeat constructor; unfold is_byte; lia).
  pose proof (word_sum_bound b Hb). set (t := word_sum a + word_sum b). pose proof (fold16_spec t ltac:(lia)) as (k & Ek & Hk).
  exists (65535 - fold16 t). split; [lia|]. split.
  - replace (len a + 2 + len b) with (len (a ++ [0; 0] ++ b)) by (rewrite !length_app; cbn [length]; lia).
    rewrite csum_spec by (rewrite ?Forall_app, ?length_app in *; (done || cbn [length]; lia)).
    by rewrite (word_sum_app a ([0; 0] ++ b)), (word_sum_app [0; 0] b) by (done || by exists 1%nat).
  - intros b' Hb' Hlen. pose proof (word_sum_bound b' Hb').
    replace (len a + 2 + len b) with (len (a ++ le_bytes 2 (65535 - fold16 t) ++ b')) by (rewrite !length_app, le_bytes_length; lia).
    rewrite csum_all by (rewrite ?Forall_app, ?length_app, ?le_bytes_length in *; first [split_and!; (done || apply le_bytes_is_byte)|lia]).
    rewrite (word_sum_app a (le_bytes 2 _ ++ b')), (word_sum_app (le_bytes 2 _) b'), word_sum_le_bytes, !word_sum_app by (done || lia || by exists 1%nat).
    fold t. rewrite <-(fold16_check t (word_sum a + word_sum b')) by lia.
    replace (word_sum a + (65535 - fold16 t + word_sum b')) with (word_sum a + word_sum b' + (65535 - fold16 t)) by lia.
    split; [intros [= E]; lia|intros ->; done].
Qed.

(** ** The steps of sending *)

Lemma splice_mid {A} (a old b l : list A) i : i = len a -> length l = length old -> splice (a ++ old ++ b) i l = Ok (a ++ l ++ b).
Proof.
  intros -> Hl. rewrite splice_ok by (rewrite ?length_app; lia). rewrite Nat2Z.id, take_app_length, Hl, <-drop_drop, drop_app_length.
  by rewrite drop_app_length.
Qed.
Lemma slice_mid {A} (a l b : list A) i n : i = len a -> n = len l -> slice (a ++ l ++ b) i n = Ok l.
Proof.
  intros -> ->. rewrite slice_ok by (rewrite ?length_app; lia). by rewrite !Nat2Z.id, drop_app_length, take_app_length.
Qed.
Lemma htons_range x : 0 <= htons x < 2 ^ 16.
Proof. unfold htons. pose proof (le_val_bound (rev (le_bytes 2 x))) as H. rewrite length_rev, le_bytes_length in H. apply H. apply Forall_rev, le_bytes_is_byte. Qed.
Lemma htonl_range x : 0 <= htonl x < 2 ^ 32.
Proof. unfold htonl. pose proof (le_val_bound (rev (le_bytes 4 x))) as H. rewrite length_rev, le_bytes_length in H. apply H. apply Forall_rev, le_bytes_is_byte. Qed.
Lemma htons_bytes x : le_bytes 2 (htons x) = rev (le_bytes 2 x).
Proof.
  unfold htons. rewrite <-(le_bytes_val (rev (le_bytes 2 x))) at 2 by apply Forall_rev, le_bytes_is_byte. by rewrite length_rev, le_bytes_length.
Qed.
Lemma htonl_bytes x : le_bytes 4 (htonl x) = rev (le_bytes 4 x).
Proof.
  unfold htonl. rewrite <-(le_bytes_val (rev (le_bytes 4 x))) at 2 by apply Forall_rev, le_bytes_is_byte. by rewrite length_rev, le_bytes_length.
Qed.

(** The fields that are single bytes or parts of one. *)
Definition ip_ok (h : iphdr) : Prop :=
  is_byte (ip_ihl h + 16 * ip_version h) /\ 0 < ip_ihl h + 16 * ip_version h /\ is_byte (ip_tos h) /\ is_byte (ip_ttl h) /\ is_byte (ip_protocol h).
Definition tcp_ok (h : tcphdr) : Prop :=
  is_byte (16 * tcp_doff h) /\ is_byte (tcp_fin h + 2 * tcp_syn h + 4 * tcp_rst h + 8 * tcp_psh h + 16 * tcp_ack h + 32 * tcp_urg h).

(** ** Frames, as their receiver sees them *)

Definition ip_valid (f : list Z) : Prop := csum (take 20 (drop 14 f)) 20 = Ok 0.
(** The sum of the addresses, the protocol, the length and the segment. *)
Definition tcp_valid (f : list Z) : Prop :=
  csum ((take 8 (drop 26 f) ++ [0; 6] ++ rev (le_bytes 2 (len f - 34))) ++ drop 34 f) (len f - 22) = Ok 0.
(** Numbers are sent with their high byte first. *)
Definition be_val (l : list Z) : Z := le_val (rev l).
Definition seq_of (f : list Z) : Z := be_val (take 4 (drop 38 f)).
Definition total_length (f : list Z) : Z := be_val (take 2 (drop 16 f)).
Definition payload_of (f : list Z) : list Z := drop 54 f.

Section sending.
Context {net : Type} `{PC : Pcap net}.
Implicit Types (s : tool net) (Q : unit -> tool net -> Prop).

Lemma wp_put_pkt a old b i l s Q : pkt s = a ++ old ++ b -> i = len a -> length l = length old ->
  Q tt (s <| pkt := a ++ l ++ b |>) -> wp (put_pkt i l) s Q.
Proof. intros Hp Hi Hl HQ. exists tt, (s <| pkt := a ++ l ++ b |>). split; [|done]. unfold put_pkt. by rewrite Hp, splice_mid. Qed.
Lemma wp_put_pseudo a old b i l s Q : pseudo_gram s = a ++ old ++ b -> i = len a -> length l = length old ->
  Q tt (s <| pseudo_gram := a ++ l ++ b |>) -> wp (put_pseudo i l) s Q.
Proof. intros Hp Hi Hl HQ. exists tt, (s <| pseudo_gram := a ++ l ++ b |>). split; [|done]. unfold put_pseudo. by rewrite Hp, splice_mid. Qed.

Lemma iphdr_length h : length (iphdr_bytes h) = 20%nat.
Proof. unfold iphdr_bytes. rewrite !length_app, !le_bytes_length. done. Qed.
Lemma tcphdr_length h : length (tcphdr_bytes h) = 20%nat.
Proof. unfold tcphdr_bytes. rewrite !length_app, !le_bytes_length. done. Qed.
Lemma pseudo_length h : length (pseudo_bytes h) = 12%nat.
Proof. unfold pseudo_bytes. rewrite !length_app, !le_bytes_length. done. Qed.

(** The checksum of the header, put into it, fits. *)
Lemma ip_checksum h : ip_ok h -> exists c, 0 <= c < 2 ^ 16
  /\ csum (iphdr_bytes (h <| ip_check := 0 |>)) sizeof_iphdr = Ok c /\ csum (iphdr_bytes (h <| ip_check := c |>)) sizeof_iphdr = Ok 0.
Proof.
  intros (H1 & H1' & H2 & H3 & H4).
  set (a := [ip_ihl h + 16 * ip_version h; ip_tos h] ++ le_bytes 2 (ip_tot_len h) ++ le_bytes 2 (ip_id h) ++ le_bytes 2 (ip_frag_off h) ++ [ip_ttl h; ip_protocol h]).
  set (b := le_bytes 4 (ip_saddr h) ++ le_bytes 4 (ip_daddr h)).
  assert (forall c, iphdr_bytes (h <| ip_check := c |>) = a ++ le_bytes 2 c ++ b) as E by (intros c; unfold iphdr_bytes, a, b; cbn -[le_bytes]; by rewrite <-?app_assoc).
  assert (Forall is_byte a) as Ha by (unfold a; rewrite !Forall_app; split_and!; auto using le_bytes_is_byte).
  assert (Forall is_byte b) as Hb by (unfold b; rewrite !Forall_app; split_and!; auto using le_bytes_is_byte).
  assert (length a = 10%nat) as La by (unfold a; by rewrite !length_app, !le_bytes_length).
  assert (length b = 8%nat) as Lb by (unfold b; by rewrite !length_app, !le_bytes_length).
  assert (0 < word_sum a) as Sa.
  { unfold a, word_sum. cbn [app words foldr]. unfold is_byte in *. pose proof (word_sum_bound (le_bytes 2 (ip_tot_len h) ++ le_bytes 2 (ip_id h) ++ le_bytes 2 (ip_frag_off h) ++ [ip_ttl h; ip_protocol h])) as Hs.
    unfold word_sum in Hs. rewrite !Forall_app in Hs. specialize (Hs ltac:(split_and!; auto using le_bytes_is_byte)). lia. }
  destruct (csum_verify a b sizeof_iphdr [] Ha Hb) as (c & Hc & Ec & Hv); [by exists 5%nat|by rewrite La, Lb|done..|].
  rewrite app_nil_r in Ec. exists c. rewrite !E. split_and!; [lia..|done|by apply Hv].
Qed.

Lemma wp_ip_header n s eth x r Q : pkt s = eth ++ x ++ r -> len eth = 14 -> length x = 20%nat -> ip_ok (iph s) ->
  (forall ip, ip_saddr ip = ip_saddr (iph s) -> ip_daddr ip = ip_daddr (iph s) -> ip_ok ip -> ip_tot_len ip = htons (sizeof_iphdr + sizeof_tcphdr + n) ->
     ip_protocol ip = ip_protocol (iph s) -> csum (iphdr_bytes ip) 20 = Ok 0 ->
     Q tt (s <| iph := ip |> <| pkt := eth ++ iphdr_bytes ip ++ r |>)) ->
  wp (ip_header n) s Q.
Proof.
  intros Hp He Hx Hok HQ. unfold ip_header. repeat wp_basic.
  set (h := (iph s) <| ip_tot_len := htons (sizeof_iphdr + sizeof_tcphdr + n) |>).
  destruct (ip_checksum h) as (c & Hc & Ec & Ev); [exact Hok|].
  eapply wp_lift; [exact Ec|]. repeat wp_basic.
  eapply (wp_put_pkt eth x r); [exact Hp|by rewrite He|by rewrite iphdr_length|].
  subst h. refine (HQ _ _ _ _ _ _ Ev); [reflexivity|reflexivity|exact Hok|cbn [put ip_tot_len]; reflexivity|reflexivity].
Qed.

(** The bytes in front of a segment of [n] bytes, for its sum. *)
Definition pseudo (ip : iphdr) (n : Z) : list Z := pseudo_bytes (mk_pseudo (ip_saddr ip) (ip_daddr ip) 0 IPPROTO_TCP (htons n)).
Lemma pseudo_ok ip n : Forall is_byte (pseudo ip n) /\ length (pseudo ip n) = 12%nat /\ 0 < word_sum (pseudo ip n).
Proof.
  unfold pseudo, pseudo_bytes. cbn [source_address dest_address placeholder psh_protocol tcp_length].
  assert (Forall is_byte [0; IPPROTO_TCP]) as H0 by (repeat constructor; unfold is_byte, IPPROTO_TCP; lia).
  split_and!; [rewrite !Forall_app; auto using le_bytes_is_byte|by rewrite !length_app, !le_bytes_length|].
  rewrite !word_sum_app by (rewrite ?le_bytes_length; by (exists 2%nat + exists 1%nat)). change (word_sum [0; IPPROTO_TCP]) with 1536.
  pose proof (word_sum_bound (le_bytes 4 (ip_saddr ip)) (le_bytes_is_byte _ _)). pose proof (word_sum_bound (le_bytes 4 (ip_daddr ip)) (le_bytes_is_byte _ _)).
  pose proof (word_sum_bound (le_bytes 2 (htons n)) (le_bytes_is_byte _ _)). lia.
Qed.
(** The sum that the receiver of a segment builds. *)
Definition segment_sum (ip : iphdr) (seg : list Z) : outcome Z := csum (pseudo ip (len seg) ++ seg) (12 + len seg).
(** Two payloads behind the same header have the same sum. *)
Definition same_sum (ip : iphdr) (t : tcphdr) (p p' : list Z) : Prop :=
  fold16 (word_sum (pseudo ip (20 + len p) ++ tcphdr_bytes (t <| tcp_check := 0 |>) ++ p))
  = fold16 (word_sum (pseudo ip (20 + len p) ++ tcphdr_bytes (t <| tcp_check := 0 |>) ++ p')).

Lemma tcp_checksum (ps : list Z) h payload n post : Forall is_byte ps -> length ps = 12%nat -> 0 < word_sum ps -> tcp_ok h -> Forall is_byte payload ->
  n = 32 + len payload -> n < 60000 ->
  exists c, 0 <= c < 2 ^ 16 /\ csum (ps ++ tcphdr_bytes (h <| tcp_check := 0 |>) ++ payload ++ post) n = Ok c
    /\ forall p', Forall is_byte p' -> length p' = length payload ->
       csum (ps ++ tcphdr_bytes (h <| tcp_check := c |>) ++ p') n = Ok 0 <-> fold16 (word_sum (ps ++ tcphdr_bytes (h <| tcp_check := 0 |>) ++ payload))
         = fold16 (word_sum (ps ++ tcphdr_bytes (h <| tcp_check := 0 |>) ++ p')).
Proof.
  intros Hps Lps Sps (H1 & H2) Hp -> Hn.
  set (a := le_bytes 2 (tcp_source h) ++ le_bytes 2 (tcp_dest h) ++ le_bytes 4 (tcp_seq h) ++ le_bytes 4 (tcp_ack_seq h)
    ++ [16 * tcp_doff h; tcp_fin h + 2 * tcp_syn h + 4 * tcp_rst h + 8 * tcp_psh h + 16 * tcp_ack h + 32 * tcp_urg h] ++ le_bytes 2 (tcp_window h)).
  set (b := le_bytes 2 (tcp_urg_ptr h)).
  assert (forall c, tcphdr_bytes (h <| tcp_check := c |>) = a ++ le_bytes 2 c ++ b) as E by (intros c; unfold tcphdr_bytes, a, b; cbn -[le_bytes]; by rewrite <-?app_assoc).
  assert (Forall is_byte a) as Ha by (unfold a; rewrite !Forall_app; split_and!; auto using le_bytes_is_byte).
  assert (Forall is_byte b) as Hb by (unfold b; auto using le_bytes_is_byte).
  assert (length a = 16%nat) as La by (unfold a; by rewrite !length_app, !le_bytes_length).
  assert (length b = 2%nat) as Lb by (unfold b; by rewrite !le_bytes_length).
  pose proof (word_sum_bound a Ha).
  destruct (csum_verify (ps ++ a) (b ++ payload) (32 + len payload) post) as (c & Hc & Ec & Hv).
  { by apply Forall_app. } { by apply Forall_app. } { exists 14%nat. rewrite length_app. lia. } { rewrite !length_app. lia. } { done. }
  { rewrite word_sum_app by (exists 6%nat; lia). lia. }
  exists c. rewrite !E. split; [lia|]. split.
  - change (le_bytes 2 0) with [0; 0]. rewrite <-Ec. f_equal. by rewrite <-!app_assoc.
  - intros p' Hp' Lp'. specialize (Hv (b ++ p') ltac:(by apply Forall_app) ltac:(rewrite !length_app; lia)).
    rewrite <-!app_assoc in Hv. rewrite ?E, <-?app_assoc, Hv.
    assert (forall q, word_sum (ps ++ a ++ le_bytes 2 0 ++ b ++ q) = word_sum (ps ++ a ++ b ++ q)) as Ez; [|by rewrite !Ez].
    intros q. rewrite !word_sum_app; [done|..]; (by exists 1%nat; rewrite ?Lb) || (exists 8%nat; lia) || (exists 6%nat; lia).
Qed.

Lemma split_at (l : list Z) k n : (k + n <= length l)%nat -> exists a b c, l = a ++ b ++ c /\ length a = k /\ length b = n.
Proof.
  intros Hl. exists (take k l), (take n (drop k l)), (drop n (drop k l)). rewrite !take_drop. rewrite !length_take, length_drop. split_and!; [done|lia..].
Qed.
Lemma wp_tcp_header n s h y old r Q : pkt s = h ++ y ++ old ++ r -> len h = 34 -> length y = 20%nat -> len old = n -> n <= 1460 ->
  Forall is_byte old -> tcp_ok (tcph s) -> len (pseudo_gram s) = PSEUDO_SIZE ->
  (forall t g, tcp_ok t -> tcp_seq t = htonl (u32 (i32 (tx_cnt s + 1))) -> len g = PSEUDO_SIZE ->
     (forall p', Forall is_byte p' -> length p' = length old -> segment_sum (iph s) (tcphdr_bytes t ++ p') = Ok 0 <-> same_sum (iph s) t old p') ->
     Q tt (s <| tx_cnt := i32 (tx_cnt s + 1) |> <| tcph := t |> <| pseudo_gram := g |> <| pkt := h ++ tcphdr_bytes t ++ old ++ r |>)) ->
  wp (tcp_header n) s Q.
Proof.
  intros Hp Hh Hy Ho Hn Hb Hok Hg HQ. unfold tcp_header. cbv zeta. repeat wp_basic.
  set (t := (tcph s) <| tcp_check := 0 |> <| tcp_seq := htonl (u32 (i32 (tx_cnt s + 1))) |>).
  destruct (pseudo_ok (iph s) (sizeof_tcphdr + n)) as (P1 & P2 & P3). change PSEUDO_SIZE with 1492 in Hg.
  destruct (split_at (pseudo_gram s) 0 12) as (a & b & c & Eg & La & Lb); [lia|]. destruct a; [|done]. cbn [app] in Eg.
  pose proof (f_equal length Eg) as Lg. rewrite length_app in Lg.
  destruct (split_at c 0 20) as (a & b' & c' & Ec & La' & Lb'); [lia|]. destruct a; [|done]. cbn [app] in Ec. subst c. rewrite length_app in Lg.
  destruct (split_at c' 0 (Z.to_nat n)) as (a & b'' & c & Ec & La'' & Lb''); [lia|]. destruct a; [|done]. cbn [app] in Ec. subst c'.
  eapply (wp_put_pseudo [] b); [exact Eg|done|by rewrite pseudo_length|]. cbn [app]. repeat wp_basic.
  eapply (wp_put_pseudo (pseudo (iph s) (sizeof_tcphdr + n)) b'); [reflexivity|by rewrite P2|by rewrite tcphdr_length|]. repeat wp_basic.
  eapply wp_lift; [cbn [put pkt]; rewrite Hp, app_assoc; apply slice_mid; [rewrite length_app, Hy; unfold PAYLOAD_OFFSET, HEADER_LEN, sizeof_ethhdr, sizeof_iphdr, sizeof_tcphdr; lia|done]|].
  repeat wp_basic.
  eapply (wp_put_pseudo (pseudo (iph s) (sizeof_tcphdr + n) ++ tcphdr_bytes t) b''); [cbn [put pseudo_gram]; rewrite <-app_assoc; reflexivity|rewrite length_app, P2, tcphdr_length; done|lia|].
  repeat wp_basic.
  destruct (tcp_checksum (pseudo (iph s) (sizeof_tcphdr + n)) t old (sizeof_pseudo + sizeof_tcphdr + n) c P1 P2 P3 Hok Hb) as (k & Hk & Ek & Hv);
    [unfold sizeof_pseudo, sizeof_tcphdr; lia..|].
  eapply wp_lift; [cbn [put pseudo_gram]; rewrite <-app_assoc; exact Ek|]. repeat wp_basic.
  eapply (wp_put_pkt h y (old ++ r)); [exact Hp|by rewrite Hh|by rewrite tcphdr_length|].
  assert (tcp_ok (t <| tcp_check := k |>)) as Hok' by exact Hok.
  refine (HQ (t <| tcp_check := k |>) ((pseudo (iph s) (sizeof_tcphdr + n) ++ tcphdr_bytes t) ++ old ++ c) Hok' eq_refl _ _).
  - change PSEUDO_SIZE with 1492. rewrite !length_app, P2, tcphdr_length in *. lia.
  - intros p' Hp' Lp'. unfold segment_sum, same_sum. rewrite length_app, tcphdr_length, Lp'.
    replace (Z.of_nat (20 + length old)) with (20 + n) by lia. rewrite Ho. specialize (Hv p' Hp' Lp').
    replace (12 + (20 + n)) with (sizeof_pseudo + sizeof_tcphdr + n) by (unfold sizeof_pseudo, sizeof_tcphdr; lia). exact Hv.
Qed.

(** The payload, in place of [old]. *)
Lemma wp_fill_payload start str k n s h old r Q : pkt s = h ++ old ++ r -> start = len h -> start + len old = PAYLOAD_OFFSET + n ->
  0 <= k <= len old -> k <= len str ->
  Q tt (s <| pkt := h ++ (take (Z.to_nat k) str ++ replicate (length old - Z.to_nat k) 0x11) ++ r |>) ->
  wp (fill_payload start str k n) s Q.
Proof.
  intros Hp Hs Ho Hk Hl HQ. unfold fill_payload. wp_basic. eapply wp_lift; [apply slice_ok; lia|].
  change (Z.to_nat 0) with 0%nat. rewrite drop_0. wp_basic. rewrite <-(take_drop (Z.to_nat k) old), <-app_assoc in Hp.
  eapply wp_put_pkt; [exact Hp|done|rewrite !length_take; lia|]. set (o := drop (Z.to_nat k) old) in *. set (p := take (Z.to_nat k) str) in *.
  assert (length o = (length old - Z.to_nat k)%nat) as Lo by (unfold o; rewrite length_drop; lia).
  assert (length p = Z.to_nat k) as Lp by (unfold p; rewrite length_take; lia).
  replace (Z.to_nat (PAYLOAD_OFFSET + n - (start + k))) with (length o) by lia.
  apply (wp_for_range (fun j t => t = s <| pkt := (h ++ p ++ replicate (Z.to_nat (j - (start + k))) 0x11) ++ drop (Z.to_nat (j - (start + k))) o ++ r |>)).
  - rewrite Z.sub_diag. cbn [Z.to_nat replicate drop]. rewrite app_nil_r, <-!app_assoc. done.
  - intros j t Hj ->. set (m := Z.to_nat (j - (start + k))). replace (Z.to_nat (j + 1 - (start + k))) with (S m) by lia.
    destruct (drop m o) as [|x o'] eqn:Eo; [apply (f_equal length) in Eo; rewrite length_drop in Eo; cbn in Eo; lia|].
    eapply (wp_put_pkt (h ++ p ++ replicate m 0x11) [x] (o' ++ r)); [done| |done|].
    + rewrite !length_app, length_replicate. lia.
    + assert (o' = drop (S m) o) as -> by (rewrite <-Nat.add_1_r, <-drop_drop, Eo; done).
      rewrite replicate_S_end, <-!app_assoc. done.
  - intros t ->. replace (Z.to_nat (start + k + Z.of_nat (length o) - (start + k))) with (length o) by lia.
    rewrite drop_all, Lo, <-!app_assoc in *. exact HQ.
Qed.

(** What became of the packets [fs]: those of [gs] were sent, for [e] there was an error message. *)
Inductive attempts : list (list Z) -> list (list Z) -> nat -> Prop :=
| attempts_nil : attempts [] [] 0
| attempts_sent f fs gs e : attempts fs gs e -> attempts (f :: fs) (f :: gs) e
| attempts_failed f fs gs e : attempts fs gs e -> attempts (f :: fs) gs (S e).
Definition outgoing (fs : list (list Z)) (s s' : tool net) : Prop :=
  exists gs e, attempts fs gs e /\ sent (wire s') = sent (wire s) ++ gs /\ errors s' = (errors s + e)%nat.

Lemma attempts_app fs gs e : attempts fs gs e -> forall fs' gs' e', attempts fs' gs' e' -> attempts (fs ++ fs') (gs ++ gs') (e + e').
Proof. induction 1; intros; cbn [app Nat.add]; [done|constructor..]; auto. Qed.
Lemma outgoing_none s s' : sent (wire s') = sent (wire s) -> errors s' = errors s -> outgoing [] s s'.
Proof. intros E1 E2. exists [], 0%nat. rewrite app_nil_r, Nat.add_0_r. split_and!; (done || constructor). Qed.
Lemma outgoing_trans fs fs' s s1 s2 : outgoing fs s s1 -> outgoing fs' s1 s2 -> outgoing (fs ++ fs') s s2.
Proof.
  intros (gs & e & A & E1 & E2) (gs' & e' & A' & E1' & E2'). exists (gs ++ gs'), (e + e')%nat.
  split_and!; [by apply attempts_app|by rewrite E1', E1, app_assoc|by rewrite E2', E2, Nat.add_assoc].
Qed.
(** Without a message everything was sent. *)
Lemma attempts_no_error fs gs : attempts fs gs 0 -> gs = fs.
Proof. intros A. remember 0%nat as e eqn:He. induction A; [done|by rewrite IHA|done]. Qed.

Lemma wp_send_down l s Q : (forall n e, outgoing [l] s (s <| wire := n |> <| errors := e |>) -> received n = received (wire s) ->
  Q tt (s <| wire := n |> <| errors := e |>)) -> wp (send_down l) s Q.
Proof.
  intros HQ. unfold wp, send_down. destruct (pcap_sendpacket l (wire s)) as [r n] eqn:E. destruct (pcap_sends _ _ _ _ E) as [Hr Hs].
  destruct (Z.eqb_spec r 0).
  - eexists _, _. split; [done|]. apply (HQ n (errors s)); [|done]. exists [l], 0%nat. rewrite Nat.add_0_r. split_and!; [repeat constructor|done..].
  - eexists _, _. split; [done|]. apply (HQ n (S (errors s))); [|done]. exists [], 1%nat. rewrite app_nil_r, Nat.add_1_r. split_and!; [repeat constructor|done..].
Qed.

(** ** Frames *)

Definition frame (eth : list Z) (ip : iphdr) (t : tcphdr) (p : list Z) : list Z := eth ++ iphdr_bytes ip ++ tcphdr_bytes t ++ p.
Lemma frame_length eth ip t p : length eth = 14%nat -> length (frame eth ip t p) = (54 + length p)%nat.
Proof. intros He. unfold frame. rewrite !length_app, iphdr_length, tcphdr_length. lia. Qed.
Lemma frame_segment eth ip t p : length eth = 14%nat -> drop 34 (frame eth ip t p) = tcphdr_bytes t ++ p.
Proof. intros He. unfold frame. rewrite app_assoc. apply drop_app_length'. rewrite length_app, iphdr_length. lia. Qed.
Lemma frame_payload eth ip t p : length eth = 14%nat -> payload_of (frame eth ip t p) = p.
Proof. intros He. unfold payload_of. change 54%nat with (34 + 20)%nat. rewrite <-drop_drop, frame_segment by done. apply drop_app_length'. by rewrite tcphdr_length. Qed.
Lemma frame_ip eth ip t p : length eth = 14%nat -> drop 14 (frame eth ip t p) = iphdr_bytes ip ++ tcphdr_bytes t ++ p.
Proof. intros He. unfold frame. by apply drop_app_length'. Qed.
Lemma frame_ip_valid eth ip t p : length eth = 14%nat -> csum (iphdr_bytes ip) 20 = Ok 0 -> ip_valid (frame eth ip t p).
Proof. intros He Hc. unfold ip_valid. rewrite frame_ip by done. by rewrite take_app_length' by by rewrite iphdr_length. Qed.
Lemma frame_tcp_valid eth ip t p : length eth = 14%nat -> tcp_valid (frame eth ip t p) <-> segment_sum ip (tcphdr_bytes t ++ p) = Ok 0.
Proof.
  intros He. unfold tcp_valid, segment_sum, pseudo, pseudo_bytes. cbn [source_address dest_address placeholder psh_protocol tcp_length].
  rewrite frame_segment, frame_length, htons_bytes by done. rewrite length_app, tcphdr_length.
  replace (Z.of_nat (54 + length p) - 34) with (Z.of_nat (20 + length p)) by lia.
  replace (Z.of_nat (54 + length p) - 22) with (12 + Z.of_nat (20 + length p)) by lia.
  change 26%nat with (14 + 12)%nat. rewrite <-drop_drop, frame_ip by done. unfold iphdr_bytes.
  assert (forall a b : list Z, length a = 8%nat -> take 8 (a ++ b) = a) as Ht by (intros a b La; by apply take_app_length').
  rewrite <-(Ht (le_bytes 4 (ip_saddr ip) ++ le_bytes 4 (ip_daddr ip)) (tcphdr_bytes t ++ p)) at 1 by (rewrite length_app, !le_bytes_length; done).
  rewrite <-!app_assoc. done.
Qed.
Lemma be_val_rev n x : 0 <= x < 256 ^ Z.of_nat n -> be_val (rev (le_bytes n x)) = x.
Proof. intros Hx. unfold be_val. rewrite rev_involutive. by apply le_val_bytes. Qed.
Lemma frame_seq eth ip t p x : length eth = 14%nat -> tcp_seq t = htonl x -> is_word x -> seq_of (frame eth ip t p) = x.
Proof.
  intros He Ht Hx. unfold seq_of. change 38%nat with (34 + 4)%nat. rewrite <-drop_drop, frame_segment by done. unfold tcphdr_bytes. rewrite Ht, htonl_bytes.
  rewrite <-!app_assoc, (app_assoc (le_bytes 2 (tcp_source t))), drop_app_length' by done. rewrite take_app_length' by done. by apply (be_val_rev 4).
Qed.
Lemma frame_total eth ip t p x : length eth = 14%nat -> ip_tot_len ip = htons x -> 0 <= x < 2 ^ 16 -> total_length (frame eth ip t p) = x.
Proof.
  intros He Ht Hx. unfold total_length. change 16%nat with (14 + 2)%nat. rewrite <-drop_drop, frame_ip by done. unfold iphdr_bytes. rewrite Ht, htons_bytes.
  rewrite <-!app_assoc, drop_app_length' by done. rewrite take_app_length' by done. by apply (be_val_rev 2).
Qed.

(** ** Sending *)

(** The headers are prepared; [old] is the payload of the last packet. *)
Definition ready (eth old : list Z) (s : tool net) : Prop :=
  (exists x y r, pkt s = eth ++ x ++ y ++ old ++ r /\ length x = 20%nat /\ length y = 20%nat)
  /\ length eth = 14%nat /\ Forall is_byte old /\ ip_ok (iph s) /\ tcp_ok (tcph s) /\ len (pseudo_gram s) = PSEUDO_SIZE.
(** What sending leaves alone. *)
Definition same_rest (s s' : tool net) : Prop := rxtx_exit s' = rxtx_exit s /\ need_ack s' = need_ack s.

Lemma wp_headers n s eth old (k : M (tool net) unit) Q : ready eth old s -> len old = n -> n <= 1460 ->
  (forall s1 ip t r, pkt s1 = eth ++ iphdr_bytes ip ++ tcphdr_bytes t ++ old ++ r -> ready eth old s1 ->
     wire s1 = wire s -> errors s1 = errors s -> same_rest s s1 -> tx_cnt s1 = i32 (tx_cnt s + 1) ->
     csum (iphdr_bytes ip) 20 = Ok 0 -> ip_tot_len ip = htons (40 + n) -> tcp_seq t = htonl (u32 (tx_cnt s1)) -> tcp_ok t ->
     (forall p, Forall is_byte p -> length p = length old -> segment_sum ip (tcphdr_bytes t ++ p) = Ok 0 <-> same_sum ip t old p) -> wp k s1 Q) ->
  wp (do! ip_header n; do! tcp_header n; k) s Q.
Proof.
  intros ((x & y & r & Hp & Hx & Hy) & He & Hb & Hi & Ht & Hg) Ho Hn HQ. wp_basic.
  apply (wp_ip_header n s eth x (y ++ old ++ r)); [done|lia|done..|]. intros ip _ _ Hip Htot _ Hc. wp_basic.
  eapply (wp_tcp_header n _ (eth ++ iphdr_bytes ip) y old r);
    [cbn [put pkt]; by rewrite <-app_assoc|rewrite length_app, iphdr_length; lia|done..|].
  intros t g Ht' Hs Hg' Hv.
  eapply (HQ _ ip t r); [cbn [put pkt]; by rewrite <-app_assoc| |done..|exact Htot|exact Hs|exact Ht'|exact Hv].
  split_and!; [|done..]. exists (iphdr_bytes ip), (tcphdr_bytes t), r. rewrite iphdr_length, tcphdr_length. cbn [put pkt]. by rewrite <-app_assoc.
Qed.

(** A frame with number [k] and payload [p]. *)
Definition good_frame (eth p : list Z) (k : Z) (f : list Z) : Prop :=
  take 14 f = eth /\ payload_of f = p /\ len f = 54 + len p /\ total_length f = len f - 14 /\ seq_of f = k /\ ip_valid f.

Lemma fold16_eq a b : 0 < a -> 0 < b -> fold16 a = fold16 b <-> (a - b) mod 65535 = 0.
Proof.
  intros Ha Hb. destruct (fold16_spec a Ha) as (k & Ek & Hk), (fold16_spec b Hb) as (m & Em & Hm). Z.div_mod_to_equations. lia.
Qed.
Lemma same_sum_iff ip t p p' : tcp_ok t -> Forall is_byte p -> Forall is_byte p' -> same_sum ip t p p' <-> (word_sum p - word_sum p') mod 65535 = 0.
Proof.
  intros Ht Hp Hp'. unfold same_sum. destruct (pseudo_ok ip (20 + len p)) as (P1 & P2 & P3). set (h := tcphdr_bytes _).
  assert (length h = 20%nat) as Lh by apply tcphdr_length.
  assert (Forall is_byte h) as Hh by (unfold h, tcphdr_bytes; destruct Ht; rewrite !Forall_app; split_and!; auto using le_bytes_is_byte).
  pose proof (word_sum_bound h Hh). pose proof (word_sum_bound p Hp). pose proof (word_sum_bound p' Hp').
  rewrite !word_sum_app by (rewrite ?P2, ?Lh; by (exists 6%nat + exists 10%nat)). rewrite fold16_eq by lia.
  replace (word_sum p - word_sum p') with (word_sum (pseudo ip (20 + len p)) + (word_sum h + word_sum p) - (word_sum (pseudo ip (20 + len p)) + (word_sum h + word_sum p'))) by lia.
  done.
Qed.

(** The payload of a packet: the first [k] bytes of [str], then 0x11. *)
Definition payload (str : list Z) (k n : Z) : list Z := take (Z.to_nat k) str ++ replicate (Z.to_nat n - Z.to_nat k) 0x11.
Lemma payload_bytes str k n : Forall is_byte str -> Forall is_byte (payload str k n).
Proof. intros Hs. apply Forall_app. split; [by apply Forall_take|]. apply Forall_replicate. unfold is_byte. lia. Qed.
Lemma payload_length str k n : 0 <= k <= n -> k <= len str -> len (payload str k n) = n.
Proof. intros Hk Hl. unfold payload. rewrite length_app, length_take, length_replicate. lia. Qed.

(** The packet is sent down, and the state is ready for the next. *)
Lemma wp_send_frame eth old p k s1 ip t r m Q : pkt s1 = frame eth ip t (p ++ r) -> length eth = 14%nat -> Forall is_byte old ->
  ip_ok (iph s1) -> tcp_ok (tcph s1) -> len (pseudo_gram s1) = PSEUDO_SIZE -> Forall is_byte p ->
  m = HEADER_LEN + len p -> csum (iphdr_bytes ip) 20 = Ok 0 -> ip_tot_len ip = htons (40 + len p) -> 40 + len p < 2 ^ 16 ->
  tcp_seq t = htonl k -> is_word k -> tcp_ok t ->
  (segment_sum ip (tcphdr_bytes t ++ p) = Ok 0 <-> same_sum ip t old p) ->
  (forall s' f, outgoing [f] s1 s' -> received (wire s') = received (wire s1) -> ready eth p s' -> same_rest s1 s' -> tx_cnt s' = tx_cnt s1 ->
     good_frame eth p k f -> (tcp_valid f <-> (word_sum old - word_sum p) mod 65535 = 0) -> Q tt s') ->
  wp (let! q := gets pkt in let! l := lift (slice q 0 m) in send_down l) s1 Q.
Proof.
  intros Hp He Hb Hi Ht Hg Hbp -> Hc Htot Hn Hs Hk Hok Hv HQ. repeat wp_basic.
  assert (pkt s1 = [] ++ frame eth ip t p ++ r) as Ep by (rewrite Hp; unfold frame; cbn [app]; by rewrite <-!app_assoc).
  eapply wp_lift; [rewrite Ep; apply slice_mid; [done|rewrite frame_length by done; unfold HEADER_LEN, sizeof_ethhdr, sizeof_iphdr, sizeof_tcphdr; lia]|].
  apply wp_send_down. intros n e Hout Hrec. apply (HQ _ (frame eth ip t p)); [done..| |done|done| |].
  - split_and!; [|done..]. exists (iphdr_bytes ip), (tcphdr_bytes t), r. rewrite iphdr_length, tcphdr_length. cbn [put pkt]. by rewrite Hp.
  - unfold good_frame. rewrite frame_payload, frame_length, (frame_total _ _ _ _ _ He Htot), (frame_seq _ _ _ _ _ He Hs) by (done || lia).
    split_and!; [by apply take_app_length'|done|lia|lia|done|by apply frame_ip_valid].
  - rewrite frame_tcp_valid, Hv by done. by apply same_sum_iff.
Qed.

Lemma wp_send_packet str k eth old s Q : ready eth old s -> len old = 65 -> 0 <= k <= 65 -> k <= len str -> Forall is_byte str ->
  (forall s' f, outgoing [f] s s' -> received (wire s') = received (wire s) -> ready eth (payload str k 65) s' -> same_rest s s' ->
     tx_cnt s' = i32 (tx_cnt s + 1) -> good_frame eth (payload str k 65) (u32 (i32 (tx_cnt s + 1))) f ->
     (tcp_valid f <-> (word_sum old - word_sum (payload str k 65)) mod 65535 = 0) -> Q tt s') ->
  wp (send_packet str k) s Q.
Proof.
  intros Hr Ho Hk Hl Hb HQ. unfold send_packet. cbv zeta. apply (wp_headers 65 s eth old); [done..|lia|].
  intros s1 ip t r Hp Hr1 Hw He Hsame Hcnt Hc Htot Hseq Hok Hv. wp_basic.
  pose proof (payload_length str k 65 Hk Hl) as Lp. pose proof (payload_bytes str k 65 Hb) as Bp.
  eapply (wp_fill_payload PAYLOAD_OFFSET str k 65 s1 (eth ++ iphdr_bytes ip ++ tcphdr_bytes t) old r); [by rewrite Hp, <-!app_assoc| | |lia|done|].
  { destruct Hr1 as (_ & He1 & _). rewrite !length_app, iphdr_length, tcphdr_length, He1. done. } { unfold PAYLOAD_OFFSET. lia. }
  assert (take (Z.to_nat k) str ++ replicate (length old - Z.to_nat k) 0x11 = payload str k 65) as -> by (unfold payload; do 2 f_equal; lia).
  destruct Hr1 as (_ & He1 & Hb1 & Hi1 & Ht1 & Hg1).
  eapply (wp_send_frame eth old (payload str k 65) (u32 (tx_cnt s1)) _ ip t r);
    [unfold frame; cbn [put pkt]; by rewrite <-!app_assoc|done..|by rewrite Lp|done|by rewrite Lp|by rewrite Lp|done|apply u32_word|done|apply Hv; [done|lia]|].
  intros s' f Hout Hrec Hr' Hsame' Hcnt' Hf Hval. cbn [put tx_cnt wire] in Hcnt', Hrec. rewrite Hcnt in *.
  apply (HQ s' f); [|by rewrite Hrec, Hw|done| |done..].
  - unfold outgoing in *. cbn [put wire errors] in Hout. by rewrite Hw, He in Hout.
  - destruct Hsame, Hsame'. by split; etrans.
Qed.

(** ** Preparing the headers *)

Definition first_iphdr : iphdr := mk_iphdr 5 4 0 0 (htons 54321) 0 255 6 0 0 (inet_addr 10 0 0 68).
Definition first_tcphdr : tcphdr := mk_tcphdr (htons 46930) (htons 50001) 0 0 5 0 0 0 0 1 0 (htons 5840) 0 0.
Definition ethernet (d m : list Z) : list Z := d ++ m ++ [8; 0].

Lemma prepare_header_new s d m : pkt s = replicate (Z.to_nat PACKET_LEN) 0 -> insert_iphdr s = 1 -> insert_tcphdr s = 1 ->
  dest_mac_addr s = d -> src_mac_addr s = m -> length d = 6%nat -> length m = 6%nat ->
  prepare_header s = Ok (tt, s <| iph := first_iphdr |> <| tcph := first_tcphdr |>
    <| pkt := ethernet d m ++ iphdr_bytes first_iphdr ++ tcphdr_bytes first_tcphdr ++ replicate 1460 0 |>).
Proof.
  intros Hp H1 H2 Hd Hm Ld Lm.
  destruct d as [|d0 [|d1 [|d2 [|d3 [|d4 [|d5 [|]]]]]]]; try done. destruct m as [|m0 [|m1 [|m2 [|m3 [|m4 [|m5 [|]]]]]]]; try done.
  destruct s. cbn in Hp, H1, H2, Hd, Hm. subst. vm_compute. reflexivity.
Qed.
Lemma ready_new s d m n : length d = 6%nat -> length m = 6%nat -> 0 <= n <= 1460 ->
  iph s = first_iphdr -> tcph s = first_tcphdr -> len (pseudo_gram s) = PSEUDO_SIZE ->
  pkt s = ethernet d m ++ iphdr_bytes first_iphdr ++ tcphdr_bytes first_tcphdr ++ replicate 1460 0 -> ready (ethernet d m) (replicate (Z.to_nat n) 0) s.
Proof.
  intros Ld Lm Hn Hi Ht Hg Hp. split_and!.
  - exists (iphdr_bytes first_iphdr), (tcphdr_bytes first_tcphdr), (replicate (1460 - Z.to_nat n) 0). rewrite <-replicate_add. split_and!; [|done..].
    rewrite Hp. do 4 f_equal. lia.
  - unfold ethernet. rewrite !length_app, Ld, Lm. done.
  - apply Forall_replicate. unfold is_byte. lia.
  - rewrite Hi. unfold ip_ok, is_byte. cbn. lia.
  - rewrite Ht. unfold tcp_ok, is_byte. cbn. lia.
  - done.
Qed.

(** ** Waiting *)

(** A state that differs in the clock only. *)
Definition waited (s s' : tool net) : Prop :=
  exists n, s' = s <| wire := n |> /\ sent n = sent (wire s) /\ received n = received (wire s).

Lemma read_clock s : exists t n, from_wire clock_gettime s = Ok (t, s <| wire := n |>) /\ clock_gettime (wire s) = (t, n)
  /\ sent n = sent (wire s) /\ received n = received (wire s).
Proof.
  unfold from_wire. destruct (clock_gettime (wire s)) as [t n] eqn:E. exists t, n. destruct (clock_reads _ _ _ E). done.
Qed.
Lemma wait_loop_ends t us k : forall s, rxtx_exit s = 0 ->
  us < elapsed t (fst (clock_gettime (Nat.iter k (fun n => snd (clock_gettime n)) (wire s)))) ->
  exists s', waited s s' /\ forall fuel, (k < fuel)%nat -> wait_loop fuel t us s = Ok (tt, s').
Proof.
  induction k as [|k IH]; intros s Hx Hk; destruct (read_clock s) as (te & n & E & Ec & H1 & H2).
  - exists (s <| wire := n |>). split; [by exists n|]. intros [|fuel] Hf; [lia|]. cbn [wait_loop]. unfold bind at 1, gets. rewrite Hx. cbn [Z.eqb negb].
    unfold bind at 1. rewrite E. cbn [Nat.iter nat_rect] in Hk. rewrite Ec in Hk. cbn [fst] in Hk. destruct (Z.gtb_spec (elapsed t te) us); [done|lia].
  - rewrite Nat.iter_succ_r, Ec in Hk. cbn [snd] in Hk. destruct (IH (s <| wire := n |>)) as (s' & (n' & -> & H3 & H4) & E'); [done..|].
    destruct (Z.gtb_spec (elapsed t te) us) as [Hgt|Hle].
    + exists (s <| wire := n |>). split; [by exists n|]. intros [|fuel] Hf; [lia|]. cbn [wait_loop]. unfold bind at 1, gets. rewrite Hx. cbn [Z.eqb negb].
      unfold bind at 1. rewrite E. destruct (Z.gtb_spec (elapsed t te) us); [done|lia].
    + eexists. split; [exists n'; split_and!; [reflexivity|by rewrite H3, <-H1|by rewrite H4, <-H2]|]. intros [|fuel] Hf; [lia|]. cbn [wait_loop].
      unfold bind at 1, gets. rewrite Hx. cbn [Z.eqb negb]. unfold bind at 1. rewrite E. destruct (Z.gtb_spec (elapsed t te) us); [lia|]. apply E'. lia.
Qed.
Lemma time_wait_ends us s : rxtx_exit s = 0 -> exists k s', waited s s' /\ forall fuel, (k < fuel)%nat -> time_wait fuel us s = Ok (tt, s').
Proof.
  intros Hx. destruct (read_clock s) as (t & n & E & _ & H1 & H2). destruct (clock_runs n t us) as [k Hk].
  destruct (wait_loop_ends t us k (s <| wire := n |>)) as (s' & (n' & -> & H3 & H4) & E'); [exact Hx|cbn [put wire]; exact Hk|].
  exists k. eexists. split; [exists n'; split_and!; [reflexivity|by rewrite H3, <-H1|by rewrite H4, <-H2]|].
  intros fuel Hf. unfold time_wait, bind. rewrite E. by apply E'.
Qed.

(** ** A session *)

Definition normal_payload : list Z := payload normal 6 65.
(** The state when [tx_cnt] packets were sent. *)
Definition session (eth : list Z) (s : tool net) : Prop :=
  ready eth (if tx_cnt s =? 0 then replicate 65 0 else normal_payload) s /\ 0 <= tx_cnt s /\ rxtx_exit s = 0.
(** Frames with the numbers behind [c]: all are good, and all but number 1 have the checksum of their segment. *)
Definition numbered (eth : list Z) (c : Z) (fs : list (list Z)) : Prop :=
  forall i f, fs !! i = Some f -> good_frame eth normal_payload (c + Z.of_nat i + 1) f /\ (tcp_valid f <-> c + Z.of_nat i + 1 <> 1).

Lemma numbered_app eth c fs gs : numbered eth c fs -> numbered eth (c + len fs) gs -> numbered eth c (fs ++ gs).
Proof.
  intros H1 H2 i f [Hi|[Hl Hi]]%lookup_app_Some; [by apply H1|].
  destruct (H2 _ _ Hi) as [Hf Hv]. replace (c + len fs + Z.of_nat (i - length fs) + 1) with (c + Z.of_nat i + 1) in * by lia. done.
Qed.

Lemma send_normal eth s : session eth s -> tx_cnt s + 1 < 2 ^ 31 -> exists s' f, send_packet normal 6 s = Ok (tt, s')
  /\ outgoing [f] s s' /\ received (wire s') = received (wire s) /\ session eth s' /\ tx_cnt s' = tx_cnt s + 1 /\ numbered eth (tx_cnt s) [f].
Proof.
  intros (Hr & Hc & Hx) Hn.
  assert (wp (send_packet normal 6) s (fun _ s' => exists f, outgoing [f] s s' /\ received (wire s') = received (wire s) /\ session eth s'
    /\ tx_cnt s' = tx_cnt s + 1 /\ numbered eth (tx_cnt s) [f])) as ([] & s' & E & f & Hf); [|by exists s', f].
  eapply wp_send_packet; [exact Hr|destruct (tx_cnt s =? 0); done|lia|done|repeat constructor; unfold is_byte; lia|].
  intros s' f Hout Hrec Hr' [Hx' _] Hcnt Hf Hv. rewrite i32_small in Hcnt, Hf by lia. unfold u32 in Hf. rewrite Z.mod_small in Hf by lia.
  exists f. split_and!; [done..| |done|].
  - split_and!; [|lia|by rewrite Hx']. rewrite Hcnt. rewrite (proj2 (Z.eqb_neq (tx_cnt s + 1) 0)) by lia. done.
  - intros [|i] g Hg; [|done]. injection Hg as <-. rewrite Z.add_0_r. split; [done|]. rewrite Hv. clear -Hc.
    destruct (Z.eqb_spec (tx_cnt s) 0) as [->|Hne].
    + split; [|lia]. intros E. vm_compute in E. done.
    + rewrite Z.sub_diag. split; [lia|done].
Qed.

Lemma waited_session eth s s' : waited s s' -> session eth s -> session eth s' /\ outgoing [] s s' /\ received (wire s') = received (wire s) /\ tx_cnt s' = tx_cnt s.
Proof. intros (n & -> & H1 & H2) Hs. split_and!; [exact Hs|by apply outgoing_none|done..]. Qed.

(** What a part of a session does: [n] packets with the next numbers. *)
Definition sends (eth : list Z) (n : Z) (s s' : tool net) : Prop :=
  exists fs, len fs = n /\ outgoing fs s s' /\ numbered eth (tx_cnt s) fs /\ received (wire s') = received (wire s)
    /\ session eth s' /\ tx_cnt s' = tx_cnt s + n.
Lemma sends_none eth s : session eth s -> sends eth 0 s s.
Proof. intros Hs. exists []. split_and!; [done|by apply outgoing_none|by intros [|i] f Hf|done..|lia]. Qed.
Lemma sends_trans eth n m s s1 s2 : sends eth n s s1 -> sends eth m s1 s2 -> sends eth (n + m) s s2.
Proof.
  intros (fs & L1 & O1 & N1 & R1 & _ & T1) (gs & L2 & O2 & N2 & R2 & S2 & T2). exists (fs ++ gs). split_and!.
  - rewrite length_app. lia.
  - by eapply outgoing_trans.
  - apply numbered_app; [done|]. by rewrite L1, <-T1.
  - by rewrite R2.
  - done.
  - lia.
Qed.

Lemma send_loop_ends eth n : forall s, session eth s -> tx_cnt s + Z.of_nat n < 2 ^ 31 ->
  exists k s', sends eth (Z.of_nat n) s s' /\ forall fuel, (k < fuel)%nat -> send_loop fuel (Z.of_nat n) s = Ok (tt, s').
Proof.
  induction n as [|n IH]; intros s Hs Hn.
  - exists 0%nat, s. split; [by apply sends_none|]. intros [|fuel] Hf; [lia|done].
  - destruct (send_normal eth s Hs ltac:(lia)) as (s1 & f & E1 & O1 & R1 & S1 & T1 & N1).
    destruct (time_wait_ends 200 s1) as (k2 & s2 & W2 & E2); [by destruct S1 as (_ & _ & ?)|].
    destruct (waited_session eth s1 s2 W2 S1) as (S2 & O2 & R2 & T2).
    destruct (IH s2 S2 ltac:(lia)) as (k3 & s3 & H3 & E3). exists (S (k2 + k3)), s3. split.
    + replace (Z.of_nat (S n)) with (1 + Z.of_nat n) by lia. eapply sends_trans; [|exact H3]. exists [f].
      split_and!; [done| |done|by rewrite R2|done|lia]. rewrite <-(app_nil_r [f]). by eapply outgoing_trans.
    + intros [|fuel] Hf; [lia|]. cbn [send_loop]. destruct (Z.eqb_spec (Z.of_nat (S n)) 0); [lia|]. rewrite (bind_Ok _ _ _ _ _ E1).
      rewrite (bind_Ok _ _ _ _ _ (E2 (S fuel) ltac:(lia))). rewrite i32_small by (destruct Hs as (_ & ? & _); lia).
      replace (Z.of_nat (S n) - 1) with (Z.of_nat n) by lia. apply E3. lia.
Qed.

(** A command that does not start with "quit". *)
Definition command_ok (c : list Z * Z) : Prop := len (fst c) <= 7 /\ take 4 (fst c) <> quit /\ 0 <= snd c.
Lemma read_cmd_go cmd word : length cmd = 8%nat -> len word <= 7 -> take 4 word <> quit ->
  exists cmd', read_cmd cmd (Some word) = Ok (cmd', false) /\ length cmd' = 8%nat.
Proof.
  intros Lc Lw Hq. unfold read_cmd. destruct (splice cmd 0 (word ++ [0])) as [cmd'|] eqn:E.
  2:{ rewrite splice_ok in E by (rewrite ?length_app; cbn [length]; lia). done. }
  pose proof (splice_length _ _ _ _ E) as L'. rewrite Lc in L'. cbn [obind]. rewrite slice_ok by lia. cbn [obind]. exists cmd'. split; [|done].
  do 2 f_equal. apply bool_decide_eq_false. intros Eq. apply Hq. change (Z.to_nat 0) with 0%nat in Eq. rewrite drop_0 in Eq. change (Z.to_nat 4) with 4%nat in Eq.
  rewrite splice_ok in E by (rewrite ?length_app; cbn [length]; lia). injection E as E. cbn [Z.to_nat take app Nat.add] in E. rewrite <-E in Eq.
  destruct word as [|a [|b [|c [|d w]]]]; cbn in Eq; try (injection Eq; intros; lia). done.
Qed.

Lemma listening_ends eth input : forall cmd num0 s, length cmd = 8%nat -> session eth s -> Forall command_ok input ->
  tx_cnt s + foldr Z.add 0 (map snd input) < 2 ^ 31 -> forall x rest,
  exists k s', sends eth (foldr Z.add 0 (map snd input)) s s'
    /\ forall rounds fuel, (length input < rounds)%nat -> (k < fuel)%nat -> listening rounds fuel cmd num0 (input ++ (quit, x) :: rest) s = Ok (tt, s').
Proof.
  induction input as [|[w num] input IH]; intros cmd num0 s Lc Hs Hi Hn x rest; cbn [map foldr app length] in *.
  - exists 0%nat, s. split; [by apply sends_none|]. intros [|rounds] fuel Hr _; [lia|]. cbn [listening head fmap option_fmap option_map fst]. unfold bind, lift.
    unfold read_cmd. rewrite splice_ok by (cbn [length app quit]; lia). cbn [obind]. rewrite slice_ok by (rewrite ?length_app, ?length_drop; cbn [length app quit]; lia). cbn [obind].
    done.
  - apply Forall_cons in Hi as [(Hw & Hq & Hnum) Hi]. cbn [fst snd] in *.
    assert (0 <= foldr Z.add 0 (map snd input)) as Hp by (clear -Hi; induction Hi as [|c l (_ & _ & H) _ IH]; cbn [map foldr]; lia).
    destruct (read_cmd_go cmd w Lc Hw Hq) as (cmd' & Ec & Lc').
    destruct (send_loop_ends eth (Z.to_nat num) s Hs ltac:(lia)) as (k1 & s1 & H1 & E1). rewrite Z2Nat.id in H1, E1 by lia.
    destruct H1 as (fs & L1 & O1 & N1 & R1 & S1 & T1).
    destruct (IH cmd' (-1) s1 Lc' S1 Hi ltac:(lia) x rest) as (k2 & s2 & H2 & E2). exists (k1 + k2)%nat, s2. split.
    + eapply sends_trans; [|exact H2]. exists fs. done.
    + intros [|rounds] fuel Hr Hf; [lia|]. cbn [listening head tail fmap option_fmap option_map fst]. unfold bind at 1, lift. rewrite Ec. cbn [snd fst read_num].
      rewrite (bind_Ok _ _ _ _ _ (E1 fuel ltac:(lia))).
      unfold bind at 1, gets. destruct S1 as (_ & _ & Hx). rewrite Hx. cbn [Z.eqb]. apply E2; lia.
Qed.

(** The options "-m 2 -i name". *)
Definition listen_args (name : list Z) : list (list Z) := [[45; 109]; [50]; [45; 105]; name].
Lemma listen_options name devs inum (n : net) : len name <= 54 ->
  exists d, get_options (listen_args name) devs inum (new_tool n) = Ok (None, (new_tool n) <| mode := LISTENING_MODE |> <| dev := d |>).
Proof.
  intros Hl. assert (exists d, copy_string (replicate 55 0) name = Ok d) as [d Hd].
  { unfold copy_string. rewrite splice_ok by (rewrite ?length_app, ?length_replicate; cbn [length]; lia). eauto. }
  exists d. unfold get_options, listen_args. change (getopt (length [[45; 109]; [50]; [45; 105]; name]) [[45; 109]; [50]; [45; 105]; name]) with [(109, [50]); (105, name)].
  unfold bind at 1. cbn [do_options]. unfold bind at 1. cbn [do_option Z.eqb Pos.eqb]. unfold bind at 1, modify, ret at 1. unfold bind at 1. cbn [do_option Z.eqb Pos.eqb].
  unfold bind at 1, gets. cbn [put dev new_tool]. unfold bind at 1, lift. rewrite Hd. done.
Qed.

End sending.

(** C35: started with "-m 2 -i name", a name of at most 54 bytes, as root on an adapter that opens and with a
    thread for receiving that starts, given commands of at most seven characters
    with numbers that are not negative and whose sum is below 2^31, and then a word
    "quit", the program sends as many packets as the commands ask for, all
    together, and ends with status 0.  Each of these frames has the fixed
    addresses, the payload "normal" followed by 0x11, lengths that agree with its
    size, a sequence number one higher than the frame before and an IP checksum
    that its receiver finds right.  The TCP checksum is right in every frame but
    the first: it is taken over the payload that the packet had before.  A frame
    that libpcap does not send is reported. An input without "quit" is not covered:
    the program does not end there. *)
Theorem packet_session_correct {net} `{PC : Pcap net} (n : net) (name : list Z) (input rest : list (list Z * Z)) x devs inum rounds junk :
  let total := foldr Z.add 0 (map snd input) in
  let eth := [0x00; 0x0e; 0xc6; 0xd7; 0x77; 0x7b; 0x80; 0xfa; 0x5b; 0x33; 0x56; 0xef; 0x08; 0x00] in
  len name <= 54 -> length (fst junk) = 8%nat -> Forall command_ok input -> total < 2 ^ 31 ->
  exists k s' fs,
    (forall fuel, (k < fuel)%nat ->
       Packet.main 0 (listen_args name) devs inum true true fuel rounds junk (input ++ (quit, x) :: rest) (new_tool n) = Ok (0, s'))
    /\ len fs = total /\ outgoing fs (new_tool n) s' /\ (errors s' = 0%nat -> sent (wire s') = sent n ++ fs)
    /\ forall i f, fs !! i = Some f -> good_frame eth normal_payload (Z.of_nat i + 1) f /\ (tcp_valid f <-> i <> 0%nat).
Proof.
  intros total eth Hname Hjunk Hin Htot. destruct (listen_options name devs inum n Hname) as [d Eo].
  set (s0 := (new_tool n) <| mode := LISTENING_MODE |> <| dev := d |> <| rxtx_exit := 0 |>).
  pose proof (prepare_header_new s0 _ _ eq_refl eq_refl eq_refl eq_refl eq_refl eq_refl eq_refl) as Ep.
  set (s1 := s0 <| iph := first_iphdr |> <| tcph := first_tcphdr |> <| pkt := _ |>) in Ep.
  assert (session eth s1) as Hs.
  { split; [|split; [change (0 <= 0); lia|reflexivity]]. change (ready eth (replicate (Z.to_nat 65) 0) s1). apply (ready_new s1 (dest_mac_addr s0) (src_mac_addr s0)); [reflexivity|reflexivity|lia|reflexivity|reflexivity| |reflexivity].
    change (pseudo_gram s1) with (replicate (Z.to_nat PSEUDO_SIZE) 0). by rewrite length_replicate. }
  assert (tx_cnt s1 = 0 /\ wire s1 = n /\ errors s1 = 0%nat) as (Ht & Hw & He0) by (split; [|split]; reflexivity). clearbody s1.
  destruct (listening_ends eth input (fst junk) (snd junk) s1 Hjunk Hs Hin ltac:(lia) x rest) as (k & s' & (fs & L & O & N & _ & _ & _) & E).
  assert (outgoing fs (new_tool n) s') as O' by (unfold outgoing in *; cbn [new_tool wire errors]; by rewrite Hw, He0 in O).
  exists (k + length input)%nat, s', fs. split; [|split; [exact L|split; [exact O'|split]]].
  - intros fuel Hf. unfold Packet.main. rewrite Z.eqb_refl. cbn [negb]. rewrite (bind_Ok _ _ _ _ _ Eo). cbn [negb].
    unfold bind at 1, modify. fold s0. unfold bind at 1, gets at 1. change (mode s0 =? LISTENING_MODE) with true. cbv iota.
    rewrite (bind_Ok _ _ _ _ _ Ep). by rewrite (bind_Ok _ _ _ _ _ (E fuel fuel ltac:(lia) ltac:(lia))).
  - intros He. destruct O' as (gs & e & A & Hsent & Herr). rewrite He in Herr. destruct e as [|e]; [|cbn in Herr; lia].
    by rewrite <-(attempts_no_error _ _ A).
  - intros i f Hf. destruct (N i f Hf) as [Hg Hv]. rewrite Ht, Z.add_0_l in *. split; [done|]. rewrite Hv. lia.
Qed.

(** ** The end of the input *)

Section end_of_input.
Context {net : Type} `{PC : Pcap net}.

(** [rxtx_exit] is not changed. *)
Definition goes_on (s s' : tool net) : Prop := rxtx_exit s' = rxtx_exit s.
#[local] Instance goes_on_preorder : PreOrder goes_on.
Proof. split; [done|]. intros s1 s2 s3 H1 H2. unfold goes_on in *. congruence. Qed.

Lemma put_pkt_goes_on i l : keeps goes_on (put_pkt i l).
Proof. intros s [] s' E. unfold put_pkt in E. destruct (splice (pkt s) i l); [|done]. by injection E as <-. Qed.
Lemma put_pseudo_goes_on i l : keeps goes_on (put_pseudo i l).
Proof. intros s [] s' E. unfold put_pseudo in E. destruct (splice (pseudo_gram s) i l); [|done]. by injection E as <-. Qed.
Lemma from_wire_goes_on {A} (f : net -> A * net) : keeps goes_on (from_wire f).
Proof. intros s a s' E. unfold from_wire in E. destruct (f (wire s)). by injection E as <- <-. Qed.
Lemma send_down_goes_on l : keeps goes_on (send_down l).
Proof. intros s [] s' E. unfold send_down in E. destruct (pcap_sendpacket l (wire s)) as [r n]. injection E as <-. by destruct (r =? 0). Qed.
#[local] Hint Resolve put_pkt_goes_on put_pseudo_goes_on from_wire_goes_on send_down_goes_on : keeps.

Ltac goes_on_auto := keeps_auto; try (apply keeps_modify; done).
Lemma ip_header_goes_on n : keeps goes_on (ip_header n).
Proof. unfold ip_header. goes_on_auto. Qed.
Lemma tcp_header_goes_on n : keeps goes_on (tcp_header n).
Proof. unfold tcp_header. goes_on_auto. Qed.
Lemma fill_payload_goes_on a b c d : keeps goes_on (fill_payload a b c d).
Proof. unfold fill_payload. goes_on_auto. Qed.
#[local] Hint Resolve ip_header_goes_on tcp_header_goes_on fill_payload_goes_on : keeps.
Lemma send_packet_goes_on str n : keeps goes_on (send_packet str n).
Proof. unfold send_packet. goes_on_auto. Qed.
Lemma wait_loop_goes_on t us fuel : keeps goes_on (wait_loop fuel t us).
Proof. induction fuel; cbn [wait_loop]; goes_on_auto; done. Qed.
Lemma time_wait_goes_on fuel us : keeps goes_on (time_wait fuel us).
Proof. unfold time_wait. goes_on_auto; apply wait_loop_goes_on. Qed.
#[local] Hint Resolve send_packet_goes_on time_wait_goes_on : keeps.
Lemma send_loop_goes_on fuel : forall num, keeps goes_on (send_loop fuel num).
Proof. induction fuel; intros num; cbn [send_loop]; goes_on_auto; done. Qed.
Lemma bench_loop_goes_on t time fuel : keeps goes_on (bench_loop fuel t time).
Proof. induction fuel; cbn [bench_loop]; goes_on_auto; done. Qed.

(** When the input ends without "quit", neither command loop ends: the word that
    was read last is taken again, and in the listening mode the number -1 that
    [while (num--)] leaves is taken for the number of packets. *)
Theorem end_of_input_goes_on rounds fuel cmd num (s s' : tool net) :
  length cmd = 8%nat -> take 4 cmd <> quit -> rxtx_exit s = 0 ->
  listening rounds fuel cmd num [] s <> Ok (tt, s') /\ benchmark rounds fuel cmd num [] s <> Ok (tt, s').
Proof.
  intros Lc Hq. assert (read_cmd cmd None = Ok (cmd, false)) as Er.
  { unfold read_cmd. cbn [obind]. rewrite slice_ok by lia. cbn [obind]. do 2 f_equal. apply bool_decide_eq_false. exact Hq. }
  split; revert num s H.
  - induction rounds as [|rounds IH]; intros num s Hx E; [done|]. cbn [listening head fmap option_fmap option_map] in E.
    unfold bind at 1, lift in E. rewrite Er in E. cbn [snd fst] in E. apply bind_Ok_inv in E as ([] & s1 & E1 & E).
    pose proof (send_loop_goes_on fuel _ _ _ _ E1) as G. unfold goes_on in G. unfold bind, gets in E. rewrite G, Hx in E. cbn [Z.eqb tail] in E.
    by apply (IH (-1) s1); [rewrite G|].
  - induction rounds as [|rounds IH]; intros num s Hx E; [done|]. cbn [benchmark head fmap option_fmap option_map] in E.
    unfold bind at 1, lift in E. rewrite Er in E. cbn [snd fst] in E. apply bind_Ok_inv in E as (t & s1 & E1 & E).
    apply bind_Ok_inv in E as ([] & s2 & E2 & E). pose proof (from_wire_goes_on _ _ _ _ E1) as G1. pose proof (bench_loop_goes_on _ _ _ _ _ _ E2) as G2.
    unfold goes_on in G1, G2. unfold bind, gets in E. rewrite G2, G1, Hx in E. cbn [Z.eqb tail] in E.
    by apply (IH (read_num num []) s2); [rewrite G2, G1|].
Qed.
End end_of_input.

(** ** The older version *)

Lemma wp_task_send_packet {net} `{PC : Pcap net} str k eth x old s (Q : unit -> tool net -> Prop) :
  ready eth (x :: old) s -> length old = 19%nat -> 0 <= k <= 19 -> k <= len str -> Forall is_byte str -> is_byte (need_ack s) ->
  (forall s' f, outgoing [f] s s' -> received (wire s') = received (wire s) -> ready eth (need_ack s :: payload str k 19) s' -> same_rest s s' ->
     tx_cnt s' = i32 (tx_cnt s + 1) -> good_frame eth (need_ack s :: payload str k 19) (u32 (i32 (tx_cnt s + 1))) f ->
     (tcp_valid f <-> (word_sum (need_ack s :: old) - word_sum (need_ack s :: payload str k 19)) mod 65535 = 0) -> Q tt s') ->
  wp (task_send_packet str k) s Q.
Proof.
  intros ((y & z & r & Hp & Hy & Hz) & He & Ho & Hi & Ht & Hg) Lo Hk Hl Hb Ha HQ. unfold task_send_packet. cbv zeta. repeat wp_basic.
  apply Forall_cons in Ho as [Hx Ho].
  eapply (wp_put_pkt (eth ++ y ++ z) [x] (old ++ r)); [by rewrite Hp, <-!app_assoc|rewrite !length_app, He, Hy, Hz; done|done|].
  set (a := need_ack s). pose proof (payload_length str k 19 Hk Hl) as Lp. pose proof (payload_bytes str k 19 Hb) as Bp.
  eapply (wp_headers 20 _ eth (a :: old)); [|cbn [length]; lia|lia|].
  { split_and!; [|done|by constructor|done..]. exists y, z, r. cbn [put pkt]. by rewrite <-!app_assoc. }
  intros s1 ip t r' Hp1 Hr1 Hw Her Hsame Hcnt Hc Htot Hseq Hok Hv. wp_basic. destruct Hr1 as (_ & _ & Hb1 & Hi1 & Ht1 & Hg1).
  eapply (wp_fill_payload (PAYLOAD_OFFSET + 1) str k 20 s1 (eth ++ iphdr_bytes ip ++ tcphdr_bytes t ++ [a]) old r');
    [by rewrite Hp1, <-!app_assoc|rewrite !length_app, iphdr_length, tcphdr_length, He; done|unfold PAYLOAD_OFFSET; lia|lia|done|].
  assert (take (Z.to_nat k) str ++ replicate (length old - Z.to_nat k) 0x11 = payload str k 19) as -> by (unfold payload; do 2 f_equal; lia).
  assert (len (a :: payload str k 19) = 20) as Lap by (cbn [length]; lia).
  eapply (wp_send_frame eth (a :: old) (a :: payload str k 19) (u32 (tx_cnt s1)) _ ip t r');
    [unfold frame; cbn [put pkt]; by rewrite <-!app_assoc|done..|by constructor|by rewrite Lap|done|by rewrite Lap|by rewrite Lap|done|apply u32_word|done
    |apply Hv; [by constructor|cbn [length]; lia]|].
  intros s' f Hout Hrec Hr' Hsame' Hcnt' Hf Hval. cbn [put tx_cnt wire] in Hcnt', Hrec, Hcnt, Hw, Her. rewrite Hcnt in *.
  apply (HQ s' f); [|by rewrite Hrec, Hw|done| |done..].
  - unfold outgoing in *. cbn [put wire errors] in Hout. by rewrite Hw, Her in Hout.
  - destruct Hsame, Hsame'. by split; etrans.
Qed.

(** ** Receiving *)

(** The frame with its first two addresses exchanged. *)
Definition swap_mac (d : list Z) : list Z := take 6 (drop 6 d) ++ take 6 d ++ drop 12 d.
Lemma swap_mac_split a b c : length a = 6%nat -> length b = 6%nat -> swap_mac (a ++ b ++ c) = b ++ a ++ c.
Proof.
  intros La Lb. unfold swap_mac. rewrite drop_app_length', !take_app_length' by done. by rewrite (app_assoc a b c), (drop_app_length' (a ++ b)) by (rewrite length_app; lia).
Qed.
Lemma swap_mac_involutive d : 12 <= len d -> swap_mac (swap_mac d) = d.
Proof. intros Hd. destruct (split_at d 6 6) as (a & b & c & -> & La & Lb); [lia|]. by rewrite !swap_mac_split by done. Qed.

Section receiving.
Context {net : Type} `{PC : Pcap net}.

(** The adapter is asked up to [rounds] times and hands over the packets [ps]: an
    error ends the thread, a time-out is passed over, and before the next question
    packets may be sent. *)
Inductive polled : nat -> bool -> net -> list (list Z) -> net -> Prop :=
  | polled_end n : polled 0 true n [] n
  | polled_error k n r x n' : pcap_next_ex n = (r, x, n') -> r < 0 -> polled (S k) false n [] n'
  | polled_timeout k go n x n1 ps n2 : pcap_next_ex n = (0, x, n1) -> polled k go n1 ps n2 -> polled (S k) go n ps n2
  | polled_packet k go n r l d n1 n1' ps n2 : pcap_next_ex n = (r, (l, d), n1) -> 0 < r -> received n1' = received n1 ->
      polled k go n1' ps n2 -> polled (S k) go n (d :: ps) n2.
Definition polled_first (go : bool) (n : net) (ps : list (list Z)) (n' : net) : Prop :=
  if go then forall k g qs n'', polled k g n' qs n'' -> polled (S k) g n (ps ++ qs) n'' else forall k, polled (S k) false n ps n'.

(** What the thread does with the packets [ps]. *)
Definition handles (ps : list (list Z)) (s s' : tool net) : Prop :=
  received (wire s') = received (wire s) ++ ps /\ mode s' = mode s
  /\ if mode s =? ECHO_MODE then outgoing (map swap_mac ps) s s' /\ rx_cnt s' = rx_cnt s
     else sent (wire s') = sent (wire s) /\ errors s' = errors s /\ rx_cnt s' = (rx_cnt s + len ps) mod 10000.
Lemma handles_trans ps qs s s1 s2 : 0 <= rx_cnt s < 10000 -> handles ps s s1 -> handles qs s1 s2 -> handles (ps ++ qs) s s2.
Proof.
  intros Hc (R1 & M1 & H1) (R2 & M2 & H2). split; [by rewrite R2, R1, app_assoc|]. split; [by rewrite M2|]. rewrite M1 in H2.
  destruct (mode s =? ECHO_MODE).
  - destruct H1 as [O1 C1], H2 as [O2 C2]. rewrite map_app. split; [by eapply outgoing_trans|by rewrite C2].
  - destruct H1 as (S1 & E1 & C1), H2 as (S2 & E2 & C2). split_and!; [by rewrite S2|by rewrite E2|].
    rewrite C2, C1, length_app, Z.add_mod_idemp_l by lia. f_equal. lia.
Qed.
Lemma handles_none s s' : 0 <= rx_cnt s < 10000 -> received (wire s') = received (wire s) -> sent (wire s') = sent (wire s) ->
  errors s' = errors s -> rx_cnt s' = rx_cnt s -> mode s' = mode s -> handles [] s s'.
Proof.
  intros Hc HR HS HE HC HM. split; [by rewrite app_nil_r|]. split; [done|]. destruct (mode s =? ECHO_MODE).
  - split; [by apply outgoing_none|done].
  - split_and!; [done..|]. rewrite Z.add_0_r, Z.mod_small by lia. done.
Qed.

Lemma receive_round_ok (s : tool net) : 0 <= rx_cnt s < 10000 ->
  exists go s' ps, receive_round s = Ok (go, s') /\ handles ps s s' /\ 0 <= rx_cnt s' < 10000 /\ polled_first go (wire s) ps (wire s').
Proof.
  intros Hc. unfold receive_round. destruct (pcap_next_ex (wire s)) as [[r [l d]] n] eqn:E. destruct (pcap_receives _ _ _ _ _ E) as [Hs Hr].
  unfold bind at 1, from_wire. rewrite E. destruct (Z.ltb_spec r 0).
  { exists false, (s <| wire := n |>), []. destruct (Z.ltb_spec 0 r); [lia|]. split_and!; [done|by apply handles_none|cbn; lia..|].
    intros k. by eapply polled_error. }
  destruct (Z.eqb_spec r 0).
  { exists true, (s <| wire := n |>), []. destruct (Z.ltb_spec 0 r); [lia|]. split_and!; [done|by apply handles_none|cbn; lia..|].
    subst r. intros k g qs n'' Hp. by eapply polled_timeout. }
  destruct (Z.ltb_spec 0 r); [|lia]. destruct Hr as (Hr & -> & Hd). unfold bind at 1, gets at 1.
  change (mode (s <| wire := n |>)) with (mode s). destruct (mode s =? ECHO_MODE) eqn:Hm.
  - destruct (split_at d 6 6) as (a & b & c & -> & La & Lb); [lia|]. set (s1 := s <| wire := n |>).
    assert (wp (send_down (b ++ a ++ c)) s1 (fun _ s' => outgoing [b ++ a ++ c] s1 s' /\ received (wire s') = received n /\ rx_cnt s' = rx_cnt s /\ mode s' = mode s)) as ([] & s' & Ed & Ho & Hrec & Hcnt & Hmode).
    { apply wp_send_down. intros n' e Hout Hrec. split_and!; (exact Hout || exact Hrec || reflexivity). }
    exists true, s', [a ++ b ++ c]. split; [|split; [|rewrite Hcnt; split; [done|by intros k g qs n'' Hp; eapply polled_packet]]].
    + unfold bind at 1, lift at 1. rewrite (slice_mid [] a (b ++ c)) by (rewrite ?La; done). cbv iota.
      unfold bind at 1, lift at 1. rewrite (slice_mid a b c) by (rewrite ?La, ?Lb; done). cbv iota.
      unfold bind at 1, lift at 1. rewrite (splice_mid [] a (b ++ c) b) by (rewrite ?La, ?Lb; done). cbn [app].
      unfold bind at 1, lift at 1. rewrite (splice_mid b b c a) by (rewrite ?La, ?Lb; done).
      unfold bind at 1, lift at 1. rewrite <-(app_nil_r (b ++ a ++ c)) at 1. rewrite (slice_mid [] (b ++ a ++ c) []) by (rewrite ?length_app; cbn; lia). cbv iota.
      by rewrite (bind_Ok _ _ _ _ _ Ed).
    + split; [by rewrite Hrec|]. split; [done|]. rewrite Hm. cbn [map]. rewrite swap_mac_split by done. split; [|done].
      unfold outgoing in *. change (sent (wire s1)) with (sent n) in Ho. by rewrite Hs in Ho.
  - assert (i32 (rx_cnt s + 1) = rx_cnt s + 1) as Hi by (apply i32_small; lia).
    exists true, (s <| wire := n |> <| rx_cnt := (rx_cnt s + 1) mod 10000 |>), [d]. split; [|split; [|split; [apply Z.mod_pos_bound; lia|by intros k g qs n'' Hp; eapply (polled_packet k g (wire s) r _ d n n)]]].
    + unfold bind at 1, modify at 1. cbn [put rx_cnt]. rewrite Hi. unfold bind at 1, gets. cbn [rx_cnt]. unfold bind at 1.
      destruct (Z.geb_spec (rx_cnt s + 1) 10000) as [Hge|Hlt].
      * replace (rx_cnt s + 1) with 10000 by lia. done.
      * rewrite Z.mod_small by lia. cbn. destruct (Z.geb_spec (rx_cnt s + 1) 10000); [lia|reflexivity].
    + split; [done|]. split; [done|]. rewrite Hm. split_and!; [done..|]. done.
Qed.
End receiving.

(** C37: the receiving thread asks the adapter again and again and never fails on
    a frame of an Ethernet; only an error of the adapter ends it.  In echo mode it sends every packet back, in their order, with
    the two addresses exchanged and nothing else changed, so that its sender gets
    what it sent, and reports the packets that could not be sent.  In the other
    modes it sends nothing and counts the packets modulo 10000. *)
Theorem receive_packet_correct {net} `{PC : Pcap net} (rounds : nat) : forall s : tool net, 0 <= rx_cnt s < 10000 ->
  exists go s' ps, receive_packet rounds s = Ok (go, s') /\ polled rounds go (wire s) ps (wire s')
    /\ received (wire s') = received (wire s) ++ ps
    /\ if mode s =? ECHO_MODE
       then outgoing (map swap_mac ps) s s' /\ (errors s' = errors s -> sent (wire s') = sent (wire s) ++ map swap_mac ps)
       else sent (wire s') = sent (wire s) /\ errors s' = errors s /\ rx_cnt s' = (rx_cnt s + len ps) mod 10000.
Proof.
  intros s Hs.
  assert (exists go s' ps, receive_packet rounds s = Ok (go, s') /\ polled rounds go (wire s) ps (wire s') /\ handles ps s s') as (go & s' & ps & E & Hl & HR & _ & Hh).
  { revert s Hs. induction rounds as [|k IH]; intros s Hs.
    { exists true, s, []. split_and!; [done|constructor|by apply handles_none]. }
    destruct (receive_round_ok s Hs) as (go & s1 & ps & E1 & H1 & Hc1 & L1). cbn [receive_packet]. rewrite (bind_Ok _ _ _ _ _ E1).
    destruct go; [|exists false, s1, ps; split_and!; [done|apply L1|done]]. destruct (IH s1 Hc1) as (go & s2 & qs & E2 & L2 & H2).
    exists go, s2, (ps ++ qs). split_and!; [done|by apply L1|by eapply handles_trans]. }
  exists go, s', ps. split_and!; [done..|]. destruct (mode s =? ECHO_MODE); [|done]. destruct Hh as [Ho _]. split; [done|].
  intros He. destruct Ho as (gs & e & A & Hsent & Herr). assert (e = 0%nat) as -> by lia. by rewrite Hsent, (attempts_no_error _ _ A).
Qed.

(** C36: csum is the checksum of RFC 1071 for fewer than 60000 bytes: the
    complement of the sum of the 16-bit words, where a carry out of the top bit is
    added at the bottom; a last single byte counts as a word.  Put into the empty
    field it was computed with, at an even position behind bytes that are not all
    zero, it makes the checksum of the whole 0, which is what a receiver tests. *)
Theorem csum_correct (l a b : list Z) :
  Forall is_byte l -> len l < 60000 -> l = a ++ [0; 0] ++ b -> Nat.Even (length a) -> 0 < word_sum a ->
  exists c, csum l (len l) = Ok c /\ 0 <= c < 2 ^ 16 /\ c = 2 ^ 16 - 1 - ones_sum l
    /\ csum (a ++ le_bytes 2 c ++ b) (len l) = Ok 0.
Proof.
  intros Hb Hl -> He Hs. pose proof Hb as Hb'. rewrite !Forall_app in Hb'. destruct Hb' as (Ha & _ & Hbb).
  destruct (csum_verify a b (len (a ++ [0; 0] ++ b)) [] Ha Hbb He) as (c & Hc & Ec & Hv); [rewrite !length_app; cbn [length]; lia|done..|].
  rewrite app_nil_r in Ec. exists c. split_and!; [done|lia..| |by apply Hv].
  rewrite csum_all in Ec by (done || lia). rewrite ones_sum_fold16 by done. change (2 ^ 16 - 1) with 65535. by injection Ec as <-.
Qed.

(** ** The log *)

Lemma fwrite_gap l c p : len c <= p ->
  Image.fwrite l (Image.mk_file c p) = Image.mk_file (c ++ replicate (Z.to_nat p - length c) 0 ++ l) (p + len l).
Proof.
  intros Hp. unfold Image.fwrite. cbn [Image.contents Image.position]. f_equal. rewrite take_ge, drop_ge by (rewrite length_app, length_replicate; lia).
  by rewrite app_nil_r, <-app_assoc.
Qed.
(** A packet in a binary log that has room for it starts at a multiple of 16, and
    the log stays at its end; a packet without room goes to a new file, whose
    number goes from 10 back to 1. *)
Lemma log_packets_binary log_file fbinary prefix name c l buf n :
  log_file <> 0 -> fbinary <> 0 -> fp l = Some (name, Image.mk_file c (len c)) -> 0 <= n <= len buf ->
  exists l', log_packets log_file fbinary true prefix l buf n = Ok (Some (l', []))
    /\ if len c + n <=? 0x1000000
       then exists pad, fp l' = Some (name, Image.mk_file (c ++ replicate pad 0 ++ take (Z.to_nat n) buf) (len c + Z.of_nat pad + n))
              /\ (len c + Z.of_nat pad) mod 16 = 0 /\ (pad < 16)%nat /\ closed l' = closed l
       else fp l' = Some (log_name prefix (fidx l), Image.mk_file (take (Z.to_nat n) buf) n)
              /\ closed l' = (name, Image.mk_file c (len c)) :: closed l /\ fidx l' = if fidx l >=? 10 then 1 else fidx l + 1.
Proof.
  intros Hl Hb Hf Hn. unfold log_packets. rewrite (proj2 (Z.eqb_neq _ _) Hl), (proj2 (Z.eqb_neq _ _) Hb). cbn [negb andb]. rewrite Hf. cbn [Image.position].
  change 15 with (Z.ones 4). rewrite Z.land_ones by lia. change (2 ^ 4) with 16. set (p := len c) in *. pose proof (Z.mod_pos_bound p 16 ltac:(lia)) as Hm.
  assert (slice buf 0 n = Ok (take (Z.to_nat n) buf)) as Es by (rewrite slice_ok by lia; change (Z.to_nat 0) with 0%nat; by rewrite drop_0).
  assert (len (take (Z.to_nat n) buf) = n) as Lt by (rewrite length_take; lia).
  destruct (Z.gtb_spec (p + n) 0x1000000), (Z.leb_spec (p + n) 0x1000000); try lia.
  - unfold open_log. cbn [fp]. rewrite Es. cbn [obind]. eexists. split; [reflexivity|]. rewrite Hf. cbn [fp closed fidx]. rewrite fwrite_gap by done. cbn [app]. rewrite Lt.
    split_and!; [done..|]. destruct (Z.gtb_spec (fidx l + 1) 10), (Z.geb_spec (fidx l) 10); (done || lia).
  - destruct (Z.eqb_spec (p mod 16) 0) as [Hz|Hz]; cbn [negb].
    + rewrite Hf, Es. cbn [obind]. eexists. split; [reflexivity|]. exists 0%nat. cbn [fp closed]. rewrite fwrite_gap by done.
      replace (Z.to_nat p - length c)%nat with 0%nat by lia. rewrite Lt, Z.add_0_r. split_and!; [done..|lia|done].
    + cbn [fp]. rewrite Es. cbn [obind]. eexists. split; [reflexivity|]. exists (Z.to_nat (16 - p mod 16)). cbn [fp closed]. unfold Image.fseek. cbn [Image.contents].
      rewrite fwrite_gap by lia. rewrite Lt, Z2Nat.id by lia. replace (Z.to_nat (p + (16 - p mod 16)) - length c)%nat with (Z.to_nat (16 - p mod 16)) by lia.
      split_and!; [done| |lia|done]. pose proof (Z.div_mod p 16 ltac:(lia)). replace (p + (16 - p mod 16)) with ((p / 16 + 1) * 16) by lia. by rewrite Z.mod_mul by lia.
Qed.

(** ** Examples *)

(** An adapter that sends everything and gives the packets of a list, with a clock
    that counts seconds. *)
Record line := mk_line { l_in : list (list Z); l_out : list (list Z); l_got : list (list Z); l_time : Z }.
Definition line_send (p : list Z) (l : line) : Z * line := (0, mk_line (l_in l) (l_out l ++ [p]) (l_got l) (l_time l)).
Definition line_next (l : line) : Z * (Z * list Z) * line :=
  match l_in l with
  | [] => (-1, (0, []), l)
  | d :: r => if 14 <=? len d then (1, (len d, d), mk_line r (l_out l) (l_got l ++ [d]) (l_time l))
              else (0, (0, []), mk_line r (l_out l) (l_got l) (l_time l))
  end.
Definition line_clock (l : line) : Z * Z * line := ((l_time l, 0), mk_line (l_in l) (l_out l) (l_got l) (l_time l + 1)).
#[export] Program Instance line_pcap : Pcap line :=
  {| pcap_sendpacket := line_send; pcap_next_ex := line_next; clock_gettime := line_clock; sent := l_out; received := l_got |}.
Next Obligation. intros p n r n' [= <- <-]. done. Qed.
Next Obligation.
  intros n r l d n'. unfold line_next. destruct (l_in n) as [|p q]; [by intros [= <- <- <- <-]|].
  destruct (Z.leb_spec 14 (len p)); intros [= <- <- <- <-]; done.
Qed.
Next Obligation. intros n t n' [= <- <-]. done. Qed.
Next Obligation.
  intros n [ts tn] us. assert (forall k m, l_time (Nat.iter k (fun n => snd (line_clock n)) m) = l_time m + Z.of_nat k) as Ht.
  { induction k as [|k IH]; intros m; [cbn; lia|]. rewrite Nat.iter_succ_r, IH. cbn [line_clock snd l_time]. lia. }
  set (q := Z.quot (0 - tn) 1000). exists (Z.to_nat (Z.abs us + Z.abs q + Z.abs ts + Z.abs (l_time n) + 1)). unfold elapsed. cbn [line_clock fst snd]. rewrite Ht. fold q. lia.
Qed.

Lemma packet_session_correct_witness : exists k s' (fs : list (list Z)),
  (forall fuel, (k < fuel)%nat ->
     Packet.main 0 (listen_args [101; 110; 48]) None None true true fuel 0 ([1; 2; 3; 4; 5; 6; 7; 8], 9) ([([115; 101; 110; 100], 2)] ++ [(quit, 0)])
       (new_tool (mk_line [] [] [] 0)) = Ok (0, s'))
  /\ len fs = 2.
Proof.
  destruct (packet_session_correct (mk_line [] [] [] 0) [101; 110; 48] [([115; 101; 110; 100], 2)] [] 0 None None 0 ([1; 2; 3; 4; 5; 6; 7; 8], 9))
    as (k & s' & fs & E & L & _).
  - cbn. lia.
  - reflexivity.
  - repeat constructor; cbn; try lia. discriminate.
  - cbn. lia.
  - exists k, s', fs. split; [exact E|exact L].
Defined.
Lemma receive_packet_correct_witness : exists go s' ps,
  receive_packet 3 (new_tool (mk_line [replicate 14 7] [] [] 0)) = Ok (go, s') /\ received (wire s') = ps.
Proof.
  destruct (receive_packet_correct 3 (new_tool (mk_line [replicate 14 7] [] [] 0))) as (go & s' & ps & E & _ & R & _).
  - cbn. lia.
  - exists go, s', ps. split; [exact E|exact R].
Defined.
Lemma csum_correct_witness : exists c, csum [69; 0; 0; 0; 1] 5 = Ok c /\ csum ([69; 0] ++ le_bytes 2 c ++ [1]) 5 = Ok 0.
Proof.
  destruct (csum_correct [69; 0; 0; 0; 1] [69; 0] [1]) as (c & E & _ & _ & V).
  - repeat constructor; unfold is_byte; lia.
  - cbn. lia.
  - reflexivity.
  - by exists 1%nat.
  - vm_compute. reflexivity.
  - exists c. split; [exact E|exact V].
Defined.
