(* ===== verification/Start.v ===== *)
(** The start of the kernel: _start of init/main.c, which puts the components
    together, and the way of an exception to its handler.

    The machine is the state of every component that _start sets up, the memory
    in which the exception vectors lie and the registers of coprocessor 0. *)

From S2P Require Import Prelude Wp CString Kernel Queue Sched Sync Process KernelProps Sd FsData FsOps FsCalls FsLemmas FsState FsInode FsDir FsPath FsCreate FsTouch FsMount FsFile FsProps FsTheorems.
From S2P Require Import Printk Screen Syscall.

(** ** Exceptions *)

Inductive handler := handle_others | handle_int | handle_syscall | handle_tlb.
#[export] Instance handler_eq_dec : EqDecision handler.
Proof. solve_decision. Defined.
Definition INT : Z := 0.
Definition MOD : Z := 1.
Definition TLBL : Z := 2.
Definition TLBS : Z := 3.
Definition SYS : Z := 8.
Definition CAUSE_EXCCODE : Z := 0x7c.
Definition TIMER_INTERVAL : Z := 100000.
Definition EBASE : Z := 0xbfc00000.
Definition EBASE_OFFSET : Z := 0x380.

(** ** The machine *)

Record machine (D port : Type) := mk_machine {
  m_kernel : kstate;
  exception_handlers : list handler;
  m_table : list string;              (* the array [syscall] and the words behind it *)
  m_screen : screen port;
  m_fs : fs D;
  m_ram : gmap Z Z;                   (* bytes *)
  cp0_status : Z;
  cp0_count : Z;
  cp0_compare : Z
}.
Arguments mk_machine {D port}.
Arguments m_kernel {D port}.
Arguments exception_handlers {D port}.
Arguments m_table {D port}.
Arguments m_screen {D port}.
Arguments m_fs {D port}.
Arguments m_ram {D port}.
Arguments cp0_status {D port}.
Arguments cp0_count {D port}.
Arguments cp0_compare {D port}.
#[export] Instance machine_struct {D port} : Struct (machine D port) := fun m =>
  mk_machine (m_kernel m) (exception_handlers m) (m_table m) (m_screen m) (m_fs m) (m_ram m) (cp0_status m) (cp0_count m) (cp0_compare m).

(** The bytes [l] at [addr]. *)
Fixpoint store_bytes (addr : Z) (l : list Z) (ram : gmap Z Z) : gmap Z Z :=
  match l with [] => ram | b :: l' => store_bytes (addr + 1) l' (<[addr := b]> ram) end.
Definition bytes_at (ram : gmap Z Z) (addr : Z) (l : list Z) : Prop := forall i b, l !! i = Some b -> ram !! (addr + Z.of_nat i) = Some b.

Section start.
Context {D port : Type} `{BD : BlockDevice D} {PM : Pmon port}.
Abbreviation Mach := (M (machine D port)).

(** A component at work. *)
Definition in_kernel {A} (m : M kstate A) : Mach A := fun s =>
  match m (m_kernel s) with Ok (a, k) => Ok (a, s <| m_kernel := k |>) | Fault f => Fault f end.
Definition in_screen {A} (m : M (screen port) A) : Mach A := fun s =>
  match m (m_screen s) with Ok (a, k) => Ok (a, s <| m_screen := k |>) | Fault f => Fault f end.
Definition in_fs {A} (m : M (fs D) A) : Mach A := fun s =>
  match m (m_fs s) with Ok (a, k) => Ok (a, s <| m_fs := k |>) | Fault f => Fault f end.
Definition set_handler (i : Z) (h : handler) : Mach unit := fun s =>
  try! t := wr (exception_handlers s) i h in Ok (tt, s <| exception_handlers := t |>).

Definition init_exception_handler : Mach unit :=
  do! for_range 32 0 (fun i => set_handler i handle_others);
  do! set_handler INT handle_int;
  do! set_handler SYS handle_syscall;
  do! set_handler MOD handle_tlb;
  do! set_handler TLBL handle_tlb;
  set_handler TLBS handle_tlb.

(** [CLOSE_INTERRUPT]. *)
Definition close_interrupt : Mach unit := modify (fun s => s <| cp0_status := Z.land (cp0_status s) 0xfffffffe |>).
Definition reset_timer : Mach unit :=
  do! modify (fun s => s <| cp0_count := 0 |>);
  modify (fun s => s <| cp0_compare := TIMER_INTERVAL |>).
(** [code] are the bytes from [exception_handler_begin] to [exception_handler_end]. *)
Definition copy_vector (addr : Z) (code : list Z) : Mach unit := modify (fun s => s <| m_ram := store_bytes addr code (m_ram s) |>).
Definition init_exception (code : list Z) : Mach unit :=
  do! close_interrupt;
  do! init_exception_handler;
  do! copy_vector (EBASE + EBASE_OFFSET) code;
  do! copy_vector 0x80000180 code;
  do! copy_vector 0x80000000 code;
  reset_timer.

(** The status register of [asm_start]; the cache and watch registers are left out. *)
Definition asm_start : Mach unit := modify (fun s => s <| cp0_status := 0 |>).
Definition init_table : Mach unit := fun s => try! t := init_syscall (m_table s) in Ok (tt, s <| m_table := t |>).

(** Up to the first switch of its endless loop, from which it never returns: the
    task it runs as is in no queue.  [buff] and [bf] are what the buffers of
    [printk] hold, [first_entry] and [test_shell] the addresses of these functions. *)
Definition _start (buff bf code : list Z) (first_entry test_shell : Z) : Mach unit :=
  do! asm_start;
  do! init_exception code;
  do! init_table;
  do! in_kernel (init_pcb first_entry test_shell);
  do! in_screen (init_screen buff bf);
  do! in_fs init_fs;
  in_kernel (do_scheduler R_return).

(** The code at the vectors: [exception_handlers[exc_code]()]. *)
Definition exception_handler_entry (cause : Z) : Mach handler :=
  do! close_interrupt;
  let! t := gets exception_handlers in
  lift (rd t (Z.shiftr (Z.land cause CAUSE_EXCCODE) 2)).

(** ** The start *)

Lemma store_bytes_other l : forall addr ram p, (p < addr \/ addr + len l <= p) -> store_bytes addr l ram !! p = ram !! p.
Proof.
  induction l as [|b l IH]; intros addr ram p Hp; cbn [store_bytes]; [done|]. cbn [length] in Hp.
  rewrite IH by lia. by rewrite lookup_insert_ne by lia.
Qed.
Lemma store_bytes_at l : forall addr ram, bytes_at (store_bytes addr l ram) addr l.
Proof.
  induction l as [|b l IH]; intros addr ram [|i] c Hi; cbn [store_bytes lookup list_lookup] in *; try done.
  - injection Hi as <-. rewrite Z.add_0_r, store_bytes_other by lia. apply lookup_insert_eq.
  - replace (addr + Z.of_nat (S i)) with (addr + 1 + Z.of_nat i) by lia. by apply IH.
Qed.
Lemma bytes_at_other a l addr l' ram : (a + len l' <= addr \/ addr + len l <= a) -> bytes_at ram a l' -> bytes_at (store_bytes addr l ram) a l'.
Proof.
  intros Hd Hb i b Hi. pose proof (lookup_lt_Some _ _ _ Hi). rewrite store_bytes_other by lia. by apply Hb.
Qed.

(** The table that results. *)
Definition handler_table : list handler :=
  [handle_int; handle_tlb; handle_tlb; handle_tlb] ++ replicate 4 handle_others ++ [handle_syscall] ++ replicate 23 handle_others.
Lemma wp_init_exception_handler (s : machine D port) Q : length (exception_handlers s) = 32%nat ->
  Q tt (s <| exception_handlers := handler_table |>) -> wp init_exception_handler s Q.
Proof.
  intros Hl HQ. unfold init_exception_handler. apply wp_bind. set (h := exception_handlers s) in *.
  apply (wp_for_range (fun j t => t = s <| exception_handlers := replicate (Z.to_nat j) handle_others ++ drop (Z.to_nat j) h |>)).
  - cbn [Z.to_nat replicate app]. rewrite drop_0. by destruct s.
  - intros j t Hj ->. destruct (drop (Z.to_nat j) h) as [|x r] eqn:Ed; [apply (f_equal length) in Ed; rewrite length_drop in Ed; cbn in Ed; lia|].
    unfold wp, set_handler. cbn [put exception_handlers]. rewrite wr_at by (rewrite length_replicate; lia). eexists tt, _. split; [reflexivity|].
    replace (Z.to_nat (j + 1)) with (S (Z.to_nat j)) by lia. rewrite replicate_S_end, <-app_assoc. cbn [app].
    assert (drop (S (Z.to_nat j)) h = r) as -> by (rewrite <-Nat.add_1_r, <-drop_drop, Ed; done). done.
  - intros t ->. change (Z.to_nat (0 + Z.of_nat 32)) with 32%nat. rewrite drop_ge by lia. unfold wp. eexists tt, _. split; [reflexivity|exact HQ].
Qed.

Lemma handler_table_spec c : 0 <= c < 32 ->
  rd handler_table c = Ok (if c =? INT then handle_int else if c =? SYS then handle_syscall
    else if (c =? MOD) || (c =? TLBL) || (c =? TLBS) then handle_tlb else handle_others).
Proof.
  intros Hc. rewrite <-(Z2Nat.id c) by lia. assert (Z.to_nat c < 32)%nat as Hn by lia. revert Hn. generalize (Z.to_nat c). clear. intros n Hn.
  do 32 (destruct n as [|n]; [reflexivity|]). lia.
Qed.
Lemma exc_code_range cause : 0 <= Z.shiftr (Z.land cause CAUSE_EXCCODE) 2 < 32.
Proof.
  rewrite Z.shiftr_land, <-(Z.land_ones_low (Z.shiftr CAUSE_EXCCODE 2) 5), Z.land_assoc, Z.land_ones by (done || lia). apply Z.mod_pos_bound. lia.
Qed.

(** The disk at the start: one that an earlier system [s] left, or one without a
    file system.  [v] is the file system that is mounted. *)
Definition mountable (r : fs D) (v : vfs) : Prop :=
  fs_wf r /\ is_word (ticks r) /\
  ((exists s, fs_ok s /\ word_in (superblock_buffer s) s_magic = FS_MAGIC_NUMBER /\ dir_at (dblock s) 0 /\ v_used (FsProps.abs s) 0 = true
      /\ v_alloc (FsProps.abs s) (first_block (v_inode (FsProps.abs s) 0)) = true /\ (forall k, 0 <= k < DEV_BLOCKS -> dblock r k = dblock s k)
      /\ v = mk_vfs 0 (first_block (v_inode (FsProps.abs s) 0)) (dir_lookup (dblock s (first_block (v_inode (FsProps.abs s) 0))))
           (v_inode (FsProps.abs s)) (v_used (FsProps.abs s)) (v_alloc (FsProps.abs s)) (v_data (FsProps.abs s)))
   \/ (word_in (dblock r 0) s_magic <> FS_MAGIC_NUMBER /\ v = v_root (ticks r) (dblock r))).
Lemma mountable_mounts r v : mountable r v -> exists s, init_fs r = Ok (tt, s) /\ fs_ok s /\ FsProps.abs s ≡ v.
Proof.
  intros (Hw & Ht & [(s & H1 & H2 & H3 & H4 & H5 & H6 & ->)|[Hm ->]]).
  - destruct (mount_lemma s r H1 H2 H3 H4 H5 Hw Ht H6) as (s' & E & Hok & _ & Ha). eauto.
  - by apply mount_blank_lemma.
Qed.
End start.

Definition vectors (code : list Z) (ram : gmap Z Z) : gmap Z Z :=
  store_bytes 0x80000000 code (store_bytes 0x80000180 code (store_bytes (EBASE + EBASE_OFFSET) code ram)).
Lemma vectors_hold code ram : len code <= 0x180 -> Forall (fun a => bytes_at (vectors code ram) a code) [0xbfc00380; 0x80000180; 0x80000000].
Proof.
  intros Hc. apply Forall_cons. split; [|apply Forall_cons; split; [|apply Forall_singleton]].
  - apply bytes_at_other; [lia|]. apply bytes_at_other; [lia|]. apply store_bytes_at.
  - apply bytes_at_other; [lia|]. apply store_bytes_at.
  - apply store_bytes_at.
Qed.

(** [boot] is to be unfolded before anything is computed. *)
Strategy expand [boot].
Lemma boot_parts fe sh r : boot fe sh = r -> (do! init_pcb fe sh; do_scheduler R_return) boot_kstate = r.
Proof. intros E. exact E. Qed.

Section run.
Context {D port : Type} `{BD : BlockDevice D} {PM : Pmon port}.
Implicit Types s : machine D port.

Lemma init_exception_ok code s : length (exception_handlers s) = 32%nat ->
  init_exception code s = Ok (tt, mk_machine (m_kernel s) handler_table (m_table s) (m_screen s) (m_fs s) (vectors code (m_ram s))
    (Z.land (cp0_status s) 0xfffffffe) 0 TIMER_INTERVAL).
Proof.
  intros Hh. unfold init_exception. set (s1 := s <| cp0_status := Z.land (cp0_status s) 0xfffffffe |>).
  rewrite (bind_Ok close_interrupt _ s tt s1) by reflexivity.
  destruct (wp_init_exception_handler s1 (fun _ t => t = s1 <| exception_handlers := handler_table |>)) as ([] & s' & E & ->); [exact Hh|reflexivity|].
  rewrite (bind_Ok _ _ _ _ _ E). reflexivity.
Qed.
Lemma in_kernel_ok {A} (c : M kstate A) s a k : c (m_kernel s) = Ok (a, k) -> in_kernel c s = Ok (a, s <| m_kernel := k |>).
Proof. intros E. unfold in_kernel. by rewrite E. Qed.
Lemma in_screen_ok {A} (c : M (screen port) A) s a k : c (m_screen s) = Ok (a, k) -> in_screen c s = Ok (a, s <| m_screen := k |>).
Proof. intros E. unfold in_screen. by rewrite E. Qed.
Lemma in_fs_ok {A} (c : M (fs D) A) s a k : c (m_fs s) = Ok (a, k) -> in_fs c s = Ok (a, s <| m_fs := k |>).
Proof. intros E. unfold in_fs. by rewrite E. Qed.
Lemma init_table_ok s t : init_syscall (m_table s) = Ok t -> init_table s = Ok (tt, s <| m_table := t |>).
Proof. intros E. unfold init_table. by rewrite E. Qed.

(** The components are set up one after the other. *)
Lemma start_run buff bf code fe sh s t k0 k sc f : length (exception_handlers s) = 32%nat -> init_syscall (m_table s) = Ok t ->
  init_pcb fe sh (m_kernel s) = Ok (tt, k0) -> do_scheduler R_return k0 = Ok (tt, k) ->
  init_screen buff bf (m_screen s) = Ok (tt, sc) -> init_fs (m_fs s) = Ok (tt, f) ->
  _start buff bf code fe sh s = Ok (tt, mk_machine k handler_table t sc f (vectors code (m_ram s)) 0 0 TIMER_INTERVAL).
Proof.
  intros Hh Et E1 E2 Es Ef. unfold _start. rewrite (bind_Ok asm_start _ s tt (s <| cp0_status := 0 |>)) by reflexivity.
  set (s0 := s <| cp0_status := 0 |>). rewrite (bind_Ok _ _ _ _ _ (init_exception_ok code s0 Hh)).
  set (s1 := mk_machine _ _ _ _ _ _ _ _ _). rewrite (bind_Ok _ _ _ _ _ (init_table_ok s1 t Et)).
  set (s2 := s1 <| m_table := t |>). rewrite (bind_Ok _ _ _ _ _ (in_kernel_ok (init_pcb fe sh) s2 tt k0 E1)).
  set (s3 := s2 <| m_kernel := k0 |>). rewrite (bind_Ok _ _ _ _ _ (in_screen_ok (init_screen buff bf) s3 tt sc Es)).
  set (s4 := s3 <| m_screen := sc |>). rewrite (bind_Ok _ _ _ _ _ (in_fs_ok init_fs s4 tt f Ef)).
  set (s5 := s4 <| m_fs := f |>). rewrite (in_kernel_ok (do_scheduler R_return) s5 tt k E2). reflexivity.
Qed.
End run.

(** C2: the kernel starts: from a machine whose kernel variables have their initial
    values ([boot_kstate]), while the exception table, the array of system calls, the
    screen, the buffers, the variables of the file system and the memory at the
    vectors hold anything of their sizes, and from a disk that an earlier system left
    or that has no file system, _start sets every component up and switches to the
    shell.  Then the process table is in a state that the other theorems on processes
    start from, with the shell running; interrupts are closed and the timer runs its
    first interval; the code of the vectors, which must be of at most 0x180 bytes, is
    at the three addresses; every exception reaches the handler for its code; every
    system call of the library reaches its function; the screen is blank with the
    cursor at its first position; and the file system is the one of the disk, or a
    new one.  The array of system calls has 64 entries, and its initialisation
    overwrites the 17 words behind it (and no others): the theorem takes it that no
    variable of the other components lies there. *)
Theorem start_correct {D port} `{BD : BlockDevice D} {PM : Pmon port} {VT : Vt100 port} (m : machine D port) (buff bf code : list Z) (fe sh : Z) (v : vfs) (declared behind : list string) :
  length buff = 256%nat -> length bf = 24%nat -> len code <= 0x180 -> sh <> 0 ->
  m_kernel m = boot_kstate -> length (exception_handlers m) = 32%nat ->
  m_table m = declared ++ behind -> len declared = NUM_SYSCALLS -> (OVERRUN <= length behind)%nat ->
  len (new_screen (m_screen m)) = CELLS -> len (old_screen (m_screen m)) = CELLS -> Screen.ready (serial (m_screen m)) -> mountable (m_fs m) v ->
  exists m' Q, _start buff bf code fe sh m = Ok (tt, m')
    /\ reachable fe sh (m_kernel m') /\ full_inv (m_kernel m') Q 1
    /\ Z.testbit (cp0_status m') 0 = false /\ cp0_count m' = 0 /\ cp0_compare m' = TIMER_INTERVAL
    /\ Forall (fun a => bytes_at (m_ram m') a code) [0xbfc00380; 0x80000180; 0x80000000]
    /\ (forall cause, exists m'', exception_handler_entry cause m' = Ok (
          (let c := Z.shiftr (Z.land cause CAUSE_EXCCODE) 2 in
           if c =? INT then handle_int else if c =? SYS then handle_syscall
           else if (c =? MOD) || (c =? TLBL) || (c =? TLBS) then handle_tlb else handle_others), m''))
    /\ (forall u, exists r, dispatch (m_table m') (user_regs u) = Ok (fst (meaning u), snd (meaning u) ++ r))
    /\ (length (m_table m') = length (m_table m) /\ drop ENTRIES (m_table m') = drop OVERRUN behind)
    /\ new_screen (m_screen m') = concat (rows blank_console) /\ screen_cursor_x (m_screen m') = 0 /\ screen_cursor_y (m_screen m') = 0
    /\ fs_ok (m_fs m') /\ FsProps.abs (m_fs m') ≡ v.
Proof.
  intros Hbuff Hbf Hcode Hsh Hk Hh Ht Hdec Hbeh Hn Ho Hr Hm.
  destruct (boot_spec fe sh Hsh) as (k & Q & Eb & HF). pose proof (bind_Ok_inv _ _ _ _ _ (boot_parts _ _ _ Eb)) as ([] & k0 & E1 & E2).
  destruct (table_split declared behind Hdec Hbeh) as (td & tb & Et & Ld & Lb & Ht1 & Ht2 & _). rewrite <-Ht in Et.
  set (t := td ++ tb ++ drop OVERRUN behind) in *.
  destruct (wp_init_screen buff bf Hbuff Hbf (m_screen m) (fun _ t => draws blank_console t) Hn Ho Hr) as ([] & sc & Es & Hd); [exact (fun t Ht _ => Ht)|].
  destruct (mountable_mounts _ _ Hm) as (f & Ef & Hok & Ha). clear Hm.
  exists (mk_machine k handler_table t sc f (vectors code (m_ram m)) 0 0 TIMER_INTERVAL), Q. rewrite <-Hk in E1.
  split; [exact (start_run buff bf code fe sh m t k0 k sc f Hh Et E1 E2 Es Ef)|split; [exact (reach_boot fe sh k Eb)|split; [exact HF|]]].
  cbn [m_ram cp0_status cp0_count cp0_compare m_table m_screen m_fs]. destruct Hd as (_ & Hd1 & Hd2 & Hd3).
  split; [reflexivity|]. split; [reflexivity|]. split; [reflexivity|]. split; [by apply vectors_hold|].
  split; [|split; [|split; [|split; [exact Hd1|split; [exact Hd2|split; [exact Hd3|split; [exact Hok|exact Ha]]]]]]].
  - intros cause. unfold exception_handler_entry, bind, close_interrupt, modify, gets, lift. cbn [put exception_handlers].
    rewrite handler_table_spec by apply exc_code_range. eexists. reflexivity.
  - intros u. by apply dispatch_split.
  - rewrite Ht. unfold t, OVERRUN, ENTRIES, NUM_SYSCALLS in *. split; [rewrite !length_app, length_drop; lia|].
    rewrite app_assoc, drop_app_length'; [done|]. rewrite length_app. lia.
Qed.
Lemma start_correct_witness : exists m' Q,
  _start demo_buff demo_bf (replicate 60 7) 1 2
    (mk_machine boot_kstate (replicate 32 handle_others) (replicate 64 EmptyString ++ replicate 36 EmptyString) demo_screen blank ∅ 1 9 9) = Ok (tt, m')
  /\ full_inv (m_kernel m') Q 1 /\ fs_ok (m_fs m').
Proof.
  destruct (start_correct (mk_machine boot_kstate (replicate 32 handle_others) (replicate 64 EmptyString ++ replicate 36 EmptyString) demo_screen blank ∅ 1 9 9)
    demo_buff demo_bf (replicate 60 7) 1 2 (v_root (ticks blank) (dblock blank)) (replicate 64 EmptyString) (replicate 36 EmptyString))
    as (m' & Q & E & _ & HF & _ & _ & _ & _ & _ & _ & _ & _ & _ & _ & Hok & _).
  - reflexivity.
  - reflexivity.
  - cbn. lia.
  - lia.
  - reflexivity.
  - reflexivity.
  - reflexivity.
  - reflexivity.
  - apply Nat.leb_le. reflexivity.
  - exact (proj1 demo_arrays).
  - exact (proj1 (proj2 demo_arrays)).
  - exact (proj2 (proj2 demo_arrays)).
  - split; [exact (proj1 blank_wf)|]. split; [exact (proj2 blank_wf)|]. right. split; [by vm_compute|reflexivity].
  - exists m', Q. split; [exact E|]. split; [exact HF|exact Hok].
Defined.
