(* ===== verification/Suspend.v ===== *)
(** Where a task goes on: which calls change the resume points of tasks and make
    tasks exit.  A program that is built from several tasks uses this to follow
    each of them while the others run. *)

From S2P Require Import Prelude Kernel Queue Sched Sync Process KernelProps.

(** ** Up to the switch *)

(** Nobody is suspended or continued, and the running task stays. *)
Record calm (s s' : kstate) : Prop := {
  calm_suspended : suspended s' = suspended s;
  calm_current : current_running s' = current_running s;
}.
#[export] Instance calm_preorder : PreOrder calm.
Proof. split; [by intros s; split|]. intros s s' s'' [A B] [C D]. split; congruence. Qed.

Lemma calm_store q f : keeps calm (store q f).
Proof. intros s a s'. unfold store. destruct q as [t|]; [|done]. by intros [= _ <-]. Qed.
Lemma calm_modify f :
  (forall s, suspended (f s) = suspended s) -> (forall s, current_running (f s) = current_running s) -> keeps calm (modify f).
Proof. intros H1 H2. apply keeps_modify. by split. Qed.
Lemma calm_store_queue q v : keeps calm (store_queue q v).
Proof. by apply calm_modify. Qed.
#[export] Hint Resolve calm_store calm_store_queue : keeps.
#[export] Hint Extern 1 (keeps calm (modify _)) => (by apply calm_modify) : keeps.

Lemma calm_queue_is_empty q : keeps calm (queue_is_empty q).
Proof. unfold queue_is_empty. keeps_auto. Qed.
Lemma calm_queue_push q x : keeps calm (queue_push q x).
Proof. unfold queue_push. keeps_auto. Qed.
Lemma calm_queue_remove q x : keeps calm (queue_remove q x).
Proof. unfold queue_remove. keeps_auto. Qed.
Lemma calm_queue_dequeue q : keeps calm (queue_dequeue q).
Proof. unfold queue_dequeue. keeps_auto. Qed.
#[export] Hint Resolve calm_queue_is_empty calm_queue_push calm_queue_remove calm_queue_dequeue : keeps.
Lemma calm_queue_init q : keeps calm (queue_init q).
Proof. unfold queue_init. keeps_auto. Qed.
#[export] Hint Resolve calm_queue_init : keeps.
Lemma calm_check_in_queue q x : keeps calm (check_in_queue q x).
Proof.
  unfold check_in_queue. keeps_auto.
  match goal with |- keeps _ (check_in_queue_loop ?n ?h ?x) => generalize h; induction n end;
    intros h; cbn [check_in_queue_loop]; keeps_auto.
Qed.
Lemma calm_pick_loop fuel a b : keeps calm (pick_loop fuel a b).
Proof. revert a. induction fuel; intros a; cbn [pick_loop]; keeps_auto. Qed.
#[export] Hint Resolve calm_pick_loop : keeps.
Lemma calm_block_on q : keeps calm (block_on q).
Proof. unfold block_on. keeps_auto. Qed.
Lemma calm_wake_first q : keeps calm (wake_first q).
Proof. unfold wake_first. keeps_auto. Qed.
Lemma calm_do_unblock_one q : keeps calm (do_unblock_one q).
Proof. unfold do_unblock_one. keeps_auto. Qed.
Lemma calm_clear_waiters fuel l h : keeps calm (clear_waiters fuel l h).
Proof. revert h. induction fuel; intros h; cbn [clear_waiters]; keeps_auto. Qed.
#[export] Hint Resolve calm_check_in_queue calm_block_on calm_wake_first calm_do_unblock_one calm_clear_waiters : keeps.
Lemma calm_clear_waiting_queue q : keeps calm (clear_waiting_queue q).
Proof. unfold clear_waiting_queue. keeps_auto. Qed.
Lemma calm_do_unblock_all q : keeps calm (do_unblock_all q).
Proof. unfold do_unblock_all. keeps_auto. Qed.
#[export] Hint Resolve calm_clear_waiting_queue calm_do_unblock_all : keeps.
Lemma calm_do_mutex_lock_release l : keeps calm (do_mutex_lock_release l).
Proof. unfold do_mutex_lock_release. keeps_auto. Qed.
#[export] Hint Resolve calm_do_mutex_lock_release : keeps.
Lemma calm_release_slots ix p : keeps calm (release_slots ix p).
Proof. induction ix; cbn [release_slots]; keeps_auto. Qed.
Lemma calm_kill_unlink i : keeps calm (kill_unlink i).
Proof.
  unfold kill_unlink. keeps_auto.
  match goal with |- keeps _ (remove_from_locks ?l i) => induction l as [|[] ? ?] end; cbn [remove_from_locks]; keeps_auto.
Qed.
#[export] Hint Resolve calm_release_slots calm_kill_unlink : keeps.

(** ** Calls *)

(** The running task [c] is continued at [r] when it runs again; the others stay
    as they are. *)
Definition switches (c : nat) (r : resume_point) (m : M kstate unit) : Prop :=
  forall s s', current_running s = Some c -> m s = Ok (tt, s') -> suspended s' = <[c := r]> (suspended s).
(** The same, when the call may also return without a switch. *)
Definition may_switch (c : nat) (r : resume_point) (m : M kstate unit) : Prop :=
  forall s s', current_running s = Some c -> m s = Ok (tt, s') ->
    suspended s' = suspended s \/ suspended s' = <[c := r]> (suspended s).

Lemma switches_do_scheduler c r : switches c r (do_scheduler r).
Proof.
  intros s s' Hc E. unfold do_scheduler in E. rewrite (bind_Ok _ _ _ _ _ eq_refl), Hc, (bind_Ok _ _ _ _ _ eq_refl) in E.
  apply keeps_scheduler in E. by rewrite (sched_frame_outer suspended _ _ E) by done.
Qed.
Lemma switches_bind {A} c r (m : M kstate A) k : keeps calm m -> (forall a, switches c r (k a)) -> switches c r (bind m k).
Proof.
  intros K Hk s s' Hc (a & s1 & E1 & E2)%bind_Ok_inv. destruct (K _ _ _ E1) as [<- H2]. apply (Hk a s1 s'); congruence.
Qed.
Lemma may_switch_bind {A} c r (m : M kstate A) k : keeps calm m -> (forall a, may_switch c r (k a)) -> may_switch c r (bind m k).
Proof.
  intros K Hk s s' Hc (a & s1 & E1 & E2)%bind_Ok_inv. destruct (K _ _ _ E1) as [<- H2]. apply (Hk a s1 s'); congruence.
Qed.
Lemma may_switch_calm c r m : keeps calm m -> may_switch c r m.
Proof. intros K s s' _ E. left. by apply (K _ _ _ E). Qed.
Lemma may_switch_switches c r m : switches c r m -> may_switch c r m.
Proof. intros H s s' Hc E. right. by apply H. Qed.
Ltac switches_auto :=
  unfold set_status, release_all;
  repeat match goal with
  | |- _ _ _ (match ?x with _ => _ end) => destruct x
  | |- switches _ _ (do_scheduler _) => apply switches_do_scheduler
  | |- switches _ _ (bind _ _) => apply switches_bind; [solve [keeps_auto]|intros ?]
  | |- may_switch _ _ (do_scheduler _) => apply may_switch_switches
  | |- may_switch _ _ (bind _ _) => apply may_switch_bind; [solve [keeps_auto]|intros ?]
  | |- may_switch _ _ _ => apply may_switch_calm; solve [keeps_auto]
  end.

(** Where the running task goes on after a call. *)
Definition resume_after (s : kstate) (k : call) : resume_point :=
  match k with
  | C_acquire l => if decide (lock_status s !!! l = LOCKED) then R_mutex_lock_acquire l else R_return
  | C_condition_wait l _ => R_mutex_lock_acquire l
  | _ => R_return
  end.

Lemma acquire_suspended l s c s' : current_running s = Some c -> do_mutex_lock_acquire l s = Ok (tt, s') ->
  suspended s' = if decide (lock_status s !!! l = LOCKED) then <[c := R_mutex_lock_acquire l]> (suspended s) else suspended s.
Proof.
  intros Hc. unfold do_mutex_lock_acquire. rewrite (bind_Ok _ _ _ _ _ eq_refl). case_decide.
  - revert s s' Hc H. intros s s' Hc _ E. revert s s' Hc E. change (switches c (R_mutex_lock_acquire l) (do_block (mutex_lock_queue l) (R_mutex_lock_acquire l))).
    unfold do_block. switches_auto.
  - match goal with |- ?m s = _ -> _ => assert (keeps calm m) as K by keeps_auto end. intros E. by apply (K _ _ _ E).
Qed.
Lemma condition_wait_suspended l i c : switches c (R_mutex_lock_acquire l) (do_condition_wait l i).
Proof. unfold do_condition_wait. switches_auto. Qed.

Lemma spawn_suspended fe ti s s' t : do_spawn fe ti s = Ok (tt, s') -> status s t <> TASK_EXITED -> suspended s' !!! t = suspended s !!! t.
Proof.
  rewrite do_spawn_eq. pose proof (find_pcb_spec (fun p => bool_decide (pcb_status p = TASK_EXITED)) s) as Hf.
  destruct (find_pcb _ s) as [i|]; [|by intros [= <-]]. destruct Hf as [_ Hf%bool_decide_eq_true]. intros E Ht.
  apply calm_queue_push in E. rewrite (calm_suspended _ _ E).
  change (suspended (spawned fe ti i s)) with (<[i := R_return]> (suspended s)). apply lookup_total_insert_ne. by intros ->.
Qed.
Lemma kill_suspended n c : may_switch c R_return (do_kill n).
Proof. unfold do_kill. switches_auto. Qed.

(** A call of the running task [c] changes no resume point but its own. *)
Lemma exec_suspended fe k s Q c s' :
  full_inv s Q c -> suspended s !!! c = R_return -> exec fe k s = Ok (tt, s') ->
  suspended s' !!! c = resume_after s k
  /\ forall t, t <> c -> status s t <> TASK_EXITED -> suspended s' !!! t = suspended s !!! t.
Proof.
  intros [[(H & _ & Hrun) _] _] Hr E. pose proof (inv_cur _ _ _ H) as Hc.
  assert (forall r m, switches c r m -> m s = Ok (tt, s') ->
    suspended s' !!! c = r /\ forall t, t <> c -> status s t <> TASK_EXITED -> suspended s' !!! t = suspended s !!! t) as Hsw.
  { intros r m Hm Em. rewrite (Hm s s' Hc Em). split; [apply lookup_total_insert_eq|]. intros t Ht _. by apply lookup_total_insert_ne. }
  assert (forall m, may_switch c R_return m -> m s = Ok (tt, s') ->
    suspended s' !!! c = R_return /\ forall t, t <> c -> status s t <> TASK_EXITED -> suspended s' !!! t = suspended s !!! t) as Hmay.
  { intros m Hm Em. destruct (Hm s s' Hc Em) as [->| ->]; [done|]. split; [apply lookup_total_insert_eq|]. intros t Ht _. by apply lookup_total_insert_ne. }
  destruct k; cbn [exec resume_after] in *.
  2: { rewrite (acquire_suspended _ _ _ _ Hc E). case_decide; [|done]. split; [apply lookup_total_insert_eq|]. intros t Ht _. by apply lookup_total_insert_ne. }
  5: by apply (Hsw _ _ (condition_wait_suspended l i c) E).
  8: { split; [rewrite (spawn_suspended _ _ _ _ c E) by congruence; done|]. intros t _. by apply (spawn_suspended _ _ _ _ _ E). }
  all: refine (Hmay _ _ E); unfold do_sleep, do_semaphore_up, do_semaphore_down, do_condition_signal, do_condition_broadcast,
    do_barrier_wait, do_exit, release_all, do_waitpid, do_kill, irq_timer, do_mutex_lock_init, do_semaphore_init, do_condition_init,
    do_barrier_init, do_block; switches_auto.
Qed.

(** ** Exiting *)

Lemma exit_check_in_queue q x : keeps proc_frame (check_in_queue q x).
Proof.
  unfold check_in_queue. keeps_auto.
  match goal with |- keeps _ (check_in_queue_loop ?n ?h ?x) => generalize h; induction n end;
    intros h; cbn [check_in_queue_loop]; keeps_auto.
Qed.
#[export] Hint Resolve exit_check_in_queue exit_release_slots : keeps.
Lemma exit_kill_unlink i : keeps proc_frame (kill_unlink i).
Proof.
  unfold kill_unlink. keeps_auto.
  match goal with |- keeps _ (remove_from_locks ?l i) => induction l as [|[] ? ?] end; cbn [remove_from_locks]; keeps_auto.
Qed.
#[export] Hint Resolve exit_kill_unlink : keeps.

(** The tasks that [m] makes exit are [i] at most. *)
Definition exits (i : nat) {A} (m : M kstate A) : Prop :=
  forall s a s', m s = Ok (a, s') -> forall t, t <> i -> status s' t = TASK_EXITED -> status s t = TASK_EXITED.
Lemma exits_frame i {A} (m : M kstate A) : keeps proc_frame m -> exits i m.
Proof. intros K s a s' E t _. apply (pf_exit _ _ (K _ _ _ E)). Qed.
Lemma exits_bind i {A B} (m : M kstate A) (k : A -> M kstate B) : exits i m -> (forall a, exits i (k a)) -> exits i (bind m k).
Proof. intros Hm Hk s b s' (a & s1 & E1 & E2)%bind_Ok_inv t Ht E. eapply Hm; [done..|]. by eapply Hk. Qed.
Lemma exits_status i st : exits i (set_status i st).
Proof.
  intros s a s' [= _ <-] t Ht. unfold status. by rewrite pcb_set_ne by done.
Qed.
Ltac exits_auto :=
  unfold release_all;
  repeat match goal with
  | |- exits _ (match ?x with _ => _ end) => destruct x
  | |- exits _ (set_status _ _) => apply exits_status
  | |- exits _ (bind _ _) => apply exits_bind; [|intros ?]
  | |- exits _ _ => apply exits_frame; solve [keeps_auto]
  end.

Lemma exec_exited fe k s Q c s' t :
  full_inv s Q c -> exec fe k s = Ok (tt, s') -> status s' t = TASK_EXITED -> status s t <> TASK_EXITED ->
  k = C_exit /\ t = c \/ exists n, k = C_kill n /\ find_pcb (has_pid n) s = Some t.
Proof.
  intros [[(H & _ & Hrun) _] _] E Ht Hn. pose proof (inv_cur _ _ _ H) as Hc.
  assert (forall m : M kstate unit, keeps proc_frame m -> m s = Ok (tt, s') -> False) as Hf.
  { intros m K Em. by apply Hn, (pf_exit _ _ (K _ _ _ Em)). }
  destruct k; cbn [exec] in E;
    try solve [exfalso; refine (Hf _ _ E); auto using exit_do_sleep, exit_do_mutex_lock_acquire, exit_do_mutex_lock_release, exit_do_semaphore_up,
      exit_do_semaphore_down, exit_do_condition_wait, exit_do_condition_signal, exit_do_condition_broadcast, exit_do_barrier_wait, exit_do_waitpid, exit_do_mutex_lock_init,
      exit_do_semaphore_init, exit_queue_init, exit_do_barrier_init, exit_do_block, exit_do_unblock_one, exit_do_unblock_all];
    try solve [exfalso; refine (Hf _ _ E); unfold irq_timer, do_condition_init; keeps_auto].
  - exfalso. apply Hn. rewrite do_spawn_eq in E. destruct (find_pcb _ s) as [i|]; [|by injection E as <-].
    apply exit_queue_push, pf_exit with (t := t) in E; [|done]. destruct (spawned_pcb fe ti i s) as [P1 P2].
    unfold status in *. destruct (decide (t = i)) as [->|Hne]; [by rewrite P1 in E|by rewrite P2 in E].
  - left. split; [done|]. destruct (decide (t = c)) as [->|Hne]; [done|]. exfalso. apply Hn. revert E. unfold do_exit.
    rewrite (bind_Ok _ _ _ _ _ eq_refl), Hc. match goal with |- ?m s = _ -> _ => assert (exits c m) as K by exits_auto end.
    intros E. by apply (K _ _ _ E).
  - right. exists n. split; [done|]. revert E. rewrite do_kill_eq. destruct (find_pcb (has_pid n) s) as [i|]; [|by intros [= <-]].
    destruct (decide (t = i)) as [->|Hne]; [done|]. unfold kill_body.
    match goal with |- ?m s = _ -> _ => assert (exits i m) as K by exits_auto end. intros E. by destruct Hn; apply (K _ _ _ E).
Qed.
