(* ===== verification/Exclusion.v ===== *)
(** Mutual exclusion over the executions of the kernel: the steps of Process.v with
    their labels, runs of them, and the steps of a run at which a task gets a mutex
    or a mutex is given up. *)

From S2P Require Import Prelude Kernel Queue Sched Sync Process KernelProps Suspend.

(** ** Runs *)

(** What the running task [c] does: it makes a system call (or is interrupted), or
    it goes on inside the [do_mutex_lock_acquire] in which it was blocked. *)
Inductive event :=
| Ev_call (c : nat) (k : call)
| Ev_resume (c l : nat).
Record transition := mk_transition { before : kstate; what : event; afterwards : kstate }.

Section runs.
Context (fe : Z).

Inductive does : transition -> Prop :=
| does_call s c k s' :
    current_running s = Some c -> suspended s !!! c = R_return -> allowed s k ->
    exec fe k s = Ok (tt, s') -> does (mk_transition s (Ev_call c k) s')
| does_resume s c l s' :
    current_running s = Some c -> suspended s !!! c = R_mutex_lock_acquire l ->
    resume s = Ok (tt, s') -> does (mk_transition s (Ev_resume c l) s').

(** [run s tr]: the transitions of [tr] follow each other from [s] on. *)
Inductive run : kstate -> list transition -> Prop :=
| run_nil s : run s []
| run_cons x tr : does x -> run (afterwards x) tr -> run (before x) (x :: tr).

Lemma does_step x : does x -> step fe (before x) (afterwards x).
Proof. destruct 1; [by eapply step_call|by eapply step_resume]. Qed.
Lemma does_good x : good (before x) -> does x -> good (afterwards x).
Proof. intros (Q & c & HF) Hx. eapply step_good; [done|by apply does_step]. Qed.

(** A task returns from [do_mutex_lock_acquire] (called by itself or at the end of
    [do_condition_wait]): it is not suspended inside it any more. *)
Definition takes (l : nat) (x : transition) : Prop :=
  match what x with
  | Ev_call c (C_acquire l') => l' = l /\ suspended (afterwards x) !!! c = R_return
  | Ev_resume c l' => l' = l /\ suspended (afterwards x) !!! c = R_return
  | _ => False
  end.
(** The mutex is released, waited for with a condition, initialised, or in the lock
    table of the task that ends. *)
Definition gives_up (l : nat) (x : transition) : Prop :=
  exists c k, what x = Ev_call c k /\ frees (before x) c l k.

(** ** Steps and the mutex *)

Lemma acquire_takes l s Q c s' :
  full_inv s Q c -> suspended s !!! c = R_return -> do_mutex_lock_acquire l s = Ok (tt, s') -> suspended s' !!! c = R_return ->
  lock_status s !!! l = UNLOCKED /\ lock_status s' !!! l = LOCKED.
Proof.
  intros HF Hr E Hr'. pose proof (acquire_suspended l s c s' (inv_cur _ _ _ (proj1 (proj1 (proj1 HF)))) E) as Hs.
  apply acquire_status in E. case_decide as Hd.
  - rewrite Hs, lookup_total_insert_eq in Hr'. discriminate.
  - destruct E as [-> _]. rewrite lookup_total_insert_eq. by destruct (lock_status s !!! l).
Qed.

Lemma resumed_full s Q c : full_inv s Q c -> full_inv (with_resume c R_return s) Q c.
Proof.
  intros [HK HP]. split; [by apply (resume_spec s Q c HK)|]. revert HP. apply proc_inv_transfer; [|done]. by split.
Qed.
Lemma resume_acquire s Q c l :
  full_inv s Q c -> suspended s !!! c = R_mutex_lock_acquire l -> resume s = do_mutex_lock_acquire l (with_resume c R_return s).
Proof. intros [HK _] Hr. destruct (resume_spec s Q c HK) as [_ E]. by rewrite Hr in E. Qed.

Lemma current_unique s Q c c' : full_inv s Q c -> current_running s = Some c' -> c' = c.
Proof. intros [[(H & _) _] _] E. rewrite (inv_cur _ _ _ H) in E. congruence. Qed.

Lemma takes_lock l x : good (before x) -> does x -> takes l x ->
  lock_status (before x) !!! l = UNLOCKED /\ lock_status (afterwards x) !!! l = LOCKED.
Proof.
  intros (Q & c0 & HF) Hx. destruct Hx as [s c k s' Hc Hr Hal E|s c l' s' Hc Hr E]; cbn [before what afterwards takes] in *;
    pose proof (current_unique _ _ _ _ HF Hc) as ->.
  - destruct k; try done. intros [-> Hr']. by eapply acquire_takes.
  - intros [-> Hr']. rewrite (resume_acquire s Q c0 l HF Hr) in E.
    apply (acquire_takes l (with_resume c0 R_return s) Q c0 s'); [by apply resumed_full| |done..].
    cbn. by rewrite lookup_total_insert_eq.
Qed.

Lemma stays_locked l x : good (before x) -> does x -> lock_status (before x) !!! l = LOCKED ->
  lock_status (afterwards x) !!! l = LOCKED \/ gives_up l x.
Proof.
  intros (Q & c0 & HF) Hx HL. destruct Hx as [s c k s' Hc Hr Hal E|s c l' s' Hc Hr E]; cbn [before what afterwards takes] in *;
    pose proof (current_unique _ _ _ _ HF Hc) as ->.
  - destruct (exec_locks fe k s Q c0 s' l HF E) as [_ Hf]. destruct (lock_status s' !!! l); [|by left].
    right. exists c0, k. split; [done|]. by apply Hf.
  - left. rewrite (resume_acquire s Q c0 l' HF Hr) in E. apply acquire_status in E.
    case_decide; [by rewrite E|]. destruct E as [-> _]. destruct (decide (l' = l)) as [->|Hne].
    + by rewrite lookup_total_insert_eq.
    + by rewrite lookup_total_insert_ne.
Qed.

(** While the mutex is locked, somebody gets it only after it was given up. *)
Lemma locked_until l tr : forall s j x, good s -> run s tr -> lock_status s !!! l = LOCKED -> tr !! j = Some x -> takes l x ->
  exists k y, (k < j)%nat /\ tr !! k = Some y /\ gives_up l y.
Proof.
  induction tr as [|y tr IH]; intros s j x HG Hrun HL Hj Ht; [done|].
  inversion Hrun as [|? ? Hy Hrest]; subst. destruct (stays_locked l y HG Hy HL) as [HL'|Hg].
  - destruct j as [|j]; cbn in Hj.
    + injection Hj as ->. destruct (takes_lock l x HG Hy Ht). congruence.
    + destruct (IH _ j x (does_good y HG Hy) Hrest HL' Hj Ht) as (k & z & Hk & Hz & Hg). exists (S k), z. split_and!; [lia|done..].
  - destruct j as [|j]; cbn in Hj.
    + injection Hj as ->. destruct (takes_lock l x HG Hy Ht). congruence.
    + exists 0%nat, y. split_and!; [lia|done..].
Qed.

Lemma run_drop tr : forall s i x, good s -> run s tr -> tr !! i = Some x ->
  good (before x) /\ does x /\ run (afterwards x) (drop (S i) tr).
Proof.
  induction tr as [|y tr IH]; intros s i x HG Hrun Hi; [done|]. inversion Hrun as [|? ? Hy Hrest]; subst.
  destruct i as [|i]; cbn in Hi.
  - injection Hi as <-. done.
  - by apply (IH _ i x (does_good y HG Hy) Hrest).
Qed.
End runs.

(** C5: mutual exclusion.  In every execution of the kernel from a reachable state
    (with the calls of C1 and their conditions), a task gets a mutex, that is,
    returns from [do_mutex_lock_acquire] or from [do_condition_wait], only when the
    mutex is free, and then it is taken; and when two tasks (or one task twice) get
    the same mutex, then between the two a step gives it up: a release, a wait on a
    condition with that mutex, a new initialisation of it, or the exit or the kill
    of a task in whose lock table it is. *)
Theorem mutex_exclusion fe sh s tr l i j x y :
  sh <> 0 -> reachable fe sh s -> run fe s tr ->
  tr !! i = Some x -> tr !! j = Some y -> (i < j)%nat -> takes l x -> takes l y ->
  (lock_status (before x) !!! l = UNLOCKED /\ lock_status (afterwards x) !!! l = LOCKED)
  /\ exists k z, (i < k < j)%nat /\ tr !! k = Some z /\ gives_up l z.
Proof.
  intros Hsh HG%(reachable_full _ _ _ Hsh) Hrun Hi Hj Hij Hx Hy.
  destruct (run_drop fe tr s i x HG Hrun Hi) as (HG1 & Hd & Hrest).
  pose proof (takes_lock fe l x HG1 Hd Hx) as Hl. split; [done|].
  destruct (locked_until fe l _ _ (j - S i) y (does_good fe x HG1 Hd) Hrest (proj2 Hl)) as (k & z & Hk & Hz & Hg).
  - rewrite lookup_drop. by replace (S i + (j - S i))%nat with j by lia.
  - done.
  - rewrite lookup_drop in Hz. exists (S i + k)%nat, z. split_and!; [lia|lia|done..].
Qed.

(** The shell spawns a process, takes a mutex and is interrupted; the process waits
    for the mutex and gets it when the shell has released it and is interrupted
    again. *)
Fixpoint run_events (fe : Z) (s : kstate) (es : list event) : list transition :=
  match es with
  | [] => []
  | e :: r =>
      let s' := after (match e with Ev_call _ k => exec fe k s | Ev_resume _ _ => resume s end) in
      mk_transition s e s' :: run_events fe s' r
  end.
Definition legal (fe : Z) (x : transition) : bool :=
  match what x with
  | Ev_call c k => bool_decide (current_running (before x) = Some c /\ suspended (before x) !!! c = R_return)
      && match k with C_acquire _ | C_release _ | C_tick => true | _ => false end
      && match exec fe k (before x) with Ok _ => true | Fault _ => false end
  | Ev_resume c l => bool_decide (current_running (before x) = Some c /\ suspended (before x) !!! c = R_mutex_lock_acquire l)
      && match resume (before x) with Ok _ => true | Fault _ => false end
  end.
Lemma after_ok (o : outcome (unit * kstate)) : match o with Ok _ => true | Fault _ => false end = true -> o = Ok (tt, after o).
Proof. by destruct o as [[[] s]|]. Qed.
Lemma legal_run fe es : forall s, forallb (legal fe) (run_events fe s es) = true -> run fe s (run_events fe s es).
Proof.
  induction es as [|e es IH]; intros s; cbn [run_events forallb]; [intros _; apply run_nil|].
  intros [Hl Hr]%andb_true_iff. apply (run_cons fe (mk_transition s e _)); [|by apply IH].
  unfold legal in Hl. destruct e as [c k|c l]; cbn [what before] in Hl.
  - apply andb_true_iff in Hl as [[[Hc Hs]%bool_decide_eq_true Hk]%andb_true_iff E%after_ok].
    constructor; [done..|by destruct k|done].
  - apply andb_true_iff in Hl as [[Hc Hs]%bool_decide_eq_true E%after_ok]. by constructor.
Qed.

Definition demo_events : list event :=
  [Ev_call 1 (C_acquire 5); Ev_call 1 C_tick; Ev_call 0 (C_acquire 5); Ev_call 1 (C_release 5); Ev_call 1 C_tick; Ev_resume 0 5].
Definition demo_trace : list transition := run_events 1 demo_spawn demo_events.
Definition got (l : nat) (x : transition) : bool :=
  match what x with
  | Ev_call c (C_acquire l') | Ev_resume c l' => bool_decide (l' = l /\ suspended (afterwards x) !!! c = R_return)
  | _ => false
  end.
Lemma got_takes l x : got l x = true -> takes l x.
Proof. unfold got, takes. destruct (what x) as [c []|c l']; try done; apply bool_decide_eq_true. Qed.
Lemma mutex_exclusion_witness : exists k z, (0 < k < 5)%nat /\ demo_trace !! k = Some z /\ gives_up 5 z.
Proof.
  assert (run 1 demo_spawn demo_trace) as Hr by (apply legal_run; vm_compute; reflexivity).
  assert (forall n, match demo_trace !! n with Some x => got 5 x | None => false end = true ->
    exists x, demo_trace !! n = Some x /\ takes 5 x) as Hg.
  { intros n. destruct (demo_trace !! n) as [x|]; [|discriminate]. intros T. exists x. split; [reflexivity|by apply got_takes]. }
  destruct (Hg 0%nat) as (x & Hx & Tx); [vm_compute; reflexivity|]. destruct (Hg 5%nat) as (y & Hy & Ty); [vm_compute; reflexivity|].
  exact (proj2 (mutex_exclusion 1 2 demo_spawn demo_trace 5 0 5 x y ltac:(lia) demo_spawn_reachable Hr Hx Hy ltac:(lia) Tx Ty)).
Defined.
