(* ===== verification/Stock.v ===== *)
(** The producer and the two consumers of test/test_project3/test_condition.c: user
    tasks that share a variable, a mutex and a condition, and run on the kernel
    with the other tasks of the system.

    A task is a list of instructions.  The clock may interrupt it between any two
    of them, so that a change of [num_staff] is a load and a store.  A call to the
    kernel is one step, in which the kernel may switch to another task; when its
    task runs again, the kernel first goes on with the call ([resume]).  What a
    task prints is appended to [out], with the row of the screen. *)

From Stdlib Require Import ZifyBool.
From S2P Require Import Prelude Kernel Queue Sched Sync Process KernelProps Suspend.

(** ** Programs *)

Inductive role := Producer | Consumer1 | Consumer2.
#[export] Instance role_eq_dec : EqDecision role.
Proof. solve_decision. Defined.

Inductive uinstr :=
| U_call (k : call)
| U_load                             (* reg = num_staff *)
| U_store (n : Z)                    (* num_staff = reg + n *)
| U_add (n : Z)                      (* sum += n *)
| U_print (row : Z)                  (* move the cursor to the row, print sum *)
| U_inc                              (* i++ *)
| U_until (n : Z) (target : nat)     (* leave the loop when i reaches n *)
| U_nonzero (target : nat)           (* leave the loop when reg is not 0 *)
| U_goto (target : nat).

Section program.
Context (mutex condition : nat).

Definition producer_task (rounds : Z) : list uinstr := [
  U_until rounds 11;
  U_call (C_acquire mutex);
  U_load;
  U_store 3;
  U_add 3;
  U_call (C_release mutex);
  U_print 0;
  U_call (C_condition_broadcast condition);
  U_call (C_sleep 2);
  U_inc;
  U_goto 0;
  U_call C_exit ].
Definition consumer_task (row : Z) : list uinstr := [
  U_call (C_acquire mutex);
  U_load;
  U_nonzero 5;
  U_call (C_condition_wait mutex condition);
  U_goto 1;
  U_load;
  U_store (-1);
  U_add 1;
  U_print row;
  U_call (C_release mutex);
  U_call (C_sleep 1);
  U_goto 0 ].
Definition consumer_task1 : list uinstr := consumer_task 1.
Definition consumer_task2 : list uinstr := consumer_task 2.
Definition program (rounds : Z) (r : role) : list uinstr :=
  match r with Producer => producer_task rounds | Consumer1 => consumer_task1 | Consumer2 => consumer_task2 end.
End program.

(** ** The tasks on the kernel *)

Record utask := mk_utask { pc : nat; reg : Z; loop_i : Z; sum : Z }.
#[export] Instance utask_struct : Struct utask := fun t => mk_utask (pc t) (reg t) (loop_i t) (sum t).
Record system := mk_system { sys_kernel : kstate; num_staff : Z; users : role -> utask; out : list (Z * Z) }.
#[export] Instance system_struct : Struct system := fun s => mk_system (sys_kernel s) (num_staff s) (users s) (out s).

Definition start_task : utask := mk_utask 0 0 0 0.
Definition start_system (k : kstate) : system := mk_system k 0 (fun _ => start_task) [].

Section tasks.
(** [slot] is the place of the task in the process table. *)
Context (fe : Z) (mutex condition : nat) (rounds : Z) (slot : role -> nat).

Definition goto (n : nat) (t : utask) : utask := t <| pc := n |>.
Definition next (t : utask) : utask := goto (S (pc t)) t.

(** What an instruction other than a call does to its task, the variable and the screen. *)
Definition local_step (x : uinstr) (t : utask) (n : Z) (o : list (Z * Z)) : option (utask * Z * list (Z * Z)) :=
  match x with
  | U_call _ => None
  | U_load => Some (next (t <| reg := n |>), n, o)
  | U_store d => Some (next t, i32 (reg t + d), o)
  | U_add d => Some (next (t <| sum := i32 (sum t + d) |>), n, o)
  | U_print row => Some (next t, n, o ++ [(row, sum t)])
  | U_inc => Some (next (t <| loop_i := i32 (loop_i t + 1) |>), n, o)
  | U_until m target => Some (if loop_i t <? m then next t else goto target t, n, o)
  | U_nonzero target => Some (if reg t =? 0 then next t else goto target t, n, o)
  | U_goto target => Some (goto target t, n, o)
  end.

Definition user_step (r : role) (s : system) : outcome system :=
  let t := users s r in
  match program mutex condition rounds r !! pc t with
  | None => Fault OutOfBounds
  | Some (U_call k) =>
      try! p := exec fe k (sys_kernel s) in
      Ok (s <| sys_kernel := snd p |> <| users := <[r := next t]> (users s) |>)
  | Some x =>
      match local_step x t (num_staff s) (out s) with
      | Some (t', n, o) => Ok (s <| users := <[r := t']> (users s) |> <| num_staff := n |> <| out := o |>)
      | None => Fault OutOfBounds
      end
  end.

(** The producer has left its slot to others when it has exited. *)
Definition alive (s : system) (r : role) : Prop := (pc (users s r) < length (program mutex condition rounds r))%nat.
Definition owned (s : system) (c : nat) : Prop := exists r, alive s r /\ slot r = c.

(** What another task [c] does not do: use or initialise the mutex, kill one of the three, or
    have the mutex released by an exit. *)
Definition foreign (s : system) (c : nat) (k : call) : Prop :=
  match k with
  | C_acquire l | C_release l | C_condition_wait l _ | C_mutex_init l => l <> mutex
  | C_exit => Some mutex ∉ pcb_lock (pcb (sys_kernel s) c)
  | C_kill n => forall i, find_pcb (has_pid n) (sys_kernel s) = Some i ->
      ~ owned s i /\ Some mutex ∉ pcb_lock (pcb (sys_kernel s) i)
  | _ => True
  end.

(** A task goes on inside the kernel, one of the three does an instruction, the
    clock interrupts, or another task makes a call. *)
Inductive sys_step : system -> system -> Prop :=
| sys_resume s c l k :
    current_running (sys_kernel s) = Some c -> suspended (sys_kernel s) !!! c = R_mutex_lock_acquire l ->
    owned s c \/ l <> mutex -> resume (sys_kernel s) = Ok (tt, k) -> sys_step s (s <| sys_kernel := k |>)
| sys_user s r s' :
    current_running (sys_kernel s) = Some (slot r) -> suspended (sys_kernel s) !!! slot r = R_return -> alive s r ->
    user_step r s = Ok s' -> sys_step s s'
| sys_tick s c k :
    current_running (sys_kernel s) = Some c -> suspended (sys_kernel s) !!! c = R_return ->
    exec fe C_tick (sys_kernel s) = Ok (tt, k) -> sys_step s (s <| sys_kernel := k |>)
| sys_other s c x k :
    current_running (sys_kernel s) = Some c -> suspended (sys_kernel s) !!! c = R_return -> ~ owned s c ->
    allowed (sys_kernel s) x -> foreign s c x ->
    exec fe x (sys_kernel s) = Ok (tt, k) -> sys_step s (s <| sys_kernel := k |>).

Inductive sys_reachable (k : kstate) : system -> Prop :=
| sys_start : sys_reachable k (start_system k)
| sys_next s s' : sys_reachable k s -> sys_step s s' -> sys_reachable k s'.
End tasks.

(** ** The invariant *)

(** Between the return of [mutex_lock_acquire] and the call of [mutex_lock_release]. *)
Definition critical (r : role) (n : nat) : bool :=
  match r with Producer => (2 <=? n)%nat && (n <=? 5)%nat | _ => (1 <=? n)%nat && (n <=? 9)%nat end.
(** Where a task may wait for the mutex inside the kernel. *)
Definition entry (r : role) (n : nat) : bool :=
  match r with Producer => (n =? 2)%nat | _ => (n =? 1)%nat || (n =? 4)%nat end.

(** How much a task has changed [num_staff], and what one line adds. *)
Definition delta (r : role) : Z := match r with Producer => 3 | _ => 1 end.
Definition stored (r : role) (t : utask) : Z :=
  sum t + match r with Producer => if (pc t =? 4)%nat then 3 else 0 | _ => if (pc t =? 7)%nat then 1 else 0 end.
Definition gain (r : role) (t : utask) : Z := match r with Producer => stored r t | _ => - stored r t end.

(** The lines that a task has printed. *)
Definition row_of (r : role) : Z := match r with Producer => 0 | Consumer1 => 1 | Consumer2 => 2 end.
Definition lines (r : role) (o : list (Z * Z)) : list Z := snd <$> filter (fun x => fst x = row_of r) o.
Definition printed (r : role) (t : utask) : Z :=
  match r with
  | Producer => loop_i t + (if (7 <=? pc t)%nat && (pc t <=? 9)%nat then 1 else 0)
  | _ => sum t - (if (pc t =? 8)%nat then 1 else 0)
  end.
Definition counting (d n : Z) : list Z := (fun j => d * (Z.of_nat j + 1)) <$> seq 0 (Z.to_nat n).

(** What holds of a task by itself, and while it is in its critical section. *)
Definition task_ok (rounds : Z) (r : role) (t : utask) : Prop :=
  match r with
  | Producer => (pc t <= 11)%nat /\ 0 <= loop_i t <= rounds /\ ((1 <= pc t <= 9)%nat -> loop_i t < rounds)
      /\ sum t = 3 * loop_i t + (if (5 <=? pc t)%nat && (pc t <=? 9)%nat then 3 else 0)
  | _ => (pc t <= 11)%nat /\ 0 <= sum t - (if (pc t =? 8)%nat then 1 else 0)
  end.
Definition inside_ok (r : role) (t : utask) (n : Z) : Prop :=
  match r with
  | Producer => pc t = 3%nat -> reg t = n
  | _ => ((pc t = 2 \/ pc t = 6)%nat -> reg t = n) /\ ((pc t = 5 \/ pc t = 6)%nat -> 0 < n)
  end.

Section invariant.
Context (fe : Z) (mutex condition : nat) (rounds : Z) (slot : role -> nat).
Hypothesis slot_inj : forall r r', slot r = slot r' -> r = r'.
Hypothesis rounds_ok : 0 <= rounds < 2 ^ 16.
Abbreviation owned := (owned mutex condition rounds slot).

(** The data: [waits] are the tasks that wait for the mutex, [holder] the task that has it. *)
Record stock_ok (holder : option role) (waits : role -> bool) (u : role -> utask) (n : Z) (o : list (Z * Z)) : Prop := {
  so_holder r : critical r (pc (u r)) && negb (waits r) = bool_decide (holder = Some r);
  so_waits r : waits r = true -> entry r (pc (u r)) = true;
  so_task r : task_ok rounds r (u r);
  so_inside r : inside_ok r (u r) n;
  so_sum : n = gain Producer (u Producer) + gain Consumer1 (u Consumer1) + gain Consumer2 (u Consumer2);
  so_pos : 0 <= n;
  so_lines r : lines r o = counting (delta r) (printed r (u r));
}.

(** Where nothing is said of the variable. *)
Lemma inside_free r t n : entry r (pc t) = true \/ critical r (pc t) = false -> inside_ok r t n.
Proof.
  unfold inside_ok, entry, critical. destruct r; intros [H|H]; repeat split; intros Hp; try destruct Hp as [Hp|Hp]; by rewrite Hp in H.
Qed.
Lemma stock_range h w u n o : stock_ok h w u n o ->
  n <= 3 * rounds /\ forall r, 0 <= sum (u r) /\ stored r (u r) <= 3 * rounds.
Proof.
  intros [_ _ Ht _ Hs Hp _]. pose proof (Ht Producer) as T0. pose proof (Ht Consumer1) as T1. pose proof (Ht Consumer2) as T2.
  cbn [task_ok] in *. cbn [gain] in Hs.
  assert (stored Producer (u Producer) <= 3 * rounds) by (unfold stored; repeat case_match; lia).
  assert (0 <= stored Consumer1 (u Consumer1) /\ 0 <= sum (u Consumer1)) by (unfold stored; repeat case_match; lia).
  assert (0 <= stored Consumer2 (u Consumer2) /\ 0 <= sum (u Consumer2)) by (unfold stored; repeat case_match; lia).
  split; [lia|]. intros []; split; try lia. repeat case_match; lia.
Qed.

(** Task [r] does something: what has to be shown of it. *)
Lemma stock_set h w u n o r h' w' t' n' o' :
  stock_ok h w u n o ->
  (forall r', r' <> r -> w' r' = w r' /\ (h' = Some r' <-> h = Some r')) ->
  critical r (pc t') && negb (w' r) = bool_decide (h' = Some r) -> (w' r = true -> entry r (pc t') = true) ->
  task_ok rounds r t' -> inside_ok r t' n' -> n' - n = gain r t' - gain r (u r) -> 0 <= n' -> n' = n \/ h = Some r ->
  lines r o' = counting (delta r) (printed r t') -> (forall r', r' <> r -> lines r' o' = lines r' o) ->
  stock_ok h' w' (<[r := t']> u) n' o'.
Proof.
  intros [Hh Hw Ht Hi Hs Hp Hl] Hoth Hc He Htk Hin Hg Hp' Hn Hl1 Hl2.
  assert (forall (P : role -> utask -> Prop), P r t' -> (forall r', r' <> r -> P r' (u r')) -> forall r', P r' ((<[r := t']> u) r')) as Hall.
  { intros P P1 P2 r'. destruct (decide (r' = r)) as [->|Hne]; [by rewrite fn_lookup_insert|rewrite fn_lookup_insert_ne by done; auto]. }
  split; [apply (Hall (fun r t => critical r (pc t) && negb (w' r) = bool_decide (h' = Some r)))
         |apply (Hall (fun r t => w' r = true -> entry r (pc t) = true))
         |apply Hall|apply (Hall (fun r t => inside_ok r t n')) | |done|apply (Hall (fun r t => lines r o' = counting (delta r) (printed r t)))];
    try done; try (intros r' Hr'; destruct (Hoth r' Hr') as [E1 E2]); auto.
  - rewrite E1, Hh. by apply bool_decide_ext.
  - rewrite E1. apply Hw.
  - destruct Hn as [->| ->]; [done|]. apply inside_free. specialize (Hh r'). rewrite bool_decide_false in Hh by congruence.
    specialize (Hw r'). destruct (w r'); [left; auto|right]. by rewrite andb_true_r in Hh.
  - destruct r; rewrite ?fn_lookup_insert, ?fn_lookup_insert_ne by done; lia.
  - by rewrite Hl2, Hl.
Qed.

Lemma print_other r r' o row z : row = row_of r -> r' <> r -> lines r' (o ++ [(row, z)]) = lines r' o.
Proof.
  intros -> Hne. unfold lines. rewrite filter_app, fmap_app, filter_cons_False by (by destruct r, r'). by rewrite app_nil_r.
Qed.
Lemma counting_snoc d n z : 0 <= n -> z = d * (n + 1) -> counting d (n + 1) = counting d n ++ [z].
Proof.
  intros Hn ->. unfold counting. replace (Z.to_nat (n + 1)) with (S (Z.to_nat n)) by lia. rewrite seq_S, fmap_app. cbn. by rewrite Z2Nat.id.
Qed.

Lemma print_next r o row z d m m' : row = row_of r -> lines r o = counting d m -> 0 <= m -> z = d * (m + 1) -> m' = m + 1 ->
  lines r (o ++ [(row, z)]) = counting d m'.
Proof.
  intros -> Hl Hm Hz ->. unfold lines. rewrite filter_app, fmap_app, filter_cons_True by done. rewrite (counting_snoc d m z) by done. by rewrite <-Hl.
Qed.

Lemma local_stock h w u n o r x t' n' o' :
  stock_ok h w u n o -> w r = false -> program mutex condition rounds r !! pc (u r) = Some x ->
  local_step x (u r) n o = Some (t', n', o') -> stock_ok h w (<[r := t']> u) n' o'.
Proof.
  intros H Hwr Hx E. pose proof (stock_range _ _ _ _ _ H) as [Hn Hsum]. specialize (Hsum r) as [Hs0 Hst].
  pose proof (so_holder _ _ _ _ _ H r) as Hh. pose proof (so_task _ _ _ _ _ H r) as Ht. pose proof (so_inside _ _ _ _ _ H r) as Hin.
  pose proof (so_lines _ _ _ _ _ H r) as Hl. pose proof (so_pos _ _ _ _ _ H) as Hp. destruct (u r) as [p g i z] eqn:Eu.
  rewrite Hwr, andb_true_r in Hh. unfold stored in Hst. cbn [pc sum reg loop_i] in *.
  destruct r; destruct p as [|[|[|[|[|[|[|[|[|[|[|[|p]]]]]]]]]]]]; cbn in Hx; try discriminate; injection Hx as <-; cbn in E; try discriminate;
    try match type of E with
        | context [?a <? ?b] => destruct (Z.ltb_spec a b)
        | context [?a =? ?b] => destruct (Z.eqb_spec a b)
        end; injection E as <- <- <-; cbn in Hh, Ht, Hin, Hst, Hl;
    (eapply stock_set; [exact H|done|rewrite Hwr, <-Hh; reflexivity|rewrite Hwr; done|..]); rewrite ?Eu; unfold gain, stored; cbn.
  all: rewrite ?i32_small by lia; try lia; try (by left).
  all: try (right; symmetry in Hh; by apply bool_decide_eq_true in Hh).
  all: try (by intros r' Hr'; try reflexivity; match type of Hr' with _ <> ?q => apply (print_other q) end).
  all: try (rewrite Hl; f_equal; lia).
  all: eapply print_next; [reflexivity|exact Hl|lia..].
Qed.

(** The kernel agrees with it. *)
Definition locked (h : option role) : lock_status_t := match h with Some _ => LOCKED | None => UNLOCKED end.
Definition waiting (b : bool) : resume_point := if b then R_mutex_lock_acquire mutex else R_return.
Record kernel_ok (k : kstate) (h : option role) (w : role -> bool) : Prop := {
  ko_good : good k;
  ko_live r : status k (slot r) <> TASK_EXITED;
  ko_wait r : suspended k !!! slot r = waiting (w r);
  ko_lock : lock_status k !!! mutex = locked h;
}.

Lemma call_view k h w c x k' :
  kernel_ok k h w -> current_running k = Some c -> suspended k !!! c = R_return -> allowed k x -> exec fe x k = Ok (tt, k') ->
  (x = C_exit -> forall r, slot r <> c) -> (forall n i, x = C_kill n -> find_pcb (has_pid n) k = Some i -> forall r, slot r <> i) ->
  good k' /\ (forall r, status k' (slot r) <> TASK_EXITED) /\ suspended k' !!! c = resume_after k x
  /\ forall r, slot r <> c -> suspended k' !!! slot r = waiting (w r).
Proof.
  intros [(Q & c0 & HF) Hlive Hw Hl] Hc Hr Hal E Hex Hk.
  assert (c0 = c) as -> by (rewrite (inv_cur _ _ _ (proj1 (proj1 (proj1 HF)))) in Hc; congruence).
  destruct (exec_suspended fe x k Q c k' HF Hr E) as [E1 E2]. split_and!; [by eapply exec_good| |done|].
  - intros r He. destruct (exec_exited fe x k Q c k' (slot r) HF E He (Hlive r)) as [[-> Hs]|(n & -> & Hs)]; [by eapply Hex|by eapply Hk].
  - intros r Hne. rewrite E2 by auto. apply Hw.
Qed.

(** A call that does not concern the mutex. *)
Lemma call_neutral k h w c x k' :
  kernel_ok k h w -> current_running k = Some c -> suspended k !!! c = R_return -> allowed k x -> exec fe x k = Ok (tt, k') ->
  (x = C_exit -> forall r, slot r <> c) -> (forall n i, x = C_kill n -> find_pcb (has_pid n) k = Some i -> forall r, slot r <> i) ->
  (resume_after k x = R_return \/ forall r, slot r <> c) -> lock_status k' !!! mutex = lock_status k !!! mutex -> kernel_ok k' h w.
Proof.
  intros H Hc Hr Hal E Hex Hk Hra Hl. destruct (call_view k h w c x k' H Hc Hr Hal E Hex Hk) as (H1 & H2 & H3 & H4).
  split; [done..| |by rewrite Hl; apply H]. intros r. destruct (decide (slot r = c)) as [Es|Hne]; [|auto].
  destruct Hra as [Hra|Hn]; [|by destruct (Hn r)]. rewrite Es, H3, Hra. pose proof (ko_wait _ _ _ H r) as Hw. by rewrite Es, Hr in Hw.
Qed.

Lemma acquire_view k h w r k' :
  kernel_ok k h w -> w r = false -> current_running k = Some (slot r) -> do_mutex_lock_acquire mutex k = Ok (tt, k') ->
  match h with None => kernel_ok k' (Some r) w | Some _ => kernel_ok k' h (<[r := true]> w) end.
Proof.
  intros H Hw Hc E. pose proof (ko_wait _ _ _ H r) as Hr. rewrite Hw in Hr. pose proof (ko_lock _ _ _ H) as Hl.
  destruct (call_view k h w (slot r) (C_acquire mutex) k' H Hc Hr I E) as (H1 & H2 & H3 & H4); [done..|].
  apply acquire_status in E. cbn [resume_after] in H3. rewrite Hl in *. destruct h as [r0|]; cbn [locked] in *; case_decide; try done.
  - split; [done..| |by rewrite E]. intros r'. destruct (decide (r' = r)) as [->|Hne]; [by rewrite fn_lookup_insert|].
    rewrite fn_lookup_insert_ne by done. apply H4. intros Es. by apply Hne, slot_inj.
  - split; [done..| |destruct E as [-> _]; by rewrite lookup_total_insert_eq]. intros r'.
    destruct (decide (r' = r)) as [->|Hne]; [by rewrite H3, Hw|]. apply H4. intros Es. by apply Hne, slot_inj.
Qed.
Lemma release_view k h w r k' :
  kernel_ok k h w -> w r = false -> current_running k = Some (slot r) -> do_mutex_lock_release mutex k = Ok (tt, k') -> kernel_ok k' None w.
Proof.
  intros H Hw Hc E. pose proof (ko_wait _ _ _ H r) as Hr. rewrite Hw in Hr.
  destruct (call_view k h w (slot r) (C_release mutex) k' H Hc Hr I E) as (H1 & H2 & H3 & H4); [done..|].
  apply release_status in E as (_ & E & _). split; [done..| |done]. intros r'.
  destruct (decide (r' = r)) as [->|Hne]; [by rewrite H3, Hw|]. apply H4. intros Es. by apply Hne, slot_inj.
Qed.
Lemma wait_view k h w r k' :
  kernel_ok k h w -> w r = false -> current_running k = Some (slot r) -> do_condition_wait mutex condition k = Ok (tt, k') ->
  kernel_ok k' None (<[r := true]> w).
Proof.
  intros H Hw Hc E. pose proof (ko_wait _ _ _ H r) as Hr. rewrite Hw in Hr.
  destruct (call_view k h w (slot r) (C_condition_wait mutex condition) k' H Hc Hr I E) as (H1 & H2 & H3 & H4); [done..|].
  apply condition_wait_status in E as [_ E]. split; [done..| |done]. intros r'.
  destruct (decide (r' = r)) as [->|Hne]; [by rewrite fn_lookup_insert|]. rewrite fn_lookup_insert_ne by done.
  apply H4. intros Es. by apply Hne, slot_inj.
Qed.

(** A call of task [r] as the other tasks see it. *)
Inductive moves (r : role) (h : option role) (w : role -> bool) : call -> option role -> (role -> bool) -> Prop :=
| moves_take : h = None -> moves r h w (C_acquire mutex) (Some r) w
| moves_queue r0 : h = Some r0 -> moves r h w (C_acquire mutex) h (<[r := true]> w)
| moves_release : moves r h w (C_release mutex) None w
| moves_wait : moves r h w (C_condition_wait mutex condition) None (<[r := true]> w)
| moves_broadcast : moves r h w (C_condition_broadcast condition) h w
| moves_sleep n : moves r h w (C_sleep n) h w.

Lemma call_moves k h w r x k' :
  kernel_ok k h w -> w r = false -> current_running k = Some (slot r) -> U_call x ∈ program mutex condition rounds r -> x <> C_exit ->
  exec fe x k = Ok (tt, k') -> exists h' w', kernel_ok k' h' w' /\ moves r h w x h' w'.
Proof.
  intros H Hw Hc Hx Hne E. pose proof (ko_wait _ _ _ H r) as Hr. rewrite Hw in Hr.
  assert (forall y, keeps same_locks (exec fe y) -> resume_after k y = R_return -> allowed k y -> x = y -> (forall n, y <> C_kill n) -> kernel_ok k' h w) as Hn.
  { intros y K Hra Hal <- Hk. eapply (call_neutral k h w (slot r) x); try done; [naive_solver..|by left|]. by rewrite (sl_status _ _ (K _ _ _ E)). }
  assert (x = C_acquire mutex \/ x = C_release mutex \/ x = C_condition_wait mutex condition \/ x = C_condition_broadcast condition \/ exists n, x = C_sleep n)
    as [->|[->|[->|[->|[n ->]]]]].
  { destruct r; cbn in Hx; repeat (apply elem_of_cons in Hx as [Hx|Hx]; [try discriminate; injection Hx as ->; eauto 10; done|]); by apply not_elem_of_nil in Hx. }
  - pose proof (acquire_view k h w r k' H Hw Hc E) as Ha. destruct h as [r0|]; eexists _, _; (split; [exact Ha|]); by econstructor.
  - exists None, w. split; [by eapply release_view|constructor].
  - exists None, (<[r := true]> w). split; [by eapply wait_view|constructor].
  - exists h, w. split; [|constructor]. by apply (Hn (C_condition_broadcast condition)); [apply locks_do_condition_broadcast|..].
  - exists h, w. split; [|constructor]. by apply (Hn (C_sleep n)); [apply locks_do_sleep|..].
Qed.

Lemma moves_stock h w u n o r x h' w' :
  stock_ok h w u n o -> w r = false -> program mutex condition rounds r !! pc (u r) = Some (U_call x) -> moves r h w x h' w' ->
  stock_ok h' w' (<[r := next (u r)]> u) n o.
Proof.
  intros H Hwr Hx Hm. pose proof (so_holder _ _ _ _ _ H r) as Hh. pose proof (so_task _ _ _ _ _ H r) as Ht.
  pose proof (so_inside _ _ _ _ _ H r) as Hin. pose proof (so_lines _ _ _ _ _ H r) as Hl. pose proof (so_pos _ _ _ _ _ H) as Hp.
  destruct (u r) as [p g i z] eqn:Eu. rewrite Hwr, andb_true_r in Hh. cbn [pc sum reg loop_i] in *.
  destruct r; destruct p as [|[|[|[|[|[|[|[|[|[|[|[|p]]]]]]]]]]]]; cbn in Hx; try discriminate; injection Hx as <-; inversion Hm; subst; cbn in Hh, Ht, Hin, Hl;
    symmetry in Hh; first [apply bool_decide_eq_true in Hh|apply bool_decide_eq_false in Hh]; try congruence.
  all: (eapply stock_set; [exact H|..]); rewrite ?Eu; unfold gain, stored; cbn; rewrite ?Hwr, ?fn_lookup_insert.
  all: try lia; try done; try (by left).
  all: try (intros r' Hr'; rewrite ?fn_lookup_insert_ne by done; split; [done|split; congruence]).
  all: try (symmetry; apply bool_decide_eq_false; done).
  all: try (by rewrite bool_decide_true).
Qed.

(** A task goes on with its [mutex_lock_acquire]. *)
Lemma resumed_ok k h w c l :
  kernel_ok k h w -> current_running k = Some c -> suspended k !!! c = R_mutex_lock_acquire l ->
  kernel_ok (with_resume c R_return k) h (fun r => if decide (slot r = c) then false else w r)
  /\ resume k = do_mutex_lock_acquire l (with_resume c R_return k).
Proof.
  intros [(Q & c0 & HF) Hlive Hw Hl] Hc Hr.
  assert (c0 = c) as -> by (rewrite (inv_cur _ _ _ (proj1 (proj1 (proj1 HF)))) in Hc; congruence).
  destruct HF as [HK HP]. destruct (resume_spec k Q c HK) as [HK1 E]. rewrite Hr in E. split; [|done]. split; [|done| |done].
  - exists Q, c. split; [done|]. revert HP. apply proc_inv_transfer; [|done]. by split.
  - intros r. cbn [with_resume put suspended]. case_decide as Hd; [by rewrite Hd, lookup_total_insert_eq|].
    rewrite lookup_total_insert_ne by congruence. apply Hw.
Qed.
Lemma kernel_ok_ext k h w w' : (forall r, w' r = w r) -> kernel_ok k h w -> kernel_ok k h w'.
Proof. intros Hw [A B C D]. split; [done..| |done]. intros r. by rewrite Hw. Qed.
Lemma stock_ok_ext h w w' u u' n o : (forall r, w' r = w r) -> (forall r, u' r = u r) -> stock_ok h w u n o -> stock_ok h w' u' n o.
Proof. intros Hw Hu [A B C D E F G]. split; intros; rewrite ?Hw, ?Hu in *; auto. Qed.

Definition sys_ok (s : system) : Prop :=
  exists h w, kernel_ok (sys_kernel s) h w /\ stock_ok h w (users s) (num_staff s) (out s).

Lemma all_alive s : sys_ok s -> forall r, alive mutex condition rounds s r.
Proof. intros (h & w & _ & H) r. unfold alive. pose proof (so_task _ _ _ _ _ H r). destruct r; cbn in *; lia. Qed.
Lemma not_owned s c : sys_ok s -> ~ owned s c -> forall r, slot r <> c.
Proof. intros H Hn r E. apply Hn. exists r. split; [by apply all_alive|done]. Qed.

Lemma slot_dec c : (exists r, slot r = c) \/ forall r, slot r <> c.
Proof.
  destruct (decide (slot Producer = c)), (decide (slot Consumer1 = c)), (decide (slot Consumer2 = c)); eauto. right. by intros [].
Qed.

Lemma sys_resume_ok s c l k :
  sys_ok s -> current_running (sys_kernel s) = Some c -> suspended (sys_kernel s) !!! c = R_mutex_lock_acquire l -> owned s c \/ l <> mutex ->
  resume (sys_kernel s) = Ok (tt, k) -> sys_ok (s <| sys_kernel := k |>).
Proof.
  intros (h & w & HK & HS) Hc Hr Ho E. destruct (resumed_ok _ _ _ _ _ HK Hc Hr) as [HK1 E1]. rewrite E1 in E.
  destruct (slot_dec c) as [[r <-]|Hno].
  - pose proof (ko_wait _ _ _ HK r) as Hw. rewrite Hr in Hw. destruct (w r) eqn:Ewr; [|done]. injection Hw as ->.
    assert (kernel_ok (with_resume (slot r) R_return (sys_kernel s)) h (<[r := false]> w)) as HK2.
    { revert HK1. apply kernel_ok_ext. intros r'. destruct (decide (r' = r)) as [->|Hne];
        [by rewrite fn_lookup_insert, decide_True|rewrite fn_lookup_insert_ne, decide_False; [done| |done]]. intros Es. by apply Hne, slot_inj. }
    pose proof (acquire_view _ _ _ r k HK2 (fn_lookup_insert _ _ _) Hc E) as Ha. destruct h as [r0|].
    + exists (Some r0), w. split; [|done]. revert Ha. apply kernel_ok_ext. intros r'.
      destruct (decide (r' = r)) as [->|Hne]; [by rewrite fn_lookup_insert|by rewrite !fn_lookup_insert_ne].
    + exists (Some r), (<[r := false]> w). split; [done|]. cbn.
      eapply (stock_ok_ext _ _ _ (<[r := users s r]> (users s))); [done|intros r'; by destruct (decide (r' = r)) as [->|]; rewrite ?fn_lookup_insert, ?fn_lookup_insert_ne|].
      eapply stock_set; [exact HS|..]; try done; try lia; try apply HS; [| |by rewrite fn_lookup_insert].
      * intros r' Hne. rewrite fn_lookup_insert_ne by done. split; [done|split; congruence].
      * rewrite fn_lookup_insert, andb_true_r, bool_decide_true by done. pose proof (so_waits _ _ _ _ _ HS r Ewr) as He.
        destruct r; unfold entry, critical in *; lia.
  - destruct Ho as [(r & _ & Hs)|Hl]; [by destruct (Hno r)|]. exists h, w. split; [|done]. cbn.
    eapply (call_neutral (with_resume c R_return (sys_kernel s)) h w c (C_acquire l)); try done.
    + revert HK1. apply kernel_ok_ext. intros r. by rewrite decide_False by apply Hno.
    + cbn. by rewrite lookup_total_insert_eq.
    + by right.
    + apply acquire_status in E. case_decide; [by rewrite E|]. destruct E as [-> _]. by rewrite lookup_total_insert_ne.
Qed.

Lemma sys_call_ok s r x k :
  sys_ok s -> current_running (sys_kernel s) = Some (slot r) -> suspended (sys_kernel s) !!! slot r = R_return ->
  program mutex condition rounds r !! pc (users s r) = Some (U_call x) -> x <> C_exit -> exec fe x (sys_kernel s) = Ok (tt, k) ->
  sys_ok (s <| sys_kernel := k |> <| users := <[r := next (users s r)]> (users s) |>).
Proof.
  intros (h & w & HK & HS) Hc Hr Hx Hne E. pose proof (ko_wait _ _ _ HK r) as Hw. rewrite Hr in Hw.
  destruct (w r) eqn:Ewr; [done|]. destruct (call_moves _ h w r x k HK Ewr Hc) as (h' & w' & HK' & Hm); [by eapply list_elem_of_lookup_2|done..|].
  exists h', w'. split; [done|]. by eapply moves_stock.
Qed.

(** Only the exit of the producer ends it. *)
Lemma sys_step_ok s s' : sys_ok s -> sys_step fe mutex condition rounds slot s s' -> sys_ok s' \/ ~ alive mutex condition rounds s' Producer.
Proof.
  intros H Hst. destruct Hst as [s c l k Hc Hr Ho E|s r s' Hc Hr Ha E|s c k Hc Hr E|s c x k Hc Hr Hn Hal Hf E].
  - left. by eapply sys_resume_ok.
  - unfold user_step in E. destruct (program mutex condition rounds r !! pc (users s r)) as [x|] eqn:Ex; [|done].
    assert (x = U_call C_exit \/ x <> U_call C_exit) as [->|Hne] by (destruct x as [[]| | | | | | | |]; auto).
    + right. destruct (exec fe C_exit (sys_kernel s)) as [[[] k]|]; [|done]. injection E as <-.
      assert (r = Producer /\ pc (users s r) = 11%nat) as [-> Hp].
      { destruct r; destruct (pc (users s _)) as [|[|[|[|[|[|[|[|[|[|[|[|p]]]]]]]]]]]]; cbn in Ex; try discriminate. done. }
      unfold alive. cbn. rewrite fn_lookup_insert. cbn. lia.
    + left. destruct x; [|destruct H as (h & w & HK & HS); pose proof (ko_wait _ _ _ HK r) as Hw; rewrite Hr in Hw; destruct (w r) eqn:Ewr; [done|];
        exists h, w; cbn in E; injection E as <-; (split; [exact HK|]); eapply local_stock; try done ..].
      destruct (exec fe k (sys_kernel s)) as [[[] k']|] eqn:Ek; [|done]. injection E as <-. eapply sys_call_ok; try done. congruence.
  - left. destruct H as (h & w & HK & HS). exists h, w. split; [|done]. cbn.
    eapply (call_neutral _ h w c C_tick); try done; [by left|]. by rewrite (sl_status _ _ (locks_irq_timer _ _ _ E)).
  - left. pose proof (not_owned s c H Hn) as Hno. pose proof (all_alive s H) as Hall. destruct H as (h & w & HK & HS). exists h, w. split; [|done]. cbn.
    eapply (call_neutral _ h w c x); try done; [|by right|].
    + intros n i -> Hi r <-. destruct (Hf _ Hi) as [Ho _]. apply Ho. by exists r.
    + destruct (ko_good _ _ _ HK) as (Q & c0 & HF).
      assert (c0 = c) as -> by (rewrite (inv_cur _ _ _ (proj1 (proj1 (proj1 HF)))) in Hc; congruence).
      destruct (exec_locks fe x _ Q c k mutex HF E) as [L1 L2]. destruct (lock_status (sys_kernel s) !!! mutex), (lock_status k !!! mutex); try done; exfalso.
      * destruct (L1 eq_refl eq_refl) as [-> _]. by apply Hf.
      * specialize (L2 eq_refl eq_refl). destruct x; cbn in L2, Hf; try done. destruct L2 as (i & Hi & Hin). by destruct (Hf _ Hi).
Qed.
End invariant.

(** A task that has exited stays so. *)
Lemma step_alive fe mutex condition rounds slot s s' q :
  sys_step fe mutex condition rounds slot s s' -> alive mutex condition rounds s' q -> alive mutex condition rounds s q.
Proof.
  intros Hst Ha. destruct Hst as [| s r s' _ _ Hr E| |]; [exact Ha| |exact Ha..].
  destruct (decide (r = q)) as [->|Hne]; [done|]. assert (users s' q = users s q) as Eu; [|unfold alive in *; by rewrite Eu in Ha].
  unfold user_step in E. destruct (program _ _ _ _ !! _) as [[]|]; cbn in E; try done;
    try (destruct (exec _ _ _) as [[[] ?]|]; [|done]); injection E as <-; cbn; by rewrite fn_lookup_insert_ne.
Qed.

(** Task [r] is between [mutex_lock_acquire] and [mutex_lock_release]. *)
Definition inside (slot : role -> nat) (s : system) (r : role) : Prop :=
  critical r (pc (users s r)) = true /\ suspended (sys_kernel s) !!! slot r = R_return.

(** C6: from a kernel on which the three tasks have just been started, whatever the
    clock does and the other tasks do, and until the producer exits: at most one of
    the three is in its critical section, and then the mutex is locked; no update of
    num_staff is lost, and it stays between 0 and 150, what is produced less what
    is consumed; the producer prints 3, 6, 9, ... and each consumer 1, 2, 3, ...
    What the other tasks must not do: use or initialise the mutex, kill one of the
    three, exit or kill a task while the mutex is in the lock table of the one that
    ends; and their calls keep to the conditions of [allowed] (C1), of which the
    kernel checks none. *)
Theorem stock_correct fe mutex condition slot k s :
  (forall r r', slot r = slot r' -> r = r') -> good k ->
  (forall r, status k (slot r) <> TASK_EXITED /\ suspended k !!! slot r = R_return) -> lock_status k !!! mutex = UNLOCKED ->
  sys_reachable fe mutex condition 50 slot k s -> alive mutex condition 50 s Producer ->
  (forall r r', inside slot s r -> inside slot s r' -> r = r' /\ lock_status (sys_kernel s) !!! mutex = LOCKED)
  /\ num_staff s = stored Producer (users s Producer) - stored Consumer1 (users s Consumer1) - stored Consumer2 (users s Consumer2)
  /\ 0 <= num_staff s <= 150 /\ (forall r, 0 <= sum (users s r) <= 150)
  /\ forall r, lines r (out s) = counting (delta r) (printed r (users s r)).
Proof.
  intros Hinj Hg Hk Hl Hr Ha.
  assert (sys_ok mutex 50 slot s) as (h & w & HK & HS).
  { induction Hr as [|s s' _ IH Hst].
    - exists None, (fun _ => false). split; [split; try done; apply Hk|]. split; try done.
      all: intros []; try done; try (apply inside_free; by right); cbn; lia.
    - assert (alive mutex condition 50 s Producer) as Ha' by by eapply step_alive.
      destruct (sys_step_ok fe mutex condition 50 slot Hinj ltac:(lia) s s' (IH Ha') Hst) as [|Hd]; [done|by destruct Hd]. }
  destruct (stock_range 50 h w _ _ _ HS) as [Hn Hs]. split_and!.
  - assert (forall r, inside slot s r -> h = Some r) as Hin.
    { intros r [H1 H2]. pose proof (so_holder _ _ _ _ _ _ HS r) as Hh. pose proof (ko_wait _ _ _ _ _ HK r) as Hw. rewrite H2 in Hw.
      rewrite H1 in Hh. destruct (w r); [done|]. symmetry in Hh. by apply bool_decide_eq_true in Hh. }
    intros r r' H1%Hin H2%Hin. split; [congruence|]. rewrite (ko_lock _ _ _ _ _ HK). by rewrite H1.
  - rewrite (so_sum _ _ _ _ _ _ HS). cbn [gain]. lia.
  - apply HS.
  - lia.
  - intros r. destruct (Hs r) as [H0 H1]. split; [done|]. unfold stored in H1. destruct r; repeat case_match; lia.
  - apply HS.
Qed.

(** ** After the exit *)

Section run.
Context (fe : Z) (mutex condition : nat) (rounds : Z) (slot : role -> nat).

#[local] Instance alive_dec s r : Decision (alive mutex condition rounds s r).
Proof. unfold alive. apply _. Defined.
(** The task at [c], if it is one of the three. *)
Definition role_at (s : system) (c : nat) : option role :=
  snd <$> list_find (fun r => slot r = c /\ alive mutex condition rounds s r) [Producer; Consumer1; Consumer2].
Definition kernel_step (m : M kstate unit) (s : system) : outcome system :=
  try! p := m (sys_kernel s) in Ok (s <| sys_kernel := snd p |>).
(** One step: the tasks in [go] do instructions, all others wait for the clock. *)
Definition choose (go : role -> bool) (s : system) : outcome system :=
  match current_running (sys_kernel s) with
  | None => Fault NullDeref
  | Some c =>
      match suspended (sys_kernel s) !!! c, role_at s c with
      | R_mutex_lock_acquire _, Some _ => kernel_step resume s
      | R_mutex_lock_acquire _, None => Fault NoReturnValue
      | R_return, Some r => if go r then user_step fe mutex condition rounds r s else kernel_step (exec fe C_tick) s
      | R_return, None => kernel_step (exec fe C_tick) s
      end
  end.
Fixpoint run_for (n : nat) (go : role -> bool) (s : system) : outcome system :=
  match n with O => Ok s | S n' => try! s' := choose go s in run_for n' go s' end.

Lemma kernel_step_inv m s s' : kernel_step m s = Ok s' -> exists k, m (sys_kernel s) = Ok (tt, k) /\ s' = s <| sys_kernel := k |>.
Proof. unfold kernel_step. destruct (m (sys_kernel s)) as [[[] k]|]; [|done]. intros [= <-]. by exists k. Qed.
Lemma choose_step go s s' : choose go s = Ok s' -> sys_step fe mutex condition rounds slot s s'.
Proof.
  unfold choose. destruct (current_running (sys_kernel s)) as [c|] eqn:Hc; [|done].
  assert (forall r, role_at s c = Some r -> slot r = c /\ alive mutex condition rounds s r) as Hrole.
  { intros r. unfold role_at. destruct (list_find _ _) as [[i q]|] eqn:E; [|done]. intros [= <-]. by apply list_find_Some in E as (_ & ? & _). }
  destruct (suspended (sys_kernel s) !!! c) eqn:Hr, (role_at s c) as [r|] eqn:Er; try done.
  - destruct (Hrole r eq_refl) as [<- Ha]. destruct (go r); [by apply (sys_user fe mutex condition rounds slot s r)|]. intros (k & E & ->)%kernel_step_inv. by apply (sys_tick fe mutex condition rounds slot s (slot r)).
  - intros (k & E & ->)%kernel_step_inv. by apply (sys_tick fe mutex condition rounds slot s c).
  - destruct (Hrole r eq_refl) as [<- Ha]. intros (k & E & ->)%kernel_step_inv. apply (sys_resume fe mutex condition rounds slot s (slot r) l); try done. left. by exists r.
Qed.
Lemma run_reachable n go k : forall s s', sys_reachable fe mutex condition rounds slot k s -> run_for n go s = Ok s' ->
  sys_reachable fe mutex condition rounds slot k s'.
Proof.
  induction n as [|n IH]; intros s s' Hs; cbn [run_for]; [by intros [= <-]|].
  destruct (choose go s) as [s1|] eqn:E; [|done]. apply IH. eapply sys_next; [done|by eapply choose_step].
Qed.
End run.

(** The shell starts the three tasks; they get the slots 0, 2 and 3. *)
Definition spawned_by_shell (entry : Z) (k : kstate) : kstate := after (exec 1 (C_spawn (mk_task_info entry USER_PROCESS)) k).
Definition demo_start : kstate := spawned_by_shell 9 (spawned_by_shell 8 (spawned_by_shell 7 demo_boot)).
Definition demo_slot (r : role) : nat := match r with Producer => 0 | Consumer1 => 2 | Consumer2 => 3 end.
Definition demo_run (rounds : Z) (l : list (Z * (role -> bool))) : outcome system :=
  foldl (fun o p => try! s := o in run_for 1 5 0 rounds demo_slot (Z.to_nat (fst p)) (snd p) s) (Ok (start_system demo_start)) l.
Definition everybody (r : role) : bool := true.
Definition without_consumer1 (r : role) : bool := bool_decide (r <> Consumer1).

Lemma demo_reachable rounds l s : demo_run rounds l = Ok s -> sys_reachable 1 5 0 rounds demo_slot demo_start s.
Proof.
  revert s. induction l as [|p l IH] using rev_ind; intros s; unfold demo_run.
  - intros [= <-]. apply sys_start.
  - rewrite foldl_app. cbn [foldl]. change (foldl _ _ l) with (demo_run rounds l). destruct (demo_run rounds l) as [s0|]; [|done].
    cbn [obind]. apply run_reachable. by apply IH.
Qed.
(** A state of a run, by a test of it. *)
Lemma demo_state rounds l (P : system -> bool) :
  match demo_run rounds l with Ok s => P s | Fault _ => false end = true ->
  exists s, sys_reachable 1 5 0 rounds demo_slot demo_start s /\ P s = true.
Proof. destruct (demo_run rounds l) as [s|] eqn:E; [|done]. intros HP. exists s. split; [by eapply demo_reachable|done]. Qed.
#[export] Instance inside_dec slot s r : Decision (inside slot s r).
Proof. unfold inside. apply _. Defined.

(** The mutex is also released by the exit of the producer, in whose lock table it
    still is, while a consumer holds it: then both consumers are in their critical
    sections, and one of the two products they take is not subtracted.  (The
    producer is the one of the code, with one round instead of 50.) *)
Theorem producer_exit_breaks_exclusion : exists s1 s2,
  sys_reachable 1 5 0 1 demo_slot demo_start s1 /\ inside demo_slot s1 Consumer1 /\ inside demo_slot s1 Consumer2
  /\ sys_reachable 1 5 0 1 demo_slot demo_start s2
  /\ (num_staff s2, stored Producer (users s2 Producer), stored Consumer1 (users s2 Consumer1), stored Consumer2 (users s2 Consumer2)) = (2, 3, 1, 1).
Proof.
  destruct (demo_state 1 [(14, everybody); (1008, without_consumer1)] (fun s => bool_decide (inside demo_slot s Consumer1 /\ inside demo_slot s Consumer2)))
    as (s1 & R1 & [I1 I2]%bool_decide_eq_true); [vm_compute; reflexivity|].
  destruct (demo_state 1 [(14, everybody); (1013, without_consumer1); (4, everybody)]
      (fun s => bool_decide ((num_staff s, stored Producer (users s Producer), stored Consumer1 (users s Consumer1), stored Consumer2 (users s Consumer2)) = (2, 3, 1, 1))))
    as (s2 & R2 & E2%bool_decide_eq_true); [vm_compute; reflexivity|].
  exists s1, s2. auto.
Qed.

Lemma spawn_reachable entry k :
  reachable 1 2 k -> entry <> 0 ->
  bool_decide (current_running k = Some 1%nat /\ suspended k !!! 1%nat = R_return /\ PID k + 1 < 2 ^ 31) = true ->
  match exec 1 (C_spawn (mk_task_info entry USER_PROCESS)) k with Ok _ => true | Fault _ => false end = true -> reachable 1 2 (spawned_by_shell entry k).
Proof.
  intros R He (Hc & Hr & Hp)%bool_decide_eq_true E. apply (reach_step _ _ k); [done|]. apply (step_call 1 k 1 (C_spawn (mk_task_info entry USER_PROCESS))); try done.
  unfold spawned_by_shell. destruct (exec _ _ k) as [[[] k']|]; done.
Qed.
Lemma demo_start_reachable : reachable 1 2 demo_start.
Proof.
  refine (spawn_reachable 9 (spawned_by_shell 8 (spawned_by_shell 7 demo_boot)) _ _ _ _); [|discriminate|vm_compute; reflexivity..].
  refine (spawn_reachable 8 (spawned_by_shell 7 demo_boot) _ _ _ _); [|discriminate|vm_compute; reflexivity..].
  refine (spawn_reachable 7 demo_boot demo_boot_reachable _ _ _); [discriminate|vm_compute; reflexivity..].
Qed.

Lemma stock_correct_witness : exists s, sys_reachable 1 5 0 50 demo_slot demo_start s /\ num_staff s = 3 /\ 0 <= num_staff s <= 150
  /\ lines Producer (out s) = counting (delta Producer) (printed Producer (users s Producer)).
Proof.
  destruct (demo_state 50 [(8, everybody)] (fun s => (num_staff s =? 3) && (pc (users s Producer) <? 12)%nat)) as (s & R & T); [vm_compute; reflexivity|].
  exists s. apply andb_true_iff in T as [T1 T2]. split; [exact R|]. split; [by apply Z.eqb_eq|].
  destruct (stock_correct 1 5 0 demo_slot demo_start s) as (_ & _ & Hn & _ & Hl).
  - by intros [] [].
  - apply (reachable_full 1 2); [lia|exact demo_start_reachable].
  - intros r. split; [destruct r; vm_compute; discriminate|destruct r; vm_compute; reflexivity].
  - vm_compute. reflexivity.
  - exact R.
  - unfold alive. cbn. lia.
  - split; [exact Hn|exact (Hl Producer)].
Defined.
